(* ===== verification/_CoqProject ===== *)
-Q . S2P
Prelude.v
Scan.v
Strconv.v
Method.v
Cursor.v
StartLine.v
Framing.v
Chunked.v
Message.v
ChunkedBody.v
MessageRoundtrip.v
Parser.v
FastPath.v
FastPathMore.v
SplitPath.v
Execute.v
FastSpec.v
Invariant.v
ExecuteSpec.v
Streaming.v
Divergence.v
ResponseStream.v
Request.v
RequestSpec.v
Reader.v
ReaderSpec.v
Bufio.v
Adaptor.v
AdaptorFaults.v
ReadEvents.v
AdaptorSpec.v
AdaptorRoundtrip.v
AdaptorStream.v
AdaptorLimits.v
Engine.v
EngineSpec.v
EngineLive.v
EngineContext.v
EnginePool.v
Server.v
Examples.v
ExamplesEcho.v
AppContext.v
AdaptorConn.v
Serve.v
ServeEnds.v
ServeClose.v
ServeLate.v
ServeChunked.v
ServeHead.v
ServePark.v
ServeHijack.v
ServeSteps.v
Tcplisten.v
TcplistenSpec.v
ServerRun.v
