(* ===== verification/Prelude.v ===== *)
(** * http-over-polling: a verification library

    http-over-polling runs [net/http] handlers on an event loop.  A connection's
    bytes go through the parser (src/internal/parser), the handler's calls go
    through the response writer (src/adaptor), and the engine and the server
    (src/engine, src/server) drive both from the events of the poller.  This
    library models these parts in Rocq, operation by operation, and proves what
    they do.

    ** The program and the files that model it

    Foundations.
    - [Prelude]: bytes, machine integers with their wrap-around, Go results
      (a value or a panic), slices with their bounds checks, shared automation.
    - [Scan] (scan.go, unhex.go), [Method] (method.go, matchMethod),
      [Strconv] (strconv, which the response writer uses), [Cursor] (cursor.go).
    - [StartLine] (startline.go, headers.go): request lines, status lines,
      header lines.
    - [Framing] (framing.go; applyHeaderMeta and headerSemanticError of
      engine.go): which body a header block announces.
    - [Chunked] (chunked.go): chunk size lines and chunk data.

    The parser object, internal/parser/parser.go and engine.go.
    - [Message]: parseMessageDetailed, which parses a whole buffer, the grammar
      it is compared with, and printed messages; [MessageRoundtrip].
    - [Parser]: the fields of Parser, New, Init, Reset, and a monad whose state
      is the parser and the trace of callbacks; a callback is an event of the
      trace, with the arguments it is called with.
    - [FastPath], [FastPathMore]: the paths for a message in one buffer
      (tryFastRequest, tryFastResponse, tryFastChunkedRequest).
    - [SplitPath]: the paths for a message in several buffers, with the
      4096-byte scratch buffer for an unfinished line.
    - [Execute]: executeClean, the order of the paths, and the slow path.
    - [FastSpec], [Invariant], [ExecuteSpec], [Streaming], [Divergence],
      [ResponseStream]: the theorems about them.

    The request reader, internal/parser/request.go.
    - [Request]: ReadRequest over a model of bufio.Reader; the header map holds
      Go slices over a heap, because the first values share one array.
    - [RequestSpec]: its theorems.
    - [Reader], [ReaderSpec]: io.Reader as a class with a law, the buffered reader
      itself over a connection that delivers pieces, and the connection that
      Hijack hands out; they justify the simpler reader of [Request].

    The response writer, adaptor/adaptor.go.
    - [Bufio]: bufio.Writer over a connection that may fail at any write.
    - [Adaptor]: ResponseWriter and all its operations that write.
    - [AdaptorFaults], [AdaptorSpec], [AdaptorRoundtrip], [AdaptorStream],
      [AdaptorLimits]: the theorems.

    The engine, engine/engine.go and appcontext/appcontext.go.
    - [Engine]: ConnectionState and the pools as shared memory; ServeConn and
      serveHTTP as a program counter per goroutine, one step per atomic operation
      of the code or call of its own helpers; a schedule is a list of events.
      [EngineSpec], [EngineLive]: its theorems, without a condition on the schedule
      or under policies that say when the event loop calls ([orderly]: no call
      begins after the disconnect callback has, and the callback does not release
      the state while a call has not yet taken its reference; [serial]: besides, one
      call at a time; [dying]: after the disconnect).  The policies are assumptions
      on the poller, which does not document them; C14 and C40 show what happens
      without.  [EnginePool]: many connections, shared pools.
    - [EngineContext]: ConnectionState as a context.Context, and the contexts of
      requests under a request timeout: a clock, timers, and the goroutine that
      context.WithTimeout starts for a parent of the program's own, interleaved
      with the steps of [Engine].
    - [ReadEvents]: ServeConn for a connection with a read handler, on the models
      of the buffered reader and writer; a read handler reads by a program of
      io.ReadFull calls.
    - [AppContext]: the pooled request context; [AdaptorConn]: the operations of
      the adaptor that go through it, CloseNotify with its goroutine.
    - [Serve]: handleRequest and the request loop of one goroutine on the models
      of ReadRequest and of the response writer; [ServeEnds], [ServeClose]: how it
      ends; [ServeLate]: bodies that arrive after the deadline of the drain;
      [ServeChunked]: chunked bodies, on the model of httputil's chunked reader in
      [ChunkedBody]; [ServeHead]: responses that must not have a body; [ServePark]:
      the buffers between events; [ServeHijack]: handleRequest and the loop for
      every handler, those that take over the connection included, of which the
      functions of [Serve] are the case of the others; [ServeSteps]: the loop is a
      run of the goroutine of [Engine].

    The server and the listener, server/server.go and internal/tcplisten.
    - [Server]: options, NewServer, the callbacks OnPrepare and OnDisconnect and
      the connection counter, with its theorems.
    - [Tcplisten], [TcplistenSpec]: the listener over a system in which any call
      may fail; what differs between systems is a class, what it promises another.
    - [ServerRun]: Serve and Shutdown.
    - [Examples] (examples/main.go): the server of the examples, its pages, its
      event stream and its WebSocket echo over a class of codecs with laws;
      [ExamplesEcho]: the echoes over wsutil and gorilla, which are classes too.

    ** What the theorems show

    - Grammar and round trips: parseMessageDetailed accepts exactly the texts of
      a grammar (C1); printed requests are parsed back (C31; lines, sizes and
      numbers likewise); the framing of a header block (applyHeaders_framing);
      each leaf parser is characterised in its file.
    - Equivalence: the allocation-free analysis gives the message or the header
      error that the reference parser gives, and no message where that one gives
      none (C2); where a head of up to 4096 bytes is cut does not matter to a parser
      without callbacks, unless inside a line end (C8); the shared header array
      behaves like separate lists (C30).
    - Behaviour of Execute: the callbacks of a request in one buffer (C3), of a
      response without a body in many, the first with the status line (C9), the
      delivery of a body in many (C29),
      the types of the parser's fields under any input (C11).
    - ReadRequest: the whole request (C10), however it arrives (C7).
    - The response writer, for handlers that leave the framing headers alone and do
      not mix WriteString or ReadFrom with a held Write ([headers_ok], [phases]):
      what a handler writes is what the program's own parser reads (C4); a flush
      delivers (C13).  For every handler: on a failing connection a prefix is
      delivered and nothing panics (C12); taking the connection over (C25,
      Hijack_takes_over).
    - End to end: pipelined requests without chunked bodies, with handlers as above,
      are handled once each, in order, and answered by exactly their responses (C5);
      the loop comes to an end on every input with every handler (C19,
      serveHTTP_plain, upgrade_exact), answers for handlers that panic (C22), stops
      at bad input (C23) and after the last request of a connection (C24); its
      buffers can be given back between events without a loss (C21); it is a run of
      the goroutine that the concurrency theorems are about (C6).  The WebSocket
      echoes of the examples answer unfragmented frames in order (C26,
      high_echo_in_order, gorillaStd_echoes), its event stream delivers every event
      at once (sse_delivers).
    - Concurrency: the count of the connection state is exact until it is pooled,
      and it is pooled once if the poller is [orderly] and twice by a call that
      comes too late (C14).  With one call at a time and an orderly poller buffers
      are never used and pooled at once (C15), nor shared by connections (C16); with
      an orderly poller, and handlers that return, every call ends after the
      disconnect (C17), and timeouts and disconnects reach the contexts of requests,
      and only they and the end of the handler do (C18).  The connection limit holds
      in every interleaving, and the counter is exact while read timeouts can be
      set (C20).
    - The listener: descriptors are not lost (C27); the calls it makes, with the
      backlog of the system (C28).
    - Where the code does not do what it means to: C32 to C40 state the inputs
      or the schedules and the outcome, and so do cut_inside_crlf_refused,
      chunk_boundary_refused, body_taken_as_request, second_response_unannounced,
      short_head_unsanitized, maxAckBacklog_release, drain_size_overflow,
      Serve_listener_left_open and connection_count_drifts.

    ** Modelling choices

    - A Go function that can panic returns [res]; a slice or index out of range
      is [Crash SliceBounds], a nil dereference [Crash NilDeref].
    - [int32], [uint16] and [uint8] arithmetic wraps explicitly, and so does [int64]
      where a setting or a version number can reach its end; [int] holds every
      length and is unbounded.
    - Loops that are not structural carry fuel: the length of the buffer plus one
      (each turn of such a loop consumes a byte), plus two for bufio writes (one
      more turn to flush a full buffer), and a turn per request for the request
      loop.  [Crash OutOfFuel] marks exhaustion; the theorems give results, so it
      does not happen.
    - Code that is not in the repository is an argument: url.ParseRequestURI, the
      growth of append, http.DetectContentType, the clock of the Date header, a
      connection's own ReadFrom, what httputil's chunked reader takes from a stream
      (with a law that its model in [ChunkedBody] has), GOMAXPROCS, the resolver and the system calls of the listener,
      netpoll's answers and when it calls ServeConn, the WebSocket packages.  bufio,
      strconv, http.Header.Write, http.StatusText and context.WithTimeout are
      modelled from the standard library's behaviour; a bufio.Writer is over a
      connection without a WriteString of its own.
    - A handler is what it does: in [Serve] the headers it sets, how much of the body
      it reads, its calls on the response writer, and whether it panics; in
      [ServeHijack] also changes of headers and trailers between calls, taking over
      the connection and using it, and setting a read handler.
    - In [Engine] three stretches of ServeConn are one step each: taking buffers from
      the pools, giving them back, and handling a request.  The last is always
      enabled, so that a handler is one that returns.
    - MaxHeaderSize, a package variable that a program may change before it parses,
      has its initial value.
    - Callbacks do not change the parser; user data is not modelled.

    ** Not modelled

    The deadlines on a connection, which netpoll enforces: the models say what has
    arrived when one passes.  Logging, user data of the parser, and the accessors
    that return a field without a user in the model.  Of src/examples: the upgrade handshakes, which the WebSocket
    packages do, the net/http server and pprof.  The clock behind the Date header is
    an argument.  The js/wasm listener passes its call on.

    For responses in several buffers the theorems are about those without a body: a
    response with a body is declined by the streaming path at the end of its
    headers, after it has made its callbacks, and starts again on another path.
*)

From stdpp Require Export base list gmap countable numbers.
From Stdlib Require Export ZArith Lia.
From Stdlib Require Export Strings.Byte.
From Stdlib Require Strings.String.
Export String.StringSyntax.
Delimit Scope string_scope with string.

#[global] Open Scope Z_scope.

(** ** Bytes *)

(** A Go [byte] is [Init.Byte.byte]; a Go [[]byte] and a Go [string] (an
    immutable byte sequence) are lists of bytes. *)
Abbreviation bytes := (list byte).

#[global] Instance byte_eq_dec : EqDecision byte := Byte.byte_eq_dec.

#[global] Program Instance byte_countable : Countable byte :=
  inj_countable Byte.to_N Byte.of_N _.
Next Obligation. intros b; apply Byte.of_to_N. Qed.

(** A string literal of the source as bytes. *)
Definition bs (s : String.string) : bytes := String.list_byte_of_string s.
Arguments bs _%_string_scope.

Definition CR : byte := x0d.
Definition LF : byte := x0a.
Definition SP : byte := x20.
Definition HT : byte := x09.
Definition CRLF : bytes := [CR; LF].

(** The numeric value of a byte (Go's conversion [int32(c)]). *)
Definition b2z (b : byte) : Z := Z.of_N (Byte.to_N b).

(** Conversion of an integer to a byte, modulo 256. *)
Definition z2b (z : Z) : byte := default x00 (Byte.of_N (Z.to_N (z mod 256))).

(** ** Machine integers *)

(** [int32] arithmetic: the exact result reduced to [-2^31, 2^31). *)
Definition wrap32 (z : Z) : Z := (z + 2 ^ 31) mod 2 ^ 32 - 2 ^ 31.
(** [int64] and [int] arithmetic. *)
Definition wrap64 (z : Z) : Z := (z + 2 ^ 63) mod 2 ^ 64 - 2 ^ 63.
(** [uint16] conversion. *)
Definition wrapu16 (z : Z) : Z := z mod 2 ^ 16.
(** [uint8] arithmetic. *)
Definition wrapu8 (z : Z) : Z := z mod 2 ^ 8.

Definition int32_range (z : Z) : Prop := -2 ^ 31 <= z < 2 ^ 31.

(** Go's [len]; an [int] holds every length a slice can have. *)
Definition blen {A} (l : list A) : Z := Z.of_nat (length l).

(** ** Results: a Go function returns or panics *)

(** [OutOfFuel] marks a bounded loop of the model that ran out of its bound;
    the components prove it never happens. *)
Inductive fault : Type := SliceBounds | NilDeref | OutOfFuel.

Inductive res (A : Type) : Type :=
| Ok (a : A)
| Crash (f : fault).
Arguments Ok {A} _.
Arguments Crash {A} _.

#[global] Instance res_ret : MRet res := @Ok.
#[global] Instance res_bind : MBind res := fun A B f m =>
  match m with Ok a => f a | Crash e => Crash e end.

(** [b[lo:hi]] of a slice whose length is its capacity: panics outside
    [0 <= lo <= hi <= len b]. *)
Definition gslice {A} (b : list A) (lo hi : Z) : res (list A) :=
  if (0 <=? lo) && (lo <=? hi) && (hi <=? blen b)
  then Ok (take (Z.to_nat (hi - lo)) (drop (Z.to_nat lo) b))
  else Crash SliceBounds.

(** [b[lo:]]. *)
Definition gslice_from {A} (b : list A) (lo : Z) : res (list A) :=
  gslice b lo (blen b).

(** [b[i]]. *)
Definition gindex {A} (b : list A) (i : Z) : res A :=
  if (0 <=? i) && (i <? blen b)
  then match b !! Z.to_nat i with Some x => Ok x | None => Crash SliceBounds end
  else Crash SliceBounds.

(** [bytes.HasPrefix]. *)
Fixpoint hasPrefix (b p : bytes) : bool :=
  match p, b with
  | [], _ => true
  | y :: p', x :: b' => Byte.eqb x y && hasPrefix b' p'
  | _ :: _, [] => false
  end.

(** ** Automation *)

Create HintDb hop discriminated.
Create Rewrite HintDb hop.
Create Rewrite HintDb blen.

(** Case analysis on the tests of a definition that has been unfolded. *)
Ltac case_ifs :=
  repeat match goal with
         | |- context [if ?b then _ else _] => destruct b eqn:?
         | H : context [if ?b then _ else _] |- _ => destruct b eqn:?
         end.

(** Inverts a successful bind, once or repeatedly. *)
Lemma res_bind_Ok {A B} (m : res A) (f : A -> res B) v :
  m ≫= f = Ok v -> exists a, m = Ok a /\ f a = Ok v.
Proof. destruct m; [eauto | discriminate]. Qed.

Ltac inv_bind :=
  repeat match goal with
         | H : (_ ≫= _) = Ok _ |- _ =>
             let a := fresh "a" in let Ha := fresh "Ha" in
             apply res_bind_Ok in H as (a & Ha & H)
         end.

(** The numeric values of byte literals. *)
Ltac byte_consts :=
  repeat match goal with
         | |- context [b2z ?c] =>
             is_constructor c; let v := eval vm_compute in (b2z c) in change (b2z c) with v
         | H : context [b2z ?c] |- _ =>
             is_constructor c; let v := eval vm_compute in (b2z c) in change (b2z c) with v in H
         end.

(** Boolean tests to propositions, then arithmetic. *)
Ltac blia :=
  byte_consts;
  rewrite ?andb_true_iff, ?andb_false_iff, ?orb_true_iff, ?orb_false_iff,
    ?negb_true_iff, ?negb_false_iff, ?Z.leb_le, ?Z.leb_gt, ?Z.ltb_lt, ?Z.ltb_ge,
    ?Z.eqb_eq, ?Z.eqb_neq in *; unfold blen in *; lia.

(** ** Lemmas on bytes *)

Lemma byte_eqb_eq (a b : byte) : Byte.eqb a b = true <-> a = b.
Proof. split; [apply Byte.byte_dec_bl | apply Byte.byte_dec_lb]. Qed.

Lemma byte_eqb_refl (a : byte) : Byte.eqb a a = true.
Proof. now apply byte_eqb_eq. Qed.

Lemma byte_eqb_neq (a b : byte) : Byte.eqb a b = false <-> a <> b.
Proof. rewrite <- byte_eqb_eq. destruct (Byte.eqb a b); intuition congruence. Qed.

Lemma b2z_range b : 0 <= b2z b < 256.
Proof. destruct b; vm_compute; intuition congruence. Qed.

Lemma b2z_inj a b : b2z a = b2z b -> a = b.
Proof.
  unfold b2z. intros H%N2Z.inj.
  pose proof (Byte.of_to_N a). pose proof (Byte.of_to_N b). congruence.
Qed.

Lemma z2b_b2z b : z2b (b2z b) = b.
Proof. destruct b; reflexivity. Qed.

Lemma b2z_z2b z : b2z (z2b z) = z mod 256.
Proof.
  unfold z2b, b2z. pose proof (Z.mod_pos_bound z 256 eq_refl).
  destruct (Byte.of_N (Z.to_N (z mod 256))) as [b|] eqn:E; cbn.
  - apply Byte.to_of_N in E. rewrite E. lia.
  - apply Byte.of_N_None_iff in E. lia.
Qed.

#[export] Hint Rewrite byte_eqb_eq byte_eqb_neq : hop.
#[export] Hint Resolve b2z_range byte_eqb_refl : hop.

(** A property of every byte, decided by enumeration. *)
Definition all_bytes : list byte :=
  omap (fun n => Byte.of_N (N.of_nat n)) (seq 0 256).

Lemma all_bytes_spec b : In b all_bytes.
Proof. destruct b; vm_compute; tauto. Qed.

Lemma forall_bytes (P : byte -> bool) :
  forallb P all_bytes = true -> forall b, P b = true.
Proof. intros H b. rewrite forallb_forall in H. apply H, all_bytes_spec. Qed.

(** ** Lemmas on machine integers *)

Lemma wrap32_small z : int32_range z -> wrap32 z = z.
Proof. unfold int32_range, wrap32. intros. rewrite Z.mod_small; lia. Qed.

Lemma wrap64_small z : 0 <= z < 2 ^ 63 -> wrap64 z = z.
Proof. intros H. unfold wrap64. rewrite Z.mod_small; lia. Qed.

Lemma wrap32_range z : int32_range (wrap32 z).
Proof.
  unfold int32_range, wrap32.
  pose proof (Z.mod_pos_bound (z + 2 ^ 31) (2 ^ 32) eq_refl). lia.
Qed.

Lemma wrap32_mod z : exists k, wrap32 z = z + k * 2 ^ 32.
Proof.
  exists (- ((z + 2 ^ 31) / 2 ^ 32)). unfold wrap32.
  pose proof (Z.div_mod (z + 2 ^ 31) (2 ^ 32) ltac:(lia)). lia.
Qed.

Lemma wrap32_cong a k : wrap32 (a + k * 2 ^ 32) = wrap32 a.
Proof.
  unfold wrap32. replace (a + k * 2 ^ 32 + 2 ^ 31) with (a + 2 ^ 31 + k * 2 ^ 32) by lia.
  rewrite Z.mod_add; lia.
Qed.

(** Reducing an intermediate value of a Horner step changes nothing. *)
Lemma wrap32_horner b a d : wrap32 (wrap32 a * b + d) = wrap32 (a * b + d).
Proof.
  destruct (wrap32_mod a) as [k ->].
  replace ((a + k * 2 ^ 32) * b + d) with (a * b + d + (k * b) * 2 ^ 32) by lia.
  apply wrap32_cong.
Qed.

Lemma wrap32_idem a : wrap32 (wrap32 a) = wrap32 a.
Proof. apply wrap32_small, wrap32_range. Qed.

#[export] Hint Resolve wrap32_range : hop.

(** ** Lemmas on lengths and slices *)

Lemma blen_nonneg {A} (l : list A) : 0 <= blen l.
Proof. unfold blen; lia. Qed.

Lemma blen_app {A} (l r : list A) : blen (l ++ r) = blen l + blen r.
Proof. unfold blen; rewrite length_app; lia. Qed.

Lemma blen_cons {A} (x : A) (l : list A) : blen (x :: l) = 1 + blen l.
Proof. unfold blen; cbn [length]; lia. Qed.

Lemma blen_nil {A} : blen (@nil A) = 0.
Proof. reflexivity. Qed.

Lemma blen_zero {A} (l : list A) : blen l = 0 <-> l = [].
Proof. unfold blen. rewrite <- length_zero_iff_nil. lia. Qed.

Lemma to_nat_blen {A} (l : list A) : Z.to_nat (blen l) = length l.
Proof. unfold blen; lia. Qed.

#[export] Hint Resolve blen_nonneg : hop.
#[export] Hint Rewrite @blen_app @blen_cons @blen_nil : blen.

(** Arithmetic on lengths of concatenations. *)
Ltac blens :=
  autorewrite with blen in *;
  repeat match goal with
         | |- context [blen ?l] => lazymatch goal with
             | _ : 0 <= blen l |- _ => fail | _ => pose proof (blen_nonneg l) end
         | _ : context [blen ?l] |- _ => lazymatch goal with
             | _ : 0 <= blen l |- _ => fail | _ => pose proof (blen_nonneg l) end
         end; lia.

Lemma gslice_ok {A} (b : list A) lo hi :
  0 <= lo <= hi -> hi <= blen b ->
  gslice b lo hi = Ok (take (Z.to_nat (hi - lo)) (drop (Z.to_nat lo) b)).
Proof. intros ? ?. unfold gslice. destruct (_ && _) eqn:E; [done | blia]. Qed.

(** The slice between two prefixes of a concatenation. *)
Lemma gslice_app {A} (l m r : list A) lo hi :
  lo = blen l -> hi = blen l + blen m -> gslice (l ++ m ++ r) lo hi = Ok m.
Proof.
  intros -> ->. rewrite gslice_ok; rewrite ?blen_app; try (pose proof (blen_nonneg l);
    pose proof (blen_nonneg m); pose proof (blen_nonneg r); lia).
  rewrite to_nat_blen, drop_app_length.
  replace (blen l + blen m - blen l) with (blen m) by lia.
  by rewrite to_nat_blen, take_app_length.
Qed.

Lemma gslice_prefix {A} (l r : list A) hi : hi = blen l -> gslice (l ++ r) 0 hi = Ok l.
Proof. intros ->. exact (gslice_app [] l r 0 (blen l) eq_refl eq_refl). Qed.

Lemma gslice_suffix {A} (l r : list A) lo : lo = blen l -> gslice_from (l ++ r) lo = Ok r.
Proof.
  intros ->. unfold gslice_from. rewrite <- (app_nil_r r) at 1.
  apply gslice_app; rewrite ?blen_app; reflexivity.
Qed.

Lemma gindex_app {A} (l r : list A) x i : i = blen l -> gindex (l ++ x :: r) i = Ok x.
Proof.
  intros ->. unfold gindex. rewrite blen_app, blen_cons.
  destruct (_ && _) eqn:E.
  - rewrite to_nat_blen. rewrite list_lookup_middle; done.
  - pose proof (blen_nonneg l); pose proof (blen_nonneg r); blia.
Qed.

Lemma hasPrefix_spec b p : hasPrefix b p = true <-> exists r, b = p ++ r.
Proof.
  revert b. induction p as [|y p IH]; intros [|x b]; cbn.
  - split; eauto.
  - split; eauto.
  - split; [discriminate | intros [r [=]]].
  - rewrite andb_true_iff, byte_eqb_eq, IH. split.
    + intros [-> [r ->]]. eauto.
    + intros [r [= -> ->]]. eauto.
Qed.
