(* ===== verification/Scan.v ===== *)
(** * Byte scanning (internal/parser/scan.go, unhex.go, and scanCRLFBytes of
    engine.go)

    The leaf functions of the parser: searching a byte, skipping blanks,
    finding a line end, reading decimal and hexadecimal numbers into an [int32]
    (with Go's wrap-around), comparing a token without regard to ASCII case.
    A Go pair [(v, ok)] is an [option]. *)

From S2P Require Import Prelude.

(** ** Definitions *)

Definition is_blank (c : byte) : bool := Byte.eqb c SP || Byte.eqb c HT.

Fixpoint skipSpaces (b : bytes) : Z :=
  match b with
  | [] => 0
  | c :: b' => if is_blank c then 1 + skipSpaces b' else 0
  end.

Fixpoint scanToByte_at (b : bytes) (target : byte) (i : Z) : option Z :=
  match b with
  | [] => None
  | c :: b' => if Byte.eqb c target then Some i else scanToByte_at b' target (i + 1)
  end.

Definition scanToByte (b : bytes) (target : byte) : option Z := scanToByte_at b target 0.

Fixpoint scanCRLF_at (b : bytes) (i : Z) : option Z :=
  match b with
  | c :: ((d :: _) as b') =>
      if Byte.eqb c CR && Byte.eqb d LF then Some i else scanCRLF_at b' (i + 1)
  | _ => None
  end.

Definition scanCRLFBytes (b : bytes) : option Z := scanCRLF_at b 0.

Definition is_digit (c : byte) : bool := (b2z "0"%byte <=? b2z c) && (b2z c <=? b2z "9"%byte).

Definition parseHTTPVersionDigits (b : bytes) : option (Z * Z) :=
  match b with
  | b0 :: b1 :: b2 :: _ =>
      if negb (Byte.eqb b1 "."%byte) then None
      else if negb (is_digit b0) || negb (is_digit b2) then None
      else Some (wrapu8 (b2z b0 - b2z "0"%byte), wrapu8 (b2z b2 - b2z "0"%byte))
  | _ => None
  end.

Definition responseStatusHasNoBody (status : Z) : bool :=
  if (100 <=? status) && (status <? 200) then true
  else (status =? 204) || (status =? 304).

Fixpoint parseDecimalInt32_loop (b : bytes) (n : Z) : option Z :=
  match b with
  | [] => Some n
  | c :: b' =>
      if negb (is_digit c) then None
      else parseDecimalInt32_loop b' (wrap32 (wrap32 (n * 10) + b2z (z2b (b2z c - b2z "0"%byte))))
  end.

Definition parseDecimalInt32 (b : bytes) : option Z :=
  match b with [] => None | _ => parseDecimalInt32_loop b 0 end.

(** The ASCII case folding of [equalFoldToken]'s loop body. *)
Definition lower (c : byte) : byte :=
  if (b2z "A"%byte <=? b2z c) && (b2z c <=? b2z "Z"%byte)
  then z2b (b2z c + (b2z "a"%byte - b2z "A"%byte)) else c.

Fixpoint equalFold_loop (b s : bytes) : bool :=
  match b, s with
  | c :: b', d :: s' => if negb (Byte.eqb (lower c) d) then false else equalFold_loop b' s'
  | _, _ => true
  end.

Definition equalFoldToken (b s : bytes) : bool :=
  if negb (blen b =? blen s) then false else equalFold_loop b s.

(** One loop of [initUnhex]: [for ch := lo; ch <= hi; ch++ { table[ch] =
    int8(ch-lo) + base }]. *)
Definition fill_range (lo hi : byte) (base : Z) (table : list Z) : list Z :=
  fold_left (fun t k => <[(Z.to_nat (b2z lo) + k)%nat := Z.of_nat k + base]> t)
    (seq 0 (S (Z.to_nat (b2z hi - b2z lo)))) table.

Definition initUnhex : list Z :=
  fill_range "A"%byte "F"%byte 10
    (fill_range "a"%byte "f"%byte 10
      (fill_range "0"%byte "9"%byte 0 (replicate 256 (-1)))).

(** [unhex[ch]]; the table has an entry for every byte. *)
Definition unhex (ch : byte) : Z := default (-1) (initUnhex !! Z.to_nat (b2z ch)).

(** ** Searching a byte *)

Lemma scanToByte_at_shift b t i :
  scanToByte_at b t i = option_map (Z.add i) (scanToByte_at b t 0).
Proof.
  revert i. induction b as [|c b IH]; intros i; [done|]. cbn [scanToByte_at].
  destruct (Byte.eqb c t); cbn [option_map]; [f_equal; lia|].
  rewrite (IH (i + 1)), (IH (0 + 1)). destruct (scanToByte_at b t 0); cbn; f_equal; lia.
Qed.

Lemma scanToByte_cons c b t :
  scanToByte (c :: b) t =
  if Byte.eqb c t then Some 0 else option_map Z.succ (scanToByte b t).
Proof.
  unfold scanToByte; cbn. destruct (Byte.eqb c t); [done|].
  rewrite scanToByte_at_shift. destruct (scanToByte_at b t 0); cbn; f_equal; lia.
Qed.

(** [scanToByte] succeeds exactly at the first occurrence. *)
Lemma scanToByte_Some b t i :
  scanToByte b t = Some i <->
  exists l r, b = l ++ t :: r /\ (t ∉ l) /\ i = blen l.
Proof.
  revert i. induction b as [|c b IH]; intros i.
  - split; [discriminate|]. intros (l & r & H & _). by destruct l.
  - rewrite scanToByte_cons. destruct (Byte.eqb c t) eqn:E.
    + apply byte_eqb_eq in E as ->. split.
      * intros [= <-]. exists [], b. repeat split. apply not_elem_of_nil.
      * intros ([|x l] & r & Hb & Hn & ->); [done|]. injection Hb as <- Hb. destruct Hn. constructor.
    + apply byte_eqb_neq in E. split.
      * destruct (scanToByte b t) as [j|] eqn:Ej; [|discriminate].
        intros [= <-]. destruct (proj1 (IH j) eq_refl) as (l & r & -> & Hn & ->).
        exists (c :: l), r. rewrite blen_cons. repeat split; [by rewrite not_elem_of_cons | lia].
      * intros ([|x l] & r & Hb & Hn & ->); injection Hb as -> ->; [done|].
        apply not_elem_of_cons in Hn as [_ Hn].
        destruct (IH (blen l)) as [_ ->]; [|by exists l, r].
        rewrite blen_cons. cbn. f_equal; lia.
Qed.

Lemma scanToByte_None b t : scanToByte b t = None <-> t ∉ b.
Proof.
  induction b as [|c b IH]; [split; [intros _; apply not_elem_of_nil | done]|].
  rewrite scanToByte_cons, not_elem_of_cons, <- IH. clear IH. destruct (Byte.eqb c t) eqn:E.
  - apply byte_eqb_eq in E as ->. split; [discriminate | intros [[] _]; reflexivity].
  - apply byte_eqb_neq in E. destruct (scanToByte b t); cbn; intuition congruence.
Qed.

Lemma scanToByte_app l r t : t ∉ l -> scanToByte (l ++ t :: r) t = Some (blen l).
Proof. intros H. apply scanToByte_Some. eauto. Qed.

Lemma scanToByte_nonneg b t i : scanToByte b t = Some i -> 0 <= i.
Proof. intros (l & r & _ & _ & ->)%scanToByte_Some. apply blen_nonneg. Qed.

(** ** Skipping blanks *)

(** [skipSpaces] is the length of the longest blank prefix. *)
Lemma skipSpaces_spec b :
  exists l r, b = l ++ r /\ skipSpaces b = blen l /\
    Forall (fun c => is_blank c = true) l /\
    match r with [] => True | c :: _ => is_blank c = false end.
Proof.
  induction b as [|c b (l & r & -> & E & Hl & Hr)]; cbn.
  - exists [], []. repeat split; constructor.
  - destruct (is_blank c) eqn:Hc.
    + exists (c :: l), r. rewrite blen_cons, E. repeat split; [by constructor | done].
    + exists [], (c :: l ++ r). repeat split; [constructor | done].
Qed.

Lemma skipSpaces_app l r :
  Forall (fun c => is_blank c = true) l ->
  match r with [] => True | c :: _ => is_blank c = false end ->
  skipSpaces (l ++ r) = blen l.
Proof.
  intros Hl Hr. induction Hl as [|c l Hc Hl IH]; cbn.
  - destruct r as [|c r]; cbn; [done | by rewrite Hr].
  - by rewrite Hc, IH, blen_cons.
Qed.

Lemma skipSpaces_bounds b : 0 <= skipSpaces b <= blen b.
Proof.
  destruct (skipSpaces_spec b) as (l & r & -> & -> & _). rewrite blen_app.
  pose proof (blen_nonneg l); pose proof (blen_nonneg r); lia.
Qed.

(** ** Line ends *)

(** No CR LF pair inside [l]. *)
Definition crlf_free (l : bytes) : Prop := forall x y, l <> x ++ CR :: LF :: y.

Lemma scanCRLF_at_cons c d b i :
  scanCRLF_at (c :: d :: b) i =
  if Byte.eqb c CR && Byte.eqb d LF then Some i else scanCRLF_at (d :: b) (i + 1).
Proof. done. Qed.

Lemma scanCRLF_at_shift b i :
  scanCRLF_at b i = option_map (Z.add i) (scanCRLF_at b 0).
Proof.
  revert i. induction b as [|c [|d b] IH]; intros i; [done..|].
  rewrite !scanCRLF_at_cons. destruct (_ && _); cbn [option_map]; [f_equal; lia|].
  rewrite (IH (i + 1)), (IH (0 + 1)). destruct (scanCRLF_at (d :: b) 0); cbn; f_equal; lia.
Qed.

Lemma scanCRLFBytes_cons c d b :
  scanCRLFBytes (c :: d :: b) =
  if Byte.eqb c CR && Byte.eqb d LF then Some 0
  else option_map Z.succ (scanCRLFBytes (d :: b)).
Proof.
  unfold scanCRLFBytes. rewrite scanCRLF_at_cons. destruct (_ && _); [done|].
  rewrite scanCRLF_at_shift. destruct (scanCRLF_at (d :: b) 0); cbn; f_equal; lia.
Qed.

Lemma crlf_free_tail c l : crlf_free (c :: l) -> crlf_free l.
Proof. intros H x y ->. by apply (H (c :: x) y). Qed.

Lemma crlf_free_nil : crlf_free [].
Proof. intros [|] ?; discriminate. Qed.

Lemma crlf_free_one c : crlf_free [c].
Proof. intros [|? [|]] ?; discriminate. Qed.

#[export] Hint Resolve crlf_free_nil crlf_free_one : hop.

Lemma crlf_free_cons c d l :
  ~ (c = CR /\ d = LF) -> crlf_free (d :: l) -> crlf_free (c :: d :: l).
Proof.
  intros Hn Hf [|x0 x] y; cbn; intros [= -> E]; subst; [tauto|].
  by apply (Hf x y).
Qed.

(** [scanCRLFBytes] succeeds exactly at the first CR LF. *)
Lemma scanCRLFBytes_Some b i :
  scanCRLFBytes b = Some i <->
  exists l r, b = l ++ CRLF ++ r /\ crlf_free l /\ i = blen l.
Proof.
  revert i. induction b as [|c [|d b] IH]; intros i.
  - split; [discriminate|]. intros ([|] & ? & ? & _); discriminate.
  - split; [discriminate|]. intros ([|? [|]] & ? & ? & _); discriminate.
  - rewrite scanCRLFBytes_cons. destruct (_ && _) eqn:E.
    + apply andb_true_iff in E as [->%byte_eqb_eq ->%byte_eqb_eq]. split.
      * intros [= <-]. exists [], b. repeat split; auto with hop.
      * intros ([|x [|y l]] & r & Hb & Hf & ->); [done | discriminate |].
        cbn in Hb. injection Hb as <- <- Hb. by destruct (Hf [] l).
    + split.
      * destruct (scanCRLFBytes (d :: b)) as [j|] eqn:Ej; [|discriminate].
        intros [= <-]. destruct (proj1 (IH j) eq_refl) as (l & r & Hb & Hf & ->).
        exists (c :: l), r. rewrite Hb, blen_cons. repeat split; [|lia].
        destruct l as [|x l]; [auto with hop|]. cbn in Hb. injection Hb as -> Hb.
        apply crlf_free_cons; [|done]. intros [-> ->]. by rewrite !byte_eqb_refl in E.
      * intros ([|x l] & r & Hb & Hf & ->).
        { cbn in Hb. injection Hb as -> -> Hb. by rewrite !byte_eqb_refl in E. }
        cbn in Hb. injection Hb as -> Hb.
        destruct (IH (blen l)) as [_ ->];
          [|exists l, r; repeat split; eauto using crlf_free_tail].
        rewrite blen_cons. cbn. f_equal; lia.
Qed.

Lemma scanCRLFBytes_None b : scanCRLFBytes b = None <-> crlf_free b.
Proof.
  split.
  - intros H x y ->.
    assert (exists i, scanCRLFBytes (x ++ CR :: LF :: y) = Some i) as [i Hi]; [|congruence].
    clear H. induction x as [|c x [i IH]].
    + exists 0. apply scanCRLFBytes_Some. exists [], y. auto with hop.
    + destruct x as [|d x].
      * cbn [app] in *. rewrite scanCRLFBytes_cons, IH. destruct (_ && _); cbn; eauto.
      * cbn [app] in *. rewrite scanCRLFBytes_cons, IH. destruct (_ && _); cbn; eauto.
  - intros Hf. destruct (scanCRLFBytes b) as [i|] eqn:E; [|done].
    apply scanCRLFBytes_Some in E as (l & r & -> & _). by destruct (Hf l r).
Qed.

Lemma scanCRLFBytes_app l r : crlf_free l -> scanCRLFBytes (l ++ CRLF ++ r) = Some (blen l).
Proof. intros H. apply scanCRLFBytes_Some. eauto. Qed.

(** Where the first line ends is unique. *)
Lemma crlf_split_inj l1 r1 l2 r2 :
  l1 ++ CRLF ++ r1 = l2 ++ CRLF ++ r2 -> crlf_free l1 -> crlf_free l2 -> l1 = l2 /\ r1 = r2.
Proof.
  intros H H1 H2. pose proof (scanCRLFBytes_app l1 r1 H1) as E1.
  rewrite H, (scanCRLFBytes_app l2 r2 H2) in E1. injection E1 as E.
  assert (length l1 = length l2) by (unfold blen in E; lia).
  apply app_inj_1 in H as [-> H]; [|done]. by injection H.
Qed.

(** ** Numbers *)

(** Value of a digit string in base [base], [val] giving a digit's value. *)
Definition digits_value (base : Z) (val : byte -> Z) (b : bytes) : Z :=
  fold_left (fun n c => n * base + val c) b 0.

Lemma fold_digits_shift base val b n :
  fold_left (fun n c => n * base + val c) b n =
  n * base ^ blen b + digits_value base val b.
Proof.
  unfold digits_value. revert n. induction b as [|c b IH]; intros n.
  - rewrite blen_nil. cbn [fold_left]. lia.
  - cbn [fold_left]. rewrite IH, (IH (0 * base + val c)), blen_cons.
    rewrite Z.pow_add_r by auto with hop zarith. lia.
Qed.

Lemma digits_value_app base val a b :
  digits_value base val (a ++ b) =
  digits_value base val a * base ^ blen b + digits_value base val b.
Proof. unfold digits_value at 1. by rewrite fold_left_app, fold_digits_shift. Qed.

Definition dec_digit (c : byte) : Z := b2z c - b2z "0"%byte.
Definition dec_value : bytes -> Z := digits_value 10 dec_digit.
Definition hex_value : bytes -> Z := digits_value 16 unhex.

Lemma dec_digit_byte c :
  is_digit c = true -> b2z (z2b (b2z c - b2z "0"%byte)) = dec_digit c.
Proof.
  revert c. assert (forall c, implb (is_digit c)
    (b2z (z2b (b2z c - b2z "0"%byte)) =? dec_digit c) = true) as H
    by (apply forall_bytes; vm_compute; reflexivity).
  intros c Hc. specialize (H c). rewrite Hc in H. by apply Z.eqb_eq.
Qed.

Lemma dec_loop_spec b n :
  parseDecimalInt32_loop b (wrap32 n) =
  if forallb is_digit b then Some (wrap32 (fold_left (fun n c => n * 10 + dec_digit c) b n))
  else None.
Proof.
  revert n. induction b as [|c b IH]; intros n; cbn [parseDecimalInt32_loop fold_left forallb].
  - done.
  - destruct (is_digit c) eqn:Hc; cbn [negb andb]; [|done].
    rewrite dec_digit_byte by done.
    replace (wrap32 (wrap32 (wrap32 n * 10) + dec_digit c))
      with (wrap32 (n * 10 + dec_digit c)); [apply IH|].
    rewrite <- (wrap32_horner 10 n). replace (wrap32 n * 10) with (wrap32 n * 10 * 1) at 1 by lia.
    rewrite <- (wrap32_horner 1 (wrap32 n * 10)). f_equal; lia.
Qed.

(** [parseDecimalInt32] accepts the non-empty digit strings and returns their
    value reduced to [int32]. *)
Lemma parseDecimalInt32_spec b :
  parseDecimalInt32 b =
  if negb (blen b =? 0) && forallb is_digit b then Some (wrap32 (dec_value b)) else None.
Proof.
  destruct b as [|c b]; [done|]. unfold parseDecimalInt32.
  change 0 with (wrap32 0) at 1. rewrite dec_loop_spec, blen_cons.
  destruct (negb _) eqn:E; [done|]. pose proof (blen_nonneg b). blia.
Qed.

(** ** The hexadecimal table *)

Lemma unhex_spec ch :
  unhex ch =
  let z := b2z ch in
  if (b2z "0"%byte <=? z) && (z <=? b2z "9"%byte) then z - b2z "0"%byte
  else if (b2z "a"%byte <=? z) && (z <=? b2z "f"%byte) then z - b2z "a"%byte + 10
  else if (b2z "A"%byte <=? z) && (z <=? b2z "F"%byte) then z - b2z "A"%byte + 10
  else -1.
Proof. destruct ch; vm_compute; reflexivity. Qed.

Lemma unhex_range ch : -1 <= unhex ch < 16.
Proof. destruct ch; vm_compute; intuition congruence. Qed.

(** ** Case-insensitive comparison *)

(** [equalFoldToken b s] compares the lower-cased [b] with [s]. *)
Lemma equalFoldToken_spec b s : equalFoldToken b s = bool_decide (map lower b = s).
Proof.
  unfold equalFoldToken. revert s. induction b as [|c b IH]; intros [|d s]; cbn [map].
  1-3: done.
  rewrite !blen_cons. specialize (IH s).
  replace (1 + blen b =? 1 + blen s) with (blen b =? blen s)
    by (destruct (Z.eqb_spec (blen b) (blen s)); symmetry; blia).
  cbn [equalFold_loop]. destruct (Byte.eqb (lower c) d) eqn:E; cbn [negb].
  - apply byte_eqb_eq in E as ->. rewrite IH. apply bool_decide_ext. naive_solver.
  - rewrite bool_decide_false; [by destruct (negb _)|]. intros [= E' _].
    by rewrite E', byte_eqb_refl in E.
Qed.

Lemma equalFoldToken_true b s : equalFoldToken b s = true <-> map lower b = s.
Proof. rewrite equalFoldToken_spec. apply bool_decide_eq_true. Qed.

Lemma lower_idem c : lower (lower c) = lower c.
Proof. destruct c; vm_compute; reflexivity. Qed.
