(* ===== verification/Strconv.v ===== *)
(** * strconv: formatting integers

    [strconv.Itoa n] and [strconv.AppendInt dst n 16] of the Go standard
    library, as the response writer uses them for status codes, Content-Length
    values and chunk sizes, and their inverses in the parser. *)

From S2P Require Import Prelude Scan.

(** The digit characters of [strconv]. *)
Definition digit_chars : bytes := bs "0123456789abcdefghijklmnopqrstuvwxyz".

Definition digit_char (d : Z) : byte := default "0"%byte (digit_chars !! Z.to_nat d).

(** The digits of [n], least significant first removed; [fuel] bounds their
    number. *)
Fixpoint format_loop (fuel : nat) (base n : Z) (acc : bytes) : bytes :=
  match fuel with
  | O => acc
  | S fuel' =>
      let acc' := digit_char (n mod base) :: acc in
      if n <? base then acc' else format_loop fuel' base (n / base) acc'
  end.

Definition formatUint (n base : Z) : bytes :=
  format_loop (S (Z.to_nat (Z.log2 n))) base n [].

(** [strconv.FormatInt(n, base)]. *)
Definition formatInt (n base : Z) : bytes :=
  if n <? 0 then "-"%byte :: formatUint (- n) base else formatUint n base.

Definition Itoa (n : Z) : bytes := formatInt n 10.

(** ** What the digits denote *)

Section Format.
Context (base : Z) (val : byte -> Z) (P : byte -> bool).
Hypothesis Hbase : 2 <= base.
(** [val] and [P] agree with the digit characters below [base]. *)
Hypothesis Hval : forall d, 0 <= d < base -> val (digit_char d) = d /\ P (digit_char d) = true.

Lemma format_loop_spec fuel n acc :
  0 <= n < 2 ^ Z.of_nat fuel -> (0 < fuel)%nat ->
  exists l, format_loop fuel base n acc = l ++ acc /\ l <> [] /\
    digits_value base val l = n /\ forallb P l = true.
Proof.
  revert n acc. induction fuel as [|fuel IH]; intros n acc Hn Hf; [lia|].
  cbn [format_loop]. pose proof (Z.mod_pos_bound n base ltac:(lia)) as Hm.
  destruct (Hval _ Hm) as [Hv HP]. destruct (Z.ltb_spec n base) as [Hlt|Hge].
  - exists [digit_char (n mod base)]. rewrite Z.mod_small in * by lia.
    repeat split; [done | | cbn; by rewrite HP].
    unfold digits_value; cbn [fold_left]. lia.
  - assert (0 <= n / base < 2 ^ Z.of_nat fuel) as Hd.
    { split; [apply Z.div_pos; lia|]. apply Z.div_lt_upper_bound; [lia|].
      rewrite Nat2Z.inj_succ, Z.pow_succ_r in Hn by lia. nia. }
    destruct fuel as [|fuel].
    { cbn in Hd. assert (n / base = 0) by lia. apply Z.div_small_iff in H; lia. }
    destruct (IH _ (digit_char (n mod base) :: acc) Hd ltac:(lia)) as (l & -> & _ & Hl & HPl).
    exists (l ++ [digit_char (n mod base)]). rewrite <- app_assoc. repeat split.
    + by destruct l.
    + rewrite digits_value_app, Hl. unfold digits_value; cbn [fold_left].
      change (blen [_]) with 1. pose proof (Z.div_mod n base ltac:(lia)). lia.
    + rewrite forallb_app, HPl. cbn. by rewrite HP.
Qed.

Lemma formatInt_spec n :
  0 <= n -> formatInt n base <> [] /\
    digits_value base val (formatInt n base) = n /\ forallb P (formatInt n base) = true.
Proof.
  intros Hn. unfold formatInt. destruct (Z.ltb_spec n 0); [lia|]. unfold formatUint.
  destruct (format_loop_spec (S (Z.to_nat (Z.log2 n))) n []) as (l & -> & H1 & H2 & H3).
  - rewrite Nat2Z.inj_succ, Z2Nat.id by apply Z.log2_nonneg. split; [done|].
    destruct (Z.eq_dec n 0) as [->|]; [done|]. apply Z.log2_spec; lia.
  - lia.
  - rewrite app_nil_r. auto.
Qed.
End Format.

(** A bounded universal over integers, decided by enumeration. *)
Lemma forall_below (n : nat) (Q : Z -> bool) :
  forallb Q (map Z.of_nat (seq 0 n)) = true -> forall d, 0 <= d < Z.of_nat n -> Q d = true.
Proof.
  intros H d Hd. rewrite forallb_forall in H. apply H, in_map_iff.
  exists (Z.to_nat d). rewrite Z2Nat.id by lia. split; [done|]. apply in_seq. lia.
Qed.

Lemma dec_digit_chars d :
  0 <= d < 10 -> dec_digit (digit_char d) = d /\ is_digit (digit_char d) = true.
Proof.
  intros Hd. pose proof (forall_below 10
    (fun d => (dec_digit (digit_char d) =? d) && is_digit (digit_char d)) eq_refl d Hd) as H.
  apply andb_true_iff in H as [?%Z.eqb_eq ?]. auto.
Qed.

Definition is_hex (c : byte) : bool := 0 <=? unhex c.

Lemma hex_digit_chars d :
  0 <= d < 16 -> unhex (digit_char d) = d /\ is_hex (digit_char d) = true.
Proof.
  intros Hd. pose proof (forall_below 16
    (fun d => (unhex (digit_char d) =? d) && is_hex (digit_char d)) eq_refl d Hd) as H.
  apply andb_true_iff in H as [?%Z.eqb_eq ?]. auto.
Qed.

Lemma Itoa_spec n :
  0 <= n -> Itoa n <> [] /\ dec_value (Itoa n) = n /\ forallb is_digit (Itoa n) = true.
Proof. apply formatInt_spec; [lia | apply dec_digit_chars]. Qed.

Lemma formatHex_spec n :
  0 <= n -> formatInt n 16 <> [] /\ hex_value (formatInt n 16) = n /\
    forallb is_hex (formatInt n 16) = true.
Proof. apply formatInt_spec; [lia | apply hex_digit_chars]. Qed.

(** No more digits than needed. *)
Lemma format_loop_length fuel base n acc (k : nat) :
  2 <= base -> 0 <= n < base ^ Z.of_nat (S k) -> (length (format_loop fuel base n acc) <= S k + length acc)%nat.
Proof.
  intros Hb. revert n acc k. induction fuel as [|fuel IH]; intros n acc k Hn; cbn [format_loop]; [lia|].
  destruct (Z.ltb_spec n base) as [Hlt|Hge]; [cbn; lia|]. destruct k as [|k].
  { rewrite Z.pow_1_r in Hn. lia. }
  rewrite Nat2Z.inj_succ, Z.pow_succ_r in Hn by lia.
  specialize (IH (n / base) (digit_char (n mod base) :: acc) k). cbn [length] in IH. etransitivity; [apply IH | lia].
  split; [apply Z.div_pos; lia | apply Z.div_lt_upper_bound; lia].
Qed.

Lemma formatHex_length n : 0 <= n < 2 ^ 64 -> blen (formatInt n 16) <= 16.
Proof.
  intros Hn. unfold formatInt. destruct (Z.ltb_spec n 0); [lia|]. unfold formatUint.
  pose proof (format_loop_length (S (Z.to_nat (Z.log2 n))) 16 n [] 15 ltac:(lia)) as H1.
  change (16 ^ Z.of_nat 16) with (2 ^ 64) in H1. specialize (H1 Hn). unfold blen. cbn [length] in H1. lia.
Qed.

(** Printing a non-negative [int32] in decimal and parsing it back with
    [parseDecimalInt32] is the identity. *)
Theorem decimal_roundtrip n :
  0 <= n < 2 ^ 31 -> parseDecimalInt32 (Itoa n) = Some n.
Proof.
  intros Hn. destruct (Itoa_spec n) as (H1 & H2 & H3); [lia|].
  rewrite parseDecimalInt32_spec, H2, H3, wrap32_small by (unfold int32_range; lia).
  destruct (Z.eqb_spec (blen (Itoa n)) 0) as [E|]; [|done].
  apply blen_zero in E. congruence.
Qed.

Lemma decimal_roundtrip_witness :
  (0 <= 65536 < 2 ^ 31) /\ parseDecimalInt32 (Itoa 65536) = Some 65536.
Proof. split; [lia | apply (decimal_roundtrip 65536); lia]. Defined.
