(* ===== verification/Method.v ===== *)
(** * Request methods (internal/parser/method.go and matchMethod of scan.go) *)

From S2P Require Import Prelude Scan.

(** [Method] is an [int8] whose constants are 1 to 34; [NoMethod] is its zero
    value, which a parser holds before a request line and for responses. *)
Inductive Method : Type :=
| NoMethod
| GET | HEAD | POST | PUT | DELETE | CONNECT | OPTIONS | TRACE | ACL | BIND
| COPY | CHECKOUT | LOCK | UNLOCK | LINK | MKCOL | MOVE | MKACTIVITY | MERGE
| MSEARCH | MKCALENDAR | NOTIFY | PROPFIND | PROPPATCH | PATCH | PURGE | REPORT
| REBIND | SUBSCRIBE | SEARCH | SOURCE | UNSUBSCRIBE | UNBIND | UNLINK.

#[global] Instance Method_eq_dec : EqDecision Method.
Proof. solve_decision. Defined.

(** [Method.String] through the table [methodNames]. *)
Definition Method_String (m : Method) : bytes :=
  bs match m with
     | NoMethod => "UNKNOWN"
     | GET => "GET" | HEAD => "HEAD" | POST => "POST" | PUT => "PUT"
     | DELETE => "DELETE" | CONNECT => "CONNECT" | OPTIONS => "OPTIONS"
     | TRACE => "TRACE" | ACL => "ACL" | BIND => "BIND" | COPY => "COPY"
     | CHECKOUT => "CHECKOUT" | LOCK => "LOCK" | UNLOCK => "UNLOCK"
     | LINK => "LINK" | MKCOL => "MKCOL" | MOVE => "MOVE"
     | MKACTIVITY => "MKACTIVITY" | MERGE => "MERGE" | MSEARCH => "M-SEARCH"
     | MKCALENDAR => "MKCALENDAR" | NOTIFY => "NOTIFY" | PROPFIND => "PROPFIND"
     | PROPPATCH => "PROPPATCH" | PATCH => "PATCH" | PURGE => "PURGE"
     | REPORT => "REPORT" | REBIND => "REBIND" | SUBSCRIBE => "SUBSCRIBE"
     | SEARCH => "SEARCH" | SOURCE => "SOURCE" | UNSUBSCRIBE => "UNSUBSCRIBE"
     | UNBIND => "UNBIND" | UNLINK => "UNLINK"
     end.

(** The cases of [matchMethod]'s switch, in its order. *)
Definition method_cases : list (String.string * Method) :=
  [("get", GET); ("head", HEAD); ("post", POST); ("put", PUT); ("delete", DELETE);
   ("connect", CONNECT); ("options", OPTIONS); ("trace", TRACE); ("acl", ACL);
   ("bind", BIND); ("copy", COPY); ("checkout", CHECKOUT); ("lock", LOCK);
   ("unlock", UNLOCK); ("link", LINK); ("mkcol", MKCOL); ("move", MOVE);
   ("mkactivity", MKACTIVITY); ("merge", MERGE); ("m-search", MSEARCH);
   ("mkcalendar", MKCALENDAR); ("notify", NOTIFY); ("propfind", PROPFIND);
   ("proppatch", PROPPATCH); ("patch", PATCH); ("purge", PURGE);
   ("report", REPORT); ("rebind", REBIND); ("subscribe", SUBSCRIBE);
   ("search", SEARCH); ("source", SOURCE); ("unsubscribe", UNSUBSCRIBE);
   ("unbind", UNBIND); ("unlink", UNLINK)]%string.

(** A switch whose cases are [equalFoldToken(b, name)]: the first that holds. *)
Fixpoint switch_fold {A} (cases : list (String.string * A)) (b : bytes) : option A :=
  match cases with
  | [] => None
  | (s, a) :: rest => if equalFoldToken b (bs s) then Some a else switch_fold rest b
  end.

Definition matchMethod (b : bytes) : option Method := switch_fold method_cases b.

(** ** Properties *)

(** A fold switch sees its argument only through lower-casing. *)
Lemma switch_fold_lower {A} (cases : list (String.string * A)) b b' :
  map lower b = map lower b' -> switch_fold cases b = switch_fold cases b'.
Proof.
  intros H. induction cases as [|[s a] cases IH]; cbn [switch_fold]; [done|].
  by rewrite !equalFoldToken_spec, H, IH.
Qed.

(** What a fold switch returns is the value of a case its argument matches. *)
Lemma switch_fold_Some {A} (cases : list (String.string * A)) b a :
  switch_fold cases b = Some a -> exists s, In (s, a) cases /\ map lower b = bs s.
Proof.
  induction cases as [|[s a'] cases IH]; cbn [switch_fold]; [discriminate|].
  destruct (equalFoldToken b (bs s)) eqn:E.
  - intros [= ->]. exists s. apply equalFoldToken_true in E. cbn. auto.
  - intros (s' & ? & ?)%IH. exists s'. cbn. auto.
Qed.

Lemma method_cases_lower :
  Forall (fun '(s, m) => m <> NoMethod /\ map lower (Method_String m) = bs s) method_cases.
Proof. repeat constructor; discriminate. Qed.

Lemma matchMethod_String m : m <> NoMethod -> matchMethod (Method_String m) = Some m.
Proof. destruct m; intros H; [by destruct H | vm_compute; reflexivity..]. Qed.

(** [matchMethod] recognises a token exactly when it is, up to ASCII case,
    the name [Method.String] prints for one of the 34 methods; in particular
    printing and matching are inverse. *)
Theorem matchMethod_correct b m :
  matchMethod b = Some m <->
  m <> NoMethod /\ map lower b = map lower (Method_String m).
Proof.
  split.
  - intros (s & Hin & Hb)%switch_fold_Some.
    pose proof (proj1 (List.Forall_forall _ _) method_cases_lower _ Hin) as [? E].
    split; [done | congruence].
  - intros [Hm E]. unfold matchMethod. rewrite (switch_fold_lower _ _ _ E).
    by apply matchMethod_String.
Qed.

(** No method name has a space or a line end. *)
Lemma Method_String_plain m : (SP ∉ Method_String m) /\ (CR ∉ Method_String m).
Proof. destruct m; split; apply scanToByte_None; vm_compute; reflexivity. Qed.
