(* ===== verification/Cursor.v ===== *)
(** * Cursor over a buffer (internal/parser/cursor.go, scanCRLF of startline.go)

    A cursor is a buffer and a position.  Its operations are the code's, with
    slicing that can panic; the lemmas give each operation in terms of the
    unread bytes [rest c]. *)

From S2P Require Import Prelude Scan.

Record cursor : Type := mkCursor { buf : bytes; pos : Z }.

Definition newCursor (b : bytes) : cursor := {| buf := b; pos := 0 |}.

Definition remaining (c : cursor) : Z :=
  if blen (buf c) <=? pos c then 0 else blen (buf c) - pos c.

Definition peek (c : cursor) : res (option byte) :=
  if blen (buf c) <=? pos c then Ok None
  else b ← gindex (buf c) (pos c); Ok (Some b).

Definition advance (n : Z) (c : cursor) : cursor :=
  let p := pos c + n in
  {| buf := buf c; pos := if blen (buf c) <? p then blen (buf c) else p |}.

Definition slice (c : cursor) (n : Z) : res bytes :=
  let e := pos c + n in
  gslice (buf c) (pos c) (if blen (buf c) <? e then blen (buf c) else e).

(** The loop starts at [c.pos] and returns an offset relative to it. *)
Definition scanCRLF (c : cursor) : option Z :=
  scanCRLFBytes (drop (Z.to_nat (pos c)) (buf c)).

(** ** The unread bytes *)

Definition rest (c : cursor) : bytes := drop (Z.to_nat (pos c)) (buf c).

(** A position inside the buffer. *)
Definition cursor_ok (c : cursor) : Prop := 0 <= pos c <= blen (buf c).

Lemma newCursor_ok b : cursor_ok (newCursor b).
Proof. unfold cursor_ok; cbn. pose proof (blen_nonneg b). lia. Qed.

Lemma rest_newCursor b : rest (newCursor b) = b.
Proof. done. Qed.

#[export] Hint Resolve newCursor_ok : hop.

Lemma remaining_rest c : cursor_ok c -> remaining c = blen (rest c).
Proof.
  unfold cursor_ok, remaining, rest, blen. rewrite length_drop. intros.
  destruct (Z.leb_spec (Z.of_nat (length (buf c))) (pos c)); lia.
Qed.

Lemma buf_rest c : cursor_ok c ->
  exists l, buf c = l ++ rest c /\ pos c = blen l.
Proof.
  intros H. exists (take (Z.to_nat (pos c)) (buf c)). unfold rest. rewrite take_drop.
  split; [done|]. unfold cursor_ok, blen in *. rewrite length_take. lia.
Qed.

Lemma peek_rest c : cursor_ok c -> peek c = Ok (head (rest c)).
Proof.
  intros H. destruct (buf_rest c H) as (l & Hb & Hp). unfold peek.
  rewrite Hp, Hb. destruct (rest c) as [|x r]; cbn [head].
  - rewrite app_nil_r. by destruct (Z.leb_spec (blen l) (blen l)); [|lia].
  - rewrite blen_app, blen_cons. pose proof (blen_nonneg r).
    destruct (Z.leb_spec (blen l + (1 + blen r)) (blen l)); [lia|].
    by rewrite gindex_app.
Qed.

Lemma advance_ok c n : cursor_ok c -> 0 <= n -> cursor_ok (advance n c).
Proof.
  unfold cursor_ok, advance; cbn. intros. destruct (Z.ltb_spec (blen (buf c)) (pos c + n)); lia.
Qed.

Lemma advance_rest c n : cursor_ok c -> 0 <= n -> rest (advance n c) = drop (Z.to_nat n) (rest c).
Proof.
  unfold cursor_ok, rest, advance; cbn. intros H Hn. rewrite drop_drop.
  destruct (Z.ltb_spec (blen (buf c)) (pos c + n)).
  - rewrite !drop_ge; [done | unfold blen in *; lia..].
  - f_equal. lia.
Qed.

Lemma advance_app c l r n :
  cursor_ok c -> rest c = l ++ r -> n = blen l ->
  cursor_ok (advance n c) /\ rest (advance n c) = r.
Proof.
  intros H Hr ->. pose proof (blen_nonneg l).
  split; [by apply advance_ok|]. rewrite advance_rest, Hr, to_nat_blen by done.
  apply drop_app_length.
Qed.

Lemma slice_rest c n : cursor_ok c -> 0 <= n -> slice c n = Ok (take (Z.to_nat n) (rest c)).
Proof.
  intros H Hn. unfold slice, cursor_ok, rest in *.
  rewrite gslice_ok; destruct (Z.ltb_spec (blen (buf c)) (pos c + n)); try lia; f_equal.
  - rewrite !take_ge; [done | rewrite length_drop; unfold blen in *; lia..].
  - f_equal. lia.
Qed.

Lemma slice_app c l r n :
  cursor_ok c -> rest c = l ++ r -> n = blen l -> slice c n = Ok l.
Proof.
  intros H Hr ->. rewrite slice_rest, Hr, to_nat_blen by auto with hop.
  by rewrite take_app_length.
Qed.

(** A negative length makes [slice] panic: the end is before the position. *)
Lemma slice_neg c n : cursor_ok c -> n < 0 -> slice c n = Crash SliceBounds.
Proof.
  intros H Hn. unfold slice, cursor_ok, gslice in *.
  destruct (Z.ltb_spec (blen (buf c)) (pos c + n)); [lia|].
  destruct (_ && _) eqn:E; [blia | done].
Qed.

Lemma scanCRLF_rest c : scanCRLF c = scanCRLFBytes (rest c).
Proof. done. Qed.
