(* ===== verification/StartLine.v ===== *)
(** * Start lines and header lines (internal/parser/startline.go, headers.go)

    Request lines, status lines and header lines.  Each parser is given by the
    code's slicing; the lemmas characterise the accepted lines by the shape of
    the text, and printing followed by parsing is the identity. *)

From S2P Require Import Prelude Scan Strconv Method Cursor.

Record requestLine : Type := mkRequestLine {
  rl_Method : Method; rl_Target : bytes; rl_Major : Z; rl_Minor : Z }.

Record responseLine : Type := mkResponseLine {
  sl_Major : Z; sl_Minor : Z; sl_StatusCode : Z; sl_Reason : bytes }.

Record headerLine : Type := mkHeaderLine { Name : bytes; Value : bytes }.

Definition parseHTTPVersionToken (b : bytes) : res (option (Z * Z)) :=
  if negb (blen b =? 8) then Ok None
  else
    p ← gslice b 0 5;
    if negb (bool_decide (p = bs "HTTP/")) then Ok None
    else d ← gslice_from b 5; Ok (parseHTTPVersionDigits d).

Definition parseRequestLineBytes (line : bytes) : res (option requestLine) :=
  match scanToByte line SP with
  | None => Ok None
  | Some firstSpace =>
      tail ← gslice_from line (firstSpace + 1);
      match scanToByte tail SP with
      | None => Ok None
      | Some s =>
          let secondSpace := s + (firstSpace + 1) in
          m ← gslice line 0 firstSpace;
          match matchMethod m with
          | None => Ok None
          | Some method =>
              v ← gslice_from line (secondSpace + 1);
              ver ← parseHTTPVersionToken v;
              match ver with
              | None => Ok None
              | Some (major, minor) =>
                  target ← gslice line (firstSpace + 1) secondSpace;
                  Ok (Some (mkRequestLine method target major minor))
              end
          end
      end
  end.

Definition parseRequestLine (c : cursor) : res (option requestLine) :=
  match scanCRLF c with
  | None => Ok None
  | Some lineEnd => line ← slice c lineEnd; parseRequestLineBytes line
  end.

Definition parseResponseLineBytes (line : bytes) : res (option responseLine) :=
  if blen line <? blen (bs "HTTP/1.1 1 X") then Ok None
  else
    p ← gslice line 0 5;
    if negb (bool_decide (p = bs "HTTP/")) then Ok None
    else
      d ← gslice_from line 5;
      match parseHTTPVersionDigits d with
      | None => Ok None
      | Some (major, minor) =>
          if blen line <? 12 then Ok None
          else
            sp ← gindex line 8;
            if negb (Byte.eqb sp SP) then Ok None
            else
              statusDigits ← gslice line 9 12;
              match parseDecimalInt32 statusDigits with
              | None => Ok None
              | Some status32 =>
                  reason ← (if 13 <? blen line then gslice_from line 13 else Ok []);
                  Ok (Some (mkResponseLine major minor (wrapu16 status32) reason))
              end
      end.

Definition parseResponseLine (c : cursor) : res (option responseLine) :=
  match scanCRLF c with
  | None => Ok None
  | Some lineEnd => line ← slice c lineEnd; parseResponseLineBytes line
  end.

Definition parseHeaderLineBytes (line : bytes) : res (option headerLine) :=
  match scanToByte line ":"%byte with
  | None => Ok None
  | Some sep =>
      value ← gslice_from line (sep + 1);
      value' ← gslice_from value (skipSpaces value);
      name ← gslice line 0 sep;
      Ok (Some (mkHeaderLine name value'))
  end.

Definition parseHeaderLine (c : cursor) : res (option headerLine) :=
  match scanCRLF c with
  | None => Ok None
  | Some lineEnd => line ← slice c lineEnd; parseHeaderLineBytes line
  end.

(** ** Versions *)

Definition print_version (major minor : Z) : bytes :=
  bs "HTTP/" ++ [digit_char major; "."%byte; digit_char minor].

Lemma version_digits_spec b :
  parseHTTPVersionDigits b =
  match b with
  | b0 :: b1 :: b2 :: _ =>
      if Byte.eqb b1 "."%byte && is_digit b0 && is_digit b2
      then Some (dec_digit b0, dec_digit b2) else None
  | _ => None
  end.
Proof.
  destruct b as [|b0 [|b1 [|b2 b]]]; [done..|]. cbn [parseHTTPVersionDigits].
  destruct (Byte.eqb b1 "."%byte); [|done].
  destruct (is_digit b0) eqn:E0; [|done]. destruct (is_digit b2) eqn:E2; [|done].
  assert (forall c, is_digit c = true -> wrapu8 (b2z c - b2z "0"%byte) = dec_digit c) as H;
    [|cbn; by rewrite !H].
  intros c Hc. unfold wrapu8, dec_digit, is_digit in *.
  rewrite Z.mod_small; [done|]. pose proof (b2z_range c). blia.
Qed.

Lemma version_digits_print major minor r :
  0 <= major < 10 -> 0 <= minor < 10 ->
  parseHTTPVersionDigits (digit_char major :: "."%byte :: digit_char minor :: r) = Some (major, minor).
Proof.
  intros H1 H2. rewrite version_digits_spec.
  destruct (dec_digit_chars _ H1) as [-> ->], (dec_digit_chars _ H2) as [-> ->]. done.
Qed.

Lemma parseHTTPVersionToken_total b : exists o, parseHTTPVersionToken b = Ok o.
Proof.
  unfold parseHTTPVersionToken. destruct (Z.eqb_spec (blen b) 8) as [E|]; cbn [negb]; [|eauto].
  unfold gslice_from. rewrite !gslice_ok by lia. cbn. case_ifs; eauto.
Qed.

Lemma parseHTTPVersionToken_print major minor :
  0 <= major < 10 -> 0 <= minor < 10 ->
  parseHTTPVersionToken (print_version major minor) = Ok (Some (major, minor)).
Proof.
  intros H1 H2. unfold print_version, parseHTTPVersionToken.
  rewrite blen_app. cbn [negb Z.eqb]. change (blen (bs "HTTP/") + blen [_;_;_] =? 8) with true.
  cbn [negb]. rewrite gslice_prefix by done. cbn [mbind res_bind].
  rewrite bool_decide_true by done. cbn [negb].
  rewrite gslice_suffix by done. cbn [mbind res_bind]. by rewrite version_digits_print.
Qed.

(** ** Request lines *)

Lemma parseRequestLineBytes_fields m t v :
  SP ∉ m -> SP ∉ t ->
  parseRequestLineBytes (m ++ SP :: t ++ SP :: v) =
    match matchMethod m with
    | None => Ok None
    | Some method =>
        ver ← parseHTTPVersionToken v;
        Ok (match ver with
            | None => None
            | Some (major, minor) => Some (mkRequestLine method t major minor)
            end)
    end.
Proof.
  intros Hm Ht. unfold parseRequestLineBytes. rewrite scanToByte_app by done.
  rewrite (cons_middle SP m), app_assoc, gslice_suffix by blens.
  cbn [mbind res_bind]. rewrite scanToByte_app by done. rewrite <- app_assoc.
  rewrite gslice_prefix by done. cbn [mbind res_bind].
  destruct (matchMethod m) as [method|]; [|done].
  replace (m ++ [SP] ++ t ++ SP :: v) with ((m ++ [SP]) ++ t ++ [SP] ++ v)
    by (by rewrite <- app_assoc).
  rewrite gslice_app by blens.
  rewrite app_assoc, app_assoc, gslice_suffix by blens.
  cbn [mbind res_bind]. destruct (parseHTTPVersionToken v) as [[[maj min]|]|]; done.
Qed.

(** Every accepted request line is three fields separated by single spaces. *)
Lemma parseRequestLineBytes_shape line :
  (exists m t v, line = m ++ SP :: t ++ SP :: v /\ (SP ∉ m) /\ (SP ∉ t)) \/
  parseRequestLineBytes line = Ok None.
Proof.
  unfold parseRequestLineBytes. destruct (scanToByte line SP) as [i|] eqn:Ei; [|auto].
  apply scanToByte_Some in Ei as (m & r & -> & Hm & ->).
  rewrite (cons_middle SP m r), app_assoc, gslice_suffix by blens.
  cbn [mbind res_bind]. destruct (scanToByte r SP) as [j|] eqn:Ej; [|auto].
  apply scanToByte_Some in Ej as (t & v & -> & Ht & ->). left. exists m, t, v.
  by rewrite <- app_assoc.
Qed.

Lemma parseRequestLineBytes_total line : exists o, parseRequestLineBytes line = Ok o.
Proof.
  destruct (parseRequestLineBytes_shape line) as [(m & t & v & -> & Hm & Ht)|H]; [|eauto].
  rewrite parseRequestLineBytes_fields by done. destruct (matchMethod m); [|eauto].
  destruct (parseHTTPVersionToken_total v) as [o ->]. cbn. eauto.
Qed.

(** The text of a request line. *)
Definition print_request_line (r : requestLine) : bytes :=
  Method_String (rl_Method r) ++ [SP] ++ rl_Target r ++ [SP]
    ++ print_version (rl_Major r) (rl_Minor r).


(** A request line printed from its fields is parsed back to them: any
    method, any target without a space, any one-digit version numbers. *)
Theorem request_line_roundtrip r :
  rl_Method r <> NoMethod -> SP ∉ rl_Target r ->
  0 <= rl_Major r < 10 -> 0 <= rl_Minor r < 10 ->
  parseRequestLineBytes (print_request_line r) = Ok (Some r).
Proof.
  intros Hm Ht Hmaj Hmin. unfold print_request_line. cbn [app].
  rewrite parseRequestLineBytes_fields by (apply Method_String_plain || done).
  rewrite matchMethod_String, parseHTTPVersionToken_print by done. by destruct r.
Qed.

Lemma request_line_roundtrip_witness :
  let r := mkRequestLine POST (bs "/upload?x=1") 1 1 in
  parseRequestLineBytes (print_request_line r) = Ok (Some r).
Proof.
  apply request_line_roundtrip;
    [discriminate | apply scanToByte_None; vm_compute; reflexivity | cbn; lia | cbn; lia].
Defined.

(** What [parseRequestLineBytes] accepts: it never panics, and it accepts
    exactly the lines made of a method token, a target and a version token
    separated by single spaces, with no space in the first two. *)
Theorem parseRequestLineBytes_correct line :
  exists o, parseRequestLineBytes line = Ok o /\
  forall r, o = Some r <->
    exists m v, line = m ++ SP :: rl_Target r ++ SP :: v /\ (SP ∉ m) /\ (SP ∉ rl_Target r) /\
      matchMethod m = Some (rl_Method r) /\
      parseHTTPVersionToken v = Ok (Some (rl_Major r, rl_Minor r)).
Proof.
  destruct (parseRequestLineBytes_total line) as [o Ho]. exists o. split; [done|]. intros r. split.
  - intros ->. destruct (parseRequestLineBytes_shape line) as [(m & t & v & -> & Hm & Ht)|H];
      [|congruence].
    rewrite parseRequestLineBytes_fields in Ho by done.
    destruct (matchMethod m) as [me|] eqn:E; [|discriminate].
    destruct (parseHTTPVersionToken v) as [[[]|]|] eqn:Ev; try discriminate.
    injection Ho as <-. exists m, v. auto.
  - intros (m & v & -> & Hm & Ht & E & Ev).
    rewrite parseRequestLineBytes_fields, E, Ev in Ho by done. destruct r. by injection Ho as <-.
Qed.

(** ** Status lines *)

Lemma parseResponseLineBytes_total line : exists o, parseResponseLineBytes line = Ok o.
Proof.
  unfold parseResponseLineBytes. change (blen (bs "HTTP/1.1 1 X")) with 12.
  destruct (Z.ltb_spec (blen line) 12) as [|H]; [eauto|].
  unfold gslice_from.
  rewrite (gslice_ok line 0 5), (gslice_ok line 5), (gslice_ok line 9) by lia. cbn [mbind res_bind].
  destruct (negb _); [eauto|]. destruct (parseHTTPVersionDigits _) as [[maj min]|]; [|eauto].
  unfold gindex. destruct (_ && _) eqn:E; [|blia].
  destruct (line !! Z.to_nat 8) eqn:E8; [|apply lookup_ge_None in E8; blia].
  cbn [mbind res_bind]. destruct (negb _); [eauto|]. destruct (parseDecimalInt32 _); [|eauto].
  destruct (Z.ltb_spec 13 (blen line)); [rewrite gslice_ok by lia|]; cbn; eauto.
Qed.

(** The text of a status line. *)
Definition print_status_line (r : responseLine) : bytes :=
  print_version (sl_Major r) (sl_Minor r) ++ [SP] ++ Itoa (sl_StatusCode r)
    ++ [SP] ++ sl_Reason r.

(** Three-digit numbers print with three digits. *)
Lemma Itoa_three n : 100 <= n < 1000 -> exists a b c, Itoa n = [a; b; c].
Proof.
  intros Hn. pose proof (forall_below 1000
    (fun n => implb (100 <=? n) (blen (Itoa n) =? 3)) ltac:(vm_compute; reflexivity) n ltac:(lia)) as H.
  cbv beta in H. replace (100 <=? n) with true in H by (symmetry; blia). cbn [implb] in H.
  apply Z.eqb_eq in H. destruct (Itoa n) as [|a [|b [|c [|d l]]]]; try discriminate; eauto.
  rewrite !blen_cons in H. pose proof (blen_nonneg l). lia.
Qed.

Lemma status_line_parse r :
  0 <= sl_Major r < 10 -> 0 <= sl_Minor r < 10 -> 100 <= sl_StatusCode r < 1000 ->
  parseResponseLineBytes (print_status_line r) = Ok (Some r).
Proof.
  destruct r as [maj min code reason]. cbn [sl_Major sl_Minor sl_StatusCode].
  intros Hmaj Hmin Hc. unfold print_status_line; cbn [sl_Major sl_Minor sl_StatusCode sl_Reason].
  destruct (Itoa_spec code) as (_ & Hv & Hd); [lia|].
  destruct (Itoa_three code Hc) as (a & b & c & E). rewrite E in *.
  unfold parseResponseLineBytes, print_version.
  set (line := _ ++ _).
  assert (line = x48 :: x54 :: x54 :: x50 :: x2f :: digit_char maj :: "."%byte :: digit_char min
                  :: SP :: a :: b :: c :: SP :: reason) as El by reflexivity.
  clearbody line. assert (blen line = 13 + blen reason) as Hl by (subst line; blens).
  pose proof (blen_nonneg reason). rewrite Hl. change (blen (bs "HTTP/1.1 1 X")) with 12.
  destruct (Z.ltb_spec (13 + blen reason) 12); [lia|]. unfold gslice_from, gindex.
  rewrite (gslice_ok line 0 5), (gslice_ok line 5), (gslice_ok line 9), Hl by lia.
  destruct ((0 <=? 8) && (8 <? 13 + blen reason)) eqn:E8; [|blia].
  replace (drop (Z.to_nat 5) line) with (digit_char maj :: "."%byte :: digit_char min
    :: SP :: a :: b :: c :: SP :: reason) by (by subst line).
  replace (take (Z.to_nat (5 - 0)) (drop (Z.to_nat 0) line)) with (bs "HTTP/") by (by subst line).
  replace (take (Z.to_nat (12 - 9)) (drop (Z.to_nat 9) line)) with [a; b; c] by (by subst line).
  rewrite take_ge by (cbn [length]; unfold blen; lia).
  replace (line !! Z.to_nat 8) with (Some SP) by (by subst line).
  cbn [mbind res_bind]. rewrite bool_decide_true by done. cbn [negb].
  rewrite version_digits_print by done. cbn [negb]. rewrite byte_eqb_refl.
  cbn [negb]. rewrite parseDecimalInt32_spec.
  change (negb (blen [a; b; c] =? 0)) with true. rewrite Hd, Hv. cbn [andb].
  unfold wrapu16. rewrite wrap32_small, Z.mod_small by (unfold int32_range; lia).
  destruct (Z.ltb_spec 13 (13 + blen reason)).
  - rewrite gslice_ok by lia. replace (drop (Z.to_nat 13) line) with reason by (by subst line).
    rewrite take_ge; [done|]. unfold blen. lia.
  - destruct reason; [done | blens].
Qed.

(** A status line printed from its fields is parsed back to them: one-digit
    version numbers, a three-digit status code, any reason phrase. *)
Theorem status_line_roundtrip r :
  0 <= sl_Major r < 10 -> 0 <= sl_Minor r < 10 -> 100 <= sl_StatusCode r < 1000 ->
  parseResponseLineBytes (print_status_line r) = Ok (Some r).
Proof. exact (status_line_parse r). Qed.

Lemma status_line_roundtrip_witness :
  let r := mkResponseLine 1 1 404 (bs "Not Found") in
  parseResponseLineBytes (print_status_line r) = Ok (Some r).
Proof. apply status_line_roundtrip; cbn; lia. Defined.

(** ** Header lines *)

(** A header line splits at its first colon; the blanks after it are skipped. *)
Lemma parseHeaderLineBytes_colon n v :
  ":"%byte ∉ n ->
  parseHeaderLineBytes (n ++ ":"%byte :: v) =
    Ok (Some (mkHeaderLine n (drop (Z.to_nat (skipSpaces v)) v))).
Proof.
  intros Hn. unfold parseHeaderLineBytes. rewrite scanToByte_app by done.
  rewrite (cons_middle ":"%byte n), app_assoc, gslice_suffix by blens. cbn [mbind res_bind].
  destruct (skipSpaces_spec v) as (l & r & -> & E & _). rewrite E, gslice_suffix by done.
  cbn [mbind res_bind]. rewrite <- app_assoc, gslice_prefix, to_nat_blen, drop_app_length by done.
  done.
Qed.

Lemma parseHeaderLineBytes_total line : exists o, parseHeaderLineBytes line = Ok o.
Proof.
  destruct (scanToByte line ":"%byte) as [i|] eqn:E.
  - apply scanToByte_Some in E as (n & v & -> & Hn & _). rewrite parseHeaderLineBytes_colon by done.
    eauto.
  - unfold parseHeaderLineBytes. rewrite E. eauto.
Qed.

Definition print_header (h : headerLine) : bytes := Name h ++ bs ": " ++ Value h.

(** The headers that survive printing: no colon in the name, no leading blank
    in the value. *)
Definition printable_header (h : headerLine) : Prop :=
  (":"%byte ∉ Name h) /\ match Value h with [] => True | c :: _ => is_blank c = false end.

(** What [parseHeaderLineBytes] computes: it never panics; it rejects the
    lines without a colon and splits the others at the first colon, dropping
    the blanks before the value; printed headers are parsed back. *)
Theorem parseHeaderLineBytes_correct line :
  (":"%byte ∉ line -> parseHeaderLineBytes line = Ok None) /\
  (":"%byte ∈ line -> exists n w v, line = n ++ ":"%byte :: w ++ v /\ (":"%byte ∉ n) /\
     Forall (fun c => is_blank c = true) w /\
     match v with [] => True | c :: _ => is_blank c = false end /\
     parseHeaderLineBytes line = Ok (Some (mkHeaderLine n v))) /\
  (forall h, printable_header h -> parseHeaderLineBytes (print_header h) = Ok (Some h)).
Proof.
  repeat split.
  - intros H. unfold parseHeaderLineBytes. by rewrite (proj2 (scanToByte_None _ _) H).
  - intros Hin. destruct (scanToByte line ":"%byte) as [i|] eqn:E;
      [|by apply scanToByte_None in E].
    apply scanToByte_Some in E as (n & r & -> & Hn & _).
    destruct (skipSpaces_spec r) as (w & v & -> & E & Hw & Hv).
    exists n, w, v. repeat split; [done..|]. rewrite parseHeaderLineBytes_colon by done.
    by rewrite E, to_nat_blen, drop_app_length.
  - intros [n v] [Hn Hv]. unfold print_header. cbn [Name Value] in *.
    change (bs ": " ++ v) with (":"%byte :: [SP] ++ v). rewrite parseHeaderLineBytes_colon by done.
    rewrite skipSpaces_app by (repeat constructor; done). done.
Qed.
