(* ===== verification/Framing.v ===== *)
(** * Message framing (internal/parser/framing.go, setting.go, the error values
    of parser.go, and applyHeaderMeta/headerSemanticError of engine.go) *)

From S2P Require Import Prelude Scan StartLine.

(** [ReqOrRsp]: the three constants of setting.go. *)
Inductive ReqOrRsp : Type := REQUEST | RESPONSE | BOTH.

#[global] Instance ReqOrRsp_eq_dec : EqDecision ReqOrRsp.
Proof. solve_decision. Defined.

Inductive bodyMode : Type :=
| bodyModeNone | bodyModeContentLength | bodyModeChunked | bodyModeEOF.

#[global] Instance bodyMode_eq_dec : EqDecision bodyMode.
Proof. solve_decision. Defined.

Record messageMeta : Type := mkMeta {
  m_kind : ReqOrRsp;
  m_statusCode : Z;
  m_hasContentLength : bool;
  m_contentLength : Z;
  m_hasTransferEncoding : bool }.

Definition decideBodyMode (meta : messageMeta) : bodyMode :=
  if m_hasTransferEncoding meta then bodyModeChunked
  else if m_hasContentLength meta then
    if m_contentLength meta =? 0 then bodyModeNone else bodyModeContentLength
  else if bool_decide (m_kind meta = RESPONSE)
          && negb (responseStatusHasNoBody (m_statusCode meta)) then bodyModeEOF
  else bodyModeNone.

(** The errors the package returns: its exported values and the [fmt.Errorf]
    messages; [IOError] is an error of the underlying reader. *)
Inductive perror : Type :=
| ErrMethod | ErrStatusLineHTTP | ErrHTTPVersionNum | ErrHeaderOverflow | ErrNoEndLF
| ErrChunkSize | ErrReqMethod | ErrRequestLineLF
| DuplicateContentLength | InvalidContentLength (value : bytes) | InvalidHeaderSemantics
| ScratchOverflow | UnsupportedBodyMode | IOEOF | URLError.

(** [applyHeaderMeta]: [None] is the result [false], which leaves [meta] as it
    was. *)
Definition applyHeaderMeta (meta : messageMeta) (h : headerLine) : option messageMeta :=
  if equalFoldToken (Name h) (bs "content-length") then
    if m_hasContentLength meta then None
    else
      match parseDecimalInt32 (Value h) with
      | None => None
      | Some n => Some (mkMeta (m_kind meta) (m_statusCode meta) true n (m_hasTransferEncoding meta))
      end
  else if equalFoldToken (Name h) (bs "transfer-encoding")
          && equalFoldToken (Value h) (bs "chunked") then
    Some (mkMeta (m_kind meta) (m_statusCode meta) (m_hasContentLength meta)
            (m_contentLength meta) true)
  else Some meta.

Definition headerSemanticError (meta : messageMeta) (h : headerLine) : perror :=
  if equalFoldToken (Name h) (bs "content-length") then
    if m_hasContentLength meta then DuplicateContentLength
    else InvalidContentLength (Value h)
  else InvalidHeaderSemantics.

(** ** A whole header block *)

(** The meta data of a message whose headers are [hs]; [None] when one of them
    is rejected. *)
Fixpoint applyHeaders (meta : messageMeta) (hs : list headerLine) : option messageMeta :=
  match hs with
  | [] => Some meta
  | h :: hs' =>
      match applyHeaderMeta meta h with
      | None => None
      | Some meta' => applyHeaders meta' hs'
      end
  end.

Definition is_content_length (h : headerLine) : bool :=
  equalFoldToken (Name h) (bs "content-length").

Definition is_chunked_header (h : headerLine) : bool :=
  equalFoldToken (Name h) (bs "transfer-encoding") && equalFoldToken (Value h) (bs "chunked").

Lemma applyHeaderMeta_same meta h :
  is_content_length h = false ->
  applyHeaderMeta meta h =
    Some (mkMeta (m_kind meta) (m_statusCode meta) (m_hasContentLength meta)
            (m_contentLength meta) (m_hasTransferEncoding meta || is_chunked_header h)).
Proof.
  intros H. unfold applyHeaderMeta, is_content_length, is_chunked_header in *. rewrite H.
  destruct (_ && _); [by rewrite orb_true_r|]. rewrite orb_false_r. by destruct meta.
Qed.

Lemma applyHeaders_app meta a b :
  applyHeaders meta (a ++ b) =
    match applyHeaders meta a with Some m => applyHeaders m b | None => None end.
Proof.
  revert meta. induction a as [|h a IH]; intros meta; cbn; [done|].
  by destruct (applyHeaderMeta meta h).
Qed.

Lemma applyHeaders_kind meta hs meta' :
  applyHeaders meta hs = Some meta' -> m_kind meta' = m_kind meta /\ m_statusCode meta' = m_statusCode meta.
Proof.
  revert meta. induction hs as [|h hs IH]; intros meta; cbn [applyHeaders]; [by intros [= ->]|].
  destruct (applyHeaderMeta meta h) as [m1|] eqn:E; [|done]. intros [-> ->]%IH.
  unfold applyHeaderMeta in E. repeat case_match; by simplify_eq/=.
Qed.

(** Without a Content-Length header, a block only records chunked coding. *)
Lemma applyHeaders_no_cl meta hs :
  Forall (fun h => is_content_length h = false) hs ->
  applyHeaders meta hs =
    Some (mkMeta (m_kind meta) (m_statusCode meta) (m_hasContentLength meta)
            (m_contentLength meta) (m_hasTransferEncoding meta || existsb is_chunked_header hs)).
Proof.
  intros H. revert meta. induction H as [|h hs Hh _ IH]; intros meta; cbn.
  - rewrite orb_false_r. by destruct meta.
  - rewrite applyHeaderMeta_same, IH by done. cbn. by rewrite orb_assoc.
Qed.

(** The values of the Content-Length headers of a block, in order. *)
Definition content_lengths (hs : list headerLine) : list bytes :=
  map Value (List.filter is_content_length hs).

(** A second Content-Length is always rejected. *)
Lemma applyHeaders_cl meta hs :
  m_hasContentLength meta = true -> content_lengths hs <> [] -> applyHeaders meta hs = None.
Proof.
  revert meta. unfold content_lengths.
  induction hs as [|h hs IH]; intros meta Hm; cbn [List.filter]; [done|].
  cbn [applyHeaders]. destruct (is_content_length h) eqn:E; intros Hn.
  - unfold applyHeaderMeta, is_content_length in *. by rewrite E, Hm.
  - rewrite applyHeaderMeta_same by done. apply IH; [done|]. exact Hn.
Qed.

Lemma filter_cl_nil hs :
  content_lengths hs = [] -> Forall (fun h => is_content_length h = false) hs.
Proof.
  unfold content_lengths. induction hs as [|h hs IH]; cbn; [constructor|].
  destruct (is_content_length h) eqn:E; [discriminate|]. constructor; auto.
Qed.

Lemma applyHeaders_run meta hs :
  m_hasContentLength meta = false ->
  applyHeaders meta hs =
    let te := m_hasTransferEncoding meta || existsb is_chunked_header hs in
    match content_lengths hs with
    | [] => Some (mkMeta (m_kind meta) (m_statusCode meta) false (m_contentLength meta) te)
    | [v] =>
        match parseDecimalInt32 v with
        | Some n => Some (mkMeta (m_kind meta) (m_statusCode meta) true n te)
        | None => None
        end
    | _ => None
    end.
Proof.
  revert meta. induction hs as [|h hs IH]; intros meta Hm.
  - cbn. rewrite orb_false_r, <- Hm. by destruct meta.
  - cbn [applyHeaders existsb]. destruct (is_content_length h) eqn:E.
    + assert (is_chunked_header h = false) as ->.
      { unfold is_chunked_header, is_content_length in *. rewrite equalFoldToken_true in E.
        rewrite (equalFoldToken_spec (Name h)), E. done. }
      unfold content_lengths. cbn [List.filter]. rewrite E. cbn [map].
      fold (content_lengths hs). cbn [orb].
      unfold applyHeaderMeta, is_content_length in *. rewrite E, Hm.
      destruct (parseDecimalInt32 (Value h)) as [n|]; [|by destruct (content_lengths hs)].
      destruct (content_lengths hs) as [|v vs] eqn:Ec.
      * rewrite applyHeaders_no_cl by (by apply filter_cl_nil). done.
      * apply applyHeaders_cl; [done | congruence].
    + unfold content_lengths. cbn [List.filter]. rewrite E. fold (content_lengths hs).
      rewrite applyHeaderMeta_same, IH by done. cbn. by rewrite <- orb_assoc.
Qed.

(** The framing a header block determines, for every block and start
    meta data without a length: no Content-Length keeps the block; one must be
    a digit string, whose value (as an [int32]) becomes the length; two or more
    reject the block.  Chunked coding is recorded exactly when some header is
    Transfer-Encoding: chunked (names and value without regard to case). *)
Theorem applyHeaders_framing meta hs :
  m_hasContentLength meta = false ->
  applyHeaders meta hs =
    let te := m_hasTransferEncoding meta || existsb is_chunked_header hs in
    match content_lengths hs with
    | [] => Some (mkMeta (m_kind meta) (m_statusCode meta) false (m_contentLength meta) te)
    | [v] =>
        match parseDecimalInt32 v with
        | Some n => Some (mkMeta (m_kind meta) (m_statusCode meta) true n te)
        | None => None
        end
    | _ => None
    end.
Proof. exact (applyHeaders_run meta hs). Qed.

Lemma applyHeaders_framing_witness :
  let hs := [mkHeaderLine (bs "content-LENGTH") (bs "12"); mkHeaderLine (bs "X") []] in
  applyHeaders (mkMeta REQUEST 0 false 0 false) hs = Some (mkMeta REQUEST 0 true 12 false).
Proof. cbv zeta. rewrite applyHeaders_framing by reflexivity. vm_compute. reflexivity. Defined.
