(* ===== verification/Chunked.v ===== *)
(** * Chunked coding (internal/parser/chunked.go)

    Reading a chunk-size line and a chunk's data from a cursor, and the grammar
    of a chunked body. *)

From S2P Require Import Prelude Scan Strconv Cursor.

Fixpoint chunk_size_loop (line : bytes) (size : Z) : option Z :=
  match line with
  | [] => Some size
  | ch :: line' =>
      let digit := unhex ch in
      if digit <? 0 then None
      else chunk_size_loop line' (wrap32 (wrap32 (size * 16) + digit))
  end.

Definition parseChunkSizeLineBytes (line : bytes) : res (option Z) :=
  line' ← (match scanToByte line ";"%byte with
           | Some semi => gslice line 0 semi
           | None => Ok line
           end);
  if blen line' =? 0 then Ok None else Ok (chunk_size_loop line' 0).

(** The cursor is advanced only on success. *)
Definition parseChunkSizeLine (c : cursor) : res (option (Z * cursor)) :=
  match scanCRLF c with
  | None => Ok None
  | Some lineEnd =>
      line ← slice c lineEnd;
      size ← parseChunkSizeLineBytes line;
      match size with
      | None => Ok None
      | Some size => Ok (Some (size, advance (lineEnd + 2) c))
      end
  end.

(** Callers give up the cursor when the result is [false]. *)
Definition consumeChunkData (c : cursor) (size : Z) : res (option (bytes * cursor)) :=
  if (size <? 0) || (remaining c <? size + 2) then Ok None
  else
    data ← slice c size;
    let c := advance size c in
    if remaining c <? 2 then Ok None
    else
      b ← peek c;
      if negb (bool_decide (b = Some CR)) then Ok None
      else
        let c := advance 1 c in
        b ← peek c;
        if negb (bool_decide (b = Some LF)) then Ok None
        else Ok (Some (data, advance 1 c)).

(** ** Sizes *)

(** The part of a size line before its extensions. *)
Definition size_digits (line : bytes) : bytes :=
  match scanToByte line ";"%byte with Some semi => take (Z.to_nat semi) line | None => line end.

Lemma hex_loop_spec line size :
  chunk_size_loop line (wrap32 size) =
  if forallb is_hex line then Some (wrap32 (fold_left (fun n c => n * 16 + unhex c) line size))
  else None.
Proof.
  revert size. induction line as [|c l IH]; intros n; cbn [chunk_size_loop fold_left forallb]; [done|].
  unfold is_hex at 1. destruct (Z.ltb_spec (unhex c) 0), (Z.leb_spec 0 (unhex c)); try lia; [done|].
  cbn [andb]. replace (wrap32 (wrap32 (wrap32 n * 16) + unhex c))
    with (wrap32 (n * 16 + unhex c)); [apply IH|].
  rewrite <- (wrap32_horner 16 n). replace (wrap32 n * 16) with (wrap32 n * 16 * 1) at 1 by lia.
  rewrite <- (wrap32_horner 1 (wrap32 n * 16)). f_equal; lia.
Qed.

Lemma parseChunkSizeLineBytes_spec line :
  parseChunkSizeLineBytes line =
  Ok (let d := size_digits line in
      if negb (blen d =? 0) && forallb is_hex d then Some (wrap32 (hex_value d)) else None).
Proof.
  unfold parseChunkSizeLineBytes, size_digits.
  destruct (scanToByte line ";"%byte) as [i|] eqn:E.
  - apply scanToByte_Some in E as (l & r & -> & _ & ->). rewrite gslice_prefix by done.
    cbn [mbind res_bind]. rewrite to_nat_blen, take_app_length.
    destruct (blen l =? 0); [done|]. change 0 with (wrap32 0) at 1. by rewrite hex_loop_spec.
  - cbn [mbind res_bind]. destruct (blen line =? 0); [done|].
    change 0 with (wrap32 0) at 1. by rewrite hex_loop_spec.
Qed.

Lemma parseChunkSizeLineBytes_total line : exists o, parseChunkSizeLineBytes line = Ok o.
Proof. rewrite parseChunkSizeLineBytes_spec. eauto. Qed.

(** A chunk size written in hexadecimal by [strconv] is read back, whatever
    extension follows it on the line. *)
Theorem chunk_size_roundtrip n ext :
  0 <= n < 2 ^ 31 -> (ext = [] \/ exists e, ext = ";"%byte :: e) ->
  parseChunkSizeLineBytes (formatInt n 16 ++ ext) = Ok (Some n).
Proof.
  intros Hn Hext. destruct (formatHex_spec n) as (H1 & H2 & H3); [lia|].
  assert (";"%byte ∉ formatInt n 16) as Hs.
  { intros Hin%list_elem_of_In. rewrite forallb_forall in H3. by specialize (H3 _ Hin). }
  rewrite parseChunkSizeLineBytes_spec.
  assert (size_digits (formatInt n 16 ++ ext) = formatInt n 16) as ->.
  { unfold size_digits. destruct Hext as [->|[e ->]].
    - rewrite app_nil_r. by rewrite (proj2 (scanToByte_None _ _) Hs).
    - rewrite scanToByte_app, to_nat_blen, take_app_length by done. done. }
  cbv zeta. rewrite H2, H3, wrap32_small by (unfold int32_range; lia).
  destruct (Z.eqb_spec (blen (formatInt n 16)) 0) as [E|]; [by apply blen_zero in E | done].
Qed.

Lemma chunk_size_roundtrip_witness :
  parseChunkSizeLineBytes (formatInt 48879 16 ++ bs ";name=value") = Ok (Some 48879).
Proof. apply chunk_size_roundtrip; [lia | right; eexists; reflexivity]. Defined.

(** ** Cursor steps *)

(** Two unread bytes are consumed as a line end, or not. *)
Lemma parseChunkSizeLine_rest c :
  cursor_ok c ->
  (crlf_free (rest c) /\ parseChunkSizeLine c = Ok None) \/
  exists line r, rest c = line ++ CRLF ++ r /\ crlf_free line /\
    ((parseChunkSizeLineBytes line = Ok None /\ parseChunkSizeLine c = Ok None) \/
     exists size c', parseChunkSizeLineBytes line = Ok (Some size) /\
       parseChunkSizeLine c = Ok (Some (size, c')) /\ cursor_ok c' /\ rest c' = r).
Proof.
  intros Hc. unfold parseChunkSizeLine. rewrite scanCRLF_rest.
  destruct (scanCRLFBytes (rest c)) as [i|] eqn:E; [|left; by apply scanCRLFBytes_None in E].
  apply scanCRLFBytes_Some in E as (line & r & Hr & Hf & ->). right. exists line, r.
  repeat split; [done..|]. rewrite (slice_app c line (CRLF ++ r)) by done. cbn [mbind res_bind].
  destruct (parseChunkSizeLineBytes_total line) as [[size|] Ho]; rewrite Ho; cbn [mbind res_bind];
    [right | by left].
  exists size, (advance (blen line + 2) c). split_and!; [done..| |].
  - apply advance_ok; [done|]. pose proof (blen_nonneg line). lia.
  - apply (advance_app c (line ++ CRLF) r); [done | by rewrite <- app_assoc | by rewrite blen_app].
Qed.

Lemma consumeChunkData_rest c size :
  cursor_ok c ->
  (exists data r c', rest c = data ++ CRLF ++ r /\ blen data = size /\ cursor_ok c' /\
     rest c' = r /\ consumeChunkData c size = Ok (Some (data, c'))) \/
  ((forall data r, rest c = data ++ CRLF ++ r -> blen data <> size) /\
   consumeChunkData c size = Ok None).
Proof.
  intros Hc. unfold consumeChunkData. rewrite remaining_rest by done.
  destruct (Z.ltb_spec size 0) as [Hs|Hs]; cbn [orb].
  { right. split; [|done]. intros data r _. pose proof (blen_nonneg data). lia. }
  destruct (Z.ltb_spec (blen (rest c)) (size + 2)) as [Hl|Hl].
  { right. split; [|done]. intros data r E <-. rewrite E, !blen_app in Hl.
    change (blen CRLF) with 2 in Hl. pose proof (blen_nonneg r). lia. }
  set (data := take (Z.to_nat size) (rest c)). set (tl := drop (Z.to_nat size) (rest c)).
  assert (rest c = data ++ tl) as Hr by (symmetry; apply take_drop).
  assert (blen data = size) as Hd by (unfold data, blen in *; rewrite length_take; lia).
  clearbody data tl. rewrite (slice_app c data tl) by done. cbn [mbind res_bind].
  destruct (advance_app c data tl size Hc Hr) as [Hc1 Hr1]; [done|].
  set (c1 := advance size c) in *. rewrite remaining_rest, Hr1 by done.
  assert (2 <= blen tl) as Htl by (rewrite Hr, blen_app in Hl; lia).
  destruct (Z.ltb_spec (blen tl) 2); [lia|].
  destruct tl as [|x [|y r]]; [unfold blen in *; cbn in *; lia..|].
  rewrite (peek_rest c1), Hr1 by done. cbn [mbind res_bind head].
  assert (forall d r', rest c = d ++ CRLF ++ r' -> blen d = size -> CR :: LF :: r' = x :: y :: r) as Hinj.
  { intros d r' E1 E2. rewrite Hr in E1. apply app_inj_1 in E1 as [_ E1]; [by symmetry|].
    unfold blen in *. lia. }
  case_bool_decide as Ex; cbn [negb].
  2:{ right. split; [|done]. intros d r' E1 E2. specialize (Hinj _ _ E1 E2). congruence. }
  injection Ex as ->.
  destruct (advance_app c1 [CR] (y :: r) 1 Hc1 Hr1) as [Hc2 Hr2]; [done|].
  rewrite peek_rest, Hr2 by done. cbn [mbind res_bind head].
  case_bool_decide as Ey; cbn [negb].
  2:{ right. split; [|done]. intros d r' E1 E2. specialize (Hinj _ _ E1 E2). congruence. }
  injection Ey as ->. left. exists data, r, (advance 1 (advance 1 c1)).
  destruct (advance_app (advance 1 c1) [LF] r 1 Hc2 Hr2) as [Hc3 Hr3]; [done|].
  by rewrite Hr.
Qed.

(** [consumeChunkData] takes exactly [size] bytes followed by a line end:
    it succeeds when the unread bytes have that shape, returns those bytes and
    leaves what follows; otherwise it fails; it never panics, even for a
    negative size. *)
Theorem consumeChunkData_correct c size :
  cursor_ok c ->
  exists o, consumeChunkData c size = Ok o /\
  match o with
  | Some (data, c') => rest c = data ++ CRLF ++ rest c' /\ blen data = size /\ cursor_ok c'
  | None => forall data r, rest c = data ++ CRLF ++ r -> blen data <> size
  end.
Proof.
  intros Hc. destruct (consumeChunkData_rest c size Hc) as [(d & r & c' & ? & ? & ? & Er & ->)|[? ->]].
  - exists (Some (d, c')). by rewrite Er.
  - by exists None.
Qed.

Lemma consumeChunkData_correct_witness :
  cursor_ok (newCursor (bs "hello" ++ CRLF)) /\
  exists o, consumeChunkData (newCursor (bs "hello" ++ CRLF)) 5 = Ok o /\
  match o with
  | Some (data, c') => rest (newCursor (bs "hello" ++ CRLF)) = data ++ CRLF ++ rest c'
      /\ blen data = 5 /\ cursor_ok c'
  | None => forall data r, rest (newCursor (bs "hello" ++ CRLF)) = data ++ CRLF ++ r -> blen data <> 5
  end.
Proof. split; [apply newCursor_ok | apply consumeChunkData_correct, newCursor_ok]. Defined.
