(* ===== verification/Message.v ===== *)
(** * The reference parser (parseMessageDetailed of internal/parser/engine.go)

    The parser that reads a whole buffered message, and the grammar it
    implements: start line, header lines, an empty line, and a body framed by
    Content-Length, by chunked coding, or absent. *)

From S2P Require Import Prelude Scan Strconv Method Cursor StartLine Framing Chunked.

(** ** Definitions *)

Record parsedMessage : Type := mkMessage {
  pm_kind : ReqOrRsp;
  pm_request : requestLine;
  pm_response : responseLine;
  pm_headers : list headerLine;
  pm_body : bytes;
  pm_mode : bodyMode;
  pm_meta : messageMeta }.

(** Zero values of the two start-line structures. *)
Definition zero_requestLine : requestLine := mkRequestLine NoMethod [] 0 0.
Definition zero_responseLine : responseLine := mkResponseLine 0 0 0 [].

(** The pair [(parsedMessage, messageParseResult)]: [ok], neither [ok] nor an
    error (more bytes are needed, or the text is no message), an error. *)
Inductive messageParseResult : Type :=
| ParseOk (msg : parsedMessage)
| ParseIncomplete
| ParseErr (err : perror).

Inductive header_outcome : Type :=
| HeadersDone (headers : list headerLine) (meta : messageMeta) (c : cursor)
| HeadersIncomplete
| HeadersErr (err : perror).

(** The header loop.  Each iteration consumes at least two bytes. *)
Fixpoint header_loop (fuel : nat) (c : cursor) (headers : list headerLine) (meta : messageMeta)
    : res header_outcome :=
  match fuel with
  | O => Crash OutOfFuel
  | S fuel' =>
      if remaining c <? 2 then Ok HeadersIncomplete
      else
        b ← peek c;
        if bool_decide (b = Some CR) then
          let c := advance 1 c in
          b2 ← peek c;
          if negb (bool_decide (b2 = Some LF)) then Ok HeadersIncomplete
          else Ok (HeadersDone headers meta (advance 1 c))
        else
          h ← parseHeaderLine c;
          match h with
          | None => Ok HeadersIncomplete
          | Some h =>
              match applyHeaderMeta meta h with
              | None => Ok (HeadersErr (headerSemanticError meta h))
              | Some meta' =>
                  let lineEnd := default 0 (scanCRLF c) in
                  header_loop fuel' (advance (lineEnd + 2) c) (headers ++ [h]) meta'
              end
          end
  end.

(** The chunk loop: the body so far and the cursor after the final line end. *)
Fixpoint chunk_loop (fuel : nat) (c : cursor) (body : bytes) : res (option (bytes * cursor)) :=
  match fuel with
  | O => Crash OutOfFuel
  | S fuel' =>
      sz ← parseChunkSizeLine c;
      match sz with
      | None => Ok None
      | Some (size, c) =>
          if size =? 0 then
            if remaining c <? 2 then Ok None
            else
              b ← peek c;
              if negb (bool_decide (b = Some CR)) then Ok None
              else
                let c := advance 1 c in
                b ← peek c;
                if negb (bool_decide (b = Some LF)) then Ok None
                else Ok (Some (body, advance 1 c))
          else
            d ← consumeChunkData c size;
            match d with
            | None => Ok None
            | Some (chunk, c) => chunk_loop fuel' c (body ++ chunk)
            end
      end
  end.

(** The start line, the cursor after it and the initial meta data. *)
Definition parse_start (c : cursor) (kind : ReqOrRsp)
    : res (option (requestLine * responseLine * messageMeta * cursor)) :=
  match kind with
  | REQUEST =>
      l ← parseRequestLine c;
      match l, scanCRLF c with
      | Some line, Some lineEnd =>
          Ok (Some (line, zero_responseLine, mkMeta REQUEST 0 false 0 false,
                    advance (lineEnd + 2) c))
      | _, _ => Ok None
      end
  | RESPONSE =>
      l ← parseResponseLine c;
      match l, scanCRLF c with
      | Some line, Some lineEnd =>
          Ok (Some (zero_requestLine, line, mkMeta RESPONSE (sl_StatusCode line) false 0 false,
                    advance (lineEnd + 2) c))
      | _, _ => Ok None
      end
  | BOTH => Ok None
  end.

Definition parseMessageDetailed (b : bytes) (kind : ReqOrRsp) : res messageParseResult :=
  let fuel := S (length b) in
  s ← parse_start (newCursor b) kind;
  match s with
  | None => Ok ParseIncomplete
  | Some (rq, rs, meta, c) =>
      h ← header_loop fuel c [] meta;
      match h with
      | HeadersIncomplete => Ok ParseIncomplete
      | HeadersErr e => Ok (ParseErr e)
      | HeadersDone headers meta c =>
          let mode := decideBodyMode meta in
          r ← (match mode with
               | bodyModeContentLength =>
                   if remaining c <? m_contentLength meta then Ok None
                   else
                     body ← slice c (m_contentLength meta);
                     Ok (Some (body, advance (m_contentLength meta) c))
               | bodyModeChunked => chunk_loop fuel c []
               | _ => Ok (Some ([], c))
               end);
          match r with
          | None => Ok ParseIncomplete
          | Some (body, c) =>
              if negb (remaining c =? 0) then Ok ParseIncomplete
              else Ok (ParseOk (mkMessage kind rq rs headers body mode meta))
          end
      end
  end.

(** ** The grammar of a message *)

(** A header line as it can stand in a block: it is not empty, does not start
    with CR and has no line end inside. *)
Definition header_text (l : bytes) : Prop :=
  l <> [] /\ head l <> Some CR /\ crlf_free l.

Definition header_block (lines : list bytes) : bytes := concat (map (fun l => l ++ CRLF) lines).

Definition header_lines (lines : list bytes) (hs : list headerLine) : Prop :=
  Forall header_text lines /\
  Forall2 (fun l h => parseHeaderLineBytes l = Ok (Some h)) lines hs.

(** A chunked body and its chunks. *)
Inductive chunked_text : bytes -> list bytes -> Prop :=
| chunked_last line :
    crlf_free line -> parseChunkSizeLineBytes line = Ok (Some 0) ->
    chunked_text (line ++ CRLF ++ CRLF) []
| chunked_more line data enc cs :
    crlf_free line -> data <> [] -> parseChunkSizeLineBytes line = Ok (Some (blen data)) ->
    chunked_text enc cs -> chunked_text (line ++ CRLF ++ data ++ CRLF ++ enc) (data :: cs).

Definition body_text (meta : messageMeta) (enc body : bytes) : Prop :=
  match decideBodyMode meta with
  | bodyModeContentLength => enc = body /\ blen body = m_contentLength meta
  | bodyModeChunked => exists cs, chunked_text enc cs /\ body = concat cs
  | _ => enc = [] /\ body = []
  end.

Definition start_text (kind : ReqOrRsp) (line : bytes) (rq : requestLine) (rs : responseLine)
    (meta : messageMeta) : Prop :=
  match kind with
  | REQUEST => parseRequestLineBytes line = Ok (Some rq) /\ rs = zero_responseLine /\
      meta = mkMeta REQUEST 0 false 0 false
  | RESPONSE => parseResponseLineBytes line = Ok (Some rs) /\ rq = zero_requestLine /\
      meta = mkMeta RESPONSE (sl_StatusCode rs) false 0 false
  | BOTH => False
  end.

(** [message_text kind b msg]: the bytes [b] are the text of [msg]. *)
Definition message_text (kind : ReqOrRsp) (b : bytes) (msg : parsedMessage) : Prop :=
  exists line lines enc meta0,
    b = line ++ CRLF ++ header_block lines ++ CRLF ++ enc /\
    crlf_free line /\ start_text kind line (pm_request msg) (pm_response msg) meta0 /\
    header_lines lines (pm_headers msg) /\
    applyHeaders meta0 (pm_headers msg) = Some (pm_meta msg) /\
    pm_kind msg = kind /\ pm_mode msg = decideBodyMode (pm_meta msg) /\
    body_text (pm_meta msg) enc (pm_body msg).

(** ** The header loop *)

(** What stands at the start of the unread bytes when a header is expected. *)
Inductive header_view (r : bytes) : Prop :=
| HV_end tl : r = CRLF ++ tl -> header_view r
| HV_line l tl : r = l ++ CRLF ++ tl -> header_text l -> header_view r
| HV_stuck : (blen r < 2 \/ (exists x tl, r = CR :: x :: tl /\ x <> LF) \/
              (head r <> Some CR /\ crlf_free r)) -> header_view r.

Lemma header_viewP r : header_view r.
Proof.
  destruct r as [|x [|y tl]]; [apply HV_stuck; left; unfold blen; cbn; lia..|].
  destruct (decide (x = CR)) as [->|Hx].
  - destruct (decide (y = LF)) as [->|Hy]; [by apply (HV_end _ tl)|].
    apply HV_stuck. right. left. eauto.
  - destruct (scanCRLFBytes (x :: y :: tl)) as [i|] eqn:E.
    + apply scanCRLFBytes_Some in E as (l & r & E & Hf & _). apply (HV_line _ l r); [done|].
      destruct l as [|z l]; cbn in E; injection E as -> E; [done|].
      split_and!; [done | cbn; congruence | done].
    + apply HV_stuck. right. right. split; [cbn; congruence | by apply scanCRLFBytes_None].
Qed.

Lemma parseHeaderLine_rest c l tl :
  cursor_ok c -> rest c = l ++ CRLF ++ tl -> crlf_free l ->
  parseHeaderLine c = parseHeaderLineBytes l /\ scanCRLF c = Some (blen l).
Proof.
  intros Hc Hr Hf. unfold parseHeaderLine. rewrite scanCRLF_rest, Hr, scanCRLFBytes_app by done.
  rewrite (slice_app c l (CRLF ++ tl)) by done. done.
Qed.

(** One iteration of the header loop, by the shape of the unread bytes. *)
Lemma header_loop_end fuel c hs meta tl :
  cursor_ok c -> rest c = CRLF ++ tl ->
  exists c', header_loop (S fuel) c hs meta = Ok (HeadersDone hs meta c') /\
    cursor_ok c' /\ rest c' = tl.
Proof.
  intros Hc Hr. cbn [header_loop]. rewrite remaining_rest, (peek_rest c), Hr by done.
  destruct (Z.ltb_spec (blen (CRLF ++ tl)) 2) as [H|_]; [unfold CRLF in *; blens|].
  cbn [mbind res_bind app CRLF head]. rewrite bool_decide_true by done.
  destruct (advance_app c [CR] (LF :: tl) 1 Hc Hr) as [H1 R1]; [done|].
  rewrite (peek_rest (advance 1 c)), R1 by done. cbn [mbind res_bind head].
  rewrite bool_decide_true by done. cbn [negb].
  destruct (advance_app _ [LF] tl 1 H1 R1) as [H2 R2]; [done|]. eauto.
Qed.

Lemma header_text_long l tl : header_text l -> 2 <= blen (l ++ CRLF ++ tl).
Proof. intros _. unfold CRLF. blens. Qed.

Lemma header_loop_line fuel c hs meta l tl :
  cursor_ok c -> rest c = l ++ CRLF ++ tl -> header_text l ->
  header_loop (S fuel) c hs meta =
    h ← parseHeaderLineBytes l;
    match h with
    | None => Ok HeadersIncomplete
    | Some h =>
        match applyHeaderMeta meta h with
        | None => Ok (HeadersErr (headerSemanticError meta h))
        | Some meta' => header_loop fuel (advance (blen l + 2) c) (hs ++ [h]) meta'
        end
    end.
Proof.
  intros Hc Hr Hl. pose proof (header_text_long l tl Hl). destruct Hl as (Hne & Hcr & Hf).
  cbn [header_loop]. rewrite remaining_rest, (peek_rest c), Hr by done.
  destruct (Z.ltb_spec (blen (l ++ CRLF ++ tl)) 2) as [|_]; [lia|].
  cbn [mbind res_bind]. rewrite bool_decide_false by (by destruct l).
  destruct (parseHeaderLine_rest c l tl Hc Hr Hf) as [-> ->]. done.
Qed.

Lemma header_loop_stuck fuel c hs meta :
  cursor_ok c ->
  (blen (rest c) < 2 \/ (exists x tl, rest c = CR :: x :: tl /\ x <> LF) \/
     (head (rest c) <> Some CR /\ crlf_free (rest c))) ->
  header_loop (S fuel) c hs meta = Ok HeadersIncomplete.
Proof.
  intros Hc H. cbn [header_loop]. rewrite remaining_rest, (peek_rest c) by done.
  destruct (Z.ltb_spec (blen (rest c)) 2) as [|Hlen]; [done|]. cbn [mbind res_bind].
  destruct H as [H|[(x & tl & Hr & Hx)|[Hh Hf]]]; [lia| |].
  - rewrite Hr. cbn [head]. rewrite bool_decide_true by done.
    destruct (advance_app c [CR] (x :: tl) 1 Hc Hr) as [H1 R1]; [done|].
    rewrite (peek_rest (advance 1 c)), R1 by done. cbn [mbind res_bind head].
    rewrite bool_decide_false by congruence. done.
  - rewrite bool_decide_false by done. unfold parseHeaderLine.
    rewrite scanCRLF_rest, (proj2 (scanCRLFBytes_None _)) by done. done.
Qed.

(** The loop terminates within its fuel, and what it reports of the unread
    bytes. *)
Lemma header_loop_sound fuel c hs meta :
  cursor_ok c -> (length (rest c) < fuel)%nat ->
  exists o, header_loop fuel c hs meta = Ok o /\
  match o with
  | HeadersDone hs' meta' c' =>
      exists lines hs1, rest c = header_block lines ++ CRLF ++ rest c' /\ hs' = hs ++ hs1 /\
        header_lines lines hs1 /\ applyHeaders meta hs1 = Some meta' /\ cursor_ok c'
  | HeadersErr e =>
      exists lines hs1 l h tl meta1, rest c = header_block lines ++ l ++ CRLF ++ tl /\
        header_lines lines hs1 /\ header_text l /\ parseHeaderLineBytes l = Ok (Some h) /\
        applyHeaders meta hs1 = Some meta1 /\ applyHeaderMeta meta1 h = None /\
        e = headerSemanticError meta1 h
  | HeadersIncomplete => True
  end.
Proof.
  revert c hs meta. induction fuel as [|fuel IH]; intros c hs meta Hc Hfuel; [lia|].
  destruct (header_viewP (rest c)) as [tl Hr|l tl Hr Hl|Hs].
  - destruct (header_loop_end fuel c hs meta tl Hc Hr) as (c' & -> & Hc' & Hr').
    eexists; split; [done|]. exists [], []. rewrite app_nil_r, Hr'.
    split_and!; [done | done | split; constructor | done | done].
  - rewrite (header_loop_line fuel c hs meta l tl) by done.
    destruct (parseHeaderLineBytes_total l) as [[h|] Hh]; rewrite Hh; cbn [mbind res_bind];
      [|by exists HeadersIncomplete].
    destruct (applyHeaderMeta meta h) as [meta'|] eqn:Em.
    + destruct (advance_app c (l ++ CRLF) tl (blen l + 2)) as [Hc' Hr'];
        [done | by rewrite <- app_assoc | by rewrite blen_app |].
      destruct (IH _ (hs ++ [h]) meta' Hc') as (o & -> & Ho).
      { rewrite Hr'. rewrite Hr in Hfuel. rewrite !length_app in Hfuel. cbn in Hfuel. lia. }
      exists o. split; [done|]. rewrite Hr' in Ho. destruct o as [hs' m' c'| |e]; [| done |].
      * destruct Ho as (lines & hs1 & -> & -> & [H1 H2] & Ha & Hok).
        exists (l :: lines), (h :: hs1). rewrite Hr, <- !app_assoc. cbn [applyHeaders]. rewrite Em.
        split_and!; [by unfold header_block; cbn; rewrite <- !app_assoc | done | | done | done].
        split; by constructor.
      * destruct Ho as (lines & hs1 & l1 & h1 & tl1 & m1 & -> & [H1 H2] & Hrest).
        exists (l :: lines), (h :: hs1), l1, h1, tl1, m1. rewrite Hr. cbn [applyHeaders].
        rewrite Em. split_and!; try apply Hrest.
        { by unfold header_block; cbn; rewrite <- !app_assoc. }
        split; by constructor.
    + eexists; split; [done|]. exists [], [], l, h, tl, meta.
      split_and!; done.
  - rewrite header_loop_stuck by done. by eexists.
Qed.

(** A well-formed block is read to its end. *)
Lemma header_loop_complete lines hs1 fuel c hs meta meta' tl :
  cursor_ok c -> (length (rest c) < fuel)%nat ->
  rest c = header_block lines ++ CRLF ++ tl -> header_lines lines hs1 ->
  applyHeaders meta hs1 = Some meta' ->
  exists c', header_loop fuel c hs meta = Ok (HeadersDone (hs ++ hs1) meta' c') /\
    cursor_ok c' /\ rest c' = tl.
Proof.
  intros Hc Hf Hr [Ht Hp]. revert fuel c hs meta Hc Hf Hr.
  induction Hp as [|l h lines hs1 Hh Hp IH]; intros [|fuel] c hs meta Hc Hf Hr Ha; try lia.
  - injection Ha as <-. rewrite app_nil_r. by apply header_loop_end.
  - inversion_clear Ht as [|? ? Hl Htl]. cbn [applyHeaders] in Ha.
    assert (rest c = l ++ CRLF ++ (header_block lines ++ CRLF ++ tl)) as Hr1.
    { rewrite Hr. unfold header_block. cbn. by rewrite <- !app_assoc. }
    rewrite (header_loop_line fuel c hs meta l (header_block lines ++ CRLF ++ tl)) by done.
    rewrite Hh. cbn [mbind res_bind].
    destruct (applyHeaderMeta meta h) as [m1|]; [|discriminate].
    destruct (advance_app c (l ++ CRLF) (header_block lines ++ CRLF ++ tl) (blen l + 2)) as [Hc' Hr'];
      [done | by rewrite <- app_assoc | by rewrite blen_app |].
    rewrite (cons_middle h hs hs1), app_assoc. apply IH; try done.
    rewrite Hr'. rewrite Hr1 in Hf. rewrite !length_app in *. cbn [length CRLF] in *. lia.
Qed.

(** ** The chunk loop *)

(** The final line end of a chunked body. *)
Lemma chunk_end_rest c :
  cursor_ok c ->
  (exists c' tl, rest c = CRLF ++ tl /\ cursor_ok c' /\ rest c' = tl /\
     forall (k : cursor -> res (option (bytes * cursor))),
     (if remaining c <? 2 then Ok None
      else b ← peek c;
        if negb (bool_decide (b = Some CR)) then Ok None
        else b ← peek (advance 1 c);
          if negb (bool_decide (b = Some LF)) then Ok None else k (advance 1 (advance 1 c))) = k c') \/
  ((forall tl, rest c <> CRLF ++ tl) /\
     forall (k : cursor -> res (option (bytes * cursor))),
     (if remaining c <? 2 then Ok None
      else b ← peek c;
        if negb (bool_decide (b = Some CR)) then Ok None
        else b ← peek (advance 1 c);
          if negb (bool_decide (b = Some LF)) then Ok None else k (advance 1 (advance 1 c))) = Ok None).
Proof.
  intros Hc. rewrite remaining_rest, (peek_rest c) by done.
  destruct (rest c) as [|x [|y tl]] eqn:Hr; [right; split; [done | reflexivity]..|].
  destruct (Z.ltb_spec (blen (x :: y :: tl)) 2) as [|_]; [blens|]. cbn [mbind res_bind head].
  case_bool_decide as Hx; cbn [negb]; [|right; split; [by intros ? [=]; subst | done]]. injection Hx as ->.
  destruct (advance_app c [CR] (y :: tl) 1 Hc Hr) as [H1 R1]; [done|].
  rewrite (peek_rest (advance 1 c)), R1 by done. cbn [mbind res_bind head].
  case_bool_decide as Hy; cbn [negb]; [|right; split; [by intros ? [=]; subst | done]]. injection Hy as ->.
  left. destruct (advance_app _ [LF] tl 1 H1 R1) as [H2 R2]; [done|]. by exists (advance 1 (advance 1 c)), tl.
Qed.

Lemma chunk_loop_sound fuel c body :
  cursor_ok c -> (length (rest c) < fuel)%nat ->
  exists o, chunk_loop fuel c body = Ok o /\
  match o with
  | Some (body', c') => exists enc cs, rest c = enc ++ rest c' /\ chunked_text enc cs /\
      body' = body ++ concat cs /\ cursor_ok c'
  | None => True
  end.
Proof.
  revert c body. induction fuel as [|fuel IH]; intros c body Hc Hf; [lia|]. cbn [chunk_loop].
  destruct (parseChunkSizeLine_rest c Hc)
    as [[_ ->]|(line & r & Hr & Hl & [[_ ->]|(size & c1 & Hs & -> & Hc1 & Hr1)])];
    cbn [mbind res_bind]; [by exists None.. |].
  destruct (Z.eqb_spec size 0) as [->|Hz].
  - destruct (chunk_end_rest c1 Hc1) as [(c2 & tl & Hr2 & Hc2 & Hr3 & Hk)|[_ Hk]];
      rewrite (Hk (fun c => Ok (Some (body, c)))); [|by exists None].
    eexists; split; [done|]. exists (line ++ CRLF ++ CRLF), [].
    rewrite Hr, <- Hr1, Hr2, Hr3, <- !app_assoc, app_nil_r. split_and!; [done | by constructor | done..].
  - destruct (consumeChunkData_rest c1 size Hc1) as [(d & r2 & c2 & Hr2 & Hd & Hc2 & Hr3 & ->)|[_ ->]];
      cbn [mbind res_bind]; [|by exists None].
    destruct (IH c2 (body ++ d) Hc2) as (o & -> & Ho).
    { rewrite Hr, <- Hr1, Hr2 in Hf. rewrite Hr3. rewrite !length_app in Hf.
      cbn [length CRLF] in Hf. lia. }
    exists o. split; [done|]. destruct o as [[body' c']|]; [|done].
    destruct Ho as (enc & cs & He & Hcs & -> & Hc'). exists (line ++ CRLF ++ d ++ CRLF ++ enc), (d :: cs).
    rewrite Hr, <- Hr1, Hr2, <- Hr3, He. cbn [concat]. rewrite <- !app_assoc. split_and!; [done| |done..].
    constructor; [done | intros ->; by cbn in Hd | by rewrite Hd | done].
Qed.

Lemma chunk_loop_complete enc cs fuel c body tl :
  cursor_ok c -> (length (rest c) < fuel)%nat -> rest c = enc ++ tl -> chunked_text enc cs ->
  exists c', chunk_loop fuel c body = Ok (Some (body ++ concat cs, c')) /\
    cursor_ok c' /\ rest c' = tl.
Proof.
  intros Hc Hf Hr Ht. revert fuel c body Hc Hf Hr.
  induction Ht as [line Hl Hs|line d enc cs Hl Hd Hs Ht IH]; intros [|fuel] c body Hc Hf Hr;
    try lia; cbn [chunk_loop]; rewrite <- !app_assoc in Hr;
    (destruct (parseChunkSizeLine_rest c Hc)
      as [[Hn _]|(line' & r & Hr' & Hl' & Hcase)];
      [rewrite Hr in Hn; by edestruct Hn|]);
    (rewrite Hr' in Hr; apply crlf_split_inj in Hr as [-> ->]; [|done..]);
    (destruct Hcase as [[Hs' _]|(size & c1 & Hs' & -> & Hc1 & Hr1)]; [congruence|]);
    rewrite Hs in Hs'; injection Hs' as <-; cbn [mbind res_bind].
  - change (0 =? 0) with true. cbn [concat]. rewrite app_nil_r.
    destruct (chunk_end_rest c1 Hc1) as [(c2 & tl' & Hr2 & Hc2 & Hr3 & Hk)|[Hn _]];
      [|by destruct (Hn tl)].
    rewrite (Hk (fun c => Ok (Some (body, c)))). exists c2. split_and!; [done..|].
    rewrite Hr1 in Hr2. injection Hr2 as ->. done.
  - destruct (Z.eqb_spec (blen d) 0) as [E|_]; [by apply blen_zero in E|].
    destruct (consumeChunkData_rest c1 (blen d) Hc1) as [(d' & r2 & c2 & Hr2 & Hd' & Hc2 & Hr3 & ->)|[Hn _]];
      [|by destruct (Hn d (enc ++ tl))].
    cbn [mbind res_bind concat]. rewrite Hr1 in Hr2.
    apply app_inj_1 in Hr2 as [<- Hr2]; [|unfold blen in Hd'; lia]. injection Hr2 as <-.
    rewrite app_assoc. apply IH; try done. rewrite Hr3. rewrite Hr' in Hf.
    rewrite !length_app in *. cbn [length CRLF] in *. lia.
Qed.

(** ** The whole message *)

Lemma parse_start_sound b kind :
  exists o, parse_start (newCursor b) kind = Ok o /\
  match o with
  | Some (rq, rs, meta, c) => exists line, b = line ++ CRLF ++ rest c /\ crlf_free line /\
      start_text kind line rq rs meta /\ cursor_ok c
  | None => True
  end.
Proof.
  pose proof (newCursor_ok b) as Hc. unfold parse_start, parseRequestLine, parseResponseLine.
  rewrite scanCRLF_rest, rest_newCursor.
  destruct kind; [ | | by exists None].
  all: destruct (scanCRLFBytes b) as [i|] eqn:E; [|by exists None];
    apply scanCRLFBytes_Some in E as (line & r & Eb & Hf & ->);
    rewrite (slice_app _ line (CRLF ++ r)) by done; cbn [mbind res_bind].
  1: destruct (parseRequestLineBytes_total line) as [[l|] El];
    rewrite El; cbn [mbind res_bind]; [|by exists None].
  2: destruct (parseResponseLineBytes_total line) as [[l|] El];
    rewrite El; cbn [mbind res_bind]; [|by exists None].
  all: eexists; split; [done|]; exists line;
    destruct (advance_app (newCursor b) (line ++ CRLF) r (blen line + 2)) as [H1 ->];
      [done | rewrite rest_newCursor, <- app_assoc; done | by rewrite blen_app |]; done.
Qed.

Lemma parse_start_complete line r kind rq rs meta :
  crlf_free line -> start_text kind line rq rs meta ->
  exists c, parse_start (newCursor (line ++ CRLF ++ r)) kind = Ok (Some (rq, rs, meta, c)) /\
    cursor_ok c /\ rest c = r.
Proof.
  intros Hf Hs. set (b := line ++ CRLF ++ r). pose proof (newCursor_ok b) as Hc.
  destruct (advance_app (newCursor b) (line ++ CRLF) r (blen line + 2)) as [H1 H2];
    [done | rewrite rest_newCursor, <- app_assoc; done | by rewrite blen_app |].
  exists (advance (blen line + 2) (newCursor b)).
  unfold parse_start, parseRequestLine, parseResponseLine.
  assert (scanCRLF (newCursor b) = Some (blen line)) as ->
    by (rewrite scanCRLF_rest, rest_newCursor; by apply scanCRLFBytes_app).
  rewrite (slice_app _ line (CRLF ++ r)) by done. cbn [mbind res_bind].
  destruct kind; [| | done]; destruct Hs as (-> & -> & ->); done.
Qed.

(** The body of a message whose header block has been read. *)
Definition read_body (fuel : nat) (meta : messageMeta) (c : cursor) : res (option (bytes * cursor)) :=
  match decideBodyMode meta with
  | bodyModeContentLength =>
      if remaining c <? m_contentLength meta then Ok None
      else body ← slice c (m_contentLength meta);
           Ok (Some (body, advance (m_contentLength meta) c))
  | bodyModeChunked => chunk_loop fuel c []
  | _ => Ok (Some ([], c))
  end.

Lemma read_body_sound fuel meta c :
  cursor_ok c -> (length (rest c) < fuel)%nat ->
  (decideBodyMode meta = bodyModeContentLength -> 0 <= m_contentLength meta) ->
  exists o, read_body fuel meta c = Ok o /\
  match o with
  | Some (body, c') => exists enc, rest c = enc ++ rest c' /\ body_text meta enc body /\ cursor_ok c'
  | None => True
  end.
Proof.
  intros Hc Hf Hn. unfold read_body, body_text.
  destruct (decideBodyMode meta); try (eexists; split; [done|]; exists []; auto).
  - specialize (Hn eq_refl). rewrite remaining_rest by done.
    destruct (Z.ltb_spec (blen (rest c)) (m_contentLength meta)) as [|Hl]; [by exists None|].
    set (n := m_contentLength meta) in *.
    assert (rest c = take (Z.to_nat n) (rest c) ++ drop (Z.to_nat n) (rest c)) as Hr
      by (symmetry; apply take_drop).
    assert (blen (take (Z.to_nat n) (rest c)) = n) as Hb
      by (unfold blen in *; rewrite length_take; lia).
    rewrite (slice_app c _ _ n Hc Hr) by done. cbn [mbind res_bind].
    eexists; split; [done|]. eexists. rewrite advance_rest by done.
    split_and!; [exact Hr | done | done | by apply advance_ok].
  - destruct (chunk_loop_sound fuel c [] Hc Hf) as (o & -> & Ho). exists o. split; [done|].
    destruct o as [[body c']|]; [|done]. destruct Ho as (enc & cs & ? & ? & -> & ?). eauto 10.
Qed.

Lemma read_body_complete fuel meta c enc body :
  cursor_ok c -> (length (rest c) < fuel)%nat -> rest c = enc -> body_text meta enc body ->
  exists c', read_body fuel meta c = Ok (Some (body, c')) /\ remaining c' = 0.
Proof.
  intros Hc Hf Hr Ht. unfold read_body, body_text in *.
  destruct (decideBodyMode meta).
  1,4: destruct Ht as [-> ->]; exists c; rewrite remaining_rest, Hr by done; done.
  - destruct Ht as [-> Hb]. rewrite remaining_rest, Hr, Hb by done.
    destruct (Z.ltb_spec (m_contentLength meta) (m_contentLength meta)); [lia|].
    rewrite (slice_app c body []) by (rewrite ?app_nil_r; done). cbn [mbind res_bind].
    eexists; split; [done|].
    destruct (advance_app c body [] (m_contentLength meta)) as [H1 H2];
      [done | by rewrite app_nil_r | done |]. by rewrite remaining_rest, H2.
  - destruct Ht as (cs & Ht & ->).
    destruct (chunk_loop_complete enc cs fuel c [] []) as (c' & -> & Hc' & Hr');
      [done | done | by rewrite app_nil_r | done |].
    exists c'. by rewrite remaining_rest, Hr'.
Qed.

Lemma parseMessageDetailed_unfold b kind :
  parseMessageDetailed b kind =
  s ← parse_start (newCursor b) kind;
  match s with
  | None => Ok ParseIncomplete
  | Some (rq, rs, meta, c) =>
      h ← header_loop (S (length b)) c [] meta;
      match h with
      | HeadersIncomplete => Ok ParseIncomplete
      | HeadersErr e => Ok (ParseErr e)
      | HeadersDone headers meta c =>
          r ← read_body (S (length b)) meta c;
          match r with
          | None => Ok ParseIncomplete
          | Some (body, c) =>
              if negb (remaining c =? 0) then Ok ParseIncomplete
              else Ok (ParseOk (mkMessage kind rq rs headers body (decideBodyMode meta) meta))
          end
      end
  end.
Proof. done. Qed.

(** The text of a message before its body, and the meta data it determines. *)
Definition head_text (kind : ReqOrRsp) (b enc : bytes) (meta : messageMeta) : Prop :=
  exists line lines hs rq rs meta0, b = line ++ CRLF ++ header_block lines ++ CRLF ++ enc /\
    crlf_free line /\ start_text kind line rq rs meta0 /\ header_lines lines hs /\
    applyHeaders meta0 hs = Some meta.

(** The text of a header block rejected at one of its lines. *)
Definition rejected_text (kind : ReqOrRsp) (b : bytes) (e : perror) : Prop :=
  exists line lines hs rq rs meta0 meta l h tl,
    b = line ++ CRLF ++ header_block lines ++ l ++ CRLF ++ tl /\ crlf_free line /\
    start_text kind line rq rs meta0 /\ header_lines lines hs /\ header_text l /\
    parseHeaderLineBytes l = Ok (Some h) /\ applyHeaders meta0 hs = Some meta /\
    applyHeaderMeta meta h = None /\ e = headerSemanticError meta h.

(** The declared length of the body, as an [int32], is negative. *)
Definition negative_length (kind : ReqOrRsp) (b : bytes) : Prop :=
  exists enc meta, head_text kind b enc meta /\
    decideBodyMode meta = bodyModeContentLength /\ m_contentLength meta < 0.

Lemma parse_sound b kind :
  match parseMessageDetailed b kind with
  | Ok (ParseOk msg) => message_text kind b msg
  | Ok (ParseErr e) => rejected_text kind b e
  | Ok ParseIncomplete => True
  | Crash f => f = SliceBounds /\ negative_length kind b
  end.
Proof.
  rewrite parseMessageDetailed_unfold.
  destruct (parse_start_sound b kind) as (s & -> & Hs). cbn [mbind res_bind].
  destruct s as [[[[rq rs] meta0] c]|]; [|done].
  destruct Hs as (line & Hb & Hl & Hst & Hc).
  destruct (header_loop_sound (S (length b)) c [] meta0 Hc) as (h & -> & Hh).
  { rewrite Hb. rewrite !length_app. lia. }
  cbn [mbind res_bind]. destruct h as [hs meta c1| |e]; [| done |].
  2:{ destruct Hh as (lines & hs1 & l & h & tl & m & Hr & Hrest). rewrite Hr in Hb.
      by exists line, lines, hs1, rq, rs, meta0, m, l, h, tl. }
  destruct Hh as (lines & hs1 & Hr & -> & Hlines & Ha & Hc1). cbn [app].
  assert (head_text kind b (rest c1) meta) as Hhead
    by (exists line, lines, hs1, rq, rs, meta0; by rewrite Hb, Hr).
  destruct (decide (decideBodyMode meta = bodyModeContentLength /\ m_contentLength meta < 0))
    as [[Hm Hneg]|Hpos].
  { unfold read_body. rewrite Hm, remaining_rest by done. pose proof (blen_nonneg (rest c1)).
    destruct (Z.ltb_spec (blen (rest c1)) (m_contentLength meta)); [lia|].
    rewrite slice_neg by done. cbn [mbind res_bind]. split; [done|]. by exists (rest c1), meta. }
  destruct (read_body_sound (S (length b)) meta c1 Hc1) as (r & -> & Hbody).
  { rewrite Hb, Hr. rewrite !length_app. lia. }
  { intros Hm. apply Z.nlt_ge. tauto. }
  cbn [mbind res_bind]. destruct r as [[body c2]|]; [|done].
  destruct Hbody as (enc & He & Ht & Hc2). rewrite remaining_rest by done.
  destruct (Z.eqb_spec (blen (rest c2)) 0) as [Hz|]; cbn [negb]; [|done].
  apply blen_zero in Hz. rewrite Hz, app_nil_r in He.
  exists line, lines, enc, meta0. rewrite Hb, Hr, He. by cbn.
Qed.

Lemma parse_text b kind msg :
  parseMessageDetailed b kind = Ok (ParseOk msg) -> message_text kind b msg.
Proof. intros E. pose proof (parse_sound b kind) as H. by rewrite E in H. Qed.

Lemma parse_complete b kind msg :
  message_text kind b msg -> parseMessageDetailed b kind = Ok (ParseOk msg).
Proof.
  intros (line & lines & enc & meta0 & -> & Hl & Hst & Hlines & Ha & Hk & Hm & Ht).
  rewrite parseMessageDetailed_unfold. set (fuel := S (length _)).
  destruct (parse_start_complete line (header_block lines ++ CRLF ++ enc) kind _ _ _ Hl Hst)
    as (c & -> & Hc & Hr). cbn [mbind res_bind].
  destruct (header_loop_complete lines (pm_headers msg) fuel c [] meta0 (pm_meta msg) enc)
    as (c1 & -> & Hc1 & Hr1); [done | | done | done | done |].
  { rewrite Hr. unfold fuel. rewrite !length_app. lia. }
  cbn [mbind res_bind app].
  destruct (read_body_complete fuel (pm_meta msg) c1 enc (pm_body msg)) as (c2 & -> & Hz);
    [done | | done | done |].
  { rewrite Hr1. unfold fuel. rewrite !length_app. lia. }
  cbn [mbind res_bind]. rewrite Hz. cbn. rewrite <- Hm. destruct msg. cbn in *. by subst.
Qed.

(** A declared length that does not fit makes the parser panic, whatever body
    follows: the slice it takes ends before it starts. *)
Lemma parse_negative_crash b kind enc meta :
  head_text kind b enc meta -> decideBodyMode meta = bodyModeContentLength ->
  m_contentLength meta < 0 -> parseMessageDetailed b kind = Crash SliceBounds.
Proof.
  intros (line & lines & hs & rq & rs & meta0 & -> & Hl & Hst & Hlines & Ha) Hmode Hneg.
  rewrite parseMessageDetailed_unfold. set (fuel := S (length _)).
  destruct (parse_start_complete line (header_block lines ++ CRLF ++ enc) kind _ _ _ Hl Hst)
    as (c & -> & Hc & Hr). cbn [mbind res_bind].
  destruct (header_loop_complete lines hs fuel c [] meta0 meta enc)
    as (c1 & -> & Hc1 & Hr1); [done | | done | done | done |].
  { rewrite Hr. unfold fuel. rewrite !length_app. lia. }
  cbn [mbind res_bind]. unfold read_body. rewrite Hmode, remaining_rest by done.
  pose proof (blen_nonneg (rest c1)).
  destruct (Z.ltb_spec (blen (rest c1)) (m_contentLength meta)); [lia|].
  by rewrite slice_neg.
Qed.

(** C1. The reference parser and the message grammar agree, on every buffer:
    it returns a message exactly when the whole buffer is the text of that
    message; an error only for a header block with a rejected line, and then
    the error of that line; and it panics exactly when the header block declares
    a Content-Length that is negative as an [int32].  It always terminates. *)
Theorem parseMessageDetailed_correct b kind :
  (forall msg, parseMessageDetailed b kind = Ok (ParseOk msg) <-> message_text kind b msg) /\
  (forall e, parseMessageDetailed b kind = Ok (ParseErr e) -> rejected_text kind b e) /\
  (forall f, parseMessageDetailed b kind = Crash f <-> f = SliceBounds /\ negative_length kind b).
Proof.
  pose proof (parse_sound b kind) as H. split_and!.
  - intros msg. split; [intros E; by rewrite E in H | apply parse_complete].
  - intros e E. by rewrite E in H.
  - intros f. split; [intros E; by rewrite E in H|].
    intros [-> (enc & meta & H1 & H2 & H3)]. by apply (parse_negative_crash b kind enc meta).
Qed.

(** The grammar is unambiguous: a buffer is the text of at most one message of
    a kind. *)
Lemma message_text_unique kind b m1 m2 :
  message_text kind b m1 -> message_text kind b m2 -> m1 = m2.
Proof. intros H1%parse_complete H2%parse_complete. congruence. Qed.

(** ** Printing messages *)

(** One chunk as the response writer emits it, and a chunked body. *)
Definition encode_chunk (d : bytes) : bytes := formatInt (blen d) 16 ++ CRLF ++ d ++ CRLF.
Definition last_chunk : bytes := bs "0" ++ CRLF ++ CRLF.
Definition encode_chunks (cs : list bytes) : bytes := concat (map encode_chunk cs) ++ last_chunk.

Lemma digits_crlf_free (P : byte -> bool) l :
  P CR = false -> forallb P l = true -> crlf_free l.
Proof.
  intros HP H x y ->. rewrite forallb_app in H. cbn [forallb] in H. rewrite HP in H.
  by rewrite andb_false_r in H.
Qed.

Lemma encode_chunks_text cs :
  Forall (fun d => d <> [] /\ blen d < 2 ^ 31) cs -> chunked_text (encode_chunks cs) cs.
Proof.
  induction 1 as [|d cs [Hd Hlt] _ IH]; unfold encode_chunks.
  - apply (chunked_last (bs "0")); [|done]. by apply (digits_crlf_free is_hex).
  - cbn [map concat]. unfold encode_chunk at 1. rewrite <- !app_assoc.
    pose proof (blen_nonneg d). destruct (formatHex_spec (blen d)) as (H1 & H2 & H3); [lia|].
    constructor; [by apply (digits_crlf_free is_hex) | done | | exact IH].
    rewrite parseChunkSizeLineBytes_spec. unfold size_digits.
    rewrite (proj2 (scanToByte_None _ _)).
    2:{ intros Hin%list_elem_of_In. rewrite forallb_forall in H3. by specialize (H3 _ Hin). }
    cbv zeta. rewrite H2, H3, wrap32_small by (unfold int32_range; lia).
    destruct (Z.eqb_spec (blen (formatInt (blen d) 16)) 0) as [E|]; [by apply blen_zero in E | done].
Qed.

(** A header that can stand in a printed block. *)
Definition sendable_header (h : headerLine) : Prop :=
  printable_header h /\ Name h <> [] /\ (CR ∉ Name h) /\ (CR ∉ Value h).

Lemma CR_crlf_free l : CR ∉ l -> crlf_free l.
Proof. intros H x y ->. apply H. set_solver. Qed.

Lemma print_headers_lines hs :
  Forall sendable_header hs -> header_lines (map print_header hs) hs.
Proof.
  induction 1 as [|h hs (Hp & Hn & H1 & H2) _ [IH1 IH2]]; [split; constructor|].
  split; constructor; try done.
  - unfold header_text, print_header. split_and!.
    + by destruct (Name h).
    + destruct (Name h) as [|c n]; [done|]. cbn. intros [= ->]. by destruct H1; constructor.
    + apply CR_crlf_free. rewrite !not_elem_of_app. split_and!; [done | | done].
      apply scanToByte_None. vm_compute. reflexivity.
  - destruct h as [n v]. destruct Hp as [Hc Hv]. unfold print_header. cbn [Name Value] in *.
    change (bs ": " ++ v) with (":"%byte :: [SP] ++ v). rewrite parseHeaderLineBytes_colon by done.
    rewrite skipSpaces_app by (repeat constructor; done). done.
Qed.

(** The text of a response with the given headers and body text. *)
Definition print_response (r : responseLine) (hs : list headerLine) (enc : bytes) : bytes :=
  print_status_line r ++ CRLF ++ header_block (map print_header hs) ++ CRLF ++ enc.

(** The text of a request. *)
Definition print_request (r : requestLine) (hs : list headerLine) (enc : bytes) : bytes :=
  print_request_line r ++ CRLF ++ header_block (map print_header hs) ++ CRLF ++ enc.
