(* ===== verification/ChunkedBody.v ===== *)
(** * Chunked request bodies (net/http/httputil.NewChunkedReader)

    The body of a chunked request is read through the standard library's chunked
    reader, on the buffered reader of the connection.  The engine's models take it
    as an argument, the bytes of a body and what is left of the input; here is what
    they rely on, and the reader itself, which has it. *)

From S2P Require Import Prelude Scan Strconv Cursor Chunked Message.

(** ** What is relied on *)

(** Chunks as a client sends them. *)
Definition client_chunks (cs : list bytes) : Prop := Forall (fun c => c <> [] /\ blen c < 2 ^ 31) cs.

(** The reader delivers the data of the chunks and is at its end when it has read the
    chunk of length 0: the line end after that chunk, where trailers would be, is not
    its to read. *)
Definition reads_chunks (readChunked : Z -> bytes -> bytes * bytes) : Prop :=
  forall cs rest n, client_chunks cs -> blen (concat cs) < n ->
    readChunked n (encode_chunks cs ++ rest) = (concat cs, CRLF ++ rest).

(** ** The reader *)

(** [readChunkLine]: up to a line feed, after the only carriage return. *)
Definition readChunkLine (d : bytes) : option (bytes * bytes) :=
  match scanToByte d LF with
  | None => None
  | Some i =>
      match scanToByte (take (Z.to_nat (i + 1)) d) CR with
      | Some j => if j =? i - 1 then Some (take (Z.to_nat j) d, drop (Z.to_nat (i + 1)) d) else None
      | None => None
      end
  end.

Definition isASCIISpace (c : byte) : bool := bool_decide (c ∈ [SP; HT; LF; CR]).

Fixpoint trimTrailingWhitespace (line : bytes) : bytes :=
  match line with
  | [] => []
  | c :: l =>
      match trimTrailingWhitespace l with
      | [] => if isASCIISpace c then [] else [c]
      | l' => c :: l'
      end
  end.

Definition removeChunkExtension (line : bytes) : bytes :=
  match scanToByte line ";"%byte with Some i => take (Z.to_nat i) line | None => line end.

(** At most 16 digits, so that it fits an [uint64]. *)
Definition parseHexUint (v : bytes) : option Z :=
  if (blen v =? 0) || negb (forallb is_hex v) || (16 <? blen v) then None else Some (hex_value v).

(** [beginChunk]: the size, the excess of overhead, and the input after the line. *)
Definition beginChunk (excess : Z) (d : bytes) : option (Z * Z * bytes) :=
  match readChunkLine d with
  | None => None
  | Some (line, d') =>
      match parseHexUint (removeChunkExtension (trimTrailingWhitespace line)) with
      | None => None
      | Some n =>
          let excess' := Z.max 0 (excess + blen line + 2 - (16 + 2 * n)) in
          if 16 * 1024 <? excess' then None else Some (n, excess', d')
      end
  end.

(** Reads until [want] bytes are delivered, or to the end of the body or an error.
    How much of the input after the last byte has been looked at when [want] is met
    depends on what is buffered; here, nothing beyond the chunk. *)
Fixpoint read_chunks_loop (fuel : nat) (want excess : Z) (d : bytes) : bytes * bytes :=
  match fuel with
  | O => ([], d)
  | S fuel' =>
      if want <=? 0 then ([], d)
      else
        match beginChunk excess d with
        | None => ([], [])
        | Some (n, excess', d1) =>
            if n =? 0 then ([], d1)
            else
              let m := Z.to_nat (Z.min want n) in
              let p := take m d1 in
              let d2 := drop m d1 in
              if (want <? n) || negb (bool_decide (take 2 d2 = CRLF)) then (p, d2)
              else let '(q, d3) := read_chunks_loop fuel' (want - n) excess' (drop 2 d2) in (p ++ q, d3)
        end
  end.

Definition chunkedReader (want : Z) (d : bytes) : bytes * bytes := read_chunks_loop (S (length d)) want 0 d.

(** ** It reads chunks *)

Lemma readChunkLine_app l rest : LF ∉ l -> CR ∉ l -> readChunkLine (l ++ CRLF ++ rest) = Some (l, rest).
Proof.
  intros Hlf Hcr. unfold readChunkLine.
  assert (l ++ CRLF ++ rest = (l ++ [CR]) ++ LF :: rest) as E by (by rewrite <- app_assoc).
  assert (scanToByte (l ++ CRLF ++ rest) LF = Some (blen l + 1)) as ->.
  { rewrite E, scanToByte_app; [by rewrite blen_app|]. apply not_elem_of_app. split; [done|]. by apply scanToByte_None. }
  pose proof (blen_nonneg l). replace (Z.to_nat (blen l + 1 + 1)) with (length (l ++ CRLF)) by (rewrite length_app; unfold blen; cbn; lia).
  rewrite (app_assoc l), take_app_length, drop_app_length. unfold CRLF at 1. rewrite scanToByte_app by done.
  rewrite (proj2 (Z.eqb_eq _ _)) by lia. by rewrite <- app_assoc, to_nat_blen, take_app_length.
Qed.

Lemma trimTrailingWhitespace_id l : Forall (fun c => isASCIISpace c = false) l -> trimTrailingWhitespace l = l.
Proof. induction 1 as [|c l Hc _ IH]; cbn; [done|]. rewrite IH, Hc. by destruct l. Qed.

(** The digits of a size are no separators. *)
Lemma hex_digits_plain l :
  forallb is_hex l = true -> (LF ∉ l) /\ (CR ∉ l) /\ (";"%byte ∉ l) /\ Forall (fun c => isASCIISpace c = false) l.
Proof.
  intros H. rewrite forallb_forall in H.
  assert (forall c, is_hex c = false -> c ∉ l) as Hno by (intros c Hc Hin%list_elem_of_In; specialize (H c Hin); congruence).
  split_and!; [by apply Hno.. |]. apply Forall_forall. intros c Hin. destruct (isASCIISpace c) eqn:E; [|done].
  apply bool_decide_eq_true in E. exfalso. refine (Hno c _ (proj2 (list_elem_of_In _ _) Hin)). revert E.
  rewrite !elem_of_cons. by intros [->|[->|[->|[->|[]%not_elem_of_nil]]]].
Qed.

(** A size line as a client writes it; its overhead is less than what is allowed. *)
Lemma beginChunk_size n rest :
  0 <= n < 2 ^ 31 -> exists excess, beginChunk 0 (formatInt n 16 ++ CRLF ++ rest) = Some (n, excess, rest) /\ (0 < n -> excess = 0).
Proof.
  intros Hn. destruct (formatHex_spec n ltac:(lia)) as (H1 & H2 & H3). pose proof (formatHex_length n ltac:(lia)) as H4.
  destruct (hex_digits_plain _ H3) as (P1 & P2 & P3 & P4). unfold beginChunk. rewrite readChunkLine_app by done.
  rewrite trimTrailingWhitespace_id by done. unfold removeChunkExtension. rewrite (proj2 (scanToByte_None _ _)) by done.
  unfold parseHexUint. rewrite H2, H3. destruct (Z.eqb_spec (blen (formatInt n 16)) 0) as [E|_]; [by apply blen_zero in E|].
  destruct (Z.ltb_spec 16 (blen (formatInt n 16))); [lia|]. cbn [orb negb]. cbv zeta.
  destruct (Z.ltb_spec (16 * 1024) (Z.max 0 (0 + blen (formatInt n 16) + 2 - (16 + 2 * n)))); [lia|].
  eexists. split; [done | lia].
Qed.

Lemma read_chunks_run cs rest fuel want :
  client_chunks cs -> blen (concat cs) < want -> (length cs < fuel)%nat ->
  read_chunks_loop fuel want 0 (encode_chunks cs ++ rest) = (concat cs, CRLF ++ rest).
Proof.
  intros Hcs. revert fuel want. induction Hcs as [|c cs [Hc Hlt] Hcs IH]; intros [|fuel] want Hw Hf; [lia| |lia|].
  all: cbn [read_chunks_loop]; unfold encode_chunks in *; cbn [map concat length] in *.
  - destruct (Z.leb_spec want 0) as [H|_]; [by unfold blen in Hw; cbn in Hw; lia|].
    destruct (beginChunk_size 0 (CRLF ++ rest) ltac:(lia)) as (x & E & _). cbn [app]. unfold last_chunk.
    change (bs "0") with (formatInt 0 16). by rewrite <- !app_assoc, E.
  - rewrite blen_app in Hw. pose proof (blen_nonneg c). pose proof (blen_nonneg (concat cs)).
    assert (blen c <> 0) by (by rewrite blen_zero). destruct (Z.leb_spec want 0); [lia|].
    unfold encode_chunk at 1. rewrite <- !app_assoc.
    destruct (beginChunk_size (blen c) (c ++ CRLF ++ concat (map encode_chunk cs) ++ last_chunk ++ rest) ltac:(lia)) as (x & -> & Hx).
    rewrite Hx by lia. destruct (Z.eqb_spec (blen c) 0); [lia|]. cbv zeta. rewrite Z.min_r, to_nat_blen by lia.
    rewrite take_app_length, drop_app_length. destruct (Z.ltb_spec want (blen c)); [lia|].
    rewrite bool_decide_true by done. cbn [orb negb]. change (drop 2 (CRLF ++ ?l)) with l. rewrite app_assoc.
    by rewrite IH by lia.
Qed.

Lemma encode_chunks_length cs : (length cs < length (encode_chunks cs))%nat.
Proof.
  unfold encode_chunks. rewrite length_app. assert (length cs <= length (concat (map encode_chunk cs)))%nat; [|change (length last_chunk) with 5%nat; lia].
  induction cs as [|c cs IH]; cbn [map concat length]; [lia|]. rewrite length_app. unfold encode_chunk at 1. rewrite !length_app. change (length CRLF) with 2%nat. lia.
Qed.

Lemma chunkedReader_reads : reads_chunks chunkedReader.
Proof.
  intros cs rest n Hcs Hn. apply read_chunks_run; [done | done|]. rewrite length_app. pose proof (encode_chunks_length cs). lia.
Qed.

(** Sizes with extensions and white space; sizes that are no numbers, or too long. *)
Example chunkedReader_extension :
  chunkedReader 10 (bs "3;x=y " ++ CRLF ++ bs "abc" ++ CRLF ++ bs "00" ++ CRLF ++ CRLF ++ bs "GET") = (bs "abc", CRLF ++ bs "GET").
Proof. vm_compute. reflexivity. Qed.

Example beginChunk_refused :
  beginChunk 0 (bs "g" ++ CRLF) = None /\ beginChunk 0 CRLF = None /\ beginChunk 0 (bs "3" ++ [LF]) = None /\
  beginChunk 0 (bs "00000000000000003" ++ CRLF) = None.
Proof. vm_compute. auto. Qed.
