(* ===== verification/MessageRoundtrip.v ===== *)
(** * Printed messages are parsed back

    A request or response printed with its framing header, its other headers
    and its body is read by the reference parser as exactly that message. *)

From S2P Require Import Prelude Scan Strconv Method Cursor StartLine Framing Chunked Message.

(** ** Printed start lines *)

Lemma digit_char_not_cr d : digit_char d <> CR.
Proof.
  unfold digit_char. destruct (digit_chars !! Z.to_nat d) as [c|] eqn:E; [|done].
  assert (forallb (fun c => negb (Byte.eqb c CR)) digit_chars = true) as H by done.
  rewrite forallb_forall in H. apply list_elem_of_lookup_2, list_elem_of_In, H in E.
  cbn. intros ->. by rewrite byte_eqb_refl in E.
Qed.

Lemma print_version_plain major minor : CR ∉ print_version major minor.
Proof.
  unfold print_version. rewrite not_elem_of_app. split.
  - apply scanToByte_None. vm_compute. reflexivity.
  - rewrite !not_elem_of_cons. pose proof (digit_char_not_cr major).
    pose proof (digit_char_not_cr minor). split_and!; [congruence | discriminate | congruence | apply not_elem_of_nil].
Qed.

(** A request line that can be sent: a real method, a target without spaces or
    CR, one-digit version numbers. *)
Definition sendable_request (r : requestLine) : Prop :=
  rl_Method r <> NoMethod /\ (SP ∉ rl_Target r) /\ (CR ∉ rl_Target r) /\
  0 <= rl_Major r < 10 /\ 0 <= rl_Minor r < 10.

Definition request_meta0 : messageMeta := mkMeta REQUEST 0 false 0 false.

Lemma sendable_request_start r :
  sendable_request r ->
  crlf_free (print_request_line r) /\
  start_text REQUEST (print_request_line r) r zero_responseLine request_meta0.
Proof.
  intros (Hm & Hs & Hc & Hmaj & Hmin). split.
  - apply CR_crlf_free. unfold print_request_line. rewrite !not_elem_of_app, !not_elem_of_cons.
    pose proof (Method_String_plain (rl_Method r)). pose proof (print_version_plain (rl_Major r) (rl_Minor r)).
    split_and!; try tauto; try apply not_elem_of_nil; discriminate.
  - split_and!; [|done..]. unfold print_request_line. cbn [app].
    rewrite parseRequestLineBytes_fields by (apply Method_String_plain || done).
    rewrite matchMethod_String, parseHTTPVersionToken_print by done. by destruct r.
Qed.

(** ** Framing headers *)

Definition content_length_header (n : Z) : headerLine :=
  mkHeaderLine (bs "Content-Length") (Itoa n).
Definition chunked_header : headerLine :=
  mkHeaderLine (bs "Transfer-Encoding") (bs "chunked").

(** A header with no bearing on framing. *)
Definition neutral_header (h : headerLine) : Prop :=
  sendable_header h /\ is_content_length h = false /\ is_chunked_header h = false.

Lemma neutral_headers_meta meta hs :
  Forall neutral_header hs -> applyHeaders meta hs = Some meta.
Proof.
  intros H. rewrite applyHeaders_no_cl by (eapply Forall_impl; [|exact H]; by intros ? (_ & ? & _)).
  replace (existsb is_chunked_header hs) with false; [rewrite orb_false_r; by destruct meta|].
  induction H as [|h hs (_ & _ & E) _ IH]; [done|]. cbn. by rewrite E, <- IH.
Qed.

Lemma digits_plain l : forallb is_digit l = true -> CR ∉ l.
Proof.
  intros H Hin%list_elem_of_In. rewrite forallb_forall in H. by specialize (H _ Hin).
Qed.

Lemma content_length_sendable n : 0 <= n -> sendable_header (content_length_header n).
Proof.
  intros Hn. destruct (Itoa_spec n Hn) as (Hne & _ & Hd).
  split; [split|split_and!]; cbn [Name Value content_length_header].
  - apply scanToByte_None. vm_compute. reflexivity.
  - destruct (Itoa n) as [|c l]; [done|]. cbn in Hd. apply andb_true_iff in Hd as [Hc _].
    pose proof (forall_bytes (fun c => implb (is_digit c) (negb (is_blank c))) eq_refl c) as H.
    cbv beta in H. rewrite Hc in H. cbn in H. by apply negb_true_iff.
  - done.
  - apply scanToByte_None. vm_compute. reflexivity.
  - by apply digits_plain.
Qed.

Lemma chunked_sendable : sendable_header chunked_header.
Proof.
  split; [split|split_and!]; cbn [Name Value chunked_header]; try done;
    apply scanToByte_None; vm_compute; reflexivity.
Qed.

Lemma content_length_meta meta n :
  m_hasContentLength meta = false -> 0 <= n < 2 ^ 31 ->
  applyHeaderMeta meta (content_length_header n) =
    Some (mkMeta (m_kind meta) (m_statusCode meta) true n (m_hasTransferEncoding meta)).
Proof.
  intros Hm Hn. unfold applyHeaderMeta, content_length_header. cbn [Name Value].
  change (equalFoldToken (bs "Content-Length") (bs "content-length")) with true. cbn iota.
  rewrite Hm. destruct (Itoa_spec n) as (Hne & Hv & Hd); [lia|].
  rewrite parseDecimalInt32_spec, Hv, Hd, wrap32_small by (unfold int32_range; lia).
  destruct (Z.eqb_spec (blen (Itoa n)) 0) as [E|]; [by apply blen_zero in E | done].
Qed.

Lemma chunked_meta meta :
  applyHeaderMeta meta chunked_header =
    Some (mkMeta (m_kind meta) (m_statusCode meta) (m_hasContentLength meta)
            (m_contentLength meta) true).
Proof. done. Qed.

(** ** Round trips *)

Lemma Forall_neutral_sendable hs : Forall neutral_header hs -> Forall sendable_header hs.
Proof. intros H. eapply Forall_impl; [|exact H]. by intros ? [? _]. Qed.

(** A printed request whose framing header is [fh]. *)
Lemma request_text r hs fh meta enc body :
  sendable_request r -> Forall neutral_header hs -> sendable_header fh ->
  applyHeaderMeta request_meta0 fh = Some meta -> body_text meta enc body ->
  message_text REQUEST (print_request r (hs ++ [fh]) enc)
    (mkMessage REQUEST r zero_responseLine (hs ++ [fh]) body (decideBodyMode meta) meta).
Proof.
  intros Hr Hhs Hfh Ha Hb. destruct (sendable_request_start r Hr) as [Hf Hst].
  exists (print_request_line r), (map print_header (hs ++ [fh])), enc, request_meta0.
  split_and!; try done.
  - apply print_headers_lines. apply Forall_app. split; [by apply Forall_neutral_sendable|].
    by constructor; [|constructor].
  - cbn [pm_headers pm_meta]. rewrite applyHeaders_app, neutral_headers_meta by done.
    cbn. by rewrite Ha.
Qed.

(** A request with a body framed by Content-Length, printed and parsed:
    the parser returns its method, target, version, headers in order and body,
    for any sendable request line, any other headers and any body shorter than
    2^31 bytes. *)
Theorem request_roundtrip_length r hs body :
  sendable_request r -> Forall neutral_header hs -> body <> [] -> blen body < 2 ^ 31 ->
  let hs' := hs ++ [content_length_header (blen body)] in
  parseMessageDetailed (print_request r hs' body) REQUEST =
    Ok (ParseOk (mkMessage REQUEST r zero_responseLine hs' body bodyModeContentLength
                   (mkMeta REQUEST 0 true (blen body) false))).
Proof.
  intros Hr Hhs Hne Hlt. cbv zeta. pose proof (blen_nonneg body).
  assert (blen body <> 0) as Hz by (by rewrite blen_zero).
  set (meta := mkMeta REQUEST 0 true (blen body) false).
  assert (decideBodyMode meta = bodyModeContentLength) as Hm
    by (unfold decideBodyMode; cbn; by rewrite (proj2 (Z.eqb_neq _ _) Hz)).
  rewrite <- Hm. apply parse_complete, request_text; try done.
  - by apply content_length_sendable.
  - by rewrite content_length_meta.
  - unfold body_text. by rewrite Hm.
Qed.

Lemma request_roundtrip_length_witness :
  let r := mkRequestLine POST (bs "/upload") 1 1 in
  let hs := [mkHeaderLine (bs "Host") (bs "example.com")] in
  let hs' := hs ++ [content_length_header (blen (bs "hello"))] in
  parseMessageDetailed (print_request r hs' (bs "hello")) REQUEST =
    Ok (ParseOk (mkMessage REQUEST r zero_responseLine hs' (bs "hello") bodyModeContentLength
                   (mkMeta REQUEST 0 true (blen (bs "hello")) false))).
Proof.
  apply request_roundtrip_length; [| |discriminate | vm_compute; reflexivity].
  - split_and!; cbn; try lia; try discriminate; apply scanToByte_None; vm_compute; reflexivity.
  - repeat constructor; try discriminate; apply scanToByte_None; vm_compute; reflexivity.
Defined.

(** C31. A request with a chunked body, printed chunk by chunk the way the
    response writer prints chunks, and parsed: the parser returns the
    concatenation of the chunks as the body, for any list of non-empty chunks
    shorter than 2^31 bytes. *)
Theorem request_roundtrip_chunked r hs cs :
  sendable_request r -> Forall neutral_header hs ->
  Forall (fun d => d <> [] /\ blen d < 2 ^ 31) cs ->
  let hs' := hs ++ [chunked_header] in
  parseMessageDetailed (print_request r hs' (encode_chunks cs)) REQUEST =
    Ok (ParseOk (mkMessage REQUEST r zero_responseLine hs' (concat cs) bodyModeChunked
                   (mkMeta REQUEST 0 false 0 true))).
Proof.
  intros Hr Hhs Hcs. cbv zeta.
  apply parse_complete, (request_text r hs chunked_header (mkMeta REQUEST 0 false 0 true)); try done.
  - apply chunked_sendable.
  - exists cs. split; [by apply encode_chunks_text | done].
Qed.

Lemma request_roundtrip_chunked_witness :
  let r := mkRequestLine PUT (bs "/x") 1 1 in
  let hs' := [] ++ [chunked_header] in
  parseMessageDetailed (print_request r hs' (encode_chunks [bs "hello "; bs "world"])) REQUEST =
    Ok (ParseOk (mkMessage REQUEST r zero_responseLine hs' (concat [bs "hello "; bs "world"])
                   bodyModeChunked (mkMeta REQUEST 0 false 0 true))).
Proof.
  apply request_roundtrip_chunked; [| constructor |].
  - split_and!; cbn; try lia; try discriminate; apply scanToByte_None; vm_compute; reflexivity.
  - repeat constructor; try discriminate; vm_compute; reflexivity.
Defined.
