(* ===== verification/Parser.v ===== *)
(** * The parser object (internal/parser/parser.go, setting.go)

    The [Parser] structure with every field of the code, its constructor,
    [Init], [Reset], [complete], [EOF] and [ReadyUpgradeData], and the state
    monad the engine's methods are written in.

    A [*Setting] is [option Setting] ([None] is nil); each of its eight
    callbacks is represented by whether it is set.  Calling a callback appends
    an event with the callback's arguments to a trace: the callbacks observe the
    parse and do not change the parser. *)

From S2P Require Import Prelude Scan Method Cursor StartLine Framing.

Definition unsetContentLength : Z := -1.
Definition scratchBufferSize : Z := 4096.
Definition maxFastHeaders : Z := 64.
(** The package variable [MaxHeaderSize], at its initial value. *)
Definition MaxHeaderSize : Z := 4096.

Inductive fastPhase : Type :=
| fastPhaseIdle | fastPhaseRequestLine | fastPhaseResponseLine | fastPhaseHeaders
| fastPhaseBody | fastPhaseChunkedSize | fastPhaseChunkedData.

#[global] Instance fastPhase_eq_dec : EqDecision fastPhase.
Proof. solve_decision. Defined.

(** The user data an application attaches to a parser is opaque to it. *)
Record Parser : Type := mkParser {
  p_defaultType : ReqOrRsp;
  p_currentType : ReqOrRsp;
  p_phase : bytes;
  p_pending : bytes;
  p_lineScratch : bytes;
  p_lineScratchLen : Z;
  p_fastHeaders : list headerLine;
  p_fastHeaderCount : Z;
  p_fastPhase : fastPhase;
  p_messageStarted : bool;
  p_urlOffset : Z;
  p_statusOffset : Z;
  p_headerValueOffset : Z;
  p_Method : Method;
  p_Major : Z;
  p_Minor : Z;
  p_MaxHeaderSize : Z;
  p_contentLength : Z;
  p_StatusCode : Z;
  p_hasContentLength : bool;
  p_hasTransferEncoding : bool;
  p_hasConnectionClose : bool;
  p_hasUpgrade : bool;
  p_hasConnectionUpgrade : bool;
  p_messageCompleteCalled : bool;
  p_Upgrade : bool;
  p_userData : option Z }.

(** ** Field assignment *)

(** The assignment to a field rebuilds the structure with that field
    replaced. *)
Ltac assign f :=
  let a1 := fresh in let a2 := fresh in let a3 := fresh in let a4 := fresh in
  let a5 := fresh in let a6 := fresh in let a7 := fresh in let a8 := fresh in
  let a9 := fresh in let a10 := fresh in let a11 := fresh in let a12 := fresh in
  let a13 := fresh in let a14 := fresh in let a15 := fresh in let a16 := fresh in
  let a17 := fresh in let a18 := fresh in let a19 := fresh in let a20 := fresh in
  let a21 := fresh in let a22 := fresh in let a23 := fresh in let a24 := fresh in
  let a25 := fresh in let a26 := fresh in let a27 := fresh in
  let p := fresh "p" in let v := fresh "v" in
  refine (fun v p => match p with mkParser
      a1 a2 a3 a4 a5 a6 a7 a8 a9 a10 a11 a12 a13 a14 a15 a16 a17 a18 a19 a20 a21 a22
      a23 a24 a25 a26 a27 => _ end);
  let t := constr:(mkParser
      a1 a2 a3 a4 a5 a6 a7 a8 a9 a10 a11 a12 a13 a14 a15 a16 a17 a18 a19 a20 a21 a22
      a23 a24 a25 a26 a27) in
  let x := eval cbn in (f t) in
  let t' := eval pattern x in t in
  match t' with ?h _ => let r := eval cbv beta in (h v) in exact r end.

Definition set_defaultType : ReqOrRsp -> Parser -> Parser := ltac:(assign p_defaultType).
Definition set_currentType : ReqOrRsp -> Parser -> Parser := ltac:(assign p_currentType).
Definition set_phase : bytes -> Parser -> Parser := ltac:(assign p_phase).
Definition set_pending : bytes -> Parser -> Parser := ltac:(assign p_pending).
Definition set_lineScratch : bytes -> Parser -> Parser := ltac:(assign p_lineScratch).
Definition set_lineScratchLen : Z -> Parser -> Parser := ltac:(assign p_lineScratchLen).
Definition set_fastHeaders : list headerLine -> Parser -> Parser := ltac:(assign p_fastHeaders).
Definition set_fastHeaderCount : Z -> Parser -> Parser := ltac:(assign p_fastHeaderCount).
Definition set_fastPhase : fastPhase -> Parser -> Parser := ltac:(assign p_fastPhase).
Definition set_messageStarted : bool -> Parser -> Parser := ltac:(assign p_messageStarted).
Definition set_urlOffset : Z -> Parser -> Parser := ltac:(assign p_urlOffset).
Definition set_statusOffset : Z -> Parser -> Parser := ltac:(assign p_statusOffset).
Definition set_headerValueOffset : Z -> Parser -> Parser := ltac:(assign p_headerValueOffset).
Definition set_Method : Method -> Parser -> Parser := ltac:(assign p_Method).
Definition set_Major : Z -> Parser -> Parser := ltac:(assign p_Major).
Definition set_Minor : Z -> Parser -> Parser := ltac:(assign p_Minor).
Definition set_MaxHeaderSize : Z -> Parser -> Parser := ltac:(assign p_MaxHeaderSize).
Definition set_contentLength : Z -> Parser -> Parser := ltac:(assign p_contentLength).
Definition set_StatusCode : Z -> Parser -> Parser := ltac:(assign p_StatusCode).
Definition set_hasContentLength : bool -> Parser -> Parser := ltac:(assign p_hasContentLength).
Definition set_hasTransferEncoding : bool -> Parser -> Parser := ltac:(assign p_hasTransferEncoding).
Definition set_hasConnectionClose : bool -> Parser -> Parser := ltac:(assign p_hasConnectionClose).
Definition set_hasUpgrade : bool -> Parser -> Parser := ltac:(assign p_hasUpgrade).
Definition set_hasConnectionUpgrade : bool -> Parser -> Parser := ltac:(assign p_hasConnectionUpgrade).
Definition set_messageCompleteCalled : bool -> Parser -> Parser := ltac:(assign p_messageCompleteCalled).
Definition set_Upgrade : bool -> Parser -> Parser := ltac:(assign p_Upgrade).
Definition set_userData : option Z -> Parser -> Parser := ltac:(assign p_userData).

(** ** Construction and reset *)

Definition initialPhase (t : ReqOrRsp) : bytes :=
  match t with
  | REQUEST => bs "startReq"
  | RESPONSE => bs "startRsp"
  | BOTH => bs "startReqOrRsp"
  end.

(** Several assignments in order, the first one first. *)
Definition assigns (l : list (Parser -> Parser)) (p : Parser) : Parser :=
  fold_left (fun p f => f p) l p.

Definition Init (t : ReqOrRsp) : Parser -> Parser :=
  assigns [set_defaultType t; set_currentType t; set_phase (initialPhase t);
           set_Major 0; set_Minor 0; set_contentLength unsetContentLength;
           set_MaxHeaderSize MaxHeaderSize].

(** The zero value [&Parser{}].  The two type fields are set by [Init] before
    they are read; their zero (no constant of [ReqOrRsp]) is not represented. *)
Definition zeroParser : Parser :=
  mkParser BOTH BOTH [] [] (replicate 4096 x00) 0 (replicate 64 (mkHeaderLine [] [])) 0
    fastPhaseIdle false 0 0 0 NoMethod 0 0 0 0 0 false false false false false false false None.

Definition New (t : ReqOrRsp) : Parser := Init t zeroParser.

Definition Reset (p : Parser) : Parser :=
  assigns [set_currentType (p_defaultType p); set_phase (initialPhase (p_defaultType p));
           set_pending []; set_lineScratchLen 0; set_fastHeaderCount 0;
           set_fastPhase fastPhaseIdle; set_messageStarted false; set_urlOffset 0;
           set_statusOffset 0; set_headerValueOffset 0; set_Method NoMethod; set_Major 0;
           set_Minor 0; set_contentLength unsetContentLength; set_StatusCode 0;
           set_hasContentLength false; set_hasTransferEncoding false;
           set_hasConnectionClose false; set_hasUpgrade false;
           set_hasConnectionUpgrade false; set_messageCompleteCalled false;
           set_Upgrade false] p.

Definition ReadyUpgradeData (p : Parser) : bool := p_messageCompleteCalled p && p_Upgrade p.

Definition EOF (p : Parser) : bool :=
  if bool_decide (p_currentType p = REQUEST) then true
  else p_messageCompleteCalled p && (blen (p_pending p) =? 0).

(** ** Callbacks and the engine's monad *)

Record Setting : Type := mkSetting {
  MessageBegin : bool; URL : bool; Status : bool; HeaderField : bool; HeaderValue : bool;
  HeadersComplete : bool; Body : bool; MessageComplete : bool }.

Inductive Event : Type :=
| EvMessageBegin (at_ : Z)
| EvURL (b : bytes) (at_ : Z)
| EvStatus (b : bytes) (at_ : Z)
| EvHeaderField (b : bytes) (at_ : Z)
| EvHeaderValue (b : bytes) (at_ : Z)
| EvHeadersComplete (at_ : Z)
| EvBody (b : bytes) (at_ : Z)
| EvMessageComplete (at_ : Z).

(** The parser and the callbacks made so far. *)
Definition PState : Type := (Parser * list Event)%type.

Definition M (A : Type) : Type := PState -> res (A * PState).

#[global] Instance M_ret : MRet M := fun A a s => Ok (a, s).
#[global] Instance M_bind : MBind M := fun A B f m s =>
  match m s with Ok (a, s') => f a s' | Crash e => Crash e end.

Definition lift {A} (r : res A) : M A := fun s =>
  match r with Ok a => Ok (a, s) | Crash e => Crash e end.
Definition gets {A} (f : Parser -> A) : M A := fun s => Ok (f (fst s), s).
Definition modify (f : Parser -> Parser) : M unit := fun s => Ok (tt, (f (fst s), snd s)).
Definition updates (l : list (Parser -> Parser)) : M unit := modify (assigns l).
Definition emit (e : Event) : M unit := fun s => Ok (tt, (fst s, snd s ++ [e])).
Definition skip : M unit := mret tt.

(** [if c { m }]. *)
Definition when (c : bool) (m : M unit) : M unit := if c then m else skip.

(** [setting != nil && setting.f != nil]. *)
Definition on (f : Setting -> bool) (s : option Setting) : bool :=
  match s with Some s => f s | None => false end.

(** [setting.f != nil] without the nil check: panics on a nil setting. *)
Definition deref (s : option Setting) : M Setting :=
  match s with Some s => mret s | None => lift (Crash NilDeref) end.

Definition complete (s : option Setting) (pos : Z) : M unit :=
  modify (set_messageCompleteCalled true);;
  when (on MessageComplete s) (emit (EvMessageComplete pos)).

(** ** Reset *)

(** What a later parse can observe of a parser: everything but the stale
    contents of its two scratch arrays. *)
Definition observable (p : Parser) : Parser :=
  set_lineScratch (take (Z.to_nat (p_lineScratchLen p)) (p_lineScratch p))
    (set_fastHeaders (take (Z.to_nat (p_fastHeaderCount p)) (p_fastHeaders p)) p).

(** [Reset] erases every trace of earlier messages: up to the stale bytes
    of the scratch arrays, it returns the parser to the state [New] gives, for
    any history, keeping only the message type, the header limit and the user
    data. *)
Theorem Reset_fresh p :
  observable (Reset p) =
    set_userData (p_userData p)
      (set_MaxHeaderSize (p_MaxHeaderSize p) (observable (New (p_defaultType p)))).
Proof. by destruct p. Qed.
