(* ===== verification/FastPath.v ===== *)
(** * One-buffer fast paths (internal/parser/engine.go)

    [tryFastRequest], [tryFastResponse] and [tryFastChunkedRequest] recognise a
    complete message in a single buffer without building a message value, then
    call the callbacks.  A result [(n, ok, err)] is a triple; [ok = false] and
    no error lets the caller try the next path. *)

From S2P Require Import Prelude Scan Method Cursor StartLine Framing Chunked Message Parser.

Definition fastResult : Type := (Z * bool * option perror)%type.

Definition not_handled : fastResult := (0, false, None).

(** The loop over the bytes that are neither CR nor LF; only the first of them
    is looked at. *)
Fixpoint infer_loop (all pending : bytes) : option ReqOrRsp :=
  match pending with
  | [] => None
  | b :: rest =>
      if Byte.eqb b CR || Byte.eqb b LF then infer_loop all rest
      else if (5 <=? blen all) && hasPrefix all (bs "HTTP/") then Some RESPONSE
      else if negb (Byte.eqb b "H"%byte) || (5 <=? blen all) then Some REQUEST
      else None
  end.

Definition inferMessageKind (defaultKind : ReqOrRsp) (pending : bytes) : option ReqOrRsp :=
  match defaultKind with
  | REQUEST => Some REQUEST
  | RESPONSE => Some RESPONSE
  | BOTH => infer_loop pending pending
  end.

Definition hasNoCallbacks (setting : option Setting) : bool :=
  match setting with
  | None => true
  | Some s =>
      negb (MessageBegin s) && negb (URL s) && negb (Status s) && negb (HeaderField s)
      && negb (HeaderValue s) && negb (HeadersComplete s) && negb (Body s)
      && negb (MessageComplete s)
  end.

(** ** Requests *)

Record fastRequestResult : Type := mkFastRequest {
  fr_kind : ReqOrRsp;
  fr_method : Method;
  fr_target : bytes;
  fr_major : Z;
  fr_minor : Z;
  fr_body : bytes;
  fr_bodyStart : Z;
  fr_bodyMode : bodyMode;
  fr_hasContentLength : bool;
  fr_contentLength : Z;
  fr_hasTransferEncoding : bool;
  fr_hasConnectionClose : bool;
  fr_hasConnectionUpgrade : bool;
  fr_hasUpgrade : bool;
  fr_headersStart : Z;
  fr_headersEnd : Z }.

(** The connection flags a header sets: close, upgrade token, upgrade header. *)
Record connFlags : Type := mkFlags { cf_close : bool; cf_upgrade : bool; cf_hasUpgrade : bool }.

Definition header_flags (f : connFlags) (h : headerLine) : connFlags :=
  let f :=
    if equalFoldToken (Name h) (bs "connection") then
      let f := if equalFoldToken (Value h) (bs "close")
               then mkFlags true (cf_upgrade f) (cf_hasUpgrade f) else f in
      if equalFoldToken (Value h) (bs "upgrade")
      then mkFlags (cf_close f) true (cf_hasUpgrade f) else f
    else f in
  if equalFoldToken (Name h) (bs "upgrade")
  then mkFlags (cf_close f) (cf_upgrade f) true else f.

(** The captured headers: the array [*captured] and the counter
    [*capturedCount]; [None] when the caller passed nil. *)
Definition capture : Type := option (list headerLine * Z).

Definition capture_header (cap : capture) (h : headerLine) : capture :=
  match cap with
  | None => None
  | Some (arr, count) =>
      if 0 <=? count then
        if count <? maxFastHeaders then Some (<[Z.to_nat count := h]> arr, count + 1)
        else Some (arr, -1)
      else Some (arr, count)
  end.

(** How the header loop of the fast analysis ends. *)
Inductive fast_headers : Type :=
| FastStop (cap : capture)
| FastErr (e : perror) (cap : capture)
| FastEnd (meta : messageMeta) (flags : connFlags) (cap : capture) (headersEnd : Z) (c : cursor).

Fixpoint fast_header_loop (fuel : nat) (c : cursor) (meta : messageMeta) (flags : connFlags)
    (cap : capture) : res fast_headers :=
  match fuel with
  | O => Crash OutOfFuel
  | S fuel' =>
      if remaining c <? 2 then Ok (FastStop cap)
      else
        b ← peek c;
        if bool_decide (b = Some CR) then
          let c := advance 1 c in
          b2 ← peek c;
          if negb (bool_decide (b2 = Some LF)) then Ok (FastStop cap)
          else Ok (FastEnd meta flags cap (pos c - 1) (advance 1 c))
        else
          match scanCRLF c with
          | None => Ok (FastStop cap)
          | Some lineEnd =>
              line ← slice c lineEnd;
              h ← parseHeaderLineBytes line;
              match h with
              | None => Ok (FastStop cap)
              | Some h =>
                  match applyHeaderMeta meta h with
                  | None => Ok (FastErr (headerSemanticError meta h) cap)
                  | Some meta' =>
                      fast_header_loop fuel' (advance (lineEnd + 2) c) meta'
                        (header_flags flags h) (capture_header cap h)
                  end
              end
          end
  end.

(** The chunk loop of the fast analysis, which skips the data.  [Some None]:
    the body ends with the buffer; [Some (Some e)]: an error; [None]: not a
    complete chunked body. *)
Fixpoint fast_chunk_loop (fuel : nat) (c : cursor) : res (option (option perror)) :=
  match fuel with
  | O => Crash OutOfFuel
  | S fuel' =>
      sz ← parseChunkSizeLine c;
      match sz with
      | None => Ok None
      | Some (size, c) =>
          if size =? 0 then
            if remaining c <? 2 then Ok None
            else
              b ← peek c;
              if negb (bool_decide (b = Some CR)) then Ok (Some (Some ErrChunkSize))
              else
                let c := advance 1 c in
                b ← peek c;
                if negb (bool_decide (b = Some LF)) then Ok (Some (Some ErrChunkSize))
                else
                  let c := advance 1 c in
                  if negb (remaining c =? 0) then Ok None else Ok (Some None)
          else
            d ← consumeChunkData c size;
            match d with
            | None => Ok None
            | Some (_, c) => fast_chunk_loop fuel' c
            end
      end
  end.

(** [analyzeFastRequestCaptured]: the result [(res, ok)] as an option, the
    error, and the captured headers. *)
Definition analyzeFastRequestCaptured (b : bytes) (cap : capture)
    : res (option fastRequestResult * option perror * capture) :=
  let fuel := S (length b) in
  let c := newCursor b in
  l ← parseRequestLine c;
  match l, scanCRLF c with
  | Some line, Some lineEnd =>
      let headersStart := pos c + lineEnd + 2 in
      let c := advance (lineEnd + 2) c in
      h ← fast_header_loop fuel c (mkMeta REQUEST 0 false 0 false) (mkFlags false false false) cap;
      match h with
      | FastStop cap => Ok (None, None, cap)
      | FastErr e cap => Ok (None, Some e, cap)
      | FastEnd meta flags cap headersEnd c =>
          let mode := decideBodyMode meta in
          let result body := mkFastRequest REQUEST (rl_Method line) (rl_Target line)
            (rl_Major line) (rl_Minor line) body (pos c) mode (m_hasContentLength meta)
            (m_contentLength meta) (m_hasTransferEncoding meta) (cf_close flags)
            (cf_upgrade flags) (cf_hasUpgrade flags) headersStart headersEnd in
          match mode with
          | bodyModeChunked =>
              r ← fast_chunk_loop fuel c;
              match r with
              | None => Ok (None, None, cap)
              | Some (Some e) => Ok (None, Some e, cap)
              | Some None => Ok (Some (result []), None, cap)
              end
          | bodyModeEOF => Ok (None, None, cap)
          | bodyModeContentLength =>
              if negb (remaining c =? m_contentLength meta) then Ok (None, None, cap)
              else
                body ← slice c (m_contentLength meta);
                let c := advance (m_contentLength meta) c in
                if negb (remaining c =? 0) then Ok (None, None, cap)
                else Ok (Some (result body), None, cap)
          | bodyModeNone =>
              if negb (remaining c =? 0) then Ok (None, None, cap)
              else Ok (Some (result []), None, cap)
          end
      end
  | _, _ => Ok (None, None, cap)
  end.

Definition applyFastRequestResult (r : fastRequestResult) (p : Parser) : Parser :=
  let p := assigns [set_currentType (fr_kind r); set_phase (bs "messageDone"); set_pending [];
    set_messageStarted false; set_urlOffset (blen (fr_target r)); set_statusOffset 0;
    set_headerValueOffset 0; set_Method (fr_method r); set_Major (fr_major r);
    set_Minor (fr_minor r); set_StatusCode 0; set_hasContentLength (fr_hasContentLength r);
    set_contentLength (fr_contentLength r); set_hasTransferEncoding (fr_hasTransferEncoding r);
    set_hasConnectionClose (fr_hasConnectionClose r); set_hasUpgrade (fr_hasUpgrade r);
    set_hasConnectionUpgrade (fr_hasConnectionUpgrade r); set_Upgrade false] p in
  let p := if p_hasUpgrade p && p_hasConnectionUpgrade p then set_Upgrade true p
           else set_Upgrade (bool_decide (p_Method p = CONNECT)) p in
  let p := set_messageCompleteCalled false p in
  if bool_decide (fr_bodyMode r = bodyModeNone) then set_contentLength unsetContentLength p else p.

(** The callbacks of one header. *)
Definition emit_header (s : Setting) (h : headerLine) (at_ : Z) : M unit :=
  when (HeaderField s) (emit (EvHeaderField (Name h) at_));;
  when (HeaderValue s) (emit (EvHeaderValue (Value h) at_)).

Fixpoint emit_headers (s : Setting) (hs : list headerLine) (at_ : Z) : M unit :=
  match hs with
  | [] => skip
  | h :: hs' => emit_header s h at_;; emit_headers s hs' at_
  end.

(** The loop that parses the header block again to call the header callbacks. *)
Fixpoint reparse_headers (fuel : nat) (s : Setting) (c : cursor) (at_ : Z) : M unit :=
  match fuel with
  | O => lift (Crash OutOfFuel)
  | S fuel' =>
      if remaining c <=? 0 then skip
      else
        match scanCRLF c with
        | None => skip
        | Some lineEnd =>
            h ← lift (parseHeaderLine c);
            match h with
            | None => skip
            | Some h => emit_header s h at_;; reparse_headers fuel' s (advance (lineEnd + 2) c) at_
            end
        end
  end.

(** The loop that decodes the chunks again to call the body callback. *)
Fixpoint emit_chunks (fuel : nat) (s : Setting) (c : cursor) (at_ : Z) : M unit :=
  match fuel with
  | O => lift (Crash OutOfFuel)
  | S fuel' =>
      sz ← lift (parseChunkSizeLine c);
      match sz with
      | None => skip
      | Some (size, c) =>
          if size =? 0 then skip
          else
            d ← lift (consumeChunkData c size);
            match d with
            | None => skip
            | Some (chunk, c) =>
                when (Body s && (0 <? blen chunk)) (emit (EvBody chunk at_));;
                emit_chunks fuel' s c at_
            end
      end
  end.

Definition emitFastRequest (setting : option Setting) (b : bytes) (r : fastRequestResult) : M unit :=
  s ← deref setting;
  let at_ := blen b in
  when (MessageBegin s) (emit (EvMessageBegin 0));;
  when (URL s && (0 <? blen (fr_target r))) (emit (EvURL (fr_target r) at_));;
  when ((fr_headersStart r <? fr_headersEnd r) && (HeaderField s || HeaderValue s))
    (count ← gets p_fastHeaderCount;
     if 0 <? count then
       arr ← gets p_fastHeaders;
       emit_headers s (take (Z.to_nat count) arr) at_
     else
       block ← lift (gslice b (fr_headersStart r) (fr_headersEnd r));
       reparse_headers (S (length block)) s (newCursor block) at_);;
  when (HeadersComplete s) (emit (EvHeadersComplete at_));;
  (if bool_decide (fr_bodyMode r = bodyModeChunked) then
     body ← lift (gslice_from b (fr_bodyStart r));
     emit_chunks (S (length body)) s (newCursor body) at_
   else when (Body s && (0 <? blen (fr_body r))) (emit (EvBody (fr_body r) at_)));;
  modify (set_messageCompleteCalled true);;
  when (MessageComplete s) (emit (EvMessageComplete at_)).

Definition tryFastRequest (setting : option Setting) (b : bytes) : M fastResult :=
  p ← gets id;
  if p_messageStarted p || negb (blen (p_pending p) =? 0) then mret not_handled
  else
    match inferMessageKind (p_defaultType p) b with
    | Some REQUEST =>
        modify (set_fastHeaderCount 0);;
        let cap := if on HeaderField setting || on HeaderValue setting
                   then Some (p_fastHeaders p, 0) else None in
        '(r, err, cap) ← lift (analyzeFastRequestCaptured b cap);
        (match cap with
         | Some (arr, count) => modify (fun p => set_fastHeaderCount count (set_fastHeaders arr p))
         | None => skip
         end);;
        match err, r with
        | Some e, _ => mret (0, true, Some e)
        | None, None => modify (set_fastHeaderCount 0);; mret not_handled
        | None, Some r =>
            modify (applyFastRequestResult r);;
            emitFastRequest setting b r;;
            mret (blen b, true, None)
        end
    | _ => mret not_handled
    end.
