(* ===== verification/FastPathMore.v ===== *)
(** * The other one-buffer fast paths (internal/parser/engine.go)

    [analyzeFastResponse], [emitFastResponse], [tryFastResponse] and
    [tryFastChunkedRequest]. *)

From S2P Require Import Prelude Scan Method Cursor StartLine Framing Chunked Message Parser FastPath.

(** ** Responses *)

Record fastResponseResult : Type := mkFastResponse {
  fs_major : Z;
  fs_minor : Z;
  fs_statusCode : Z;
  fs_reason : bytes;
  fs_body : bytes;
  fs_bodyMode : bodyMode;
  fs_hasContentLength : bool;
  fs_contentLength : Z;
  fs_hasConnectionClose : bool;
  fs_headersStart : Z;
  fs_headersEnd : Z }.

(** How the header loop of the response analysis ends. *)
Inductive rsp_headers : Type :=
| RspStop
| RspErr (e : perror)
| RspEnd (meta : messageMeta) (close : bool) (c : cursor).

Fixpoint rsp_header_loop (fuel : nat) (c : cursor) (meta : messageMeta) (close : bool)
    : res rsp_headers :=
  match fuel with
  | O => Crash OutOfFuel
  | S fuel' =>
      if remaining c <? 2 then Ok RspStop
      else
        b ← peek c;
        if bool_decide (b = Some CR) then
          let c := advance 1 c in
          b2 ← peek c;
          if negb (bool_decide (b2 = Some LF)) then Ok RspStop
          else Ok (RspEnd meta close (advance 1 c))
        else
          match scanCRLF c with
          | None => Ok RspStop
          | Some lineEnd =>
              h ← parseHeaderLine c;
              match h with
              | None => Ok RspStop
              | Some h =>
                  let close := if equalFoldToken (Name h) (bs "connection")
                                  && equalFoldToken (Value h) (bs "close") then true else close in
                  match applyHeaderMeta meta h with
                  | None => Ok (RspErr (headerSemanticError meta h))
                  | Some meta' => rsp_header_loop fuel' (advance (lineEnd + 2) c) meta' close
                  end
              end
          end
  end.

Definition analyzeFastResponse (b : bytes) : res (option fastResponseResult * option perror) :=
  let c := newCursor b in
  l ← parseResponseLine c;
  match l, scanCRLF c with
  | Some line, Some lineEnd =>
      let c := advance (lineEnd + 2) c in
      let headersStart := pos c in
      h ← rsp_header_loop (S (length b)) c (mkMeta RESPONSE (sl_StatusCode line) false 0 false) false;
      match h with
      | RspStop => Ok (None, None)
      | RspErr e => Ok (None, Some e)
      | RspEnd meta close c =>
          let mode := decideBodyMode meta in
          let result body := mkFastResponse (sl_Major line) (sl_Minor line) (sl_StatusCode line)
            (sl_Reason line) body mode (m_hasContentLength meta) (m_contentLength meta) close
            headersStart (pos c - 1) in
          match mode with
          | bodyModeEOF | bodyModeChunked => Ok (None, None)
          | bodyModeContentLength =>
              if negb (remaining c =? m_contentLength meta) then Ok (None, None)
              else
                body ← slice c (m_contentLength meta);
                let c := advance (m_contentLength meta) c in
                if negb (remaining c =? 0) then Ok (None, None)
                else Ok (Some (result body), None)
          | bodyModeNone =>
              if negb (remaining c =? 0) then Ok (None, None) else Ok (Some (result []), None)
          end
      end
  | _, _ => Ok (None, None)
  end.

Definition emitFastResponse (setting : option Setting) (b : bytes) (r : fastResponseResult)
    : M unit :=
  let at_ := blen b in
  when (on MessageBegin setting) (emit (EvMessageBegin 0));;
  when (on Status setting && (0 <? blen (fs_reason r))) (emit (EvStatus (fs_reason r) at_));;
  when (on HeaderField setting || on HeaderValue setting)
    (s ← deref setting;
     block ← lift (gslice b (fs_headersStart r) (fs_headersEnd r));
     reparse_headers (S (length block)) s (newCursor block) at_);;
  when (on HeadersComplete setting) (emit (EvHeadersComplete at_));;
  when (on Body setting && (0 <? blen (fs_body r))) (emit (EvBody (fs_body r) at_));;
  complete setting at_.

Definition tryFastResponse (setting : option Setting) (b : bytes) : M fastResult :=
  p ← gets id;
  if bool_decide (p_defaultType p = REQUEST) then mret not_handled
  else
    match inferMessageKind (p_defaultType p) b with
    | Some RESPONSE =>
        '(r, err) ← lift (analyzeFastResponse b);
        match err, r with
        | Some e, _ => mret (0, true, Some e)
        | None, None => mret not_handled
        | None, Some r =>
            updates [set_currentType RESPONSE; set_phase (bs "messageDone"); set_pending [];
              set_messageStarted false; set_urlOffset 0; set_statusOffset (blen (fs_reason r));
              set_headerValueOffset 0; set_Method NoMethod; set_Major (fs_major r);
              set_Minor (fs_minor r); set_StatusCode (fs_statusCode r);
              set_hasContentLength (fs_hasContentLength r);
              set_contentLength (fs_contentLength r); set_hasTransferEncoding false;
              set_hasConnectionClose (fs_hasConnectionClose r); set_hasUpgrade false;
              set_hasConnectionUpgrade false; set_Upgrade false;
              set_messageCompleteCalled false];;
            emitFastResponse setting b r;;
            mret (blen b, true, None)
        end
    | _ => mret not_handled
    end.

(** ** Chunked requests *)

(** The local array [emittedHeaders] with its counter, and the flag
    [deferHeaderCallbacks]. *)
Record deferred : Type := mkDeferred { df_headers : list headerLine; df_on : bool }.

Definition defer_header (d : deferred) (h : headerLine) : deferred :=
  if df_on d then
    if 64 <=? blen (df_headers d) then mkDeferred (df_headers d) false
    else mkDeferred (df_headers d ++ [h]) true
  else d.

Inductive chk_headers : Type :=
| ChkStop
| ChkErr (e : perror)
| ChkEnd (meta : messageMeta) (flags : connFlags) (d : deferred) (headersEnd : Z) (c : cursor).

Fixpoint chk_header_loop (fuel : nat) (c : cursor) (meta : messageMeta) (flags : connFlags)
    (d : deferred) : res chk_headers :=
  match fuel with
  | O => Crash OutOfFuel
  | S fuel' =>
      if remaining c <? 2 then Ok ChkStop
      else
        b ← peek c;
        if bool_decide (b = Some CR) then
          let c := advance 1 c in
          b2 ← peek c;
          if negb (bool_decide (b2 = Some LF)) then Ok ChkStop
          else Ok (ChkEnd meta flags d (pos c - 1) (advance 1 c))
        else
          match scanCRLF c with
          | None => Ok ChkStop
          | Some lineEnd =>
              line ← slice c lineEnd;
              h ← parseHeaderLineBytes line;
              match h with
              | None => Ok ChkStop
              | Some h =>
                  match applyHeaderMeta meta h with
                  | None => Ok (ChkErr (headerSemanticError meta h))
                  | Some meta' =>
                      chk_header_loop fuel' (advance (lineEnd + 2) c) meta'
                        (header_flags flags h) (defer_header d h)
                  end
              end
          end
  end.

(** The chunk loop, which calls the body callback while it decodes. *)
Fixpoint chk_chunk_loop (fuel : nat) (setting : option Setting) (b : bytes) (c : cursor)
    : M fastResult :=
  match fuel with
  | O => lift (Crash OutOfFuel)
  | S fuel' =>
      sz ← lift (parseChunkSizeLine c);
      match sz with
      | None => mret not_handled
      | Some (size, c) =>
          if size =? 0 then
            if remaining c <? 2 then mret not_handled
            else
              x ← lift (peek c);
              if negb (bool_decide (x = Some CR)) then mret (0, false, Some ErrChunkSize)
              else
                let c := advance 1 c in
                x ← lift (peek c);
                if negb (bool_decide (x = Some LF)) then mret (0, false, Some ErrChunkSize)
                else
                  let c := advance 1 c in
                  if negb (remaining c =? 0) then mret not_handled
                  else complete setting (blen b);; mret (blen b, true, None)
          else
            d ← lift (consumeChunkData c size);
            match d with
            | None => mret not_handled
            | Some (chunk, c) =>
                when (on Body setting && (0 <? blen chunk)) (emit (EvBody chunk (blen b)));;
                chk_chunk_loop fuel' setting b c
            end
      end
  end.

Definition tryFastChunkedRequest (setting : option Setting) (b : bytes) : M fastResult :=
  p ← gets id;
  if negb (bool_decide (p_defaultType p = REQUEST)) then mret not_handled
  else if p_messageStarted p || negb (blen (p_pending p) =? 0)
          || negb (bool_decide (p_fastPhase p = fastPhaseIdle)) then mret not_handled
  else
    let fuel := S (length b) in
    let c := newCursor b in
    l ← lift (parseRequestLine c);
    match l, scanCRLF c with
    | Some line, Some lineEnd =>
        let headersStart := pos c + lineEnd + 2 in
        let c := advance (lineEnd + 2) c in
        let d0 := mkDeferred [] (on HeaderField setting || on HeaderValue setting) in
        h ← lift (chk_header_loop fuel c (mkMeta REQUEST 0 false 0 false)
                    (mkFlags false false false) d0);
        match h with
        | ChkStop => mret not_handled
        | ChkErr e => mret (0, true, Some e)
        | ChkEnd meta flags d headersEnd c =>
            if negb (m_hasTransferEncoding meta) then mret not_handled
            else
              let r := mkFastRequest REQUEST (rl_Method line) (rl_Target line) (rl_Major line)
                (rl_Minor line) [] 0 bodyModeChunked false 0 true (cf_close flags)
                (cf_upgrade flags) (cf_hasUpgrade flags) headersStart headersEnd in
              modify (applyFastRequestResult r);;
              when (on MessageBegin setting) (emit (EvMessageBegin 0));;
              when (on URL setting && (0 <? blen (fr_target r))) (emit (EvURL (fr_target r) (blen b)));;
              when (df_on d) (s ← deref setting; emit_headers s (df_headers d) (blen b));;
              when (on HeadersComplete setting) (emit (EvHeadersComplete (blen b)));;
              chk_chunk_loop fuel setting b c
        end
    | _, _ => mret not_handled
    end.
