(* ===== verification/SplitPath.v ===== *)
(** * Streaming paths (internal/parser/engine.go)

    The paths that accept a message in pieces: [tryFastSplitRequestEmpty]
    (no callbacks), [tryFastSplitRequest], [tryFastSplitResponse], with the
    line scratch buffer, and the body and chunk consumers. *)

From S2P Require Import Prelude Scan Method Cursor StartLine Framing Chunked Message Parser FastPath.

(** ** The line scratch buffer *)

(** [copy(dst[at:], src)] for a source that fits. *)
Definition copy_at (dst : bytes) (at_ : Z) (src : bytes) : bytes :=
  take (Z.to_nat at_) dst ++ src ++ drop (Z.to_nat at_ + length src) dst.

Definition appendScratch (b : bytes) : M (option perror) :=
  p ← gets id;
  if scratchBufferSize <? p_lineScratchLen p + blen b then mret (Some ScratchOverflow)
  else
    modify (fun p => set_lineScratchLen (p_lineScratchLen p + blen b)
                       (set_lineScratch (copy_at (p_lineScratch p) (p_lineScratchLen p) b) p));;
    mret None.

(** [p.lineScratch[:p.lineScratchLen]]. *)
Definition scratchLine : M bytes :=
  p ← gets id; lift (gslice (p_lineScratch p) 0 (p_lineScratchLen p)).

(** The line a segment completes: the segment itself, or the scratch buffer
    with the segment appended; [fail] is the result returned when it does not
    fit. *)
Definition withLine {A} (fail : perror -> A) (segment : bytes) (k : bytes -> M A) : M A :=
  n ← gets p_lineScratchLen;
  if n =? 0 then k segment
  else
    e ← appendScratch segment;
    match e with
    | Some e => mret (fail e)
    | None => line ← scratchLine; k line
    end.

(** ** Lines of a request *)

Definition consumeFastRequestLine (line : bytes) : M (option perror) :=
  parsed ← lift (parseRequestLineBytes line);
  match parsed with
  | None => mret (Some ErrReqMethod)
  | Some r =>
      updates [set_Method (rl_Method r); set_Major (rl_Major r); set_Minor (rl_Minor r);
               set_messageStarted false; set_phase (bs "requestLine")];;
      mret None
  end.

Definition parsedTargetFromLine (line : bytes) : res bytes :=
  parsed ← parseRequestLineBytes line;
  match parsed with None => Ok [] | Some r => Ok (rl_Target r) end.

Definition consumeFastHeader (line : bytes) : M (option perror) :=
  h ← lift (parseHeaderLineBytes line);
  match h with
  | None => mret (Some ErrHeaderOverflow)
  | Some h =>
      if equalFoldToken (Name h) (bs "content-length") then
        has ← gets p_hasContentLength;
        if (has : bool) then mret (Some DuplicateContentLength)
        else
          match parseDecimalInt32 (Value h) with
          | None => mret (Some (InvalidContentLength (Value h)))
          | Some n => updates [set_hasContentLength true; set_contentLength n];; mret None
          end
      else if equalFoldToken (Name h) (bs "transfer-encoding")
              && equalFoldToken (Value h) (bs "chunked") then
        modify (set_hasTransferEncoding true);; mret None
      else if equalFoldToken (Name h) (bs "connection") then
        when (equalFoldToken (Value h) (bs "close")) (modify (set_hasConnectionClose true));;
        when (equalFoldToken (Value h) (bs "upgrade")) (modify (set_hasConnectionUpgrade true));;
        mret None
      else
        when (equalFoldToken (Name h) (bs "upgrade")) (modify (set_hasUpgrade true));;
        mret None
  end.

(** ** Bodies *)

Definition consumeFastBodyWithCallbacks (setting : option Setting) (b : bytes)
    : M (Z * option perror) :=
  p ← gets id;
  if p_contentLength p <=? 0 then
    modify (set_phase (bs "messageDone"));;
    complete setting 0;;
    modify (set_fastPhase fastPhaseIdle);;
    mret (0, None)
  else
    let toConsume := if p_contentLength p <? wrap32 (blen b) then p_contentLength p else blen b in
    when (on Body setting && (0 <? toConsume))
      (d ← lift (gslice b 0 toConsume); emit (EvBody d toConsume));;
    let left := wrap32 (p_contentLength p - wrap32 toConsume) in
    modify (set_contentLength left);;
    when (left =? 0)
      (modify (set_phase (bs "messageDone"));;
       complete setting toConsume;;
       modify (set_fastPhase fastPhaseIdle));;
    mret (toConsume, None).

Definition consumeFastBody (b : bytes) : M (Z * option perror) :=
  consumeFastBodyWithCallbacks None b.

(** The loop of [consumeFastChunkedWithCallbacks].  A size line and the data
    after it take two iterations. *)
Fixpoint chunked_loop (fuel : nat) (setting : option Setting) (b : bytes) (consumed : Z)
    : M (Z * option perror) :=
  match fuel with
  | O => lift (Crash OutOfFuel)
  | S fuel' =>
      if blen b <=? consumed then mret (consumed, None)
      else
        p ← gets id;
        if bool_decide (p_fastPhase p = fastPhaseChunkedData) then
          let toConsume := blen b - consumed in
          let toConsume := if p_contentLength p <? wrap32 toConsume
                           then p_contentLength p else toConsume in
          when (on Body setting && (0 <? toConsume))
            (d ← lift (gslice b consumed (consumed + toConsume));
             emit (EvBody d (consumed + toConsume)));;
          let left := wrap32 (p_contentLength p - wrap32 toConsume) in
          modify (set_contentLength left);;
          let consumed := consumed + toConsume in
          if left =? 0 then
            modify (set_fastPhase fastPhaseChunkedSize);;
            if blen b - consumed <? 2 then
              tail ← lift (gslice_from b consumed);
              e ← appendScratch tail;
              match e with
              | Some e => mret (0, Some e)
              | None => mret (blen b, None)
              end
            else
              x ← lift (gindex b consumed);
              y ← lift (gindex b (consumed + 1));
              if negb (Byte.eqb x CR) || negb (Byte.eqb y LF) then mret (0, Some ErrChunkSize)
              else chunked_loop fuel' setting b (consumed + 2)
          else chunked_loop fuel' setting b consumed
        else
          tail ← lift (gslice_from b consumed);
          match scanCRLFBytes tail with
          | None =>
              e ← appendScratch tail;
              match e with
              | Some e => mret (0, Some e)
              | None => mret (blen b, None)
              end
          | Some idx =>
              let lineEnd := consumed + idx in
              segment ← lift (gslice b consumed lineEnd);
              withLine (fun e => (0, Some e)) segment (fun line =>
                size ← lift (parseChunkSizeLineBytes line);
                match size with
                | None => mret (0, Some ErrChunkSize)
                | Some size =>
                    modify (set_lineScratchLen 0);;
                    let consumed := lineEnd + 2 in
                    if size =? 0 then
                      if blen b - consumed <? 2 then
                        tail ← lift (gslice_from b consumed);
                        e ← appendScratch tail;
                        match e with
                        | Some e => mret (0, Some e)
                        | None => mret (blen b, None)
                        end
                      else
                        x ← lift (gindex b consumed);
                        y ← lift (gindex b (consumed + 1));
                        if negb (Byte.eqb x CR) || negb (Byte.eqb y LF)
                        then mret (0, Some ErrChunkSize)
                        else
                          let consumed := consumed + 2 in
                          modify (set_phase (bs "messageDone"));;
                          complete setting consumed;;
                          modify (set_fastPhase fastPhaseIdle);;
                          mret (consumed, None)
                    else
                      updates [set_contentLength size; set_fastPhase fastPhaseChunkedData];;
                      chunked_loop fuel' setting b consumed
                end)
          end
  end.

Definition consumeFastChunkedWithCallbacks (setting : option Setting) (b : bytes)
    : M (Z * option perror) :=
  chunked_loop (2 * length b + 2)%nat setting b 0.

Definition consumeFastChunked (b : bytes) : M (Z * option perror) :=
  consumeFastChunkedWithCallbacks None b.

(** ** Split requests without callbacks *)

Fixpoint empty_loop (fuel : nat) (b : bytes) (consumed : Z) : M fastResult :=
  match fuel with
  | O => lift (Crash OutOfFuel)
  | S fuel' =>
      if blen b <=? consumed then mret (blen b, true, None)
      else
        tail ← lift (gslice_from b consumed);
        match scanCRLFBytes tail with
        | None =>
            e ← appendScratch tail;
            match e with
            | Some e => mret (0, true, Some e)
            | None => mret (blen b, true, None)
            end
        | Some idx =>
            let lineEnd := consumed + idx in
            segment ← lift (gslice b consumed lineEnd);
            withLine (fun e => (0, true, Some e)) segment (fun line =>
              let next := lineEnd + 2 in
              phase ← gets p_fastPhase;
              match phase with
              | fastPhaseRequestLine =>
                  e ← consumeFastRequestLine line;
                  match e with
                  | Some e => mret (0, true, Some e)
                  | None =>
                      updates [set_lineScratchLen 0; set_fastPhase fastPhaseHeaders];;
                      empty_loop fuel' b next
                  end
              | fastPhaseHeaders =>
                  if blen line =? 0 then
                    p ← gets id;
                    if p_hasTransferEncoding p then
                      updates [set_fastPhase fastPhaseChunkedSize; set_lineScratchLen 0];;
                      rest ← lift (gslice_from b next);
                      '(n, e) ← consumeFastChunked rest;
                      match e with
                      | Some e => mret (0, true, Some e)
                      | None => mret (next + n, true, None)
                      end
                    else if 0 <? p_contentLength p then
                      updates [set_fastPhase fastPhaseBody; set_lineScratchLen 0];;
                      rest ← lift (gslice_from b next);
                      '(n, e) ← consumeFastBody rest;
                      match e with
                      | Some e => mret (0, true, Some e)
                      | None => mret (next + n, true, None)
                      end
                    else
                      modify (set_phase (bs "messageDone"));;
                      complete None next;;
                      updates [set_fastPhase fastPhaseIdle; set_lineScratchLen 0];;
                      mret (blen b, true, None)
                  else
                    e ← consumeFastHeader line;
                    match e with
                    | Some e => mret (0, true, Some e)
                    | None => modify (set_lineScratchLen 0);; empty_loop fuel' b next
                    end
              | _ => empty_loop fuel' b consumed
              end)
        end
  end.

(** [if p.fastPhase == fastPhaseIdle { ... }] at the head of the split paths. *)
Definition enterSplit (first : fastPhase) (t : ReqOrRsp) : M unit :=
  phase ← gets p_fastPhase;
  when (bool_decide (phase = fastPhaseIdle))
    (updates [set_fastPhase first; set_currentType t; set_phase (initialPhase t)]).

Definition handled (r : Z * option perror) : fastResult := (fst r, true, snd r).

Definition tryFastSplitRequestEmpty (setting : option Setting) (b : bytes) : M fastResult :=
  t ← gets p_defaultType;
  if negb (hasNoCallbacks setting) || negb (bool_decide (t = REQUEST)) then mret not_handled
  else
    enterSplit fastPhaseRequestLine REQUEST;;
    phase ← gets p_fastPhase;
    match phase with
    | fastPhaseBody => r ← consumeFastBody b; mret (handled r)
    | fastPhaseChunkedSize | fastPhaseChunkedData => r ← consumeFastChunked b; mret (handled r)
    | _ => empty_loop (S (length b)) b 0
    end.

(** ** Split requests with callbacks *)

Definition emitSplitRequestLineFragment (setting : option Setting) : M unit :=
  match setting with
  | None => skip
  | Some s =>
      started ← gets p_messageStarted;
      when (MessageBegin s && negb started)
        (emit (EvMessageBegin 0);; modify (set_messageStarted true));;
      if negb (URL s) then skip
      else
        line ← scratchLine;
        match scanToByte line SP with
        | None => skip
        | Some firstSpace =>
            if blen line <=? firstSpace + 1 then skip
            else
              target ← lift (gslice_from line (firstSpace + 1));
              off ← gets p_urlOffset;
              when (off <? blen target)
                (part ← lift (gslice_from target off);
                 emit (EvURL part (blen line));;
                 modify (set_urlOffset (blen target)))
        end
  end.

Definition emitSplitHeaderValueFragment (setting : option Setting) (consumed : Z) : M Z :=
  if negb (on HeaderValue setting) then mret (-1)
  else
    line ← scratchLine;
    match scanToByte line ":"%byte with
    | None => mret (-1)
    | Some sep =>
        value ← lift (gslice_from line (sep + 1));
        let trim := skipSpaces value in
        value ← lift (gslice_from value trim);
        off ← gets p_headerValueOffset;
        when (off <? blen value)
          (part ← lift (gslice_from value off);
           emit (EvHeaderValue part (blen line));;
           modify (set_headerValueOffset (blen value)));;
        mret (consumed + sep + 1 + trim)
    end.

(** The callbacks of a complete request line. *)
Definition emitRequestLine (s : Setting) (line : bytes) (next : Z) : M unit :=
  started ← gets p_messageStarted;
  when (MessageBegin s && negb started)
    (emit (EvMessageBegin 0);; modify (set_messageStarted true));;
  when (URL s)
    (target ← lift (parsedTargetFromLine line);
     off ← gets p_urlOffset;
     when (off <? blen target)
       (part ← lift (gslice_from target off);
        emit (EvURL part next);; modify (set_urlOffset (blen target)))).

(** The callbacks of a complete header line. *)
Definition emitHeaderLine (s : Setting) (line : bytes) (next : Z) : M unit :=
  h ← lift (parseHeaderLineBytes line);
  match h with
  | None => skip
  | Some h =>
      when (HeaderField s) (emit (EvHeaderField (Name h) next));;
      when (HeaderValue s)
        (off ← gets p_headerValueOffset;
         when (off <? blen (Value h))
           (part ← lift (gslice_from (Value h) off); emit (EvHeaderValue part next));;
         modify (set_headerValueOffset 0))
  end.

(** [if !emptySetting { ... }]: a non-empty setting is not nil. *)
Definition whenSet (setting : option Setting) (f : Setting -> M unit) : M unit :=
  if hasNoCallbacks setting then skip
  else s ← deref setting; f s.

Fixpoint split_loop (fuel : nat) (setting : option Setting) (b : bytes) (consumed : Z)
    : M fastResult :=
  match fuel with
  | O => lift (Crash OutOfFuel)
  | S fuel' =>
      if blen b <=? consumed then mret (blen b, true, None)
      else
        tail ← lift (gslice_from b consumed);
        match scanCRLFBytes tail with
        | None =>
            e ← appendScratch tail;
            match e with
            | Some e => mret (0, true, Some e)
            | None =>
                phase ← gets p_fastPhase;
                match phase with
                | fastPhaseRequestLine =>
                    if hasNoCallbacks setting then mret (blen b, true, None)
                    else emitSplitRequestLineFragment setting;; mret (blen b, true, None)
                | fastPhaseHeaders =>
                    if hasNoCallbacks setting then mret (blen b, true, None)
                    else
                      n ← emitSplitHeaderValueFragment setting consumed;
                      if 0 <=? n then mret (n, true, None) else mret (blen b, true, None)
                | _ => mret (blen b, true, None)
                end
            end
        | Some idx =>
            let lineEnd := consumed + idx in
            segment ← lift (gslice b consumed lineEnd);
            withLine (fun e => (0, true, Some e)) segment (fun line =>
              let next := lineEnd + 2 in
              phase ← gets p_fastPhase;
              match phase with
              | fastPhaseRequestLine =>
                  e ← consumeFastRequestLine line;
                  match e with
                  | Some e => mret (0, true, Some e)
                  | None =>
                      whenSet setting (fun s => emitRequestLine s line next);;
                      updates [set_lineScratchLen 0; set_fastPhase fastPhaseHeaders];;
                      split_loop fuel' setting b next
                  end
              | fastPhaseHeaders =>
                  if blen line =? 0 then
                    p ← gets id;
                    let headersComplete :=
                      whenSet setting (fun s => when (HeadersComplete s)
                        (emit (EvHeadersComplete next))) in
                    if p_hasTransferEncoding p then
                      updates [set_fastPhase fastPhaseChunkedSize; set_lineScratchLen 0];;
                      headersComplete;;
                      rest ← lift (gslice_from b next);
                      '(n, e) ← consumeFastChunkedWithCallbacks setting rest;
                      match e with
                      | Some e => mret (0, true, Some e)
                      | None => mret (next + n, true, None)
                      end
                    else if 0 <? p_contentLength p then
                      updates [set_fastPhase fastPhaseBody; set_lineScratchLen 0];;
                      headersComplete;;
                      rest ← lift (gslice_from b next);
                      '(n, e) ← consumeFastBodyWithCallbacks setting rest;
                      match e with
                      | Some e => mret (0, true, Some e)
                      | None => mret (next + n, true, None)
                      end
                    else
                      headersComplete;;
                      modify (set_phase (bs "messageDone"));;
                      complete setting next;;
                      updates [set_fastPhase fastPhaseIdle; set_lineScratchLen 0];;
                      mret (blen b, true, None)
                  else
                    e ← consumeFastHeader line;
                    match e with
                    | Some e => mret (0, true, Some e)
                    | None =>
                        whenSet setting (fun s => emitHeaderLine s line next);;
                        modify (set_lineScratchLen 0);;
                        split_loop fuel' setting b next
                    end
              | _ => split_loop fuel' setting b consumed
              end)
        end
  end.

Definition tryFastSplitRequest (setting : option Setting) (b : bytes) : M fastResult :=
  t ← gets p_defaultType;
  if negb (bool_decide (t = REQUEST)) then mret not_handled
  else
    enterSplit fastPhaseRequestLine REQUEST;;
    phase ← gets p_fastPhase;
    match phase with
    | fastPhaseBody => r ← consumeFastBodyWithCallbacks setting b; mret (handled r)
    | fastPhaseChunkedSize | fastPhaseChunkedData =>
        r ← consumeFastChunkedWithCallbacks setting b; mret (handled r)
    | _ => split_loop (S (length b)) setting b 0
    end.

(** ** Split responses *)

Definition emitSplitResponseLineFragment (setting : option Setting) : M unit :=
  match setting with
  | None => skip
  | Some s =>
      started ← gets p_messageStarted;
      when (MessageBegin s && negb started)
        (emit (EvMessageBegin 0);; modify (set_messageStarted true));;
      if negb (Status s) then skip
      else
        line ← scratchLine;
        if (blen line <? 13) || negb (hasPrefix line (bs "HTTP/")) then skip
        else
          reason ← lift (gslice_from line 13);
          off ← gets p_statusOffset;
          when (off <? blen reason)
            (part ← lift (gslice_from reason off);
             emit (EvStatus part (blen line));;
             modify (set_statusOffset (blen reason)))
  end.

(** The callbacks of a complete status line. *)
Definition emitStatusLine (s : Setting) (parsed : responseLine) (next : Z) : M unit :=
  started ← gets p_messageStarted;
  when (MessageBegin s && negb started)
    (emit (EvMessageBegin 0);; modify (set_messageStarted true));;
  off ← gets p_statusOffset;
  when (Status s && (off <? blen (sl_Reason parsed)))
    (part ← lift (gslice_from (sl_Reason parsed) off);
     emit (EvStatus part next);; modify (set_statusOffset (blen (sl_Reason parsed)))).

Fixpoint response_loop (fuel : nat) (setting : option Setting) (b : bytes) (consumed : Z)
    : M fastResult :=
  match fuel with
  | O => lift (Crash OutOfFuel)
  | S fuel' =>
      if blen b <=? consumed then mret (blen b, true, None)
      else
        tail ← lift (gslice_from b consumed);
        match scanCRLFBytes tail with
        | None =>
            e ← appendScratch tail;
            match e with
            | Some e => mret (0, true, Some e)
            | None =>
                phase ← gets p_fastPhase;
                when (bool_decide (phase = fastPhaseResponseLine))
                  (emitSplitResponseLineFragment setting);;
                mret (blen b, true, None)
            end
        | Some idx =>
            let lineEnd := consumed + idx in
            segment ← lift (gslice b consumed lineEnd);
            withLine (fun e => (0, true, Some e)) segment (fun line =>
              let next := lineEnd + 2 in
              phase ← gets p_fastPhase;
              match phase with
              | fastPhaseResponseLine =>
                  parsed ← lift (parseResponseLineBytes line);
                  match parsed with
                  | None => mret (0, true, Some ErrStatusLineHTTP)
                  | Some parsed =>
                      updates [set_Method NoMethod; set_Major (sl_Major parsed);
                               set_Minor (sl_Minor parsed); set_StatusCode (sl_StatusCode parsed)];;
                      (match setting with
                       | Some s => emitStatusLine s parsed next
                       | None => skip
                       end);;
                      updates [set_lineScratchLen 0; set_fastPhase fastPhaseHeaders];;
                      response_loop fuel' setting b next
                  end
              | fastPhaseHeaders =>
                  if blen line =? 0 then
                    code ← gets p_StatusCode;
                    if negb (responseStatusHasNoBody code) then mret not_handled
                    else
                      when (on HeadersComplete setting) (emit (EvHeadersComplete next));;
                      modify (set_phase (bs "messageDone"));;
                      complete setting next;;
                      updates [set_fastPhase fastPhaseIdle; set_lineScratchLen 0];;
                      mret (blen b, true, None)
                  else
                    (match setting with
                     | None => skip
                     | Some s =>
                         h ← lift (parseHeaderLineBytes line);
                         match h with
                         | None => skip
                         | Some h => emit_header s h next
                         end
                     end);;
                    modify (set_lineScratchLen 0);;
                    response_loop fuel' setting b next
              | _ => response_loop fuel' setting b consumed
              end)
        end
  end.

Definition tryFastSplitResponse (setting : option Setting) (b : bytes) : M fastResult :=
  t ← gets p_defaultType;
  if negb (bool_decide (t = RESPONSE)) then mret not_handled
  else
    enterSplit fastPhaseResponseLine RESPONSE;;
    response_loop (S (length b)) setting b 0.
