(* ===== verification/Execute.v ===== *)
(** * Parser.Execute (internal/parser/engine.go, parser.go)

    [executeClean] and what remains of its callees: the accumulating slow path
    that re-parses the pending bytes with the reference parser and reports
    partial start lines and header values as they arrive. *)

From S2P Require Import Prelude Scan Method Cursor StartLine Framing Chunked Message Parser.
From S2P Require Import FastPath FastPathMore SplitPath.

(** [bytes.LastIndex(b, CRLF)]; -1 when absent. *)
Fixpoint lastIndexCRLF_at (b : bytes) (i acc : Z) : Z :=
  match b with
  | c :: ((d :: _) as b') =>
      lastIndexCRLF_at b' (i + 1) (if Byte.eqb c CR && Byte.eqb d LF then i else acc)
  | _ => acc
  end.

Definition lastIndexCRLF (b : bytes) : Z := lastIndexCRLF_at b 0 (-1).

(** The first line of the pending bytes, or all of them. *)
Definition firstPendingLine : M bytes :=
  pending ← gets p_pending;
  match scanCRLFBytes pending with
  | Some lineEnd => lift (gslice pending 0 lineEnd)
  | None => mret pending
  end.

Definition emitPartialRequestFragments (s : Setting) : M unit :=
  line ← firstPendingLine;
  total ← gets (fun p => blen (p_pending p));
  match scanToByte line SP with
  | None => skip
  | Some firstSpace =>
      if blen line <=? firstSpace + 1 then skip
      else
        tail ← lift (gslice_from line (firstSpace + 1));
        off ← gets p_urlOffset;
        match scanToByte tail SP with
        | Some i =>
            let secondSpace := i + (firstSpace + 1) in
            when (URL s && (off <? secondSpace - (firstSpace + 1)))
              (part ← lift (gslice line (firstSpace + 1 + off) secondSpace);
               when (0 <? blen part)
                 (emit (EvURL part total);;
                  modify (set_urlOffset (secondSpace - (firstSpace + 1)))))
        | None =>
            when (URL s)
              (part ← lift (gslice_from line (firstSpace + 1));
               when (off <? blen part)
                 (fragment ← lift (gslice_from part off);
                  when (0 <? blen fragment)
                    (emit (EvURL fragment total);; modify (set_urlOffset (blen part)))))
        end
  end.

Definition emitPartialResponseFragments (s : Setting) : M unit :=
  line ← firstPendingLine;
  total ← gets (fun p => blen (p_pending p));
  if (blen line <? 13) || negb (hasPrefix line (bs "HTTP/")) then skip
  else
    reason ← lift (gslice_from line 13);
    off ← gets p_statusOffset;
    when (Status s && (off <? blen reason))
      (fragment ← lift (gslice_from reason off);
       when (0 <? blen fragment)
         (emit (EvStatus fragment total);; modify (set_statusOffset (blen reason)))).

Definition emitPartialHeaderValue (s : Setting) : M unit :=
  pending ← gets p_pending;
  let lastCRLF := lastIndexCRLF pending in
  let start := if 0 <=? lastCRLF then lastCRLF + 2 else 0 in
  line ← lift (gslice_from pending start);
  if (blen line =? 0) || (match scanCRLFBytes line with Some _ => true | None => false end)
  then skip
  else
    match scanToByte line ":"%byte with
    | None => skip
    | Some sep =>
        value ← lift (gslice_from line (sep + 1));
        value ← lift (gslice_from value (skipSpaces value));
        off ← gets p_headerValueOffset;
        when (HeaderValue s && (off <? blen value))
          (fragment ← lift (gslice_from value off);
           when (0 <? blen fragment)
             (emit (EvHeaderValue fragment (blen pending));;
              modify (set_headerValueOffset (blen value))))
    end.

Definition incompleteConsumedForCurrentState (p : Parser) : res Z :=
  match p_currentType p with
  | REQUEST =>
      match scanCRLFBytes (p_pending p) with
      | None => Ok (blen (p_pending p))
      | Some lineEnd =>
          pendingHeaders ← gslice_from (p_pending p) (lineEnd + 2);
          let lastCRLF := lastIndexCRLF pendingHeaders in
          line ← (if 0 <=? lastCRLF then gslice_from pendingHeaders (lastCRLF + 2)
                  else Ok pendingHeaders);
          match scanToByte line ":"%byte with
          | Some sep =>
              value ← gslice_from line (sep + 1);
              v ← gslice_from value (skipSpaces value);
              Ok (blen (p_pending p) - blen v)
          | None => Ok (-1)
          end
      end
  | _ => Ok (-1)
  end.

(** The connection flags of the parser after a header of a parsed message. *)
Definition apply_conn_header (p : Parser) (h : headerLine) : Parser :=
  let p :=
    if equalFoldToken (Name h) (bs "connection") then
      let p := if equalFoldToken (Value h) (bs "close") then set_hasConnectionClose true p else p in
      if equalFoldToken (Value h) (bs "upgrade") then set_hasConnectionUpgrade true p else p
    else p in
  if equalFoldToken (Name h) (bs "upgrade") then set_hasUpgrade true p else p.

Definition applyParsedMessage (msg : parsedMessage) (p : Parser) : Parser :=
  let p := set_currentType (pm_kind msg) p in
  let p :=
    if bool_decide (pm_kind msg = REQUEST) then
      assigns [set_Method (rl_Method (pm_request msg)); set_Major (rl_Major (pm_request msg));
               set_Minor (rl_Minor (pm_request msg))] p
    else
      assigns [set_Method NoMethod; set_Major (sl_Major (pm_response msg));
               set_Minor (sl_Minor (pm_response msg));
               set_StatusCode (sl_StatusCode (pm_response msg))] p in
  let p := assigns [set_hasContentLength (m_hasContentLength (pm_meta msg));
                    set_contentLength (m_contentLength (pm_meta msg));
                    set_hasTransferEncoding (m_hasTransferEncoding (pm_meta msg));
                    set_Upgrade false] p in
  let p := fold_left apply_conn_header (pm_headers msg) p in
  let p :=
    if p_hasUpgrade p && p_hasConnectionUpgrade p then
      set_Upgrade (bool_decide (p_currentType p = REQUEST) || (p_StatusCode p =? 101)) p
    else set_Upgrade (bool_decide (p_Method p = CONNECT)) p in
  let p := if bool_decide (pm_mode msg = bodyModeChunked) && (0 <? blen (pm_body msg))
           then set_contentLength (wrap32 (blen (pm_body msg))) p else p in
  let p := if bool_decide (pm_mode msg = bodyModeNone)
           then set_contentLength unsetContentLength p else p in
  if p_Upgrade p || negb (bool_decide (pm_mode msg = bodyModeEOF))
  then set_messageCompleteCalled false p else p.

(** The header callbacks of a parsed message; the first value is cut by what
    has been reported of it already. *)
Definition emit_parsed_header (s : Setting) (h : headerLine) : M unit :=
  total ← gets (fun p => blen (p_pending p));
  when (HeaderField s) (emit (EvHeaderField (Name h) total));;
  when (HeaderValue s)
    (off ← gets p_headerValueOffset;
     if 0 <? off then
       when (off <? blen (Value h))
         (part ← lift (gslice_from (Value h) off); emit (EvHeaderValue part total));;
       modify (set_headerValueOffset 0)
     else emit (EvHeaderValue (Value h) total)).

Fixpoint emit_parsed_headers (s : Setting) (hs : list headerLine) : M unit :=
  match hs with
  | [] => skip
  | h :: hs' => emit_parsed_header s h;; emit_parsed_headers s hs'
  end.

Definition emitParsedMessage (s : Setting) (msg : parsedMessage) : M unit :=
  total ← gets (fun p => blen (p_pending p));
  (if bool_decide (pm_kind msg = REQUEST) && URL s then
     off ← gets p_urlOffset;
     let target := rl_Target (pm_request msg) in
     when (off <? blen target)
       (part ← lift (gslice_from target off); emit (EvURL part total))
   else if bool_decide (pm_kind msg = RESPONSE) && Status s then
     off ← gets p_statusOffset;
     let reason := sl_Reason (pm_response msg) in
     when (off <? blen reason)
       (part ← lift (gslice_from reason off); emit (EvStatus part total))
   else skip);;
  emit_parsed_headers s (pm_headers msg);;
  when (HeadersComplete s) (emit (EvHeadersComplete total));;
  when (Body s && (0 <? blen (pm_body msg))) (emit (EvBody (pm_body msg) total));;
  complete (Some s) total.

(** The accumulating path. *)
Definition slowPath (setting : option Setting) (b : bytes) : M (Z * option perror) :=
  modify (fun p => set_pending (p_pending p ++ b) p);;
  p ← gets id;
  when (negb (p_messageStarted p))
    ((match inferMessageKind (p_defaultType p) (p_pending p) with
      | Some kind => modify (set_currentType kind)
      | None => skip
      end);;
     modify (set_messageStarted true);;
     s ← deref setting;
     when (MessageBegin s) (emit (EvMessageBegin 0)));;
  s ← deref setting;
  kind ← gets p_currentType;
  (match kind with
   | REQUEST => emitPartialRequestFragments s
   | RESPONSE => emitPartialResponseFragments s
   | BOTH => skip
   end);;
  emitPartialHeaderValue s;;
  p ← gets id;
  r ← lift (parseMessageDetailed (p_pending p) (p_currentType p));
  match r with
  | ParseErr e => mret (0, Some e)
  | ParseIncomplete =>
      n ← lift (incompleteConsumedForCurrentState p);
      if 0 <=? n then mret (n, None) else mret (blen b, None)
  | ParseOk msg =>
      modify (applyParsedMessage msg);;
      emitParsedMessage s msg;;
      updates [set_pending []; set_messageStarted false; set_urlOffset 0; set_statusOffset 0;
               set_headerValueOffset 0];;
      mret (blen b, None)
  end.

(** Tries the paths in order; the first that handles the buffer, or fails on
    it, gives the result. *)
Fixpoint tryPaths (paths : list (M fastResult)) (k : M (Z * option perror)) : M (Z * option perror) :=
  match paths with
  | [] => k
  | path :: paths' =>
      '(n, ok, err) ← path;
      if (ok : bool) || (match err with Some _ => true | None => false end)
      then mret (n, err) else tryPaths paths' k
  end.

Definition executeClean (setting : option Setting) (b : bytes) : M (Z * option perror) :=
  if blen b =? 0 then mret (0, None)
  else
    t ← gets p_defaultType;
    tryPaths
      (if bool_decide (t = REQUEST) then
         [tryFastSplitRequestEmpty setting b; tryFastRequest setting b;
          tryFastChunkedRequest setting b; tryFastSplitRequest setting b]
       else
         [tryFastSplitResponse setting b; tryFastResponse setting b;
          tryFastSplitRequest setting b; tryFastRequest setting b;
          tryFastChunkedRequest setting b])
      (slowPath setting b).

Definition Execute (setting : option Setting) (b : bytes) : M (Z * option perror) :=
  executeClean setting b.
