(* ===== verification/FastSpec.v ===== *)
(** * The one-buffer fast paths implement the reference parser

    The loops of [analyzeFastRequestCaptured], [analyzeFastResponse] and
    [tryFastChunkedRequest] are run in lock step with the loops of
    [parseMessageDetailed]; the callbacks the fast paths make are those of the
    message the reference parser returns. *)

From S2P Require Import Prelude Scan Method Cursor StartLine Framing Chunked Message Parser.
From S2P Require Import FastPath FastPathMore.

(** ** Running monadic code *)

Lemma run_bind {A B} (m : M A) (k : A -> M B) s a s' :
  m s = Ok (a, s') -> (m ≫= k) s = k a s'.
Proof. unfold mbind, M_bind. by intros ->. Qed.

Lemma run_lift {A B} (a : A) (k : A -> M B) s : (lift (Ok a) ≫= k) s = k a s.
Proof. done. Qed.

Lemma run_gets {A B} (f : Parser -> A) (k : A -> M B) p tr : (gets f ≫= k) (p, tr) = k (f p) (p, tr).
Proof. done. Qed.

Lemma run_modify {B} f (k : M B) p tr : (modify f;; k) (p, tr) = k (f p, tr).
Proof. done. Qed.

Lemma run_updates {B} l (k : M B) p tr : (updates l;; k) (p, tr) = k (assigns l p, tr).
Proof. done. Qed.

(** A computation that only calls callbacks. *)
Definition emits (m : M unit) (es : list Event) : Prop :=
  forall p tr, m (p, tr) = Ok (tt, (p, tr ++ es)).

Lemma emits_skip : emits skip [].
Proof. intros p tr. by rewrite app_nil_r. Qed.

Lemma emits_emit e : emits (emit e) [e].
Proof. done. Qed.

Lemma emits_when c m es : emits m es -> emits (when c m) (if c then es else []).
Proof. destruct c; [done | intros _; apply emits_skip]. Qed.

Lemma emits_seq m k es fs : emits m es -> emits k fs -> emits (m;; k) (es ++ fs).
Proof. intros Hm Hk p tr. rewrite (run_bind _ _ _ _ _ (Hm p tr)), Hk. by rewrite app_assoc. Qed.

Lemma emits_lift {A} (r : res A) a (k : A -> M unit) es :
  r = Ok a -> emits (k a) es -> emits (lift r ≫= k) es.
Proof. intros -> H p tr. apply H. Qed.

Lemma run_emits (m : M unit) {B} (k : M B) es p tr :
  emits m es -> (m;; k) (p, tr) = k (p, tr ++ es).
Proof. intros H. by rewrite (run_bind _ _ _ _ _ (H p tr)). Qed.

#[export] Hint Resolve emits_skip emits_emit emits_when emits_seq : hop.

(** The events of one callback: none when it is not set. *)
Definition ev (set : bool) (e : Event) : list Event := if set then [e] else [].

Lemma emits_ev c e : emits (when c (emit e)) (ev c e).
Proof. apply emits_when, emits_emit. Qed.

(** ** What a message means to the callbacks *)

Definition header_events (s : Setting) (at_ : Z) (h : headerLine) : list Event :=
  ev (HeaderField s) (EvHeaderField (Name h) at_) ++ ev (HeaderValue s) (EvHeaderValue (Value h) at_).

Definition headers_events (s : Setting) (at_ : Z) (hs : list headerLine) : list Event :=
  concat (map (header_events s at_) hs).

(** The pieces in which a body is delivered. *)
Definition body_events (s : Setting) (at_ : Z) (pieces : list bytes) : list Event :=
  concat (map (fun d => ev (Body s && (0 <? blen d)) (EvBody d at_)) pieces).

(** The callbacks of a whole request in a buffer of [at_] bytes whose body is
    delivered in [pieces]. *)
Definition request_events (s : Setting) (at_ : Z) (msg : parsedMessage) (pieces : list bytes)
    : list Event :=
  let target := rl_Target (pm_request msg) in
  ev (MessageBegin s) (EvMessageBegin 0) ++
  ev (URL s && (0 <? blen target)) (EvURL target at_) ++
  headers_events s at_ (pm_headers msg) ++
  ev (HeadersComplete s) (EvHeadersComplete at_) ++
  body_events s at_ pieces ++
  ev (MessageComplete s) (EvMessageComplete at_).

Lemma emit_header_emits s h at_ : emits (emit_header s h at_) (header_events s at_ h).
Proof. apply emits_seq; apply emits_ev. Qed.

Lemma emit_headers_emits s hs at_ : emits (emit_headers s hs at_) (headers_events s at_ hs).
Proof.
  induction hs as [|h hs IH]; [apply emits_skip|].
  apply emits_seq; [apply emit_header_emits | exact IH].
Qed.

(** Re-parsing a header block calls the callbacks of its headers, for a block
    of any number of lines; [tl] is what follows the last line end of the
    slice the code takes. *)
Lemma reparse_headers_emits s at_ lines hs tl fuel c :
  header_lines lines hs -> crlf_free tl ->
  cursor_ok c -> rest c = header_block lines ++ tl -> (length (rest c) < fuel)%nat ->
  emits (reparse_headers fuel s c at_) (headers_events s at_ hs).
Proof.
  intros [Ht Hp] Htl. revert fuel c. induction Hp as [|l h lines hs Hh Hp IH];
    intros [|fuel] c Hc Hr Hf; try lia; cbn [reparse_headers]; rewrite remaining_rest by done.
  - destruct (Z.leb_spec (blen (rest c)) 0); [apply emits_skip|].
    rewrite scanCRLF_rest, Hr. cbn [header_block map concat app].
    rewrite (proj2 (scanCRLFBytes_None tl)) by done. apply emits_skip.
  - inversion_clear Ht as [|? ? [Hne [_ Hl]] Ht'].
    assert (rest c = l ++ CRLF ++ (header_block lines ++ tl)) as Hr1
      by (rewrite Hr; unfold header_block; cbn; by rewrite <- !app_assoc).
    destruct (Z.leb_spec (blen (rest c)) 0) as [Hz|_]; [rewrite Hr1 in Hz; unfold CRLF in Hz; blens|].
    destruct (parseHeaderLine_rest c l _ Hc Hr1 Hl) as [-> ->].
    apply (emits_lift _ (Some h)); [done|].
    apply emits_seq; [apply emit_header_emits|].
    destruct (advance_app c (l ++ CRLF) (header_block lines ++ tl) (blen l + 2)) as [Hc' Hr'];
      [done | by rewrite <- app_assoc | by rewrite blen_app |].
    apply IH; try done. rewrite Hr'. rewrite Hr1 in Hf. rewrite !length_app in *.
    cbn [length CRLF] in *. lia.
Qed.

(** Decoding a chunked body again calls the body callback for each chunk. *)
Lemma emit_chunks_emits s at_ enc cs fuel c :
  chunked_text enc cs -> cursor_ok c -> rest c = enc -> (length enc < fuel)%nat ->
  emits (emit_chunks fuel s c at_) (body_events s at_ cs).
Proof.
  intros Ht. revert fuel c. induction Ht as [line Hl Hs|line d enc cs Hl Hd Hs Ht IH];
    intros [|fuel] c Hc Hr Hf; try lia; cbn [emit_chunks];
    (destruct (parseChunkSizeLine_rest c Hc) as [[Hn _]|(line' & r & Hr' & Hl' & Hcase)];
      [rewrite Hr in Hn; by edestruct Hn|]);
    (rewrite Hr' in Hr; apply crlf_split_inj in Hr as [-> ->]; [|done..]);
    (destruct Hcase as [[Hs' _]|(size & c1 & Hs' & -> & Hc1 & Hr1)]; [congruence|]);
    rewrite Hs in Hs'; injection Hs' as <-;
    (eapply emits_lift; [done|]); cbv beta iota.
  - apply emits_skip.
  - destruct (Z.eqb_spec (blen d) 0) as [E|_]; [by apply blen_zero in E|].
    destruct (consumeChunkData_rest c1 (blen d) Hc1)
      as [(d' & r2 & c2 & Hr2 & Hd' & Hc2 & Hr3 & ->)|[Hn _]]; [|by destruct (Hn d enc)].
    rewrite Hr1 in Hr2. apply app_inj_1 in Hr2 as [<- Hr2]; [|unfold blen in Hd'; lia].
    injection Hr2 as <-. eapply emits_lift; [done|]. apply emits_seq; [apply emits_ev|].
    apply IH; try done. rewrite !length_app in Hf. cbn [length CRLF] in *. lia.
Qed.

(** ** Lock step with the reference loops *)

(** One step of a header loop: what the loops of the four paths have in
    common. *)
Inductive header_step_outcome : Type :=
| StepStop
| StepEnd (headersEnd : Z) (c : cursor)
| StepLine (h : headerLine) (c : cursor).

Definition header_step (c : cursor) : res header_step_outcome :=
  if remaining c <? 2 then Ok StepStop
  else
    b ← peek c;
    if bool_decide (b = Some CR) then
      b2 ← peek (advance 1 c);
      if negb (bool_decide (b2 = Some LF)) then Ok StepStop
      else Ok (StepEnd (pos (advance 1 c) - 1) (advance 1 (advance 1 c)))
    else
      match scanCRLF c with
      | None => Ok StepStop
      | Some lineEnd =>
          line ← slice c lineEnd;
          h ← parseHeaderLineBytes line;
          match h with
          | None => Ok StepStop
          | Some h => Ok (StepLine h (advance (lineEnd + 2) c))
          end
      end.

Ltac step_eq c :=
  unfold header_step, parseHeaderLine;
  destruct (remaining c <? 2); [done|];
  destruct (peek c) as [?|]; [|done]; cbn [mbind res_bind];
  destruct (bool_decide _);
  [ destruct (peek (advance 1 c)) as [?|]; [|done]; cbn [mbind res_bind]; by destruct (negb _)
  | destruct (scanCRLF _) as [?|]; [|done]; cbn [mbind res_bind default];
    destruct (slice _ _) as [?|]; [|done]; cbn [mbind res_bind];
    by destruct (parseHeaderLineBytes _) as [[?|]|] ].

Lemma header_loop_step fuel c hs meta :
  header_loop (S fuel) c hs meta =
  o ← header_step c;
  match o with
  | StepStop => Ok HeadersIncomplete
  | StepEnd _ c' => Ok (HeadersDone hs meta c')
  | StepLine h c' =>
      match applyHeaderMeta meta h with
      | None => Ok (HeadersErr (headerSemanticError meta h))
      | Some meta' => header_loop fuel c' (hs ++ [h]) meta'
      end
  end.
Proof. cbn [header_loop]. step_eq c. Qed.

Lemma fast_header_loop_step fuel c meta flags cap :
  fast_header_loop (S fuel) c meta flags cap =
  o ← header_step c;
  match o with
  | StepStop => Ok (FastStop cap)
  | StepEnd he c' => Ok (FastEnd meta flags cap he c')
  | StepLine h c' =>
      match applyHeaderMeta meta h with
      | None => Ok (FastErr (headerSemanticError meta h) cap)
      | Some meta' => fast_header_loop fuel c' meta' (header_flags flags h) (capture_header cap h)
      end
  end.
Proof. cbn [fast_header_loop]. step_eq c. Qed.

Lemma rsp_header_loop_step fuel c meta close :
  rsp_header_loop (S fuel) c meta close =
  o ← header_step c;
  match o with
  | StepStop => Ok RspStop
  | StepEnd _ c' => Ok (RspEnd meta close c')
  | StepLine h c' =>
      match applyHeaderMeta meta h with
      | None => Ok (RspErr (headerSemanticError meta h))
      | Some meta' => rsp_header_loop fuel c' meta'
          (if equalFoldToken (Name h) (bs "connection") && equalFoldToken (Value h) (bs "close")
           then true else close)
      end
  end.
Proof. cbn [rsp_header_loop]. step_eq c. Qed.

Lemma chk_header_loop_step fuel c meta flags d :
  chk_header_loop (S fuel) c meta flags d =
  o ← header_step c;
  match o with
  | StepStop => Ok ChkStop
  | StepEnd he c' => Ok (ChkEnd meta flags d he c')
  | StepLine h c' =>
      match applyHeaderMeta meta h with
      | None => Ok (ChkErr (headerSemanticError meta h))
      | Some meta' => chk_header_loop fuel c' meta' (header_flags flags h) (defer_header d h)
      end
  end.
Proof. cbn [chk_header_loop]. step_eq c. Qed.

(** A step stays in the buffer; the header block ends two bytes before the
    body. *)
Lemma header_step_pos c :
  match header_step c with
  | Ok (StepEnd he c') => he = pos c' - 2 /\ buf c' = buf c
  | Ok (StepLine _ c') => buf c' = buf c
  | _ => True
  end.
Proof.
  unfold header_step. destruct (remaining c <? 2) eqn:Hrem; [done|].
  destruct (peek c) as [x|]; [|done]. cbn [mbind res_bind]. destruct (bool_decide _).
  - destruct (peek (advance 1 c)) as [y|]; [|done]. cbn [mbind res_bind].
    destruct (negb _); [done|]. split; [|done]. unfold remaining, advance in *. cbn in *.
    destruct (Z.leb_spec (blen (buf c)) (pos c)); [done|].
    destruct (Z.ltb_spec (blen (buf c)) (pos c + 1)); cbn;
      [blia | destruct (Z.ltb_spec (blen (buf c)) (pos c + 1 + 1)); blia].
  - destruct (scanCRLF c); [|done]. destruct (slice _ _); [|done]. cbn [mbind res_bind].
    by destruct (parseHeaderLineBytes _) as [[?|]|].
Qed.

Lemma fast_header_loop_sim fuel c hs meta flags cap :
  match header_loop fuel c hs meta with
  | Crash e => fast_header_loop fuel c meta flags cap = Crash e
  | Ok HeadersIncomplete => exists cap', fast_header_loop fuel c meta flags cap = Ok (FastStop cap')
  | Ok (HeadersErr e) => exists cap', fast_header_loop fuel c meta flags cap = Ok (FastErr e cap')
  | Ok (HeadersDone hs' meta' c') => exists hs1, hs' = hs ++ hs1 /\ buf c' = buf c /\
      fast_header_loop fuel c meta flags cap =
        Ok (FastEnd meta' (fold_left header_flags hs1 flags) (fold_left capture_header hs1 cap)
              (pos c' - 2) c')
  end.
Proof.
  revert c hs meta flags cap. induction fuel as [|fuel IH]; intros c hs meta flags cap; [done|].
  rewrite header_loop_step, fast_header_loop_step. pose proof (header_step_pos c) as Hp.
  destruct (header_step c) as [[|he c'|h c']|]; cbn [mbind res_bind]; [by eexists| | |done].
  - destruct Hp as [-> Hb]. exists []. by rewrite app_nil_r.
  - destruct (applyHeaderMeta meta h) as [meta'|]; [|by eexists].
    specialize (IH c' (hs ++ [h]) meta' (header_flags flags h) (capture_header cap h)).
    destruct (header_loop fuel c' (hs ++ [h]) meta') as [[hs' m' c2| |e]|]; [|done..].
    destruct IH as (hs1 & -> & Hb & ->). exists (h :: hs1). rewrite <- app_assoc, Hb. done.
Qed.

Lemma rsp_header_loop_sim fuel c hs meta close :
  match header_loop fuel c hs meta with
  | Crash e => rsp_header_loop fuel c meta close = Crash e
  | Ok HeadersIncomplete => rsp_header_loop fuel c meta close = Ok RspStop
  | Ok (HeadersErr e) => rsp_header_loop fuel c meta close = Ok (RspErr e)
  | Ok (HeadersDone hs' meta' c') => exists hs1 close', hs' = hs ++ hs1 /\ buf c' = buf c /\
      rsp_header_loop fuel c meta close = Ok (RspEnd meta' close' c') /\
      close' = close || existsb (fun h => equalFoldToken (Name h) (bs "connection")
                                   && equalFoldToken (Value h) (bs "close")) hs1
  end.
Proof.
  revert c hs meta close. induction fuel as [|fuel IH]; intros c hs meta close; [done|].
  rewrite header_loop_step, rsp_header_loop_step. pose proof (header_step_pos c) as Hp.
  destruct (header_step c) as [[|he c'|h c']|]; cbn [mbind res_bind]; [done| | |done].
  - destruct Hp as [_ Hb]. exists [], close. by rewrite app_nil_r, orb_false_r.
  - destruct (applyHeaderMeta meta h) as [meta'|]; [|done]. set (cl := if _ && _ then _ else _).
    specialize (IH c' (hs ++ [h]) meta' cl).
    destruct (header_loop fuel c' (hs ++ [h]) meta') as [[hs' m' c2| |e]|]; [|done..].
    destruct IH as (hs1 & close' & -> & Hb & -> & ->). exists (h :: hs1). eexists.
    rewrite <- app_assoc, Hb. split_and!; [done..|]. cbn [existsb]. rewrite orb_assoc. f_equal.
    unfold cl. destruct (_ && _); by destruct close.
Qed.

Lemma chk_header_loop_sim fuel c hs meta flags d :
  match header_loop fuel c hs meta with
  | Crash e => chk_header_loop fuel c meta flags d = Crash e
  | Ok HeadersIncomplete => chk_header_loop fuel c meta flags d = Ok ChkStop
  | Ok (HeadersErr e) => chk_header_loop fuel c meta flags d = Ok (ChkErr e)
  | Ok (HeadersDone hs' meta' c') => exists hs1, hs' = hs ++ hs1 /\ buf c' = buf c /\
      chk_header_loop fuel c meta flags d =
        Ok (ChkEnd meta' (fold_left header_flags hs1 flags) (fold_left defer_header hs1 d)
              (pos c' - 2) c')
  end.
Proof.
  revert c hs meta flags d. induction fuel as [|fuel IH]; intros c hs meta flags d; [done|].
  rewrite header_loop_step, chk_header_loop_step. pose proof (header_step_pos c) as Hp.
  destruct (header_step c) as [[|he c'|h c']|]; cbn [mbind res_bind]; [done| | |done].
  - destruct Hp as [-> Hb]. exists []. by rewrite app_nil_r.
  - destruct (applyHeaderMeta meta h) as [meta'|]; [|done].
    specialize (IH c' (hs ++ [h]) meta' (header_flags flags h) (defer_header d h)).
    destruct (header_loop fuel c' (hs ++ [h]) meta') as [[hs' m' c2| |e]|]; [|done..].
    destruct IH as (hs1 & -> & Hb & ->). exists (h :: hs1). rewrite <- app_assoc, Hb. done.
Qed.

(** The fast chunk loop accepts what the reference loop accepts to the end of
    the buffer; where the reference loop waits for more bytes, it may instead
    report a malformed last chunk. *)
Lemma fast_chunk_loop_sim fuel c body :
  match chunk_loop fuel c body with
  | Crash e => fast_chunk_loop fuel c = Crash e
  | Ok None => fast_chunk_loop fuel c = Ok None \/
               fast_chunk_loop fuel c = Ok (Some (Some ErrChunkSize))
  | Ok (Some (_, c')) =>
      fast_chunk_loop fuel c = Ok (if remaining c' =? 0 then Some None else None)
  end.
Proof.
  revert c body. induction fuel as [|fuel IH]; intros c body; [done|].
  cbn [chunk_loop fast_chunk_loop].
  destruct (parseChunkSizeLine c) as [[[size c1]|]|]; cbn [mbind res_bind]; [|by left|done].
  destruct (size =? 0).
  - destruct (remaining c1 <? 2); [by left|].
    destruct (peek c1) as [x|]; [|done]. cbn [mbind res_bind].
    destruct (negb _); [by right|]. destruct (peek (advance 1 c1)) as [y|]; [|done].
    cbn [mbind res_bind]. destruct (negb _); [by right|]. by destruct (remaining _ =? 0).
  - destruct (consumeChunkData c1 size) as [[[d c2]|]|]; cbn [mbind res_bind]; [|by left|done].
    apply IH.
Qed.

(** ** The analysis of a buffer *)

(** The position of a cursor, from its unread bytes. *)
Lemma pos_rest c : cursor_ok c -> pos c = blen (buf c) - blen (rest c).
Proof. intros H. destruct (buf_rest c H) as (l & Hb & Hp). rewrite Hb at 1. blens. Qed.

(** The result of the fast analysis describes the message [msg] of the buffer:
    its fields, its header block and its body as slices of the buffer. *)
Record fast_agrees (b : bytes) (msg : parsedMessage) (r : fastRequestResult) : Prop := {
  fa_kind : fr_kind r = REQUEST;
  fa_line : mkRequestLine (fr_method r) (fr_target r) (fr_major r) (fr_minor r) = pm_request msg;
  fa_mode : fr_bodyMode r = pm_mode msg;
  fa_decided : pm_mode msg = decideBodyMode (pm_meta msg);
  fa_meta : mkMeta REQUEST 0 (fr_hasContentLength r) (fr_contentLength r) (fr_hasTransferEncoding r)
            = pm_meta msg;
  fa_flags : mkFlags (fr_hasConnectionClose r) (fr_hasConnectionUpgrade r) (fr_hasUpgrade r)
             = fold_left header_flags (pm_headers msg) (mkFlags false false false);
  fa_body : fr_body r = if bool_decide (pm_mode msg = bodyModeChunked) then [] else pm_body msg;
  fa_slices : exists lines enc, header_lines lines (pm_headers msg) /\
    gslice b (fr_headersStart r) (fr_headersEnd r) = Ok (header_block lines) /\
    fr_headersEnd r = fr_headersStart r + blen (header_block lines) /\
    gslice_from b (fr_bodyStart r) = Ok enc /\ body_text (pm_meta msg) enc (pm_body msg) }.

(** The kind and the status code are not changed by headers. *)
(** The slices of a buffer at its header block and at its body. *)
Lemma text_slices line lines enc c1 :
  let b := line ++ CRLF ++ header_block lines ++ CRLF ++ enc in
  buf c1 = b -> cursor_ok c1 -> rest c1 = enc ->
  gslice b (blen line + 2) (pos c1 - 2) = Ok (header_block lines) /\
  pos c1 - 2 = blen line + 2 + blen (header_block lines) /\
  gslice_from b (pos c1) = Ok enc.
Proof.
  intros b Hb Hc Hr. rewrite (pos_rest c1), Hb, Hr by done.
  assert (blen b - blen enc = blen line + 2 + blen (header_block lines) + 2) as ->
    by (unfold b, CRLF; blens).
  split_and!; [| lia |].
  - unfold b. rewrite (app_assoc line). apply gslice_app; unfold CRLF; blens.
  - unfold b. rewrite (app_assoc line), (app_assoc (line ++ CRLF)), (app_assoc ((line ++ CRLF) ++ _)).
    apply gslice_suffix. unfold CRLF; blens.
Qed.

(** The body part of the fast analysis, after the header block: whether the
    rest of the buffer is the body, and an error. *)
Definition fast_body (fuel : nat) (meta : messageMeta) (c : cursor)
    : res (option bytes * option perror) :=
  match decideBodyMode meta with
  | bodyModeChunked =>
      r ← fast_chunk_loop fuel c;
      match r with
      | None => Ok (None, None)
      | Some (Some e) => Ok (None, Some e)
      | Some None => Ok (Some [], None)
      end
  | bodyModeEOF => Ok (None, None)
  | bodyModeContentLength =>
      if negb (remaining c =? m_contentLength meta) then Ok (None, None)
      else
        body ← slice c (m_contentLength meta);
        if negb (remaining (advance (m_contentLength meta) c) =? 0) then Ok (None, None)
        else Ok (Some body, None)
  | bodyModeNone =>
      if negb (remaining c =? 0) then Ok (None, None) else Ok (Some [], None)
  end.

Lemma fast_body_sim fuel meta c :
  cursor_ok c -> (length (rest c) < fuel)%nat -> decideBodyMode meta <> bodyModeEOF ->
  exists o err, fast_body fuel meta c = Ok (o, err) /\
  match read_body fuel meta c with
  | Ok (Some (body, c')) =>
      err = None /\
      if remaining c' =? 0
      then o = Some (if bool_decide (decideBodyMode meta = bodyModeChunked) then [] else body) /\
           body_text meta (rest c) body
      else o = None
  | Ok None => o = None /\ (err = None \/ err = Some ErrChunkSize)
  | Crash _ => o = None /\ err = None
  end.
Proof.
  intros Hc Hf He. unfold fast_body, read_body, body_text.
  destruct (decideBodyMode meta); try done.
  - rewrite bool_decide_false by done. rewrite remaining_rest by done.
    destruct (Z.eqb_spec (blen (rest c)) 0) as [Hz|]; cbn [negb];
      [exists (Some []), None | exists None, None; done].
    apply blen_zero in Hz. by rewrite Hz.
  - rewrite bool_decide_false, remaining_rest by done. set (n := m_contentLength meta).
    destruct (Z.eqb_spec (blen (rest c)) n) as [Hn|Hn]; cbn [negb].
    + destruct (Z.ltb_spec (blen (rest c)) n); [lia|].
      rewrite (slice_app c (rest c) []) by (rewrite ?app_nil_r; done). cbn [mbind res_bind].
      destruct (remaining _ =? 0); [exists (Some (rest c)), None | exists None, None]; done.
    + exists None, None. split; [done|]. destruct (Z.ltb_spec (blen (rest c)) n); [auto|].
      destruct (Z.ltb_spec n 0); [by rewrite slice_neg|].
      rewrite slice_rest by done. cbn [mbind res_bind].
      rewrite remaining_rest, advance_rest by (try apply advance_ok; done).
      destruct (Z.eqb_spec (blen (drop (Z.to_nat n) (rest c))) 0) as [Hz|]; [|done].
      unfold blen in *. rewrite length_drop in Hz. lia.
  - rewrite bool_decide_true by done. pose proof (fast_chunk_loop_sim fuel c []) as Hs.
    destruct (chunk_loop_sound fuel c [] Hc Hf) as (o & Ho & Ht). rewrite Ho in *.
    destruct o as [[body c']|].
    + rewrite Hs. cbn [mbind res_bind]. destruct Ht as (enc & cs & Hr & Hcs & -> & Hc').
      rewrite remaining_rest by done. destruct (Z.eqb_spec (blen (rest c')) 0) as [Hz|];
        [exists (Some []), None | by exists None, None]. apply blen_zero in Hz.
      rewrite Hz, app_nil_r in Hr. rewrite Hr. eauto 10.
    + destruct Hs as [-> | ->]; cbn [mbind res_bind]; [exists None, None | exists None, (Some ErrChunkSize)]; auto.
Qed.

Lemma analyzeFastRequestCaptured_unfold b cap :
  analyzeFastRequestCaptured b cap =
  l ← parseRequestLine (newCursor b);
  match l, scanCRLF (newCursor b) with
  | Some line, Some lineEnd =>
      h ← fast_header_loop (S (length b)) (advance (lineEnd + 2) (newCursor b))
            (mkMeta REQUEST 0 false 0 false) (mkFlags false false false) cap;
      match h with
      | FastStop cap => Ok (None, None, cap)
      | FastErr e cap => Ok (None, Some e, cap)
      | FastEnd meta flags cap headersEnd c =>
          '(o, err) ← fast_body (S (length b)) meta c;
          Ok (option_map (fun body => mkFastRequest REQUEST (rl_Method line) (rl_Target line)
            (rl_Major line) (rl_Minor line) body (pos c) (decideBodyMode meta)
            (m_hasContentLength meta) (m_contentLength meta) (m_hasTransferEncoding meta)
            (cf_close flags) (cf_upgrade flags) (cf_hasUpgrade flags) (lineEnd + 2) headersEnd) o,
            err, cap)
      end
  | _, _ => Ok (None, None, cap)
  end.
Proof.
  unfold analyzeFastRequestCaptured. destruct (parseRequestLine _) as [[line|]|]; [|done..].
  cbn [mbind res_bind]. destruct (scanCRLF _) as [lineEnd|]; [|done].
  destruct (fast_header_loop _ _ _ _ _) as [[?|??|meta flags cap' he c]|]; [done..| |done].
  cbn [mbind res_bind]. unfold fast_body. destruct (decideBodyMode meta) eqn:Em.
  - by destruct (negb _).
  - destruct (negb _); [done|]. destruct (slice _ _); [|done]. cbn [mbind res_bind].
    by destruct (negb _).
  - by destruct (fast_chunk_loop _ _) as [[[?|]|]|].
  - done.
Qed.

(** A request has no body that extends to the end of the connection. *)
Lemma request_mode_not_EOF meta : m_kind meta = REQUEST -> decideBodyMode meta <> bodyModeEOF.
Proof.
  intros H. unfold decideBodyMode. rewrite bool_decide_false by congruence. cbn [andb].
  by repeat case_match.
Qed.

Lemma analyzeFast_sim b cap :
  exists r err cap', analyzeFastRequestCaptured b cap = Ok (r, err, cap') /\
  match parseMessageDetailed b REQUEST with
  | Ok (ParseOk msg) => err = None /\ cap' = fold_left capture_header (pm_headers msg) cap /\
      exists fr, r = Some fr /\ fast_agrees b msg fr
  | Ok (ParseErr e) => r = None /\ err = Some e
  | Ok ParseIncomplete => r = None /\ (err = None \/ err = Some ErrChunkSize)
  | Crash _ => r = None /\ err = None
  end.
Proof.
  rewrite analyzeFastRequestCaptured_unfold, parseMessageDetailed_unfold.
  destruct (parse_start_sound b REQUEST) as (s & Es & Hs). unfold parse_start in *.
  destruct (parseRequestLine _) as [[rq|]|]; cbn [mbind res_bind] in *; simplify_eq.
  2:{ exists None, None, cap; auto. }
  destruct (scanCRLF (newCursor b)) as [le|] eqn:Ele; simplify_eq; cbn [mbind res_bind].
  2:{ exists None, None, cap; auto. }
  destruct Hs as (line & Hb & Hl & _ & Hc). set (c := advance _ _) in *. set (meta0 := mkMeta _ _ _ _ _).
  assert (le = blen line) as ->.
  { rewrite scanCRLF_rest, rest_newCursor, Hb, scanCRLFBytes_app in Ele by done. congruence. }
  pose proof (fast_header_loop_sim (S (length b)) c [] meta0 (mkFlags false false false) cap) as Hsim.
  destruct (header_loop_sound (S (length b)) c [] meta0 Hc) as (o & Eo & Ho).
  { rewrite Hb; rewrite !length_app. lia. }
  rewrite Eo in *. cbn [mbind res_bind]. destruct o as [hs meta c1| |e].
  2,3: destruct Hsim as [cap' ->]; cbn [mbind res_bind]; by repeat eexists; auto.
  destruct Hsim as (hs1 & -> & Hbuf & ->). destruct Ho as (lines & hs2 & Hr & E2 & Hlines & Ha & Hc1).
  cbn [app] in *. subst hs2. cbn [mbind res_bind].
  destruct (applyHeaders_kind _ _ _ Ha) as [Hkind Hcode].
  destruct (fast_body_sim (S (length b)) meta c1 Hc1) as (o & err & -> & Hm).
  { rewrite Hb, Hr. rewrite !length_app. lia. }
  { by apply request_mode_not_EOF. }
  cbn [mbind res_bind]. eexists _, _, _. split; [done|].
  destruct (read_body _ _ _) as [[[body c2]|]|]; cbn [mbind res_bind].
  2:{ by destruct Hm as [-> ?]. }
  2:{ by destruct Hm as [-> ?]. }
  destruct Hm as [-> Hm]. destruct (remaining c2 =? 0); cbn [negb]; [|by rewrite Hm; auto].
  destruct Hm as [-> Ht]. split_and!; [done..|]. eexists. split; [done|].
  rewrite Hr in Hb. change (buf c) with b in Hbuf. rewrite Hb in Hbuf.
  destruct (text_slices line lines (rest c1) c1 Hbuf Hc1 eq_refl) as (S1 & S2 & S3).
  constructor; cbn; [done | by destruct rq | done | done | | by destruct (fold_left _ _ _) | done |].
  - destruct meta; cbn in *; by subst.
  - exists lines, (rest c1). rewrite Hb. done.
Qed.

(** C2. The fast analysis of a buffer against the reference parser, for every
    buffer and any number of headers. Where the reference parser returns a
    message it succeeds, with that message's fields, header block and body; where
    the reference parser returns a header error it returns that error. In the
    other cases it gives no message: where the reference parser waits for more
    bytes it gives up, or reports [ErrChunkSize] (a malformed last chunk, which
    the reference parser takes for an incomplete one); where the reference parser
    panics on a negative length it gives up without an error. It never panics. *)
Theorem analyzeFastRequest_equiv b cap :
  exists r err cap', analyzeFastRequestCaptured b cap = Ok (r, err, cap') /\
  match parseMessageDetailed b REQUEST with
  | Ok (ParseOk msg) => err = None /\ cap' = fold_left capture_header (pm_headers msg) cap /\
      exists fr, r = Some fr /\ fast_agrees b msg fr
  | Ok (ParseErr e) => r = None /\ err = Some e
  | Ok ParseIncomplete => r = None /\ (err = None \/ err = Some ErrChunkSize)
  | Crash _ => r = None /\ err = None
  end.
Proof. exact (analyzeFast_sim b cap). Qed.

(** ** The headers captured for the callbacks *)

Lemma capture_fold_fits hs pre arr :
  length arr = 64%nat -> take (length pre) arr = pre -> blen pre + blen hs <= 64 ->
  exists arr', fold_left capture_header hs (Some (arr, blen pre)) = Some (arr', blen pre + blen hs) /\
    length arr' = 64%nat /\ take (length pre + length hs) arr' = pre ++ hs.
Proof.
  revert pre arr. induction hs as [|h hs IH]; intros pre arr Ha Hp Hl; cbn [fold_left].
  - exists arr. rewrite blen_nil, Z.add_0_r, Nat.add_0_r, app_nil_r. done.
  - unfold capture_header at 2, maxFastHeaders. rewrite blen_cons in Hl.
    pose proof (blen_nonneg pre). pose proof (blen_nonneg hs).
    destruct (Z.leb_spec 0 (blen pre)); [|lia]. destruct (Z.ltb_spec (blen pre) 64); [|lia].
    rewrite to_nat_blen. replace (blen pre + 1) with (blen (pre ++ [h])) by blens.
    assert (length pre < length arr)%nat as Hlt by (unfold blen in *; lia).
    destruct (IH (pre ++ [h]) (<[length pre := h]> arr)) as (arr' & -> & Ha' & Ht).
    + by rewrite length_insert.
    + rewrite length_app. cbn [length]. rewrite Nat.add_1_r, (take_S_r _ _ h).
      * by rewrite take_insert_ge, Hp by lia.
      * by apply list_lookup_insert_eq.
    + blens.
    + exists arr'. rewrite length_app, <- app_assoc in Ht. cbn [length app] in Ht.
      split_and!; [f_equal; f_equal; blens | done|].
      by replace (length pre + length (h :: hs))%nat with (length pre + 1 + length hs)%nat by (cbn; lia).
Qed.

Lemma capture_fold_closed hs arr : fold_left capture_header hs (Some (arr, -1)) = Some (arr, -1).
Proof. by induction hs. Qed.

(** More headers than the array holds: the count is -1. *)
Lemma capture_fold_overflow hs arr :
  length arr = 64%nat -> 64 < blen hs ->
  exists arr', fold_left capture_header hs (Some (arr, 0)) = Some (arr', -1) /\ length arr' = 64%nat.
Proof.
  intros Ha Hl. rewrite <- (take_drop 64 hs), fold_left_app.
  destruct (capture_fold_fits (take 64 hs) [] arr) as (arr' & E & Ha' & _);
    [done | done | rewrite blen_nil; unfold blen; rewrite length_take; lia |].
  rewrite (eq_refl : (0 : Z) = blen (@nil headerLine)), E.
  assert (blen (@nil headerLine) + blen (take 64 hs) = 64) as ->
    by (rewrite blen_nil; unfold blen in *; rewrite length_take; lia).
  destruct (drop 64 hs) as [|h hs'] eqn:Ed.
  - apply (f_equal length) in Ed. rewrite length_drop in Ed. cbn in Ed. unfold blen in *. lia.
  - cbn [fold_left]. change (capture_header (Some (arr', 64)) h) with (Some (arr', -1) : capture).
    exists arr'. by rewrite capture_fold_closed.
Qed.

(** ** Events of the fast path *)

Lemma headers_events_unset s at_ hs :
  HeaderField s = false -> HeaderValue s = false -> headers_events s at_ hs = [].
Proof.
  intros E1 E2. unfold headers_events, header_events. rewrite E1, E2. by induction hs.
Qed.

(** The header callbacks of [emitFastRequest], from the captured headers or from
    the block. *)
Lemma fast_header_events s b r p msg at_ tr :
  fast_agrees b msg r ->
  (HeaderField s || HeaderValue s = true ->
     (64 < blen (pm_headers msg) /\ p_fastHeaderCount p <= 0) \/
     (p_fastHeaderCount p = blen (pm_headers msg) /\
      take (length (pm_headers msg)) (p_fastHeaders p) = pm_headers msg)) ->
  when ((fr_headersStart r <? fr_headersEnd r) && (HeaderField s || HeaderValue s))
    (count ← gets p_fastHeaderCount;
     if 0 <? count then
       arr ← gets p_fastHeaders;
       emit_headers s (take (Z.to_nat count) arr) at_
     else
       block ← lift (gslice b (fr_headersStart r) (fr_headersEnd r));
       reparse_headers (S (length block)) s (newCursor block) at_) (p, tr) =
  Ok (tt, (p, tr ++ headers_events s at_ (pm_headers msg))).
Proof.
  intros [_ _ _ _ _ _ _ (lines & enc & Hl & Hblk & He & _)] Hcap.
  destruct (HeaderField s || HeaderValue s) eqn:Eset.
  2:{ apply orb_false_iff in Eset as [E1 E2]. rewrite andb_false_r. cbn [when skip].
      rewrite headers_events_unset by done. by rewrite app_nil_r. }
  rewrite andb_true_r. destruct (Z.ltb_spec (fr_headersStart r) (fr_headersEnd r)) as [Hlt|Hge].
  - cbn [when]. unfold gets at 1. rewrite (run_bind _ _ _ _ _ eq_refl). cbn [fst].
    assert (emits (block ← lift (gslice b (fr_headersStart r) (fr_headersEnd r));
       reparse_headers (S (length block)) s (newCursor block) at_)
       (headers_events s at_ (pm_headers msg))) as Hre.
    { apply (emits_lift _ _ _ _ Hblk).
      apply (reparse_headers_emits s at_ lines (pm_headers msg) []);
        [done | auto with hop.. | by rewrite rest_newCursor, app_nil_r | rewrite rest_newCursor; lia]. }
    destruct (Hcap eq_refl) as [[_ Hc]|[Hc Ht]].
    + destruct (Z.ltb_spec 0 (p_fastHeaderCount p)); [lia|]. apply Hre.
    + destruct (Z.ltb_spec 0 (p_fastHeaderCount p)); [|apply Hre].
      unfold gets. rewrite (run_bind _ _ _ _ _ eq_refl). cbn [fst].
      rewrite Hc, to_nat_blen, Ht. apply emit_headers_emits.
  - cbn [when]. destruct Hl as [Hl1 Hl2]. destruct Hl2 as [|l h lines' hs' H1 H2].
    + apply emits_skip.
    + exfalso. inversion_clear Hl1 as [|? ? [Hne _] _]. rewrite He in Hge.
      unfold header_block in Hge. cbn in Hge. rewrite blen_app in Hge. destruct l; [done|].
      autorewrite with blen in Hge. change (blen CRLF) with 2 in Hge.
      pose proof (blen_nonneg l). pose proof (blen_nonneg (concat (map (fun l => l ++ CRLF) lines'))). lia.
Qed.

Definition is_conn_close (h : headerLine) : bool :=
  equalFoldToken (Name h) (bs "connection") && equalFoldToken (Value h) (bs "close").
Definition is_conn_upgrade (h : headerLine) : bool :=
  equalFoldToken (Name h) (bs "connection") && equalFoldToken (Value h) (bs "upgrade").
Definition is_upgrade (h : headerLine) : bool := equalFoldToken (Name h) (bs "upgrade").

Lemma header_flags_fold hs f :
  fold_left header_flags hs f =
  mkFlags (cf_close f || existsb is_conn_close hs) (cf_upgrade f || existsb is_conn_upgrade hs)
    (cf_hasUpgrade f || existsb is_upgrade hs).
Proof.
  revert f. induction hs as [|h hs IH]; intros f; cbn [fold_left existsb].
  - rewrite !orb_false_r. by destruct f.
  - rewrite IH. unfold header_flags, is_conn_close, is_conn_upgrade, is_upgrade.
    destruct (equalFoldToken (Name h) (bs "connection")), (equalFoldToken (Value h) (bs "close")),
      (equalFoldToken (Value h) (bs "upgrade")), (equalFoldToken (Name h) (bs "upgrade")), f as [[] [] []]; done.
Qed.

(** What the parser reports about a complete request. *)
Record request_state (msg : parsedMessage) (p : Parser) : Prop := {
  rs_kind : p_currentType p = REQUEST;
  rs_line : mkRequestLine (p_Method p) (rl_Target (pm_request msg)) (p_Major p) (p_Minor p)
            = pm_request msg;
  rs_length : p_hasContentLength p = m_hasContentLength (pm_meta msg) /\
    p_contentLength p = if bool_decide (pm_mode msg = bodyModeNone) then unsetContentLength
                        else m_contentLength (pm_meta msg);
  rs_chunked : p_hasTransferEncoding p = m_hasTransferEncoding (pm_meta msg);
  rs_close : p_hasConnectionClose p = existsb is_conn_close (pm_headers msg);
  rs_upgrade : p_Upgrade p = (existsb is_upgrade (pm_headers msg)
      && existsb is_conn_upgrade (pm_headers msg)) || bool_decide (rl_Method (pm_request msg) = CONNECT);
  rs_complete : p_messageCompleteCalled p = true;
  rs_idle : p_pending p = [] /\ p_messageStarted p = false }.

Lemma applyFastRequestResult_state b msg r p :
  fast_agrees b msg r ->
  request_state msg (set_messageCompleteCalled true (applyFastRequestResult r p)).
Proof.
  intros [Hk Hl Hm _ Hmeta Hf _ _]. rewrite header_flags_fold in Hf. injection Hf as F1 F2 F3.
  destruct r as [kind method target major minor body bst mode hcl cl hte hc hcu hu hst hen].
  cbn in *. subst. unfold applyFastRequestResult. destruct p. cbn.
  destruct (pm_mode msg) eqn:Em; destruct (existsb is_upgrade (pm_headers msg)) eqn:E1,
    (existsb is_conn_upgrade (pm_headers msg)) eqn:E2; constructor; cbn;
    rewrite <- ?Hl, <- ?Hmeta, ?Em, ?E1, ?E2; done.
Qed.

(** The body callbacks of [emitFastRequest]: one per chunk, or one. *)
Lemma fast_body_events s b r msg :
  fast_agrees b msg r ->
  exists pieces, concat pieces = pm_body msg /\
    (pm_mode msg <> bodyModeChunked -> pieces = [pm_body msg]) /\
    emits (if bool_decide (fr_bodyMode r = bodyModeChunked) then
             body ← lift (gslice_from b (fr_bodyStart r));
             emit_chunks (S (length body)) s (newCursor body) (blen b)
           else when (Body s && (0 <? blen (fr_body r))) (emit (EvBody (fr_body r) (blen b))))
      (body_events s (blen b) pieces).
Proof.
  intros [_ _ Hmode Hdec _ _ Hbody (lines & enc & _ & _ & _ & Henc & Htext)].
  rewrite Hmode, Hbody. destruct (decide (pm_mode msg = bodyModeChunked)) as [E|E].
  - rewrite !bool_decide_true by done. unfold body_text in Htext. rewrite <- Hdec, E in Htext.
    destruct Htext as (cs & Ht & ->). exists cs. split_and!; [done | congruence |].
    apply (emits_lift _ _ _ _ Henc).
    apply (emit_chunks_emits s (blen b) enc cs); [done | auto with hop | done | lia].
  - rewrite !bool_decide_false by done. exists [pm_body msg]. unfold body_events. cbn [concat map].
    rewrite !app_nil_r. split_and!; [done..|]. apply emits_ev.
Qed.

(** [emitFastRequest] calls the callbacks of the message. *)
Lemma emitFastRequest_run s b r p msg tr :
  fast_agrees b msg r ->
  (HeaderField s || HeaderValue s = true ->
     (64 < blen (pm_headers msg) /\ p_fastHeaderCount p <= 0) \/
     (p_fastHeaderCount p = blen (pm_headers msg) /\
      take (length (pm_headers msg)) (p_fastHeaders p) = pm_headers msg)) ->
  exists pieces, concat pieces = pm_body msg /\
    (pm_mode msg <> bodyModeChunked -> pieces = [pm_body msg]) /\
    emitFastRequest (Some s) b r (p, tr) =
      Ok (tt, (set_messageCompleteCalled true p, tr ++ request_events s (blen b) msg pieces)).
Proof.
  intros Hr Hcap. destruct (fast_body_events s b r msg Hr) as (pieces & H1 & H2 & Hbody).
  exists pieces. split_and!; [done..|]. unfold emitFastRequest, deref.
  rewrite (run_bind _ _ _ _ _ eq_refl).
  rewrite (run_emits _ _ _ _ _ (emits_ev _ _)), (run_emits _ _ _ _ _ (emits_ev _ _)).
  rewrite (run_bind _ _ _ _ _ (fast_header_events s b r p msg _ _ Hr Hcap)).
  rewrite (run_emits _ _ _ _ _ (emits_ev _ _)), (run_emits _ _ _ _ _ Hbody).
  unfold modify. rewrite (run_bind _ _ _ _ _ eq_refl), emits_ev. cbn [fst snd].
  destruct Hr as [_ Hline _ _ _ _ _ _]. unfold request_events. rewrite <- Hline.
  cbn [rl_Target]. by rewrite <- !app_assoc.
Qed.

(** The parser after a complete request, from the one before it. *)
Definition fast_frame (p p' : Parser) : Prop :=
  p_defaultType p' = p_defaultType p /\ p_fastPhase p' = p_fastPhase p /\
  p_lineScratch p' = p_lineScratch p /\ p_lineScratchLen p' = p_lineScratchLen p /\
  length (p_fastHeaders p') = length (p_fastHeaders p) /\ p_userData p' = p_userData p.

Lemma applyFastRequestResult_frame r p :
  fast_frame p (applyFastRequestResult r p) /\
  p_fastHeaders (applyFastRequestResult r p) = p_fastHeaders p /\
  p_fastHeaderCount (applyFastRequestResult r p) = p_fastHeaderCount p.
Proof.
  destruct p, r as [? ? ? ? ? ? ? [] ? ? ? ? [] [] ? ?]; vm_compute; done.
Qed.

(** Storing the captured headers in the parser. *)
Definition store_capture (cap : capture) : M unit :=
  match cap with
  | Some (arr, count) => modify (fun p => set_fastHeaderCount count (set_fastHeaders arr p))
  | None => skip
  end.

Lemma store_capture_run s p msg tr :
  length (p_fastHeaders p) = 64%nat ->
  let cap := if on HeaderField (Some s) || on HeaderValue (Some s)
             then Some (p_fastHeaders p, 0) else None in
  exists p2, store_capture (fold_left capture_header (pm_headers msg) cap)
      (set_fastHeaderCount 0 p, tr) = Ok (tt, (p2, tr)) /\ fast_frame p p2 /\
    (HeaderField s || HeaderValue s = true ->
     (64 < blen (pm_headers msg) /\ p_fastHeaderCount p2 <= 0) \/
     (p_fastHeaderCount p2 = blen (pm_headers msg) /\
      take (length (pm_headers msg)) (p_fastHeaders p2) = pm_headers msg)).
Proof.
  intros Hfh. cbn [on]. destruct (HeaderField s || HeaderValue s); cbv zeta.
  - destruct (decide (64 < blen (pm_headers msg))) as [Hlt|Hge].
    + destruct (capture_fold_overflow (pm_headers msg) _ Hfh Hlt) as (arr' & -> & Ha).
      eexists; split; [done|]. destruct p; cbn in *. unfold fast_frame; cbn. rewrite Ha, Hfh.
      split_and!; [done..|]. intros _. left. lia.
    + destruct (capture_fold_fits (pm_headers msg) [] _ Hfh eq_refl) as (arr' & E3 & Ha & Ht);
        [rewrite blen_nil; lia|]. rewrite blen_nil in E3. rewrite E3.
      eexists; split; [done|]. destruct p; cbn in *. unfold fast_frame; cbn. rewrite Ha, Hfh.
      split_and!; [done..|]. intros _. right. by rewrite Z.add_0_l.
  - assert (fold_left capture_header (pm_headers msg) None = None) as ->
      by (clear; by induction (pm_headers msg)).
    exists (set_fastHeaderCount 0 p). split; [done|]. split; [by destruct p | done].
Qed.

Lemma fast_frame_trans p q r : fast_frame p q -> fast_frame q r -> fast_frame p r.
Proof. unfold fast_frame. intros (-> & -> & -> & -> & -> & ->). done. Qed.

(** [tryFastRequest] on a buffer that is the text of a request. *)
Lemma tryFastRequest_run s b p msg tr :
  p_messageStarted p = false -> p_pending p = [] -> length (p_fastHeaders p) = 64%nat ->
  inferMessageKind (p_defaultType p) b = Some REQUEST ->
  parseMessageDetailed b REQUEST = Ok (ParseOk msg) ->
  exists pieces p', concat pieces = pm_body msg /\
    (pm_mode msg <> bodyModeChunked -> pieces = [pm_body msg]) /\
    request_state msg p' /\ fast_frame p p' /\
    tryFastRequest (Some s) b (p, tr) =
      Ok ((blen b, true, None), (p', tr ++ request_events s (blen b) msg pieces)).
Proof.
  intros Hms Hpe Hfh Hk Hparse. unfold tryFastRequest.
  unfold gets at 1. rewrite (run_bind _ _ _ _ _ eq_refl). cbn [fst id].
  rewrite Hms, Hpe, Hk. change (blen (@nil byte) =? 0) with true. cbn [negb orb].
  unfold modify at 1. rewrite (run_bind _ _ _ _ _ eq_refl). cbn [fst snd].
  set (cap := if on HeaderField (Some s) || on HeaderValue (Some s) then Some (p_fastHeaders p, 0) else None).
  destruct (analyzeFast_sim b cap) as (r & err & cap' & E & Hr). rewrite Hparse in Hr.
  destruct Hr as (-> & -> & fr & -> & Hag). rewrite E. unfold lift at 1.
  rewrite (run_bind _ _ _ _ _ eq_refl).
  destruct (store_capture_run s p msg tr Hfh) as (p2 & E2 & F2 & Hcap).
  rewrite (run_bind _ _ _ _ _ E2). cbv beta iota. unfold modify. rewrite (run_bind _ _ _ _ _ eq_refl).
  cbn [fst snd]. destruct (applyFastRequestResult_frame fr p2) as (F3 & F4 & F5).
  destruct (emitFastRequest_run s b fr (applyFastRequestResult fr p2) msg tr Hag) as (pieces & H1 & H2 & E4).
  { by rewrite F4, F5. }
  rewrite (run_bind _ _ _ _ _ E4). exists pieces, (set_messageCompleteCalled true (applyFastRequestResult fr p2)).
  split_and!; [done | done | by apply (applyFastRequestResult_state b) | | done].
  eapply fast_frame_trans; [exact F2|]. eapply fast_frame_trans; [exact F3|].
  by destruct (applyFastRequestResult fr p2).
Qed.
