(* ===== verification/Invariant.v ===== *)
(** * Invariants of the parser

    A small program logic for the engine's monad (partial correctness: a panic
    satisfies every triple), and the well-formedness invariant of the parser:
    the scratch arrays keep their sizes, the indices into them stay in range, the
    body length stays an [int32].  Every call of [Execute] preserves it. *)

From S2P Require Import Prelude Scan Method Cursor StartLine Framing Chunked Message Parser.
From S2P Require Import FastPath FastPathMore SplitPath Execute FastSpec.

(** ** Triples *)

(** Started in [P], a computation ends in [P] with a result in [Q]. *)
Definition holds (P : Parser -> Prop) {A} (Q : A -> Prop) (m : M A) : Prop :=
  forall p tr, P p ->
    match m (p, tr) with Ok (a, (p', _)) => Q a /\ P p' | Crash _ => True end.

Abbreviation any := (fun _ => True).

Section Triples.
Context (P : Parser -> Prop).

Lemma holds_bind {A B} (Q : A -> Prop) (R : B -> Prop) (m : M A) (k : A -> M B) :
  holds P Q m -> (forall a, Q a -> holds P R (k a)) -> holds P R (m ≫= k).
Proof.
  intros Hm Hk p tr Hp. unfold mbind, M_bind. specialize (Hm p tr Hp).
  destruct (m (p, tr)) as [[a [p' tr']]|]; [|done]. destruct Hm as [Ha Hp']. by apply Hk.
Qed.

Lemma holds_ret {A} (Q : A -> Prop) a : Q a -> holds P Q (mret a).
Proof. intros HQ p tr Hp. done. Qed.

Lemma holds_lift {A} (Q : A -> Prop) (r : res A) :
  (forall a, r = Ok a -> Q a) -> holds P Q (lift r).
Proof. intros H p tr Hp. destruct r; [|done]. split; [by apply H | done]. Qed.

Lemma holds_gets {A} (Q : A -> Prop) (f : Parser -> A) : (forall p, P p -> Q (f p)) -> holds P Q (gets f).
Proof. intros H p tr Hp. split; [by apply H | done]. Qed.

Lemma holds_modify f : (forall p, P p -> P (f p)) -> holds P any (modify f).
Proof. intros H p tr Hp. split; [done | by apply H]. Qed.

Lemma holds_emit e : holds P any (emit e).
Proof. by intros p tr Hp. Qed.

Lemma holds_if {A} (Q : A -> Prop) (c : bool) (m n : M A) :
  (c = true -> holds P Q m) -> (c = false -> holds P Q n) -> holds P Q (if c then m else n).
Proof. destruct c; auto. Qed.

Lemma holds_when c m : holds P any m -> holds P any (when c m).
Proof. destruct c; [done | intros _; by apply holds_ret]. Qed.

Lemma holds_weaken {A} (Q R : A -> Prop) m : (forall a, Q a -> R a) -> holds P Q m -> holds P R m.
Proof.
  intros HQR Hm p tr Hp. specialize (Hm p tr Hp). destruct (m (p, tr)) as [[a [p' tr']]|]; [|done].
  destruct Hm as [Ha Hp']. split; [by apply HQR | done].
Qed.
End Triples.

(** ** Leaving the head of a request *)

(** Neither in a start line nor in the headers. *)
Definition past_head (p : Parser) : Prop :=
  match p_fastPhase p with
  | fastPhaseRequestLine | fastPhaseResponseLine | fastPhaseHeaders => False
  | _ => True
  end.

Ltac field_update := let p := fresh in let H := fresh in intros p H; destruct p; first [exact H | exact I].

Ltac hoare_leaf :=
  first
    [ apply holds_ret; exact I
    | apply holds_emit
    | apply holds_lift; let a := fresh in intros a _; exact I
    | apply holds_modify; field_update
    | apply holds_gets; let p := fresh in intros p _; exact I ].

(** Goes through a computation, with no condition on intermediate results. *)
Ltac hoare :=
  repeat first
    [ hoare_leaf
    | assumption
    | apply holds_when
    | apply (holds_bind _ any); [| let a := fresh "a" in intros a _]
    | apply holds_if; intros _
    | case_match ].

Section PastHead.

Lemma past_appendScratch b : holds past_head any (appendScratch b).
Proof. unfold appendScratch. hoare. Qed.

Lemma past_complete s pos : holds past_head any (complete s pos).
Proof. unfold complete. hoare. Qed.

Lemma past_consumeFastBody s b : holds past_head any (consumeFastBodyWithCallbacks s b).
Proof. unfold consumeFastBodyWithCallbacks. hoare; apply past_complete. Qed.

Lemma past_withLine {A} (fail : perror -> A) l k :
  (forall line, holds past_head any (k line)) -> holds past_head any (withLine fail l k).
Proof.
  intros Hk. unfold withLine, scratchLine. hoare; try apply Hk; apply past_appendScratch.
Qed.

Lemma past_chunked_loop fuel s b i : holds past_head any (chunked_loop fuel s b i).
Proof.
  revert i. induction fuel as [|fuel IH]; intros i; cbn [chunked_loop]; [hoare|]. unfold updates, assigns.
  hoare; try apply past_appendScratch; apply IH.
Qed.
End PastHead.

(** ** Well-formedness *)

Record wf (p : Parser) : Prop := {
  wf_scratch : blen (p_lineScratch p) = scratchBufferSize;
  wf_len : 0 <= p_lineScratchLen p <= scratchBufferSize;
  wf_headers : length (p_fastHeaders p) = 64%nat;
  wf_count : -1 <= p_fastHeaderCount p <= maxFastHeaders;
  wf_length : int32_range (p_contentLength p);
  wf_offsets : 0 <= p_urlOffset p /\ 0 <= p_statusOffset p /\ 0 <= p_headerValueOffset p }.

Lemma New_wf t : wf (New t).
Proof. by destruct t; constructor. Qed.

(** *** The numbers the parser stores are [int32]s *)

Lemma parseDecimalInt32_range b n : parseDecimalInt32 b = Some n -> int32_range n.
Proof. rewrite parseDecimalInt32_spec. case_match; [|done]. intros [= <-]. apply wrap32_range. Qed.

Lemma parseChunkSize_range line n : parseChunkSizeLineBytes line = Ok (Some n) -> int32_range n.
Proof.
  rewrite parseChunkSizeLineBytes_spec. cbv zeta. case_match; [|done]. intros [= <-]. apply wrap32_range.
Qed.

Lemma applyHeaderMeta_range meta h meta' :
  int32_range (m_contentLength meta) -> applyHeaderMeta meta h = Some meta' ->
  int32_range (m_contentLength meta').
Proof.
  intros Hm. unfold applyHeaderMeta. repeat case_match; intros [= <-]; cbn; try done.
  by eapply parseDecimalInt32_range.
Qed.

Lemma applyHeaders_range meta hs meta' :
  int32_range (m_contentLength meta) -> applyHeaders meta hs = Some meta' ->
  int32_range (m_contentLength meta').
Proof.
  revert meta. induction hs as [|h hs IH]; intros meta Hm; cbn; [by intros [= <-]|].
  destruct (applyHeaderMeta meta h) as [m1|] eqn:E; [|done].
  intros Ha. apply (IH m1); [by apply (applyHeaderMeta_range meta h) | done].
Qed.

Lemma parse_range b kind msg :
  parseMessageDetailed b kind = Ok (ParseOk msg) -> int32_range (m_contentLength (pm_meta msg)).
Proof.
  intros (line & lines & enc & meta0 & _ & _ & Hst & _ & Ha & _)%parse_text.
  apply (applyHeaders_range _ _ _) in Ha; [done|].
  destruct kind; [| | done]; destruct Hst as (_ & _ & ->); done.
Qed.

Lemma rsp_header_loop_range fuel c meta close meta' close' c' :
  int32_range (m_contentLength meta) ->
  rsp_header_loop fuel c meta close = Ok (RspEnd meta' close' c') ->
  int32_range (m_contentLength meta').
Proof.
  revert c meta close. induction fuel as [|fuel IH]; intros c meta close Hm; [done|].
  rewrite rsp_header_loop_step. destruct (header_step c) as [[| |h c1]|]; cbn [mbind res_bind]; try done.
  - by intros [= <- _ _].
  - destruct (applyHeaderMeta meta h) as [m1|] eqn:E; [|done]. apply IH.
    by apply (applyHeaderMeta_range meta h).
Qed.

Lemma analyzeFastResponse_range b r err :
  analyzeFastResponse b = Ok (Some r, err) -> int32_range (fs_contentLength r).
Proof.
  unfold analyzeFastResponse. destruct (parseResponseLine _) as [[line|]|]; try done.
  cbn [mbind res_bind]. destruct (scanCRLF _) as [le|]; [|done].
  destruct (rsp_header_loop _ _ _ _) as [[|e|meta close c]|] eqn:E; cbn [mbind res_bind]; try done.
  apply rsp_header_loop_range in E; [|done].
  destruct (decideBodyMode meta); try done; [by case_match; intros [= <- _]|].
  case_match; [done|]. destruct (slice _ _); [|done]. cbn [mbind res_bind].
  by case_match; intros [= <- _].
Qed.

(** The captured headers keep the array's size and the counter in range. *)
Definition cap_ok (cap : capture) : Prop :=
  match cap with
  | None => True
  | Some (arr, count) => length arr = 64%nat /\ -1 <= count <= maxFastHeaders
  end.

Lemma capture_header_ok cap h : cap_ok cap -> cap_ok (capture_header cap h).
Proof.
  destruct cap as [[arr count]|]; [|done]. intros [Ha Hc]. unfold capture_header, maxFastHeaders in *.
  destruct (Z.leb_spec 0 count); [|done]. destruct (Z.ltb_spec count 64); cbn;
    rewrite ?length_insert; unfold maxFastHeaders; split; done || lia.
Qed.

Lemma fast_header_loop_cap fuel c meta flags cap o :
  cap_ok cap -> fast_header_loop fuel c meta flags cap = Ok o ->
  match o with FastStop cap' | FastErr _ cap' | FastEnd _ _ cap' _ _ => cap_ok cap' end.
Proof.
  revert c meta flags cap. induction fuel as [|fuel IH]; intros c meta flags cap Hc; [done|].
  rewrite fast_header_loop_step. destruct (header_step c) as [[|he c1|h c1]|]; cbn [mbind res_bind];
    [by intros [= <-].. | |done].
  destruct (applyHeaderMeta meta h); [|by intros [= <-]]. apply IH. by apply capture_header_ok.
Qed.

Lemma analyzeFast_ok b cap r err cap' :
  cap_ok cap -> analyzeFastRequestCaptured b cap = Ok (r, err, cap') ->
  cap_ok cap' /\ forall fr, r = Some fr -> int32_range (fr_contentLength fr).
Proof.
  intros Hc E. split.
  - rewrite analyzeFastRequestCaptured_unfold in E.
    destruct (parseRequestLine _) as [[line|]|]; try done; cbn [mbind res_bind] in E; [|by simplify_eq].
    destruct (scanCRLF _) as [le|]; [|by simplify_eq].
    destruct (fast_header_loop _ _ _ _ _) as [o|] eqn:El; [|done]. apply fast_header_loop_cap in El; [|done].
    cbn [mbind res_bind] in E. destruct o; [by simplify_eq..|].
    destruct (fast_body _ _ _) as [[]|]; [|done]. by injection E as _ _ <-.
  - intros fr ->. destruct (analyzeFast_sim b cap) as (r & err' & cap2 & E' & Hs).
    rewrite E in E'. injection E' as <- <- <-.
    destruct (parseMessageDetailed b REQUEST) as [[msg| |]|] eqn:Ep;
      [|by destruct Hs as [? _]..|by destruct Hs]. destruct Hs as (_ & _ & fr' & [= <-] & Hag).
    apply parse_range in Ep. rewrite <- (fa_meta _ _ _ Hag) in Ep. exact Ep.
Qed.

(** *** Every operation preserves it *)

(** Assignments whose values are in range. *)
Ltac wf_set :=
  let p := fresh "p" in intros p [? ? ? ? ? (? & ? & ?)]; destruct p; cbn in *; constructor; cbn in *;
  unfold scratchBufferSize, maxFastHeaders, unsetContentLength in *;
  first [ done | apply wrap32_range | assumption | split_and!; first [assumption | lia | apply blen_nonneg]
        | unfold int32_range; lia ].

Create HintDb wf discriminated.

Ltac wf_auto :=
  repeat first
    [ solve [auto with wf nocore]
    | hoare_leaf
    | assumption
    | apply holds_modify; solve [wf_set]
    | apply holds_when
    | apply (holds_bind _ wf _ (gets id)); [apply holds_gets; by intros ? ? |
        let p := fresh "p" in let H := fresh "Hp" in intros p H]
    | apply (holds_bind _ any); [| let a := fresh "a" in intros a _]
    | apply holds_if; intros _
    | case_match ].

Lemma wf_appendScratch b : holds wf any (appendScratch b).
Proof.
  intros p tr Hp. unfold appendScratch. rewrite run_gets. cbn [id].
  destruct (Z.ltb_spec scratchBufferSize (p_lineScratchLen p + blen b)) as [|Hle]; [done|].
  split; [done|]. destruct p, Hp as [H1 H2 H3 H4 H5 H6]. cbn in *. constructor; try done; cbn in *.
  - unfold copy_at. rewrite !blen_app. unfold blen, scratchBufferSize in *.
    rewrite length_take, length_drop. lia.
  - pose proof (blen_nonneg b). lia.
Qed.
#[export] Hint Resolve wf_appendScratch : wf.

Lemma wf_complete s pos : holds wf any (complete s pos).
Proof. unfold complete. wf_auto. Qed.
#[export] Hint Resolve wf_complete : wf.

Lemma wf_withLine {A} (fail : perror -> A) l k :
  (forall line, holds wf any (k line)) -> holds wf any (withLine fail l k).
Proof.
  intros Hk. unfold withLine, scratchLine. wf_auto; apply Hk.
Qed.
#[export] Hint Resolve wf_withLine : wf.

Lemma wf_consumeFastRequestLine line : holds wf any (consumeFastRequestLine line).
Proof. unfold consumeFastRequestLine, updates, assigns. wf_auto. Qed.
#[export] Hint Resolve wf_consumeFastRequestLine : wf.

Lemma wf_consumeFastHeader line : holds wf any (consumeFastHeader line).
Proof.
  unfold consumeFastHeader, updates, assigns. wf_auto.
  match goal with H : parseDecimalInt32 _ = Some _ |- _ => apply parseDecimalInt32_range in H end.
  apply holds_modify. wf_set.
Qed.
#[export] Hint Resolve wf_consumeFastHeader : wf.

Lemma wf_consumeFastBody s b : holds wf any (consumeFastBodyWithCallbacks s b).
Proof. unfold consumeFastBodyWithCallbacks. wf_auto. Qed.
#[export] Hint Resolve wf_consumeFastBody : wf.

Lemma wf_chunked_loop fuel s b i : holds wf any (chunked_loop fuel s b i).
Proof.
  revert i. induction fuel as [|fuel IH]; intros i; cbn [chunked_loop]; [wf_auto|]. unfold updates, assigns.
  apply holds_if; intros _; [wf_auto|].
  apply (holds_bind _ wf _ (gets id)); [by apply holds_gets|]. intros p Hp. apply holds_if; intros _.
  - wf_auto; apply IH.
  - apply (holds_bind _ any); [wf_auto|]. intros tail _. case_match; [|wf_auto].
    apply (holds_bind _ any); [wf_auto|]. intros seg _. apply wf_withLine. intros line.
    apply (holds_bind _ (fun o => forall n, o = Some n -> int32_range n)).
    { apply holds_lift. intros o Ho n ->. by apply parseChunkSize_range in Ho. }
    intros [size|] Hs; [|wf_auto]. specialize (Hs _ eq_refl).
    apply (holds_bind _ any); [wf_auto|]. intros _ _. apply holds_if; intros _.
    + wf_auto.
    + apply (holds_bind _ any); [|intros _ _; apply IH]. apply holds_modify. wf_set.
Qed.
#[export] Hint Resolve wf_chunked_loop : wf.

Lemma wf_consumeFastChunked s b : holds wf any (consumeFastChunkedWithCallbacks s b).
Proof. apply wf_chunked_loop. Qed.
#[export] Hint Resolve wf_consumeFastChunked : wf.

Lemma wf_empty_loop fuel b i : holds wf any (empty_loop fuel b i).
Proof.
  revert i. induction fuel as [|fuel IH]; intros i; cbn [empty_loop]; [wf_auto|].
  unfold updates, assigns, consumeFastChunked, consumeFastBody.
  apply holds_if; intros _; [wf_auto|]. apply (holds_bind _ any); [wf_auto|]. intros tail _.
  case_match; [|wf_auto]. apply (holds_bind _ any); [wf_auto|]. intros seg _.
  apply wf_withLine. intros line. apply (holds_bind _ any); [wf_auto|]. intros phase _.
  case_match; try apply IH.
  - apply (holds_bind _ any); [apply wf_consumeFastRequestLine|]. intros e _. wf_auto.
  - apply holds_if; intros _.
    + wf_auto.
    + apply (holds_bind _ any); [apply wf_consumeFastHeader|]. intros e _. wf_auto.
Qed.
#[export] Hint Resolve wf_empty_loop : wf.

Lemma wf_deref s : holds wf any (deref s).
Proof. destruct s; wf_auto. Qed.
#[export] Hint Resolve wf_deref : wf.

Lemma wf_enterSplit ph t : holds wf any (enterSplit ph t).
Proof. unfold enterSplit, updates, assigns. wf_auto. Qed.
#[export] Hint Resolve wf_enterSplit : wf.

Lemma wf_tryFastSplitRequestEmpty s b : holds wf any (tryFastSplitRequestEmpty s b).
Proof. unfold tryFastSplitRequestEmpty, consumeFastChunked, consumeFastBody. wf_auto. Qed.

Lemma wf_emitSplitRequestLineFragment s : holds wf any (emitSplitRequestLineFragment s).
Proof. unfold emitSplitRequestLineFragment, scratchLine. wf_auto. Qed.

Lemma wf_emitSplitHeaderValueFragment s n : holds wf any (emitSplitHeaderValueFragment s n).
Proof. unfold emitSplitHeaderValueFragment, scratchLine. wf_auto. Qed.

Lemma wf_emitRequestLine s line n : holds wf any (emitRequestLine s line n).
Proof. unfold emitRequestLine. wf_auto. Qed.

Lemma wf_emitHeaderLine s line n : holds wf any (emitHeaderLine s line n).
Proof. unfold emitHeaderLine. wf_auto. Qed.

Lemma wf_whenSet s f : (forall x, holds wf any (f x)) -> holds wf any (whenSet s f).
Proof. intros H. unfold whenSet, deref. wf_auto. Qed.
#[export] Hint Resolve wf_tryFastSplitRequestEmpty wf_emitSplitRequestLineFragment
  wf_emitSplitHeaderValueFragment wf_emitRequestLine wf_emitHeaderLine wf_whenSet : wf.

Lemma wf_split_loop fuel s b i : holds wf any (split_loop fuel s b i).
Proof.
  revert i. induction fuel as [|fuel IH]; intros i; cbn [split_loop]; [wf_auto|].
  unfold updates, assigns.
  apply holds_if; intros _; [wf_auto|]. apply (holds_bind _ any); [wf_auto|]. intros tail _.
  case_match; [|wf_auto]. apply (holds_bind _ any); [wf_auto|]. intros seg _.
  apply wf_withLine. intros line. apply (holds_bind _ any); [wf_auto|]. intros phase _.
  case_match; wf_auto.
Qed.
#[export] Hint Resolve wf_split_loop : wf.

Lemma wf_tryFastSplitRequest s b : holds wf any (tryFastSplitRequest s b).
Proof. unfold tryFastSplitRequest. wf_auto. Qed.

Lemma wf_response_loop fuel s b i : holds wf any (response_loop fuel s b i).
Proof.
  revert i. induction fuel as [|fuel IH]; intros i; cbn [response_loop]; [wf_auto|].
  unfold updates, assigns, emitSplitResponseLineFragment, emitStatusLine, emit_header, scratchLine.
  apply holds_if; intros _; [wf_auto|]. apply (holds_bind _ any); [wf_auto|]. intros tail _.
  case_match; [|wf_auto]. apply (holds_bind _ any); [wf_auto|]. intros seg _.
  apply wf_withLine. intros line. apply (holds_bind _ any); [wf_auto|]. intros phase _.
  case_match; wf_auto.
Qed.
#[export] Hint Resolve wf_tryFastSplitRequest wf_response_loop : wf.

Lemma wf_tryFastSplitResponse s b : holds wf any (tryFastSplitResponse s b).
Proof. unfold tryFastSplitResponse. wf_auto. Qed.

(** The callbacks of the one-buffer paths leave the parser alone. *)
Lemma wf_emit_headers s hs n : holds wf any (emit_headers s hs n).
Proof. induction hs as [|h hs IH]; cbn [emit_headers]; unfold skip, emit_header; wf_auto. Qed.

Lemma wf_reparse_headers fuel s c n : holds wf any (reparse_headers fuel s c n).
Proof.
  revert c. induction fuel as [|fuel IH]; intros c; cbn [reparse_headers]; unfold skip, emit_header; wf_auto.
Qed.

Lemma wf_emit_chunks fuel s c n : holds wf any (emit_chunks fuel s c n).
Proof. revert c. induction fuel as [|fuel IH]; intros c; cbn [emit_chunks]; unfold skip; wf_auto. Qed.
#[export] Hint Resolve wf_tryFastSplitResponse wf_emit_headers wf_reparse_headers wf_emit_chunks : wf.

Lemma wf_emitFastRequest s b r : holds wf any (emitFastRequest s b r).
Proof. unfold emitFastRequest. wf_auto. Qed.

Lemma wf_applyFastRequestResult r p :
  int32_range (fr_contentLength r) -> wf p -> wf (applyFastRequestResult r p).
Proof.
  intros Hr [? ? ? ? ? (? & ? & ?)]. pose proof (blen_nonneg (fr_target r)).
  destruct p, r as [? ? ? ? ? ? ? [] ? ? ? ? [] [] ? ?]; constructor; try done.
Qed.
#[export] Hint Resolve wf_emitFastRequest : wf.

Lemma wf_tryFastRequest s b : holds wf any (tryFastRequest s b).
Proof.
  unfold tryFastRequest. apply (holds_bind _ wf _ (gets id)); [by apply holds_gets|]. intros p Hp.
  apply holds_if; intros _; [wf_auto|]. case_match; [|wf_auto]. case_match; [|wf_auto..].
  apply (holds_bind _ any); [wf_auto|]. intros _ _. 
  set (cap := if on HeaderField s || on HeaderValue s then Some (p_fastHeaders p, 0) else None).
  assert (cap_ok cap) as Hcap by (unfold cap; case_match; [|done]; destruct Hp; done).
  apply (holds_bind _ (fun x => let '(r, err, cap') := x in
    cap_ok cap' /\ forall fr, r = Some fr -> int32_range (fr_contentLength fr))).
  { apply holds_lift. intros [[o err] cap'] E. by apply (analyzeFast_ok b cap o err cap'). }
  intros [[o err] cap'] [Hc' Hr]. apply (holds_bind _ any).
  { destruct cap' as [[arr count]|]; [|wf_auto]. destruct Hc' as [Ha Hcount]. apply holds_modify. wf_set. }
  intros _ _. case_match; [wf_auto|]. destruct o as [fr|]; [|wf_auto].
  apply (holds_bind _ any); [|intros _ _; wf_auto]. apply holds_modify. intros q Hq.
  apply wf_applyFastRequestResult; [by apply Hr | done].
Qed.
#[export] Hint Resolve wf_tryFastRequest : wf.

Lemma wf_tryFastResponse s b : holds wf any (tryFastResponse s b).
Proof.
  unfold tryFastResponse, emitFastResponse, updates, assigns. apply (holds_bind _ any); [wf_auto|].
  intros p _. apply holds_if; intros _; [wf_auto|]. case_match; [|wf_auto]. case_match; [wf_auto| |wf_auto].
  apply (holds_bind _ (fun x => forall r, fst x = Some r -> int32_range (fs_contentLength r))).
  { apply holds_lift. intros [o err] E r' Hr. cbn in Hr. subst. by apply analyzeFastResponse_range in E. }
  intros [o err] Hr. cbn in Hr. case_match; [wf_auto|]. destruct o as [rs|]; [|wf_auto].
  specialize (Hr rs eq_refl). pose proof (blen_nonneg (fs_reason rs)).
  apply (holds_bind _ any); [apply holds_modify; wf_set|]. intros _ _. wf_auto.
Qed.

Lemma wf_chk_chunk_loop fuel s b c : holds wf any (chk_chunk_loop fuel s b c).
Proof. revert c. induction fuel as [|fuel IH]; intros c; cbn [chk_chunk_loop]; wf_auto. Qed.
#[export] Hint Resolve wf_tryFastResponse wf_chk_chunk_loop : wf.

Lemma wf_tryFastChunkedRequest s b : holds wf any (tryFastChunkedRequest s b).
Proof.
  unfold tryFastChunkedRequest. wf_auto. apply holds_modify. intros q Hq.
  by apply wf_applyFastRequestResult.
Qed.

(** The accumulating path. *)
Lemma wf_emitPartialRequestFragments s : holds wf any (emitPartialRequestFragments s).
Proof.
  unfold emitPartialRequestFragments, firstPendingLine, skip. wf_auto.
  replace (z0 + (z + 1) - (z + 1)) with z0 by lia.
  match goal with H : scanToByte _ _ = Some z0 |- _ => apply scanToByte_nonneg in H end.
  apply holds_modify. wf_set.
Qed.

Lemma wf_emitPartialResponseFragments s : holds wf any (emitPartialResponseFragments s).
Proof. unfold emitPartialResponseFragments, firstPendingLine, skip. wf_auto. Qed.

Lemma wf_emitPartialHeaderValue s : holds wf any (emitPartialHeaderValue s).
Proof. unfold emitPartialHeaderValue, skip. wf_auto. Qed.

Lemma wf_emit_parsed_headers s hs : holds wf any (emit_parsed_headers s hs).
Proof.
  induction hs as [|h hs IH]; cbn [emit_parsed_headers]; unfold skip, emit_parsed_header; wf_auto.
Qed.
#[export] Hint Resolve wf_tryFastChunkedRequest wf_emitPartialRequestFragments
  wf_emitPartialResponseFragments wf_emitPartialHeaderValue wf_emit_parsed_headers : wf.

Lemma wf_emitParsedMessage s msg : holds wf any (emitParsedMessage s msg).
Proof. unfold emitParsedMessage, skip. wf_auto. Qed.

Lemma wf_fold_conn hs p : wf p -> wf (fold_left apply_conn_header hs p).
Proof.
  revert p. induction hs as [|h hs IH]; intros p Hp; [done|]. apply IH.
  destruct p, Hp. unfold apply_conn_header. repeat case_match; constructor; done.
Qed.

Lemma wf_applyParsedMessage msg p :
  int32_range (m_contentLength (pm_meta msg)) -> wf p -> wf (applyParsedMessage msg p).
Proof.
  intros Hm Hp. unfold applyParsedMessage.
  set (p1 := if bool_decide (pm_kind msg = REQUEST) then _ else _).
  assert (wf p1) as H1 by (unfold p1; destruct p, Hp; case_match; constructor; done).
  clearbody p1. set (p2 := assigns _ p1).
  assert (wf p2) as H2 by (unfold p2; destruct p1, H1; constructor; done).
  clearbody p2. pose proof (wf_fold_conn (pm_headers msg) p2 H2) as H3.
  set (p3 := fold_left _ _ p2) in *. clearbody p3.
  pose proof (wrap32_range (blen (pm_body msg))).
  destruct p3, H3. repeat case_match; constructor; done.
Qed.
#[export] Hint Resolve wf_emitParsedMessage : wf.

Lemma wf_slowPath s b : holds wf any (slowPath s b).
Proof.
  unfold slowPath, updates, assigns.
  apply (holds_bind _ any); [wf_auto|]. intros _ _. apply (holds_bind _ any); [wf_auto|]. intros p _.
  do 5 (apply (holds_bind _ any); [wf_auto|]; intros ? _).
  apply (holds_bind _ any); [wf_auto|]. intros q _.
  apply (holds_bind _ (fun r => forall msg, r = ParseOk msg -> int32_range (m_contentLength (pm_meta msg)))).
  { apply holds_lift. intros r E msg ->. by apply parse_range in E. }
  intros r Hr. case_match; [|wf_auto..].
  apply (holds_bind _ any); [|intros _ _; wf_auto]. apply holds_modify. intros p1 Hp1.
  apply wf_applyParsedMessage; [by apply Hr | done].
Qed.

Lemma wf_tryPaths paths k :
  Forall (holds wf any) paths -> holds wf any k -> holds wf any (tryPaths paths k).
Proof.
  intros Hp Hk. induction Hp as [|path paths H _ IH]; cbn [tryPaths]; [done|].
  apply (holds_bind _ any); [done|]. intros [[n ok] err] _. wf_auto.
Qed.

Lemma wf_Execute s b : holds wf any (Execute s b).
Proof.
  unfold Execute, executeClean. apply holds_if; intros _; [wf_auto|].
  apply (holds_bind _ any); [wf_auto|]. intros t _. apply wf_tryPaths; [|apply wf_slowPath].
  case_match; repeat constructor; auto with wf.
Qed.

(** C11. Whatever is fed to it -- any buffers, any callbacks, whole, partial or
    malformed messages -- a parser stays well formed: its scratch buffer keeps its
    4096 bytes and the length of the unfinished line stays within it, the header
    array its 64 entries and the count of captured headers within it, the body
    length is an [int32], the fragment offsets are not negative. *)
Theorem Execute_preserves_wf setting bufs p tr r p' tr' :
  wf p ->
  foldr (fun b k => Execute setting b;; k) (mret tt) bufs (p, tr) = Ok (r, (p', tr')) -> wf p'.
Proof.
  intros Hp E. assert (holds wf any (foldr (fun b k => Execute setting b;; k) (mret tt) bufs)) as H.
  { clear. induction bufs as [|b bufs IH]; cbn [foldr]; [wf_auto|].
    apply (holds_bind _ any); [apply wf_Execute | done]. }
  specialize (H p tr Hp). rewrite E in H. by destruct H.
Qed.

Lemma Execute_preserves_wf_witness :
  exists p' tr', foldr (fun b k => Execute None b;; k) (mret tt) [bs "GET / HT"; bs "TP/1.1" ++ CRLF]
    (New REQUEST, []) = Ok (tt, (p', tr')) /\ wf p'.
Proof.
  eexists _, _. split; [vm_compute; reflexivity|].
  refine (Execute_preserves_wf None [bs "GET / HT"; bs "TP/1.1" ++ CRLF] (New REQUEST) [] tt _ _ _ _).
  - apply New_wf.
  - vm_compute. reflexivity.
Defined.
