(* ===== verification/ExecuteSpec.v ===== *)
(** * What Execute does

    Theorems about [Parser.Execute]: a request that arrives in one buffer, a
    body that arrives in many, and the behaviour at the boundaries between
    buffers. *)

From S2P Require Import Prelude Scan Method Cursor StartLine Framing Chunked Message Parser.
From S2P Require Import FastPath FastPathMore SplitPath Execute FastSpec.

Lemma message_text_nonempty kind b msg : message_text kind b msg -> 0 < blen b.
Proof. intros (line & lines & enc & meta & -> & _). unfold CRLF. blens. Qed.

Lemma tryFastSplitRequestEmpty_callbacks s b st :
  hasNoCallbacks (Some s) = false -> tryFastSplitRequestEmpty (Some s) b st = Ok (not_handled, st).
Proof. intros H. unfold tryFastSplitRequestEmpty. by rewrite H. Qed.

Lemma tryPaths_skip path paths k st st' :
  path st = Ok (not_handled, st') -> tryPaths (path :: paths) k st = tryPaths paths k st'.
Proof. intros E. cbn [tryPaths]. by rewrite (run_bind _ _ _ _ _ E). Qed.

Lemma tryPaths_take path paths k st st' n err :
  path st = Ok ((n, true, err), st') -> tryPaths (path :: paths) k st = Ok ((n, err), st').
Proof. intros E. cbn [tryPaths]. by rewrite (run_bind _ _ _ _ _ E). Qed.

(** A request parser tries these paths on a buffer. *)
Lemma Execute_request setting b p tr :
  p_defaultType p = REQUEST -> 0 < blen b ->
  Execute setting b (p, tr) =
    tryPaths [tryFastSplitRequestEmpty setting b; tryFastRequest setting b;
              tryFastChunkedRequest setting b; tryFastSplitRequest setting b]
      (slowPath setting b) (p, tr).
Proof.
  intros Ht Hb. unfold Execute, executeClean. destruct (Z.eqb_spec (blen b) 0); [lia|].
  unfold gets. rewrite (run_bind _ _ _ _ _ eq_refl). cbn [fst]. rewrite Ht.
  by rewrite bool_decide_true.
Qed.

(** ** One buffer *)

(** C3. A request that arrives whole, in one buffer, is reported exactly: on a
    parser with no message under way, [Execute] consumes the buffer and calls the
    callbacks that are set in the order of the message -- begin, target, each
    header's name and value, end of headers, body (one call, or one per chunk,
    together the body), completion -- for any number of headers, whether they fit
    the capture array or not; the parser then describes that request. *)
Theorem Execute_whole_request s b p msg tr :
  p_defaultType p = REQUEST -> p_messageStarted p = false -> p_pending p = [] ->
  length (p_fastHeaders p) = 64%nat -> hasNoCallbacks (Some s) = false ->
  message_text REQUEST b msg ->
  exists pieces p', concat pieces = pm_body msg /\
    (pm_mode msg <> bodyModeChunked -> pieces = [pm_body msg]) /\
    request_state msg p' /\ fast_frame p p' /\
    Execute (Some s) b (p, tr) =
      Ok ((blen b, None), (p', tr ++ request_events s (blen b) msg pieces)).
Proof.
  intros Ht Hms Hpe Hfh Hcb Htext. pose proof (message_text_nonempty _ _ _ Htext) as Hlen.
  apply parse_complete in Htext.
  destruct (tryFastRequest_run s b p msg tr) as (pieces & p' & H1 & H2 & H3 & H4 & E);
    try done; [by rewrite Ht|].
  exists pieces, p'. split_and!; try done. rewrite Execute_request by done.
  erewrite tryPaths_skip by (by apply tryFastSplitRequestEmpty_callbacks).
  by erewrite tryPaths_take.
Qed.

Definition all_callbacks : Setting := mkSetting true true true true true true true true.

Lemma Execute_whole_request_witness :
  let b := bs "POST /p HTTP/1.1" ++ CRLF ++ bs "Content-Length: 2" ++ CRLF ++ CRLF ++ bs "ok" in
  exists p', Execute (Some all_callbacks) b (New REQUEST, []) =
    Ok ((blen b, None), (p', [EvMessageBegin 0; EvURL (bs "/p") 41; EvHeaderField (bs "Content-Length") 41;
      EvHeaderValue (bs "2") 41; EvHeadersComplete 41; EvBody (bs "ok") 41; EvMessageComplete 41])).
Proof.
  cbv zeta. set (b := _ ++ _).
  set (msg := mkMessage REQUEST (mkRequestLine POST (bs "/p") 1 1) zero_responseLine
    [mkHeaderLine (bs "Content-Length") (bs "2")] (bs "ok") bodyModeContentLength
    (mkMeta REQUEST 0 true 2 false)).
  destruct (Execute_whole_request all_callbacks b (New REQUEST) msg []) as (pieces & p' & _ & H2 & _ & _ & E).
  - vm_compute; reflexivity.
  - vm_compute; reflexivity.
  - vm_compute; reflexivity.
  - vm_compute; reflexivity.
  - vm_compute; reflexivity.
  - apply parse_text. vm_compute. reflexivity.
  - exists p'. rewrite E, H2 by discriminate. vm_compute. reflexivity.
Defined.

(** ** A body in many buffers *)

(** Hands buffers to [Execute] one after the other until one fails; the bytes
    consumed are added up. *)
Fixpoint feed (setting : option Setting) (bufs : list bytes) : M (Z * option perror) :=
  match bufs with
  | [] => mret (0, None)
  | b :: bufs' =>
      '(n, err) ← Execute setting b;
      match err with
      | Some e => mret (n, Some e)
      | None => '(m, err') ← feed setting bufs'; mret (n + m, err')
      end
  end.

(** The bytes of the body callbacks of a trace, and its completion callbacks. *)
Definition body_data (es : list Event) : bytes :=
  concat (map (fun e => match e with EvBody d _ => d | _ => [] end) es).
Definition completions (es : list Event) : Z :=
  blen (List.filter (fun e => match e with EvMessageComplete _ => true | _ => false end) es).

Lemma body_data_app a b : body_data (a ++ b) = body_data a ++ body_data b.
Proof. unfold body_data. by rewrite map_app, concat_app. Qed.

Lemma completions_app a b : completions (a ++ b) = completions a + completions b.
Proof. unfold completions. by rewrite List.filter_app, blen_app. Qed.

(** A request parser inside a body of which [n] bytes are missing. *)
Definition in_body (n : Z) (p : Parser) : Prop :=
  p_defaultType p = REQUEST /\ p_fastPhase p = fastPhaseBody /\ p_messageStarted p = true /\
  p_contentLength p = n.

(** The same parser once the body is complete. *)
Definition body_done (p : Parser) : Prop :=
  p_defaultType p = REQUEST /\ p_fastPhase p = fastPhaseIdle /\ p_messageCompleteCalled p = true /\
  p_contentLength p = 0.

Lemma consumeFastBody_run s b p tr n :
  0 < blen b <= n -> n < 2 ^ 31 -> in_body n p ->
  exists p', consumeFastBodyWithCallbacks (Some s) b (p, tr) =
    Ok ((blen b, None), (p', tr ++ ev (Body s) (EvBody b (blen b)) ++
      ev (MessageComplete s && (blen b =? n)) (EvMessageComplete (blen b)))) /\
    if blen b =? n then body_done p' else in_body (n - blen b) p'.
Proof.
  intros Hb Hn (H1 & H2 & H3 & H4). unfold consumeFastBodyWithCallbacks.
  unfold gets. rewrite (run_bind _ _ _ _ _ eq_refl). cbn [fst id]. rewrite H4.
  destruct (Z.leb_spec n 0); [lia|].
  rewrite (wrap32_small (blen b)) by (unfold int32_range; lia).
  destruct (Z.ltb_spec n (blen b)); [lia|].
  rewrite (wrap32_small (blen b)) by (unfold int32_range; lia).
  rewrite (wrap32_small (n - blen b)) by (unfold int32_range; lia).
  destruct (Z.ltb_spec 0 (blen b)); [|lia]. rewrite andb_true_r. cbn [on].
  assert (emits (when (Body s) (d ← lift (gslice b 0 (blen b)); emit (EvBody d (blen b))))
            (ev (Body s) (EvBody b (blen b)))) as Hem.
  { apply emits_when. eapply emits_lift; [|apply emits_emit].
    rewrite <- (app_nil_r b) at 1. by apply gslice_prefix. }
  rewrite (run_emits _ _ _ _ _ Hem). unfold modify at 1. rewrite (run_bind _ _ _ _ _ eq_refl).
  cbn [fst snd]. destruct (Z.eqb_spec (n - blen b) 0) as [Hz|Hz].
  - destruct (Z.eqb_spec (blen b) n); [|lia]. rewrite andb_true_r. destruct p. cbn in *. subst.
    eexists. split.
    + unfold complete, when, on. destruct (MessageComplete s); cbn;
        rewrite ?app_nil_r, ?app_assoc; reflexivity.
    + by destruct (MessageComplete s).
  - destruct (Z.eqb_spec (blen b) n); [lia|]. rewrite andb_false_r. destruct p. cbn in *. subst.
    eexists. split; [cbn; rewrite app_nil_r; done | done].
Qed.

Lemma has_begin_callbacks s : MessageBegin s = true -> hasNoCallbacks (Some s) = false.
Proof. intros H. cbn. by rewrite H. Qed.

Lemma tryFastRequest_started setting b p tr :
  p_messageStarted p = true -> tryFastRequest setting b (p, tr) = Ok (not_handled, (p, tr)).
Proof.
  intros H. unfold tryFastRequest, gets. rewrite (run_bind _ _ _ _ _ eq_refl). cbn [fst id].
  by rewrite H.
Qed.

Lemma tryFastChunkedRequest_started setting b p tr :
  p_messageStarted p = true -> tryFastChunkedRequest setting b (p, tr) = Ok (not_handled, (p, tr)).
Proof.
  intros H. unfold tryFastChunkedRequest, gets. rewrite (run_bind _ _ _ _ _ eq_refl). cbn [fst id].
  rewrite H. by destruct (negb _).
Qed.

Lemma tryFastSplitRequest_body s b p tr n :
  in_body n p ->
  tryFastSplitRequest (Some s) b (p, tr) =
    (r ← consumeFastBodyWithCallbacks (Some s) b; mret (handled r)) (p, tr).
Proof.
  intros (H1 & H2 & _). unfold tryFastSplitRequest, enterSplit, gets.
  rewrite (run_bind _ _ _ _ _ eq_refl). cbn [fst]. rewrite H1.
  rewrite (bool_decide_true (REQUEST = REQUEST)) by done. cbn [negb].
  unfold when. rewrite (run_bind _ _ (p, tr) tt (p, tr));
    [|rewrite (run_bind _ _ _ _ _ eq_refl); cbn [fst]; by rewrite H2].
  rewrite (run_bind _ _ _ _ _ eq_refl). cbn [fst]. by rewrite H2.
Qed.

Lemma Execute_body_piece s b p tr n :
  MessageBegin s = true -> 0 < blen b <= n -> n < 2 ^ 31 -> in_body n p ->
  exists p', Execute (Some s) b (p, tr) =
    Ok ((blen b, None), (p', tr ++ ev (Body s) (EvBody b (blen b)) ++
      ev (MessageComplete s && (blen b =? n)) (EvMessageComplete (blen b)))) /\
    if blen b =? n then body_done p' else in_body (n - blen b) p'.
Proof.
  intros Hs Hb Hn Hp. destruct (consumeFastBody_run s b p tr n Hb Hn Hp) as (p' & E & Hp').
  exists p'. split; [|done]. destruct Hp as (H1 & H2 & H3 & H4).
  rewrite Execute_request by (done || lia).
  erewrite tryPaths_skip by (by apply tryFastSplitRequestEmpty_callbacks, has_begin_callbacks).
  erewrite tryPaths_skip by (by apply tryFastRequest_started).
  erewrite tryPaths_skip by (by apply tryFastChunkedRequest_started).
  erewrite tryPaths_take; [done|]. rewrite (tryFastSplitRequest_body s b p tr n) by done.
  by rewrite (run_bind _ _ _ _ _ E).
Qed.

(** Buffers that carry nothing change nothing. *)
Lemma Execute_empty setting st : Execute setting [] st = Ok ((0, None), st).
Proof. done. Qed.

Lemma feed_empty setting bufs st : concat bufs = [] -> feed setting bufs st = Ok ((0, None), st).
Proof.
  revert st. induction bufs as [|b bufs IH]; intros st H; [done|].
  apply app_nil in H as [-> H]. cbn [feed]. rewrite (run_bind _ _ _ _ _ (Execute_empty setting st)).
  by rewrite (run_bind _ _ _ _ _ (IH st H)).
Qed.

(** C29. A body sent with its length is delivered exactly, however it is cut into
    buffers, to a request parser whose callbacks include MessageBegin and whose
    message has been announced: of a body of which [n] bytes are missing, in
    buffers of at most [n] bytes together, [Execute] takes every buffer whole,
    hands the bytes to the body callback in order, none twice and none dropped,
    and completes the message with the buffer that brings the last byte, once,
    and not before. *)
Theorem Execute_body_delivery s bufs p tr n :
  MessageBegin s = true -> 0 < n < 2 ^ 31 -> in_body n p -> blen (concat bufs) <= n ->
  exists p' es, feed (Some s) bufs (p, tr) = Ok ((blen (concat bufs), None), (p', tr ++ es)) /\
    body_data es = (if Body s then concat bufs else []) /\
    completions es = (if MessageComplete s && (blen (concat bufs) =? n) then 1 else 0) /\
    if blen (concat bufs) =? n then body_done p' else in_body (n - blen (concat bufs)) p'.
Proof.
  intros Hs. revert p tr n. induction bufs as [|b bufs IH]; intros p tr n Hn Hp Hle; cbn [concat feed].
  { exists p, []. rewrite app_nil_r. change (blen (@nil byte)) with 0. destruct (Z.eqb_spec 0 n); [lia|].
    rewrite andb_false_r, Z.sub_0_r. by destruct (Body s). }
  cbn [concat] in Hle. rewrite blen_app in Hle. pose proof (blen_nonneg (concat bufs)).
  destruct (Z.eq_dec (blen b) 0) as [Hz|Hnz].
  { apply blen_zero in Hz as ->. rewrite (run_bind _ _ _ _ _ (Execute_empty _ _)). cbn [app].
    destruct (IH p tr n Hn Hp) as (p' & es & E & Hrest); [blens|]. exists p', es.
    by rewrite (run_bind _ _ _ _ _ E). }
  pose proof (blen_nonneg b).
  destruct (Execute_body_piece s b p tr n) as (p1 & E & Hp1); [done | lia | lia | done |].
  rewrite (run_bind _ _ _ _ _ E). destruct (Z.eqb_spec (blen b) n) as [Hbn|Hbn].
  - assert (concat bufs = []) as Hnil by (apply blen_zero; lia).
    rewrite (run_bind _ _ _ _ _ (feed_empty (Some s) bufs _ Hnil)), Hnil, app_nil_r.
    exists p1. eexists. split; [by rewrite Z.add_0_r|]. rewrite Hbn, Z.eqb_refl, andb_true_r.
    destruct (Body s), (MessageComplete s); cbn; rewrite ?app_nil_r; done.
  - destruct (IH p1 (tr ++ ev (Body s) (EvBody b (blen b)) ++ ev (MessageComplete s && false)
      (EvMessageComplete (blen b))) (n - blen b)) as (p2 & es & E2 & Hd & Hc & Hp2); [lia | done | lia |].
    rewrite (run_bind _ _ _ _ _ E2). exists p2. eexists.
    split; [rewrite blen_app, <- app_assoc; reflexivity|].
    rewrite body_data_app, completions_app, Hd, Hc, blen_app, andb_false_r.
    replace (blen (concat bufs) =? n - blen b) with (blen b + blen (concat bufs) =? n) in * by blia.
    replace (n - blen b - blen (concat bufs)) with (n - (blen b + blen (concat bufs))) in Hp2 by lia.
    destruct (Body s); cbn; rewrite ?app_nil_r; done.
Qed.

(** The parser and the callbacks after a sequence of buffers. *)
Definition after (setting : option Setting) (bufs : list bytes) : PState :=
  match feed setting bufs (New REQUEST, []) with Ok (_, st) => st | Crash _ => (New REQUEST, []) end.

Lemma Execute_body_delivery_witness :
  let st := after (Some all_callbacks)
              [bs "POST / HTTP/1.1" ++ CRLF ++ bs "Content-Length: 5" ++ CRLF ++ CRLF] in
  exists p' es, feed (Some all_callbacks) [bs "he"; []; bs "llo"] st = Ok ((5, None), (p', snd st ++ es)) /\
    body_data es = bs "hello" /\ completions es = 1 /\ body_done p'.
Proof.
  cbv zeta. set (st := after _ _).
  destruct (Execute_body_delivery all_callbacks [bs "he"; []; bs "llo"] (fst st) (snd st) 5)
    as (p' & es & E & H1 & H2 & H3).
  - reflexivity.
  - lia.
  - vm_compute. split_and!; reflexivity.
  - vm_compute. discriminate.
  - exists p', es. rewrite <- surjective_pairing in E. split_and!; [exact E | exact H1 | exact H2 | exact H3].
Defined.
