(* ===== verification/Streaming.v ===== *)
(** * Streaming without callbacks

    The path [tryFastSplitRequestEmpty] takes a request in pieces.  Two parsers
    that differ only in the stale bytes of the line scratch buffer behave alike,
    and where a request head is cut does not matter, unless it is cut between a
    CR and its LF. *)

From S2P Require Import Prelude Scan Method Cursor StartLine Framing Chunked Message Parser.
From S2P Require Import FastPath FastPathMore SplitPath Execute FastSpec Invariant ExecuteSpec.

(** ** The unfinished line *)

Definition partial (p : Parser) : bytes := take (Z.to_nat (p_lineScratchLen p)) (p_lineScratch p).

Definition scratch_ok (p : Parser) : Prop :=
  blen (p_lineScratch p) = scratchBufferSize /\ 0 <= p_lineScratchLen p <= scratchBufferSize.

(** The parser without its line buffer. *)
Definition norm (p : Parser) : Parser := set_lineScratchLen 0 (set_lineScratch [] p).

(** Equal but for the bytes of the scratch buffer beyond the unfinished line. *)
Record obs_eq (p q : Parser) : Prop := {
  oe_l : scratch_ok p;
  oe_r : scratch_ok q;
  oe_partial : partial p = partial q;
  oe_rest : norm p = norm q }.

Lemma obs_eq_refl p : scratch_ok p -> obs_eq p p.
Proof. by constructor. Qed.

Lemma obs_eq_sym p q : obs_eq p q -> obs_eq q p.
Proof. intros []. by constructor. Qed.

Lemma obs_eq_trans p q r : obs_eq p q -> obs_eq q r -> obs_eq p r.
Proof. intros [] []. constructor; congruence. Qed.

#[global] Instance obs_eq_per : RelationClasses.PER obs_eq.
Proof. split; red; eauto using obs_eq_sym, obs_eq_trans. Qed.

(** A field other than the scratch buffer. *)
Lemma obs_field {A} (f : Parser -> A) p q :
  obs_eq p q -> (forall p, f (norm p) = f p) -> f p = f q.
Proof. intros [_ _ _ E] Hf. by rewrite <- (Hf p), E, Hf. Qed.

(** An assignment that leaves the scratch buffer alone. *)
Lemma obs_assign (f : Parser -> Parser) p q :
  obs_eq p q ->
  (forall p, p_lineScratch (f p) = p_lineScratch p /\ p_lineScratchLen (f p) = p_lineScratchLen p /\
     norm (f p) = f (norm p)) ->
  obs_eq (f p) (f q).
Proof.
  intros [[Hp1 Hp2] [Hq1 Hq2] Hpart E] Hf. destruct (Hf p) as (F1 & F2 & F3), (Hf q) as (G1 & G2 & G3).
  constructor; unfold scratch_ok, partial; rewrite ?F1, ?F2, ?G1, ?G2; [done..|].
  by rewrite F3, G3, E.
Qed.

(** Dropping the unfinished line. *)
Lemma obs_clear p q : obs_eq p q -> obs_eq (set_lineScratchLen 0 p) (set_lineScratchLen 0 q).
Proof.
  intros [[Hp1 Hp2] [Hq1 Hq2] Hpart E]. destruct p, q. cbn in *.
  constructor; unfold scratch_ok, partial in *; cbn in *; [unfold scratchBufferSize in *; lia.. | done | done].
Qed.

Lemma partial_length p : scratch_ok p -> blen (partial p) = p_lineScratchLen p.
Proof. intros [H1 H2]. unfold partial, blen in *. rewrite length_take. lia. Qed.

(** Where the unfinished line has been extended, the rest is unchanged. *)
Lemma appendScratch_run b p tr :
  scratch_ok p -> blen (partial p) + blen b <= scratchBufferSize ->
  exists p', appendScratch b (p, tr) = Ok (None, (p', tr)) /\ scratch_ok p' /\
    partial p' = partial p ++ b /\ norm p' = norm p.
Proof.
  intros Hok Hb. unfold appendScratch, gets. rewrite (run_bind _ _ _ _ _ eq_refl). cbn [fst id].
  rewrite (partial_length p Hok) in Hb. destruct Hok as [H1 H2].
  destruct (Z.ltb_spec scratchBufferSize (p_lineScratchLen p + blen b)); [lia|].
  eexists. split; [done|]. pose proof (blen_nonneg b) as Hbn. unfold partial, scratch_ok in *.
  destruct p. cbn in *. set (n := Z.to_nat p_lineScratchLen) in *.
  assert (length (take n p_lineScratch) = n) as Hn by (rewrite length_take; unfold blen in *; lia).
  split_and!; try lia.
  - unfold copy_at. rewrite !blen_app. fold n. unfold blen in *. rewrite length_drop. lia.
  - unfold copy_at. fold n. rewrite app_assoc.
    replace (Z.to_nat (p_lineScratchLen + blen b)) with (length (take n p_lineScratch ++ b))
      by (rewrite length_app, Hn; unfold blen; lia).
    by rewrite take_app_length.
  - done.
Qed.

Lemma appendScratch_overflow b p tr :
  scratch_ok p -> scratchBufferSize < blen (partial p) + blen b ->
  appendScratch b (p, tr) = Ok (Some ScratchOverflow, (p, tr)).
Proof.
  intros Hok Hb. unfold appendScratch, gets. rewrite (run_bind _ _ _ _ _ eq_refl). cbn [fst id].
  rewrite (partial_length p Hok) in Hb.
  by destruct (Z.ltb_spec scratchBufferSize (p_lineScratchLen p + blen b)); [|lia].
Qed.

(** ** Computations that do not depend on stale bytes *)

Definition rel {A} (R : A -> A -> Prop) (x y : res (A * PState)) : Prop :=
  match x, y with
  | Ok (a, (p, tr)), Ok (b, (q, tr')) => R a b /\ tr = tr' /\ obs_eq p q
  | Crash e, Crash f => e = f
  | _, _ => False
  end.

Definition sim {A} (R : A -> A -> Prop) (m m' : M A) : Prop :=
  forall p q tr, obs_eq p q -> rel R (m (p, tr)) (m' (q, tr)).

Section Sim.
Context {A : Type} (R : A -> A -> Prop).

Lemma rel_bind {B} (S : B -> B -> Prop) (m m' : M A) (k k' : A -> M B) s s' :
  rel R (m s) (m' s') ->
  (forall a b p q tr, m s = Ok (a, (p, tr)) -> R a b -> obs_eq p q ->
     rel S (k a (p, tr)) (k' b (q, tr))) ->
  rel S ((m ≫= k) s) ((m' ≫= k') s').
Proof.
  unfold mbind, M_bind, rel at 1. intros H Hk.
  destruct (m s) as [[a [p tr]]|] eqn:E, (m' s') as [[b [q tr']]|]; try done.
  destruct H as (HR & <- & Ho). by apply Hk.
Qed.

Lemma sim_bind {B} (S : B -> B -> Prop) (m m' : M A) (k k' : A -> M B) :
  sim R m m' -> (forall a b, R a b -> sim S (k a) (k' b)) -> sim S (m ≫= k) (m' ≫= k').
Proof.
  intros Hm Hk p q tr Ho. eapply rel_bind; [by apply Hm|]. intros. by apply Hk.
Qed.

Lemma sim_ret a b : R a b -> sim R (mret a) (mret b).
Proof. intros HR p q tr Ho. done. Qed.

Lemma sim_crash e : sim R (lift (Crash e)) (lift (Crash e)).
Proof. intros p q tr Ho. done. Qed.

Lemma sim_if (c : bool) (m m' n n' : M A) :
  (c = true -> sim R m m') -> (c = false -> sim R n n') ->
  sim R (if c then m else n) (if c then m' else n').
Proof. destruct c; auto. Qed.
End Sim.

Lemma sim_lift {A} (r : res A) : sim eq (lift r) (lift r).
Proof. intros p q tr Ho. by destruct r. Qed.

Lemma sim_gets {A} (f : Parser -> A) :
  (forall p, f (norm p) = f p) -> sim eq (gets f) (gets f).
Proof. intros Hf p q tr Ho. cbn. split_and!; [|done..]. by apply obs_field. Qed.

Lemma sim_gets_id : sim obs_eq (gets id) (gets id).
Proof. intros p q tr Ho. done. Qed.

Lemma sim_modify f :
  (forall p, p_lineScratch (f p) = p_lineScratch p /\ p_lineScratchLen (f p) = p_lineScratchLen p /\
     norm (f p) = f (norm p)) -> sim eq (modify f) (modify f).
Proof. intros Hf p q tr Ho. cbn. split_and!; [done..|]. by apply obs_assign. Qed.

Lemma sim_clear f :
  (forall p, p_lineScratch (f p) = p_lineScratch p /\ p_lineScratchLen (f p) = p_lineScratchLen p /\
     norm (f p) = f (norm p)) ->
  sim eq (modify (fun p => set_lineScratchLen 0 (f p))) (modify (fun p => set_lineScratchLen 0 (f p))).
Proof. intros Hf p q tr Ho. cbn. split_and!; [done..|]. by apply obs_clear, obs_assign. Qed.

Lemma sim_appendScratch b : sim eq (appendScratch b) (appendScratch b).
Proof.
  intros p q tr Ho. pose proof Ho as [Hp Hq Hpart E].
  destruct (Z_le_dec (blen (partial p) + blen b) scratchBufferSize) as [Hle|Hgt].
  - destruct (appendScratch_run b p tr Hp Hle) as (p' & -> & Hp' & Hpp & Hn).
    rewrite Hpart in Hle. destruct (appendScratch_run b q tr Hq Hle) as (q' & -> & Hq' & Hqq & Hm).
    split_and!; [done..|]. constructor; congruence.
  - rewrite (appendScratch_overflow b p tr Hp) by lia.
    rewrite Hpart in Hgt. by rewrite (appendScratch_overflow b q tr Hq) by lia.
Qed.

Lemma scratchLine_run p tr : scratch_ok p -> scratchLine (p, tr) = Ok (partial p, (p, tr)).
Proof.
  intros [H1 H2]. unfold scratchLine, gets. rewrite (run_bind _ _ _ _ _ eq_refl). cbn [fst id].
  rewrite gslice_ok by lia. unfold partial. cbn [drop]. by rewrite Z.sub_0_r.
Qed.

Lemma sim_scratchLine : sim eq scratchLine scratchLine.
Proof.
  intros p q tr Ho. pose proof Ho as [Hp Hq Hpart _].
  rewrite !scratchLine_run by done. done.
Qed.

Lemma obs_scratchLen p q : obs_eq p q -> p_lineScratchLen p = p_lineScratchLen q.
Proof. intros [Hp Hq Hpart _]. by rewrite <- !partial_length, Hpart. Qed.

Lemma sim_withLine {A} (R : A -> A -> Prop) fail fail' seg k k' :
  (forall e, R (fail e) (fail' e)) -> (forall line, sim R (k line) (k' line)) ->
  sim R (withLine fail seg k) (withLine fail' seg k').
Proof.
  intros Hf Hk. unfold withLine. apply (sim_bind eq).
  { intros p q tr Ho. cbn. split_and!; [by apply obs_scratchLen | done..]. }
  intros n ? <-. apply sim_if; intros _; [apply Hk|].
  apply (sim_bind eq); [apply sim_appendScratch|]. intros [e|] ? <-; [by apply sim_ret|].
  apply (sim_bind eq); [apply sim_scratchLine|]. intros line ? <-. apply Hk.
Qed.

(** Replaces the fields of one parser by those of the other. *)
Ltac obs_rewrite H :=
  rewrite ?(obs_field p_fastPhase _ _ H ltac:(by intros [])),
    ?(obs_field p_contentLength _ _ H ltac:(by intros [])),
    ?(obs_field p_hasTransferEncoding _ _ H ltac:(by intros [])).

Ltac sim_leaf :=
  first
    [ apply sim_ret; reflexivity
    | apply sim_lift
    | apply sim_appendScratch
    | apply sim_scratchLine
    | apply sim_gets; let p := fresh in intros p; destruct p; done
    | apply sim_modify; let p := fresh in intros p; destruct p; done
    | assumption ].

(** Goes through a computation, splitting binds and tests. *)
Ltac sim_auto :=
  repeat first
    [ sim_leaf
    | apply (sim_bind obs_eq _ (gets id)); [apply sim_gets_id|];
      let p := fresh "p" in let q := fresh "q" in let H := fresh "Ho" in
      intros p q H; obs_rewrite H
    | apply (sim_bind eq); [solve [sim_leaf] |
        let a := fresh "a" in let b := fresh "b" in intros a b <-]
    | apply sim_if; intros _
    | case_match ].

Lemma sim_complete_None pos : sim eq (complete None pos) (complete None pos).
Proof. unfold complete, when, skip. cbn [on]. sim_auto. Qed.

Lemma sim_consumeFastRequestLine line : sim eq (consumeFastRequestLine line) (consumeFastRequestLine line).
Proof. unfold consumeFastRequestLine, updates, assigns. sim_auto. Qed.

Lemma sim_when c m : sim eq m m -> sim eq (when c m) (when c m).
Proof. intros H. destruct c; [done | apply sim_ret; reflexivity]. Qed.

Lemma sim_consumeFastHeader line : sim eq (consumeFastHeader line) (consumeFastHeader line).
Proof.
  unfold consumeFastHeader, updates, assigns. sim_auto.
  all: apply (sim_bind eq); [apply sim_when; sim_leaf | intros ? ? <-; sim_auto].
  apply (sim_bind eq); [apply sim_when; sim_leaf | intros ? ? <-; sim_auto].
Qed.

Lemma sim_consumeFastBody b : sim eq (consumeFastBody b) (consumeFastBody b).
Proof.
  unfold consumeFastBody, consumeFastBodyWithCallbacks. cbn [on andb]. unfold when, skip, complete.
  cbn [on]. unfold when, skip. sim_auto.
  all: repeat (apply (sim_bind eq); [solve [sim_auto] | intros ? ? <-]); sim_auto.
Qed.

Lemma sim_chunked_loop fuel b i : sim eq (chunked_loop fuel None b i) (chunked_loop fuel None b i).
Proof.
  revert i. induction fuel as [|fuel IH]; intros i; cbn [chunked_loop]; [apply sim_crash|].
  cbn [on andb]. unfold when, skip. apply sim_if; intros _; [sim_leaf|].
  apply (sim_bind obs_eq _ (gets id)); [apply sim_gets_id|]. intros p q Ho. obs_rewrite Ho.
  apply sim_if; intros _.
  - apply (sim_bind eq); [sim_leaf|]. intros ? ? <-.
    apply (sim_bind eq); [sim_leaf|]. intros ? ? <-.
    apply sim_if; intros _; [|apply IH]. apply (sim_bind eq); [sim_leaf|]. intros ? ? <-.
    sim_auto; apply IH.
  - apply (sim_bind eq); [sim_leaf|]. intros tail ? <-. case_match; [|sim_auto].
    apply (sim_bind eq); [sim_leaf|]. intros seg ? <-. apply sim_withLine; [done|]. intros line.
    apply (sim_bind eq); [sim_leaf|]. intros size ? <-. case_match; [|sim_auto].
    apply (sim_bind eq); [apply (sim_clear id); by intros []|]. intros ? ? <-.
    apply sim_if; intros _; [apply sim_if; intros _|].
    + sim_auto.
    + do 2 (apply (sim_bind eq); [sim_leaf|]; intros ? ? <-).
      apply sim_if; intros _; [sim_leaf|]. apply (sim_bind eq); [sim_leaf|]. intros ? ? <-.
      apply (sim_bind eq); [apply sim_complete_None|]. intros ? ? <-. sim_auto.
    + unfold updates, assigns. apply (sim_bind eq); [sim_leaf|]. intros ? ? <-. apply IH.
Qed.

Lemma sim_consumeFastChunked b : sim eq (consumeFastChunked b) (consumeFastChunked b).
Proof. apply sim_chunked_loop. Qed.

(** ** The head of a request *)

Definition in_head (p : Parser) : Prop :=
  p_fastPhase p = fastPhaseRequestLine \/ p_fastPhase p = fastPhaseHeaders.

(** Two runs of which the first has consumed [d] bytes more before them: the
    same result and, unless it is an error, the same parser. *)
Definition agree (d : Z) (x y : res (fastResult * PState)) : Prop :=
  match x, y with
  | Ok ((n, ok, err), (p, tr)), Ok ((n', ok', err'), (q, tr')) =>
      ok = ok' /\ err = err' /\ tr = tr' /\ (err = None -> n = d + n' /\ obs_eq p q)
  | Crash e, Crash f => e = f
  | _, _ => False
  end.

(** What a complete line does in the head: it is the part of the loop that
    does not look at the buffer, up to the bytes [rest] after the line. *)
Definition head_line (line rest : bytes) (next len : Z) (k stay : M fastResult) : M fastResult :=
  phase ← gets p_fastPhase;
  match phase with
  | fastPhaseRequestLine =>
      e ← consumeFastRequestLine line;
      match e with
      | Some e => mret (0, true, Some e)
      | None => updates [set_lineScratchLen 0; set_fastPhase fastPhaseHeaders];; k
      end
  | fastPhaseHeaders =>
      if blen line =? 0 then
        p ← gets id;
        if p_hasTransferEncoding p then
          updates [set_fastPhase fastPhaseChunkedSize; set_lineScratchLen 0];;
          '(n, e) ← consumeFastChunked rest;
          match e with
          | Some e => mret (0, true, Some e)
          | None => mret (next + n, true, None)
          end
        else if 0 <? p_contentLength p then
          updates [set_fastPhase fastPhaseBody; set_lineScratchLen 0];;
          '(n, e) ← consumeFastBody rest;
          match e with
          | Some e => mret (0, true, Some e)
          | None => mret (next + n, true, None)
          end
        else
          modify (set_phase (bs "messageDone"));;
          complete None next;;
          updates [set_fastPhase fastPhaseIdle; set_lineScratchLen 0];;
          mret (len, true, None)
      else
        e ← consumeFastHeader line;
        match e with
        | Some e => mret (0, true, Some e)
        | None => modify (set_lineScratchLen 0);; k
        end
  | _ => stay
  end.

Lemma withLine_ext {A} (fail : perror -> A) seg (k k' : bytes -> M A) st :
  (forall line st, k line st = k' line st) -> withLine fail seg k st = withLine fail seg k' st.
Proof.
  intros H. unfold withLine, mbind, M_bind. destruct (gets _ st) as [[n st']|]; [|done].
  destruct (n =? 0); [apply H|]. destruct (appendScratch seg st') as [[[e|] st2]|]; [done| |done].
  destruct (scratchLine st2) as [[line st3]|]; [apply H | done].
Qed.

(** One iteration of the loop, on a line [l] of the buffer. *)
Lemma empty_loop_line fuel pre l rest st :
  crlf_free l -> let b := pre ++ l ++ CRLF ++ rest in
  empty_loop (S fuel) b (blen pre) st =
    withLine (fun e => (0, true, Some e)) l (fun line =>
      head_line line rest (blen pre + blen l + 2) (blen b)
        (empty_loop fuel b (blen pre + blen l + 2)) (empty_loop fuel b (blen pre))) st.
Proof.
  intros Hl b. cbn [empty_loop].
  destruct (Z.leb_spec (blen b) (blen pre)) as [H|_]; [unfold b, CRLF in H; blens|].
  rewrite (gslice_suffix pre (l ++ CRLF ++ rest)) by done.
  rewrite run_lift. rewrite scanCRLFBytes_app by done.
  rewrite (gslice_app pre l (CRLF ++ rest)) by done.
  rewrite run_lift. apply withLine_ext. intros line s.
  assert (gslice_from b (blen pre + blen l + 2) = Ok rest) as Hs.
  { unfold b. rewrite (app_assoc l), (app_assoc pre). apply gslice_suffix. unfold CRLF; blens. }
  unfold head_line. rewrite Hs. done.
Qed.

(** One iteration on the last, unfinished line. *)
Lemma empty_loop_tail fuel pre l st :
  crlf_free l -> l <> [] ->
  empty_loop (S fuel) (pre ++ l) (blen pre) st =
    (e ← appendScratch l;
     match e with
     | Some e => mret (0, true, Some e)
     | None => mret (blen (pre ++ l), true, None)
     end) st.
Proof.
  intros Hl Hne. cbn [empty_loop].
  destruct (Z.leb_spec (blen (pre ++ l)) (blen pre)) as [H|_].
  { rewrite blen_app in H. destruct l; [done|]. blens. }
  rewrite gslice_suffix by done. rewrite run_lift.
  by rewrite (proj2 (scanCRLFBytes_None l)).
Qed.

Lemma empty_loop_end fuel b st : empty_loop (S fuel) b (blen b) st = Ok ((blen b, true, None), st).
Proof. cbn [empty_loop]. by destruct (Z.leb_spec (blen b) (blen b)); [|lia]. Qed.

(** Equal but for the line buffer. *)
Definition weak (p q : Parser) : Prop := scratch_ok p /\ scratch_ok q /\ norm p = norm q.

Lemma obs_weak p q : obs_eq p q -> weak p q.
Proof. by intros []. Qed.

Lemma weak_clear p q : weak p q -> obs_eq (set_lineScratchLen 0 p) (set_lineScratchLen 0 q).
Proof.
  intros ([Hp1 Hp2] & [Hq1 Hq2] & E). destruct p, q. cbn in *.
  constructor; unfold scratch_ok, partial in *; cbn in *; [unfold scratchBufferSize in *; lia.. | done | done].
Qed.

Lemma weak_assign (f : Parser -> Parser) p q :
  weak p q ->
  (forall p, p_lineScratch (f p) = p_lineScratch p /\ p_lineScratchLen (f p) = p_lineScratchLen p /\
     norm (f p) = f (norm p)) -> weak (f p) (f q).
Proof.
  intros ([Hp1 Hp2] & [Hq1 Hq2] & E) Hf.
  destruct (Hf p) as (F1 & F2 & F3), (Hf q) as (G1 & G2 & G3).
  unfold weak, scratch_ok. rewrite F1, F2, F3, G1, G2, G3, E. done.
Qed.

Lemma weak_field {A} (f : Parser -> A) p q :
  weak p q -> (forall p, f (norm p) = f p) -> f p = f q.
Proof. intros (_ & _ & E) Hf. by rewrite <- (Hf p), E, Hf. Qed.

Ltac weak_set :=
  first [ assumption
        | apply weak_assign; [weak_set | let p := fresh in intros p; destruct p; done] ].

(** The consumers of one line do not look at the line buffer, and return. *)
Lemma consumeFastRequestLine_weak line p q tr :
  weak p q -> exists e p' q', consumeFastRequestLine line (p, tr) = Ok (e, (p', tr)) /\
    consumeFastRequestLine line (q, tr) = Ok (e, (q', tr)) /\ weak p' q'.
Proof.
  intros Hw. unfold consumeFastRequestLine. destruct (parseRequestLineBytes_total line) as [o ->].
  destruct o as [r|]; [|by do 3 eexists]. rewrite !run_lift, !run_updates.
  do 3 eexists. split_and!; [reflexivity..|]. unfold assigns. cbn [fold_left]. weak_set.
Qed.

Lemma consumeFastHeader_weak line p q tr :
  weak p q -> exists e p' q', consumeFastHeader line (p, tr) = Ok (e, (p', tr)) /\
    consumeFastHeader line (q, tr) = Ok (e, (q', tr)) /\ weak p' q' /\ p_fastPhase p' = p_fastPhase p.
Proof.
  intros Hw. unfold consumeFastHeader. destruct (parseHeaderLineBytes_total line) as [o ->].
  destruct o as [h|]; [|do 3 eexists; split_and!; done]. rewrite !run_lift.
  unfold when, skip. repeat case_match; rewrite ?run_gets;
    rewrite <- ?(weak_field p_hasContentLength p q Hw) by (by intros []);
    try (destruct (p_hasContentLength p)); repeat case_match;
    do 3 eexists; (split_and!; [reflexivity | reflexivity | | by destruct p]);
    unfold assigns; cbn [fold_left fst]; weak_set.
Qed.

Lemma obs_set_clear ph p q :
  weak p q -> obs_eq (assigns [set_fastPhase ph; set_lineScratchLen 0] p)
                (assigns [set_fastPhase ph; set_lineScratchLen 0] q).
Proof. intros Hw. apply weak_clear. unfold assigns. cbn [fold_left]. weak_set. Qed.

(** The end of the head: the body consumers get the same bytes. *)
Lemma agree_bind_body d next next' (m : M (Z * option perror)) p q tr :
  sim eq m m -> obs_eq p q -> next = d + next' ->
  agree d
    (('(n, e) ← m; match e with Some e => mret (0, true, Some e) | None => mret (next + n, true, None) end) (p, tr))
    (('(n, e) ← m; match e with Some e => mret (0, true, Some e) | None => mret (next' + n, true, None) end) (q, tr)).
Proof.
  intros Hm Ho ->. specialize (Hm p q tr Ho). unfold mbind, M_bind.
  destruct (m (p, tr)) as [[[n e] [p1 tr1]]|], (m (q, tr)) as [[[n' e'] [q1 tr1']]|]; try done.
  destruct Hm as ([= <- <-] & <- & Ho1). destruct e; [done|]. cbn. split_and!; [done..|].
  intros _. split; [lia | done].
Qed.

(** A line of the head, in two runs whose buffers differ by [d] bytes before the
    line, on parsers that may hold the line in different places. *)
Lemma agree_head_line d line rest next next' len len' (c c' s s' : M fastResult) p q tr :
  weak p q -> in_head p -> next = d + next' -> len = d + len' ->
  (forall p q tr, obs_eq p q -> in_head p -> partial p = [] -> agree d (c (p, tr)) (c' (q, tr))) ->
  agree d (head_line line rest next len c s (p, tr)) (head_line line rest next' len' c' s' (q, tr)).
Proof.
  intros Hw Hh Hnext Hlen Hc. unfold head_line. rewrite !run_gets.
  rewrite <- (weak_field p_fastPhase p q Hw) by (by intros []).
  destruct Hh as [Hp | Hp]; rewrite Hp.
  - destruct (consumeFastRequestLine_weak line p q tr Hw) as (e & p1 & q1 & E1 & E2 & Hw1).
    rewrite (run_bind _ _ _ _ _ E1), (run_bind _ _ _ _ _ E2). destruct e as [e|]; [done|].
    rewrite !run_updates. apply Hc; [|right; by destruct p1 | by destruct p1].
    apply (obs_assign (set_fastPhase _)); [by apply weak_clear | by intros []].
  - destruct (blen line =? 0).
    + rewrite !run_gets. cbn [id].
      rewrite <- (weak_field p_hasTransferEncoding p q Hw) by (by intros []).
      rewrite <- (weak_field p_contentLength p q Hw) by (by intros []).
      destruct (p_hasTransferEncoding p); [|destruct (0 <? p_contentLength p)]; rewrite ?run_updates.
      * apply agree_bind_body; [apply sim_consumeFastChunked | by apply obs_set_clear | done].
      * apply agree_bind_body; [apply sim_consumeFastBody | by apply obs_set_clear | done].
      * cbn. split_and!; [done..|]. intros _. split; [done|]. apply (obs_set_clear fastPhaseIdle).
        apply (weak_assign (set_messageCompleteCalled true)); [|by intros []].
        apply (weak_assign (set_phase _)); [done | by intros []].
    + destruct (consumeFastHeader_weak line p q tr Hw) as (e & p1 & q1 & E1 & E2 & Hw1 & Hph).
      rewrite (run_bind _ _ _ _ _ E1), (run_bind _ _ _ _ _ E2). destruct e as [e|]; [done|].
      rewrite !run_modify. apply Hc; [by apply weak_clear | | by destruct p1]. right.
      rewrite <- Hp, <- Hph. by destruct p1.
Qed.

Lemma norm_phase p q : norm p = norm q -> p_fastPhase p = p_fastPhase q.
Proof. intros H. apply (f_equal p_fastPhase) in H. by destruct p, q. Qed.

(** A line that is completed by the segment [l], when it fits. *)
Lemma withLine_run l p tr :
  scratch_ok p -> blen (partial p) + blen l <= scratchBufferSize ->
  exists p', scratch_ok p' /\ norm p' = norm p /\
    forall A (fail : perror -> A) (k : bytes -> M A),
      withLine fail l k (p, tr) = k (partial p ++ l) (p', tr).
Proof.
  intros Hok Hfit. unfold withLine.
  destruct (Z.eqb_spec (p_lineScratchLen p) 0) as [Hz|Hz].
  - exists p. split_and!; [done..|]. intros. rewrite run_gets, Hz. cbn [Z.eqb].
    rewrite <- partial_length in Hz by done. apply blen_zero in Hz. by rewrite Hz.
  - destruct (appendScratch_run l p tr Hok Hfit) as (p' & E & Hok' & Hp' & Hn).
    exists p'. split_and!; [done..|]. intros. rewrite run_gets.
    destruct (Z.eqb_spec (p_lineScratchLen p) 0); [done|].
    rewrite (run_bind _ _ _ _ _ E), (run_bind _ _ _ _ _ (scratchLine_run p' tr Hok')). by rewrite Hp'.
Qed.

(** A line in two runs, when it is completed by different segments. *)
Lemma agree_withLine d l l' (k k' : bytes -> M fastResult) p q tr :
  scratch_ok p -> scratch_ok q -> norm p = norm q -> partial p ++ l = partial q ++ l' ->
  blen (partial p ++ l) <= scratchBufferSize ->
  (forall p1 q1, weak p1 q1 -> norm p1 = norm p ->
     agree d (k (partial p ++ l) (p1, tr)) (k' (partial p ++ l) (q1, tr))) ->
  agree d (withLine (fun e => (0, true, Some e)) l k (p, tr))
    (withLine (fun e => (0, true, Some e)) l' k' (q, tr)).
Proof.
  intros Hp Hq Hn E Hfit Hk.
  destruct (withLine_run l p tr Hp) as (p1 & Hp1 & Hn1 & R1); [by rewrite <- blen_app|].
  destruct (withLine_run l' q tr Hq) as (q1 & Hq1 & Hm1 & R2); [by rewrite <- blen_app, <- E|].
  rewrite R1, R2, <- E. apply Hk; [|done]. split_and!; congruence.
Qed.

Lemma in_head_norm p q : norm p = norm q -> in_head q -> in_head p.
Proof. unfold in_head. intros E. by rewrite (norm_phase p q E). Qed.

(** The loop depends on the unread bytes and the unfinished line only. *)
Lemma empty_loop_agree fuel T fuel' pre pre' p q tr :
  (length T < fuel)%nat -> (length T < fuel')%nat -> obs_eq p q -> in_head p ->
  blen (partial p) + blen T <= scratchBufferSize ->
  agree (blen pre - blen pre')
    (empty_loop fuel (pre ++ T) (blen pre) (p, tr)) (empty_loop fuel' (pre' ++ T) (blen pre') (q, tr)).
Proof.
  revert T fuel' pre pre' p q tr. induction fuel as [|fuel IH]; [lia|].
  intros T [|fuel'] pre pre' p q tr Hf Hf' Ho Hh Hfit; [lia|]. pose proof Ho as [Hp Hq Hpart Hn].
  destruct (scanCRLFBytes T) as [i|] eqn:E.
  - apply scanCRLFBytes_Some in E as (l & r & -> & Hl & _). rewrite !empty_loop_line by done.
    assert (forall x : bytes, blen x + blen l + 2 = blen (x ++ l ++ CRLF)) as Hnx
      by (intros x; unfold CRLF; blens).
    assert (forall x : bytes, x ++ l ++ CRLF ++ r = (x ++ l ++ CRLF) ++ r) as Ha
      by (intros x; by rewrite <- !app_assoc).
    rewrite !length_app in Hf, Hf'. cbn [length CRLF] in Hf, Hf'. unfold CRLF in Hfit.
    apply agree_withLine; [done.. | by rewrite Hpart | blens |].
    intros p1 q1 Hw1 Hn1. apply agree_head_line; [done | by apply (in_head_norm p1 p) | blens.. |].
    intros p2 q2 tr2 Ho2 Hh2 Hnil. rewrite !Hnx, !Ha.
    replace (blen pre - blen pre') with (blen (pre ++ l ++ CRLF) - blen (pre' ++ l ++ CRLF)) by blens.
    apply IH; [lia.. | done | done |]. rewrite Hnil. blens.
  - apply scanCRLFBytes_None in E. destruct T as [|x T].
    + rewrite !app_nil_r, !empty_loop_end. cbn. split_and!; [done..|]. intros _. split; [lia | done].
    + rewrite !empty_loop_tail by done. pose proof (sim_appendScratch (x :: T) p q tr Ho) as Hs.
      unfold mbind, M_bind. destruct (appendScratch_run (x :: T) p tr Hp Hfit) as (p1 & E1 & _). rewrite E1 in *.
      destruct (appendScratch (x :: T) (q, tr)) as [[e [q1 tr1]]|]; [|done].
      destruct Hs as (<- & <- & Ho1). cbn. split_and!; [done..|]. intros _.
      rewrite !blen_app. split; [lia | done].
Qed.

(** The body consumers never come back to the head. *)
Lemma past_head_stays (m : M (Z * option perror)) next p tr n p1 tr1 :
  holds past_head any m -> past_head p -> in_head p1 ->
  ('(n, e) ← m; match e with Some e => mret (0, true, Some e) | None => mret (next + n, true, None) end)
    (p, tr) = Ok ((n, true, None), (p1, tr1)) -> False.
Proof.
  intros Hm Hp Hh E. specialize (Hm p tr Hp). unfold mbind, M_bind in E.
  destruct (m (p, tr)) as [[[k e] [p2 tr2]]|]; [|done]. destruct Hm as [_ Hp2].
  destruct e; [done|]. injection E as _ -> _. unfold past_head in Hp2.
  by destruct Hh as [Hh | Hh]; rewrite Hh in Hp2.
Qed.

Lemma scratch_ok_clear p : scratch_ok p -> scratch_ok (set_lineScratchLen 0 p) /\
  partial (set_lineScratchLen 0 p) = [].
Proof. intros [H1 H2]. destruct p. unfold scratch_ok, partial in *; cbn in *.
  unfold scratchBufferSize in *. auto with lia.
Qed.

(** A line after which the head goes on, whatever follows it in the buffer. *)
Lemma head_line_inv line rest next len (c s : M fastResult) p tr n p1 tr1 :
  scratch_ok p -> in_head p -> in_head p1 ->
  head_line line rest next len c s (p, tr) = Ok ((n, true, None), (p1, tr1)) ->
  exists p2, c (p2, tr) = Ok ((n, true, None), (p1, tr1)) /\ scratch_ok p2 /\ in_head p2 /\
    partial p2 = [] /\
    forall rest' next' len' (c' s' : M fastResult),
      head_line line rest' next' len' c' s' (p, tr) = c' (p2, tr).
Proof.
  intros Hok Hh Hh1. assert (weak p p) as Hw by done. unfold head_line. rewrite run_gets.
  destruct Hh as [Hp | Hp]; rewrite Hp.
  - destruct (consumeFastRequestLine_weak line p p tr Hw) as (e & p2 & q2 & E1 & _ & Hw2 & _).
    rewrite (run_bind _ _ _ _ _ E1). destruct e; [done|]. rewrite run_updates. intros E.
    destruct (scratch_ok_clear p2 Hw2) as [Hc1 Hc2].
    exists (assigns [set_lineScratchLen 0; set_fastPhase fastPhaseHeaders] p2).
    split_and!; [done | by destruct p2 | right; by destruct p2 | by destruct p2 |].
    intros. rewrite run_gets, Hp. by rewrite (run_bind _ _ _ _ _ E1).
  - destruct (blen line =? 0).
    + rewrite run_gets. cbn [id]. destruct (p_hasTransferEncoding p); [|destruct (0 <? p_contentLength p)];
        rewrite ?run_updates; intros E; exfalso.
      * eapply (past_head_stays (consumeFastChunked rest)); [apply past_chunked_loop | | exact Hh1 | exact E].
        by destruct p.
      * eapply (past_head_stays (consumeFastBody rest)); [apply past_consumeFastBody | | exact Hh1 | exact E].
        by destruct p.
      * cbn in E. injection E as _ <- _. destruct p. by destruct Hh1.
    + destruct (consumeFastHeader_weak line p p tr Hw) as (e & p2 & q2 & E1 & _ & [Hw2 _] & Hph).
      rewrite (run_bind _ _ _ _ _ E1). destruct e; [done|]. rewrite run_modify. intros E.
      destruct (scratch_ok_clear p2 Hw2) as [Hc1 Hc2]. exists (set_lineScratchLen 0 p2).
      split_and!; [done | done | right; rewrite <- Hp, <- Hph; by destruct p2 | done |].
      intros. rewrite run_gets, Hp. cbv iota. by rewrite (run_bind _ _ _ _ _ E1).
Qed.

(** ** Where a head is cut *)

(** The cut between two buffers is not inside a line end. *)
Definition cut_ok (a c : bytes) : Prop := forall x y, a = x ++ [CR] -> c = LF :: y -> False.

Lemma cut_ok_suffix x a c : cut_ok (x ++ a) c -> cut_ok a c.
Proof. intros H y z -> ->. by apply (H (x ++ y) z); [rewrite <- app_assoc|]. Qed.

Lemma cut_ok_prefix a l r : cut_ok a (l ++ r) -> cut_ok a l.
Proof. intros H y z -> ->. by apply (H y (z ++ r)). Qed.

Lemma cut_ok_free a l : crlf_free a -> crlf_free l -> cut_ok a l -> crlf_free (a ++ l).
Proof.
  induction a as [|x [|y a] IH]; intros Ha Hl Hcut; [done| |].
  - destruct l as [|z l]; [done|]. apply crlf_free_cons; [|done]. intros [-> ->]. by apply (Hcut [] l).
  - apply crlf_free_cons; [intros [-> ->]; by apply (Ha [] a)|].
    apply IH; [by apply crlf_free_tail in Ha | done | by apply (cut_ok_suffix [x])].
Qed.

(** The first buffer ends inside the line that [a] begins: the second goes on
    with it. *)
Lemma cut_agree_tail fuel fuelc a c pre p q tr :
  (length (a ++ c) < fuel)%nat -> (length c < fuelc)%nat -> c <> [] -> crlf_free a ->
  scratch_ok p -> scratch_ok q -> in_head p -> norm q = norm p -> partial q = partial p ++ a ->
  blen (partial p) + blen (a ++ c) <= scratchBufferSize -> cut_ok a c -> a <> [] ->
  agree (blen pre + blen a)
    (empty_loop fuel (pre ++ a ++ c) (blen pre) (p, tr)) (empty_loop fuelc c 0 (q, tr)).
Proof.
  destruct fuel as [|fuel]; [lia|]. destruct fuelc as [|fuelc]; [lia|].
  intros Hf Hfc Hc Ha Hok Hq Hh Hn Hpart Hfit Hcut Hne. change 0 with (blen (@nil byte)) at 1.
  destruct (scanCRLFBytes c) as [i|] eqn:Es.
  - apply scanCRLFBytes_Some in Es as (l & r & -> & Hl & _).
    assert (crlf_free (a ++ l)) as Hal by (apply cut_ok_free; [done.. | by apply cut_ok_prefix in Hcut]).
    rewrite (app_assoc a l), (empty_loop_line fuel pre (a ++ l) r) by done.
    change (empty_loop (S fuelc) (l ++ CRLF ++ r)) with (empty_loop (S fuelc) ([] ++ l ++ CRLF ++ r)).
    rewrite (empty_loop_line fuelc [] l r) by done.
    unfold CRLF in Hfit. apply agree_withLine; [done.. | by rewrite Hpart, app_assoc | blens |].
    intros p1 q1 Hw Hn1. apply agree_head_line; [done | by apply (in_head_norm p1 p) | blens.. |].
    intros p2 q2 tr2 Ho2 Hh2 Hnil.
    replace (pre ++ (a ++ l) ++ CRLF ++ r) with ((pre ++ a ++ l ++ CRLF) ++ r) by (by rewrite <- !app_assoc).
    replace ([] ++ l ++ CRLF ++ r) with ((l ++ CRLF) ++ r) by (cbn; by rewrite <- !app_assoc).
    replace (blen pre + blen (a ++ l) + 2) with (blen (pre ++ a ++ l ++ CRLF)) by (unfold CRLF; blens).
    replace (blen [] + blen l + 2) with (blen (l ++ CRLF)) by (unfold CRLF; blens).
    replace (blen pre + blen a) with (blen (pre ++ a ++ l ++ CRLF) - blen (l ++ CRLF)) by blens.
    rewrite !length_app in Hf; rewrite !length_app in Hfc. cbn [length CRLF] in Hf, Hfc.
    apply empty_loop_agree; [lia.. | done | done |]. rewrite Hnil. blens.
  - apply scanCRLFBytes_None in Es. assert (crlf_free (a ++ c)) as Hac by (by apply cut_ok_free).
    rewrite (empty_loop_tail fuel pre (a ++ c)) by (done || by destruct a).
    change (empty_loop (S fuelc) c) with (empty_loop (S fuelc) ([] ++ c)).
    rewrite (empty_loop_tail fuelc [] c) by done.
    destruct (appendScratch_run (a ++ c) p tr Hok Hfit) as (p1 & E1 & Hp1 & Hpp & Hn1).
    destruct (appendScratch_run c q tr Hq) as (q1 & E2 & Hq1 & Hqq & Hm1); [rewrite Hpart; blens|].
    rewrite (run_bind _ _ _ _ _ E1), (run_bind _ _ _ _ _ E2). cbn. split_and!; [done..|]. intros _.
    split; [blens|]. constructor; [done | done | by rewrite Hpp, Hqq, Hpart, app_assoc | congruence].
Qed.

Lemma cut_agree fuelA a c fuel fuelc pre p tr n p1 tr1 :
  (length a < fuelA)%nat -> (length (a ++ c) < fuel)%nat -> (length c < fuelc)%nat -> c <> [] ->
  scratch_ok p -> in_head p -> blen (partial p) + blen (a ++ c) <= scratchBufferSize -> cut_ok a c ->
  empty_loop fuelA (pre ++ a) (blen pre) (p, tr) = Ok ((n, true, None), (p1, tr1)) -> in_head p1 ->
  agree (blen pre + blen a)
    (empty_loop fuel (pre ++ a ++ c) (blen pre) (p, tr)) (empty_loop fuelc c 0 (p1, tr1)).
Proof.
  revert a fuel pre p. induction fuelA as [|fuelA IH]; [lia|].
  intros a [|fuel] pre p HfA Hf Hfc Hc Hok Hh Hfit Hcut E Hh1; [lia|]. destruct fuelc as [|fuelc]; [lia|].
  destruct (scanCRLFBytes a) as [i|] eqn:Es.
  - (* a complete line in the first buffer *)
    apply scanCRLFBytes_Some in Es as (l & a' & -> & Hl & _). rewrite <- !app_assoc in *.
    rewrite empty_loop_line in E by done. rewrite empty_loop_line by done.
    destruct (withLine_run l p tr Hok) as (p2 & Hp2 & Hn2 & R); [blens|].
    rewrite R in E. rewrite R.
    apply head_line_inv in E as (p3 & E & Hp3 & Hh3 & Hnil & R3); [|done | by apply (in_head_norm p2 p) | done].
    rewrite R3. assert (blen pre + blen l + 2 = blen (pre ++ l ++ CRLF)) as Hn by (unfold CRLF; blens).
    rewrite Hn in *. replace (blen pre + blen (l ++ CRLF ++ a')) with (blen (pre ++ l ++ CRLF) + blen a') by blens.
    replace (pre ++ l ++ CRLF ++ a' ++ c) with ((pre ++ l ++ CRLF) ++ a' ++ c) by (by rewrite <- !app_assoc).
    replace (pre ++ l ++ CRLF ++ a') with ((pre ++ l ++ CRLF) ++ a') in E by (by rewrite <- !app_assoc).
    rewrite !length_app in HfA, Hf. cbn [length CRLF] in HfA, Hf.
    apply (IH a' fuel (pre ++ l ++ CRLF) p3); try done; [lia | lia | rewrite Hnil; unfold CRLF in *; blens |].
    apply (cut_ok_suffix (l ++ CRLF)). by rewrite <- app_assoc.
  - apply scanCRLFBytes_None in Es. destruct (decide (a = [])) as [->|Hne].
    + rewrite app_nil_r, empty_loop_end in E. injection E as _ <- <-. cbn [app] in *.
      replace (blen pre + blen []) with (blen pre - blen (@nil byte)) by blens.
      apply (empty_loop_agree (S fuel) c (S fuelc) pre []); [lia.. | by apply obs_eq_refl | done | done].
    + rewrite empty_loop_tail in E by done.
      destruct (appendScratch_run a p tr Hok) as (p2 & E2 & Hp2 & Hpart & Hn2); [blens|].
      rewrite (run_bind _ _ _ _ _ E2) in E. injection E as _ <- <-.
      by apply (cut_agree_tail (S fuel) (S fuelc)).
Qed.

(** ** Execute without callbacks *)

(** The state in which the head is read: an idle parser starts a request line. *)
Definition enter (p : Parser) : Parser :=
  if bool_decide (p_fastPhase p = fastPhaseIdle)
  then assigns [set_fastPhase fastPhaseRequestLine; set_currentType REQUEST;
                set_phase (initialPhase REQUEST)] p
  else p.

(** Between messages, or in the head of one. *)
Definition at_head (p : Parser) : Prop := p_fastPhase p = fastPhaseIdle \/ in_head p.

Lemma enter_spec p :
  at_head p -> in_head (enter p) /\ partial (enter p) = partial p /\
  (scratch_ok p -> scratch_ok (enter p)) /\ p_defaultType (enter p) = p_defaultType p.
Proof.
  intros Hp. unfold enter. destruct (bool_decide_reflect (p_fastPhase p = fastPhaseIdle)) as [Hi|Hi].
  - destruct p. split_and!; [by left | done..].
  - by destruct Hp.
Qed.

Definition is_request (p : Parser) : Prop := p_defaultType p = REQUEST.

Lemma request_chunked_loop fuel s b i : holds is_request any (chunked_loop fuel s b i).
Proof.
  revert i. induction fuel as [|fuel IH]; intros i; cbn [chunked_loop]; unfold updates, assigns; hoare;
    apply IH.
Qed.

(** The loop claims every buffer, and the parser keeps its type. *)
Lemma empty_loop_handles fuel b i :
  holds is_request (fun r : fastResult => snd (fst r) = true) (empty_loop fuel b i).
Proof.
  revert i. induction fuel as [|fuel IH]; intros i; cbn [empty_loop]; [by apply holds_lift|].
  unfold updates, assigns, withLine.
  repeat first
    [ apply holds_ret; reflexivity
    | apply IH
    | apply (holds_bind _ any); [solve [apply request_chunked_loop | hoare] | intros ? _]
    | apply holds_if; intros _
    | case_match ].
Qed.

Lemma Execute_None_head b p tr :
  p_defaultType p = REQUEST -> at_head p -> 0 < blen b ->
  Execute None b (p, tr) =
    match empty_loop (S (length b)) b 0 (enter p, tr) with
    | Ok ((n, _, err), st) => Ok ((n, err), st)
    | Crash e => Crash e
    end.
Proof.
  intros Ht Hp Hb. rewrite Execute_request by done. cbn [tryPaths]. unfold mbind at 1, M_bind at 1.
  assert (tryFastSplitRequestEmpty None b (p, tr) = empty_loop (S (length b)) b 0 (enter p, tr)) as ->.
  { unfold tryFastSplitRequestEmpty. rewrite run_gets, Ht, bool_decide_true by done. cbn [hasNoCallbacks negb orb].
    rewrite (run_bind (enterSplit _ _) _ _ tt (enter p, tr)).
    2:{ unfold enterSplit, enter. rewrite run_gets. by destruct (bool_decide _). }
    rewrite run_gets. destruct (enter_spec p Hp) as (Hh & _). by destruct Hh as [-> | ->]. }
  pose proof (empty_loop_handles (S (length b)) b 0 (enter p) tr) as Hok.
  destruct (empty_loop _ _ _ _) as [[[[n ok] err] [p' tr']]|]; [|done].
  destruct Hok as [Hok _]; [|cbn in Hok; by subst ok].
  destruct (enter_spec p Hp) as (_ & _ & _ & Hte). unfold is_request. congruence.
Qed.

(** C8. Where a request head is cut does not matter to a parser without
    callbacks: if it takes [a] and is then still in the head of the request, and
    then takes [c], it ends as the parser that takes [a ++ c] at once -- the same
    error or the same parser, with the same bytes consumed, whether the head ends
    in [c] or not -- provided the cut is not between a CR and its LF and the
    partial line and both buffers together are no longer than the line buffer of
    4096 bytes. *)
Theorem Execute_cut_invariant a c p tr n p1 tr1 :
  p_defaultType p = REQUEST -> at_head p -> scratch_ok p -> a <> [] -> c <> [] ->
  blen (partial p) + blen (a ++ c) <= scratchBufferSize -> cut_ok a c ->
  Execute None a (p, tr) = Ok ((n, None), (p1, tr1)) -> in_head p1 ->
  match Execute None (a ++ c) (p, tr), Execute None c (p1, tr1) with
  | Ok ((m, err), (q, t)), Ok ((m', err'), (q', t')) =>
      err = err' /\ t = t' /\ (err = None -> m = blen a + m' /\ obs_eq q q')
  | Crash e, Crash f => e = f
  | _, _ => False
  end.
Proof.
  intros Ht Hp Hok Ha Hc Hfit Hcut E Hh1.
  assert (0 < blen a /\ 0 < blen c) as [Hla Hlc] by (destruct a, c; [done..|]; split; blens).
  destruct (enter_spec p Hp) as (Hh & Hpart & Hoke & Hte). rewrite Execute_None_head in E by done.
  pose proof (empty_loop_handles (S (length a)) a 0 (enter p) tr) as Hreq.
  destruct (empty_loop (S (length a)) a 0 (enter p, tr)) as [[[[n1 ok1] err1] [p2 tr2]]|] eqn:Ea; [|done].
  injection E as -> -> -> ->. destruct Hreq as [Hk Ht1]; [unfold is_request; congruence|]. cbn in Hk. subst ok1.
  assert (enter p1 = p1) as He1.
  { unfold enter. destruct Hh1 as [H | H]; rewrite H; by rewrite bool_decide_false. }
  rewrite !Execute_None_head; [| exact Ht1 | by right | done | done | done | rewrite blen_app; lia].
  rewrite He1.
  pose proof (cut_agree (S (length a)) a c (S (length (a ++ c))) (S (length c)) [] (enter p) tr n p1 tr1) as Hag.
  cbn [app] in Hag. change (blen (@nil byte)) with 0 in Hag. rewrite Z.add_0_l in Hag.
  specialize (Hag ltac:(lia) ltac:(lia) ltac:(lia) Hc (Hoke Hok) Hh).
  rewrite Hpart in Hag. specialize (Hag Hfit Hcut Ea Hh1). unfold agree in Hag.
  destruct (empty_loop _ (a ++ c) _ _) as [[[[m ok] err] [q t]]|],
    (empty_loop _ c _ _) as [[[[m' ok'] err'] [q' t']]|]; try done. tauto.
Qed.

Lemma Execute_cut_invariant_witness :
  let a := bs "GET / HT" in
  let c := bs "TP/1.1" ++ CRLF ++ bs "Host: x" ++ CRLF ++ CRLF in
  let p1 := fst (after None [a]) in
  Execute None a (New REQUEST, []) = Ok ((8, None), (p1, [])) /\
  match Execute None (a ++ c) (New REQUEST, []), Execute None c (p1, []) with
  | Ok ((m, err), (q, t)), Ok ((m', err'), (q', t')) =>
      err = err' /\ t = t' /\ (err = None -> m = blen a + m' /\ obs_eq q q')
  | Crash e, Crash f => e = f
  | _, _ => False
  end.
Proof.
  intros a c p1. assert (Execute None a (New REQUEST, []) = Ok ((8, None), (p1, []))) as E
    by (vm_compute; reflexivity).
  split; [exact E|]. apply (Execute_cut_invariant a c (New REQUEST) [] 8 p1 []).
  - vm_compute; reflexivity.
  - left; vm_compute; reflexivity.
  - split; vm_compute; [reflexivity | split; discriminate].
  - discriminate.
  - discriminate.
  - vm_compute; discriminate.
  - intros x y _ H. vm_compute in H. discriminate.
  - exact E.
  - left; vm_compute; reflexivity.
Defined.

(** ** Cuts that do matter *)

(** Bytes after the version make a request line invalid. *)
Lemma request_line_extended line r x :
  parseRequestLineBytes line = Ok (Some r) -> x <> [] ->
  parseRequestLineBytes (line ++ x) = Ok None.
Proof.
  intros H Hx. destruct (parseRequestLineBytes_shape line) as [(m & t & v & -> & Hm & Ht)|E]; [|congruence].
  rewrite parseRequestLineBytes_fields in H by done.
  replace ((m ++ SP :: t ++ SP :: v) ++ x) with (m ++ SP :: t ++ SP :: (v ++ x))
    by (rewrite <- app_assoc; cbn; by rewrite <- app_assoc).
  rewrite parseRequestLineBytes_fields by done. destruct (matchMethod m); [|done].
  assert (blen v = 8) as Hv.
  { unfold parseHTTPVersionToken in H. destruct (Z.eqb_spec (blen v) 8); [done|]. by cbn in H. }
  unfold parseHTTPVersionToken. destruct (Z.eqb_spec (blen (v ++ x)) 8) as [E|]; [|done].
  rewrite blen_app in E. destruct x; [done|]. blens.
Qed.

(** A request that arrives cut between the CR and the LF of its request line
    is refused: the first buffer is taken, and the second fails with [ErrReqMethod]
    whatever follows, although the two together are a request. *)
Theorem cut_inside_crlf_refused line r l rest p tr :
  p_defaultType p = REQUEST -> p_fastPhase p = fastPhaseIdle -> scratch_ok p -> partial p = [] ->
  parseRequestLineBytes line = Ok (Some r) -> crlf_free line -> crlf_free (LF :: l) ->
  blen line + blen l + 2 <= scratchBufferSize ->
  exists p1 p2,
    Execute None (line ++ [CR]) (p, tr) = Ok ((blen line + 1, None), (p1, tr)) /\
    Execute None (LF :: l ++ CRLF ++ rest) (p1, tr) = Ok ((0, Some ErrReqMethod), (p2, tr)).
Proof.
  intros Ht Hi Hok Hnil Hline Hf Hl Hfit.
  assert (at_head p) as Hp by (by left). destruct (enter_spec p Hp) as (_ & Hpart & Hoke & Hte).
  specialize (Hoke Hok). rewrite Hnil in Hpart.
  assert (p_fastPhase (enter p) = fastPhaseRequestLine) as Hph
    by (unfold enter; rewrite bool_decide_true by done; by destruct p).
  destruct (appendScratch_run (line ++ [CR]) (enter p) tr Hoke) as (p1 & E1 & Hp1 & Hpp & Hn1);
    [rewrite Hpart; pose proof (blen_nonneg l); blens|].
  assert (in_head p1) as Hh1 by (left; by rewrite (norm_phase _ _ Hn1)).
  assert (p_defaultType p1 = REQUEST) as Ht1.
  { apply (f_equal p_defaultType) in Hn1. destruct p1, (enter p); cbn in *. congruence. }
  assert (enter p1 = p1) as He1.
  { unfold enter. destruct Hh1 as [H | H]; rewrite H; by rewrite bool_decide_false. }
  destruct (withLine_run (LF :: l) p1 tr Hp1) as (p2 & Hp2 & Hn2 & R);
    [rewrite Hpp, Hpart; pose proof (blen_nonneg l); blens|].
  destruct (consumeFastRequestLine_weak (partial p1 ++ LF :: l) p2 p2 tr) as (e & p3 & _ & E3 & _); [done|].
  exists p1, p3. split.
  - rewrite Execute_None_head by (done || blens). change 0 with (blen (@nil byte)).
    change (line ++ [CR]) with ([] ++ line ++ [CR]) at 2.
    rewrite empty_loop_tail; [| | by destruct line].
    2:{ apply cut_ok_free; [done | auto with hop |]. by intros x y _ [=]. }
    rewrite (run_bind _ _ _ _ _ E1). cbn [app]. by rewrite blen_app.
  - rewrite Execute_None_head by (done || by right || (unfold CRLF; blens)). rewrite He1.
    change 0 with (blen (@nil byte)) at 1.
    change (LF :: l ++ CRLF ++ rest) with ([] ++ (LF :: l) ++ CRLF ++ rest) at 2.
    rewrite empty_loop_line, R by done. unfold head_line. rewrite run_gets.
    rewrite (norm_phase p2 p1 Hn2), (norm_phase _ _ Hn1), Hph.
    assert (consumeFastRequestLine (partial p1 ++ LF :: l) (p2, tr) = Ok (Some ErrReqMethod, (p2, tr))) as E4.
    { unfold consumeFastRequestLine. rewrite Hpp, Hpart. cbn [app]. rewrite <- app_assoc.
      by rewrite (request_line_extended line r). }
    rewrite E4 in E3. injection E3 as <- <-. by rewrite (run_bind _ _ _ _ _ E4).
Qed.

Lemma cut_inside_crlf_refused_witness :
  exists p1 p2,
    Execute None (bs "GET / HTTP/1.1" ++ [CR]) (New REQUEST, []) = Ok ((15, None), (p1, [])) /\
    Execute None (LF :: bs "Host: x" ++ CRLF ++ CRLF) (p1, []) = Ok ((0, Some ErrReqMethod), (p2, [])).
Proof.
  apply (cut_inside_crlf_refused (bs "GET / HTTP/1.1") (mkRequestLine GET (bs "/") 1 1) (bs "Host: x") CRLF).
  - vm_compute; reflexivity.
  - vm_compute; reflexivity.
  - split; vm_compute; [reflexivity | split; discriminate].
  - vm_compute; reflexivity.
  - vm_compute; reflexivity.
  - apply scanCRLFBytes_None. vm_compute; reflexivity.
  - apply scanCRLFBytes_None. vm_compute; reflexivity.
  - vm_compute; discriminate.
Defined.

(** Inside the data of a chunk of which [n] bytes are missing. *)
Definition in_chunk (n : Z) (p : Parser) : Prop :=
  p_defaultType p = REQUEST /\ p_fastPhase p = fastPhaseChunkedData /\ p_contentLength p = n /\
  p_lineScratchLen p = 0.

Lemma Execute_None_chunked b p tr :
  p_defaultType p = REQUEST -> 0 < blen b ->
  (p_fastPhase p = fastPhaseChunkedSize \/ p_fastPhase p = fastPhaseChunkedData) ->
  Execute None b (p, tr) = consumeFastChunked b (p, tr).
Proof.
  intros Ht Hb Hph. rewrite Execute_request by done. cbn [tryPaths].
  assert (tryFastSplitRequestEmpty None b (p, tr) = (r ← consumeFastChunked b; mret (handled r)) (p, tr)) as E.
  { unfold tryFastSplitRequestEmpty. rewrite run_gets, Ht, bool_decide_true by done.
    cbn [hasNoCallbacks negb orb]. rewrite (run_bind (enterSplit _ _) _ _ tt (p, tr)).
    2:{ unfold enterSplit. rewrite run_gets. by destruct Hph as [-> | ->]. }
    rewrite run_gets. by destruct Hph as [-> | ->]. }
  unfold mbind at 1, M_bind at 1. rewrite E. unfold mbind, M_bind.
  by destruct (consumeFastChunked b (p, tr)) as [[[n err] st]|].
Qed.

(** A chunked body whose chunk data ends exactly with a buffer is refused:
    the buffer is taken, and the next one, which starts with the line end of the
    chunk, fails with [ErrChunkSize] whatever follows it. *)
Theorem chunk_boundary_refused b rest p tr :
  0 < blen b < 2 ^ 31 -> in_chunk (blen b) p ->
  exists p1 p2,
    Execute None b (p, tr) = Ok ((blen b, None), (p1, tr)) /\
    Execute None (CRLF ++ rest) (p1, tr) = Ok ((0, Some ErrChunkSize), (p2, tr)).
Proof.
  intros Hb (Ht & Hph & Hn & Hl).
  assert (wrap32 (blen b) = blen b) as Hw by (apply wrap32_small; unfold int32_range; lia).
  set (p1 := set_lineScratch (copy_at (p_lineScratch p) 0 []) (set_fastPhase fastPhaseChunkedSize (set_contentLength 0 p))).
  exists p1, p1. split.
  - rewrite Execute_None_chunked by (auto || lia). unfold consumeFastChunked, consumeFastChunkedWithCallbacks.
    rewrite Nat.add_comm. cbn [Nat.add chunked_loop].
    destruct (Z.leb_spec (blen b) 0); [lia|]. rewrite run_gets. cbn [id on andb]. rewrite Hph.
    rewrite bool_decide_true by done. rewrite Hn, Z.sub_0_r, Hw. destruct (Z.ltb_spec (blen b) (blen b)); [lia|].
    unfold when, skip. rewrite (run_bind (mret tt) _ _ tt _ eq_refl). rewrite Hw, Z.sub_diag.
    change (wrap32 0) with 0. rewrite run_modify. rewrite Z.add_0_l. cbn [Z.eqb]. rewrite run_modify, Z.sub_diag.
    cbn [Z.ltb Z.compare]. replace (gslice_from b (blen b)) with (Ok (@nil byte)).
    2:{ symmetry. rewrite <- (app_nil_r b) at 1. by apply gslice_suffix. }
    rewrite run_lift. unfold p1. destruct p. cbn in Hl. subst. done.
  - rewrite Execute_None_chunked; [| by destruct p | unfold CRLF; blens | left; by destruct p].
    unfold consumeFastChunked, consumeFastChunkedWithCallbacks. rewrite Nat.add_comm.
    cbn [Nat.add chunked_loop]. destruct (Z.leb_spec (blen (CRLF ++ rest)) 0) as [Hz|_]; [unfold CRLF in Hz; blens|].
    rewrite run_gets. cbn [id]. replace (p_fastPhase p1) with fastPhaseChunkedSize by (by destruct p).
    rewrite bool_decide_false by done. rewrite (gslice_suffix [] (CRLF ++ rest)) by done.
    rewrite run_lift. change (scanCRLFBytes (CRLF ++ rest)) with (Some 0).
    assert (gslice (CRLF ++ rest) 0 (0 + 0) = Ok []) as Hs
      by (by apply (gslice_app [] [] (CRLF ++ rest))).
    cbv zeta iota. rewrite Hs. rewrite run_lift. unfold withLine. rewrite run_gets.
    replace (p_lineScratchLen p1) with 0 by (by destruct p). done.
Qed.

Lemma chunk_boundary_refused_witness :
  let p := fst (after None [bs "POST / HTTP/1.1" ++ CRLF ++ bs "Transfer-Encoding: chunked" ++ CRLF
                             ++ CRLF ++ bs "5" ++ CRLF]) in
  exists p1 p2,
    Execute None (bs "hello") (p, []) = Ok ((5, None), (p1, [])) /\
    Execute None (CRLF ++ bs "0" ++ CRLF ++ CRLF) (p1, []) = Ok ((0, Some ErrChunkSize), (p2, [])).
Proof.
  intros p. apply (chunk_boundary_refused (bs "hello") (bs "0" ++ CRLF ++ CRLF) p []).
  - vm_compute; split; [reflexivity | reflexivity].
  - vm_compute. split_and!; reflexivity.
Defined.
