(* ===== verification/Divergence.v ===== *)
(** * Where Execute does not do what it means to

    Behaviour of the engine that its callers would not expect, stated for all
    the inputs that show it where that is possible. *)

From S2P Require Import Prelude Scan Method Cursor StartLine Framing Chunked Message Parser.
From S2P Require Import FastPath FastPathMore SplitPath Execute FastSpec ExecuteSpec Streaming.

(** ** The chunked path never handles a buffer *)

(** The chunk loop with callbacks, in lock step with the one of the analysis. *)
Lemma chk_chunk_loop_sim fuel s b c p tr :
  fast_chunk_loop fuel c = Ok None ->
  exists tr', chk_chunk_loop fuel (Some s) b c (p, tr) = Ok (not_handled, (p, tr ++ tr')).
Proof.
  revert c tr. induction fuel as [|fuel IH]; intros c tr; [done|]. cbn [fast_chunk_loop chk_chunk_loop].
  destruct (parseChunkSizeLine c) as [[[size c1]|]|]; cbn [mbind res_bind]; [| |done].
  2:{ intros _. exists []. by rewrite app_nil_r, run_lift. }
  rewrite run_lift. destruct (size =? 0).
  - destruct (remaining c1 <? 2); [intros _; exists []; by rewrite app_nil_r|].
    destruct (peek c1) as [x|]; [|done]. cbn [mbind res_bind]. rewrite run_lift.
    destruct (negb _); [done|]. destruct (peek (advance 1 c1)) as [y|]; [|done].
    cbn [mbind res_bind]. rewrite run_lift. destruct (negb _); [done|].
    destruct (negb _); [intros _; exists []; by rewrite app_nil_r | done].
  - destruct (consumeChunkData c1 size) as [[[d c2]|]|]; cbn [mbind res_bind]; [| |done].
    2:{ intros _. exists []. by rewrite app_nil_r, run_lift. }
    rewrite run_lift. intros E. rewrite (run_emits _ _ _ _ _ (emits_ev _ _)).
    destruct (IH c2 (tr ++ ev (on Body (Some s) && (0 <? blen d)) (EvBody d (blen b))) E) as [tr' ->].
    eexists. by rewrite <- app_assoc.
Qed.

(** The same for the whole path, once the parser is known to be free. *)
Lemma chunked_declines s b p tr :
  (exists cap', analyzeFastRequestCaptured b None = Ok (None, None, cap')) ->
  exists p2 tr2, tryFastChunkedRequest (Some s) b (p, tr) = Ok (not_handled, (p2, tr ++ tr2)).
Proof.
  intros [cap' Ea]. unfold tryFastChunkedRequest. rewrite run_gets. cbn [id].
  assert (forall q t, exists p2 tr2, (mret not_handled : M fastResult) (q, t) = Ok (not_handled, (p2, t ++ tr2))) as Hd.
  { intros q t. exists q, []. by rewrite app_nil_r. }
  destruct (negb _); [apply Hd|]. destruct (_ || _ || _); [apply Hd|].
  rewrite analyzeFastRequestCaptured_unfold in Ea.
  destruct (parseRequestLine (newCursor b)) as [[line|]|]; [| |done]; rewrite run_lift; [|apply Hd].
  cbn [mbind res_bind] in Ea. destruct (scanCRLF (newCursor b)) as [le|]; [|apply Hd].
  set (fuel := S (length b)) in *. set (c := advance (le + 2) (newCursor b)) in *.
  set (meta0 := mkMeta _ _ _ _ _) in *. set (f0 := mkFlags _ _ _) in *. set (d0 := mkDeferred _ _).
  pose proof (fast_header_loop_sim fuel c [] meta0 f0 None) as Hf.
  pose proof (chk_header_loop_sim fuel c [] meta0 f0 d0) as Hk.
  destruct (header_loop fuel c [] meta0) as [[hs meta c1| |e]|].
  - destruct Hf as (hs1 & _ & _ & Hf). rewrite Hf in Ea. destruct Hk as (hs2 & _ & _ & Hk). rewrite Hk, run_lift.
    cbn [mbind res_bind] in Ea. destruct (m_hasTransferEncoding meta) eqn:Ete; [|apply Hd]. cbn [negb].
    unfold fast_body, decideBodyMode in Ea. rewrite Ete in Ea.
    destruct (fast_chunk_loop fuel c1) as [[[e|]|]|] eqn:Ec; cbn [mbind res_bind option_map] in Ea; try done.
    rewrite run_modify, !(run_emits _ _ _ _ _ (emits_ev _ _)).
    set (es := headers_events s (blen b) (df_headers (fold_left defer_header hs2 d0))).
    rewrite (run_emits _ _ (if df_on (fold_left defer_header hs2 d0) then es else [])).
    2:{ apply emits_when. intros q t. apply emit_headers_emits. }
    rewrite (run_emits _ _ _ _ _ (emits_ev _ _)).
    edestruct (chk_chunk_loop_sim fuel s b c1) as [tr' ->]; [done|].
    do 2 eexists. by rewrite <- !app_assoc.
  - rewrite Hk, run_lift. apply Hd.
  - destruct Hf as [cap2 Hf]. rewrite Hf in Ea. by cbn in Ea.
  - rewrite Hf in Ea. by cbn in Ea.
Qed.

(** The analysis does not depend on whether headers are captured. *)
Lemma analyze_capture b cap r err cap' :
  analyzeFastRequestCaptured b cap = Ok (r, err, cap') ->
  exists cap2, analyzeFastRequestCaptured b None = Ok (r, err, cap2).
Proof.
  rewrite !analyzeFastRequestCaptured_unfold.
  destruct (parseRequestLine (newCursor b)) as [[line|]|]; cbn [mbind res_bind]; [|by intros [= <- <- _]; eauto|done].
  destruct (scanCRLF (newCursor b)) as [le|]; [|by intros [= <- <- _]; eauto].
  set (fuel := S (length b)). set (c := advance (le + 2) (newCursor b)). set (meta0 := mkMeta _ _ _ _ _).
  set (f0 := mkFlags _ _ _). pose proof (fast_header_loop_sim fuel c [] meta0 f0 cap) as Hf.
  pose proof (fast_header_loop_sim fuel c [] meta0 f0 None) as Hk.
  destruct (header_loop fuel c [] meta0) as [[hs meta c1| |e]|].
  - destruct Hf as (hs1 & -> & _ & ->). destruct Hk as (hs2 & [= <-] & _ & ->). cbn [mbind res_bind].
    destruct (fast_body fuel meta c1) as [[o e]|]; [|done]. intros [= <- <- _]. eauto.
  - destruct Hf as [? ->], Hk as [? ->]. intros [= <- <- _]. eauto.
  - destruct Hf as [? ->], Hk as [? ->]. intros [= <- <- _]. eauto.
  - by rewrite Hf.
Qed.

(** [tryFastChunkedRequest] never handles a buffer that [tryFastRequest] has
    declined: tried next on the same buffer, it always declines too.  All it can
    add is callbacks, which the path after it makes again. *)
Theorem tryFastChunkedRequest_declines s b p tr p1 tr1 :
  p_defaultType p = REQUEST ->
  tryFastRequest (Some s) b (p, tr) = Ok (not_handled, (p1, tr1)) ->
  exists p2 tr2, tryFastChunkedRequest (Some s) b (p1, tr1) = Ok (not_handled, (p2, tr1 ++ tr2)).
Proof.
  intros Ht. unfold tryFastRequest. rewrite run_gets. cbn [id].
  destruct (p_messageStarted p || negb (blen (p_pending p) =? 0)) eqn:Ebusy.
  { intros [= -> ->]. exists p1, []. unfold tryFastChunkedRequest. rewrite run_gets. cbn [id].
    rewrite app_nil_r, Ebusy, Ht. by rewrite bool_decide_true. }
  rewrite Ht. cbn [inferMessageKind]. rewrite run_modify. 
  set (cap := if on HeaderField (Some s) || on HeaderValue (Some s) then Some (p_fastHeaders p, 0) else None).
  destruct (analyzeFastRequestCaptured b cap) as [[[r err] cap']|] eqn:Ea; [|done]. rewrite run_lift.
  intros E. apply chunked_declines. apply analyze_capture in Ea as [cap2 Ea]. exists cap2. rewrite Ea.
  assert (exists q, store_capture cap' (set_fastHeaderCount 0 p, tr) = Ok (tt, (q, tr))) as [q Eq].
  { destruct cap' as [[arr count]|]; by eexists. }
  rewrite (run_bind (store_capture cap') _ _ _ _ Eq) in E.
  destruct err as [e|]; [done|]. destruct r as [fr|]; [|done]. exfalso. rewrite run_modify in E.
  unfold mbind, M_bind in E. by destruct (emitFastRequest _ _ _ _) as [[? ?]|].
Qed.

(** An incomplete chunked request: the start of the message is reported by the
    chunked path (and then once more by the streaming path). *)
Lemma tryFastChunkedRequest_declines_witness :
  let b := bs "POST / HTTP/1.1" ++ CRLF ++ bs "Transfer-Encoding: chunked" ++ CRLF ++ CRLF
           ++ bs "5" ++ CRLF ++ bs "he" in
  let st := match tryFastRequest (Some all_callbacks) b (New REQUEST, []) with
            | Ok (_, st) => st | Crash _ => (New REQUEST, []) end in
  (exists p2 tr2, tryFastChunkedRequest (Some all_callbacks) b st = Ok (not_handled, (p2, tr2))) /\
  List.filter (fun e => match e with EvHeadersComplete _ => true | _ => false end)
    (snd (after (Some all_callbacks) [b])) = [EvHeadersComplete 52; EvHeadersComplete 47].
Proof.
  intros b st. split; [|vm_compute; reflexivity].
  refine (tryFastChunkedRequest_declines all_callbacks b (New REQUEST) [] (fst st) [] _ _);
    vm_compute; reflexivity.
Defined.

(** ** A body that looks like a request *)

Definition has_body_event (es : list Event) : bool :=
  existsb (fun e => match e with EvBody _ _ => true | _ => false end) es.

Lemma no_body_headers s at_ hs : has_body_event (headers_events s at_ hs) = false.
Proof.
  unfold has_body_event, headers_events. induction hs as [|h hs IH]; [done|]. cbn [map concat].
  rewrite existsb_app, IH, orb_false_r. unfold header_events.
  by destruct (HeaderField s), (HeaderValue s).
Qed.

(** When no MessageBegin callback is set, the parser does not know that it is
    inside a body: a buffer of body bytes that happens to be the text of a request
    without a body is parsed as a request of its own, and none of it reaches the
    body callback. *)
Theorem body_taken_as_request s b p msg tr :
  p_defaultType p = REQUEST -> p_fastPhase p = fastPhaseBody -> p_contentLength p = blen b ->
  p_messageStarted p = false -> p_pending p = [] -> length (p_fastHeaders p) = 64%nat ->
  MessageBegin s = false -> Body s = true ->
  message_text REQUEST b msg -> pm_mode msg = bodyModeNone ->
  exists p' es, Execute (Some s) b (p, tr) = Ok ((blen b, None), (p', tr ++ es)) /\
    has_body_event es = false /\ p_fastPhase p' = fastPhaseBody /\ p_Method p' = rl_Method (pm_request msg).
Proof.
  intros Ht Hph _ Hms Hpe Hfh Hmb Hbody Htext Hmode.
  assert (hasNoCallbacks (Some s) = false) as Hcb.
  { cbn. rewrite Hbody, Hmb. cbn. by rewrite !andb_false_r. }
  pose proof (message_text_nonempty _ _ _ Htext) as Hlen. pose proof Htext as Hp%parse_complete.
  destruct (tryFastRequest_run s b p msg tr) as (pieces & p' & H1 & H2 & H3 & H4 & E);
    try done; [by rewrite Ht|].
  exists p', (request_events s (blen b) msg pieces). split_and!.
  - rewrite Execute_request by done.
    erewrite tryPaths_skip by (by apply tryFastSplitRequestEmpty_callbacks). by erewrite tryPaths_take.
  - assert (pm_body msg = []) as Hnil.
    { destruct Htext as (line & lines & enc & meta & _ & _ & _ & _ & _ & _ & Hm & Hb). unfold body_text in Hb.
      rewrite <- Hm, Hmode in Hb. tauto. }
    rewrite H2 by congruence. rewrite Hnil. unfold request_events, body_events. cbn [map concat].
    unfold has_body_event in *. change (0 <? blen (@nil byte)) with false. rewrite andb_false_r.
    rewrite !existsb_app. fold (has_body_event (headers_events s (blen b) (pm_headers msg))).
    rewrite no_body_headers. unfold ev. by destruct (MessageBegin s), (URL s && _), (HeadersComplete s), (MessageComplete s).
  - by destruct H4 as (_ & -> & _).
  - rewrite <- (rs_line _ _ H3). done.
Qed.

Lemma body_taken_as_request_witness :
  let s := mkSetting false false false false false false true false in
  let p := fst (after (Some s) [bs "POST / HTTP/1.1" ++ CRLF ++ bs "Content-Length: 18" ++ CRLF ++ CRLF]) in
  exists p' es, Execute (Some s) (bs "GET / HTTP/1.1" ++ CRLF ++ CRLF) (p, []) = Ok ((18, None), (p', es)) /\
    has_body_event es = false /\ p_fastPhase p' = fastPhaseBody /\ p_Method p' = GET.
Proof.
  intros s p. set (b := bs "GET / HTTP/1.1" ++ CRLF ++ CRLF).
  refine (body_taken_as_request s b p (mkMessage REQUEST (mkRequestLine GET (bs "/") 1 1) zero_responseLine
    [] [] bodyModeNone (mkMeta REQUEST 0 false 0 false)) [] _ _ _ _ _ _ _ _ _ _).
  1-8: vm_compute; reflexivity.
  - apply parse_text. vm_compute. reflexivity.
  - reflexivity.
Defined.

(** ** Chunk sizes that do not fit *)

(** One iteration of the chunk loop on a size line. *)
Lemma chunked_loop_size fuel pre line rest n p tr :
  p_fastPhase p = fastPhaseChunkedSize -> p_lineScratchLen p = 0 ->
  crlf_free line -> parseChunkSizeLineBytes line = Ok (Some n) -> n <> 0 ->
  let b := pre ++ line ++ CRLF ++ rest in
  chunked_loop (S fuel) None b (blen pre) (p, tr) =
  chunked_loop fuel None b (blen pre + blen line + 2)
    (assigns [set_lineScratchLen 0; set_contentLength n; set_fastPhase fastPhaseChunkedData] p, tr).
Proof.
  intros Hph Hl Hf Hn Hz b. cbn [chunked_loop].
  destruct (Z.leb_spec (blen b) (blen pre)) as [H|_]; [unfold b, CRLF in H; blens|].
  rewrite run_gets. cbn [id]. rewrite Hph, bool_decide_false by done.
  unfold b. rewrite (gslice_suffix pre (line ++ CRLF ++ rest)) by done. rewrite run_lift.
  rewrite scanCRLFBytes_app by done. rewrite (gslice_app pre line (CRLF ++ rest)) by done. rewrite run_lift.
  unfold withLine. rewrite run_gets, Hl. cbn [Z.eqb]. rewrite Hn, run_lift, run_modify.
  destruct (Z.eqb_spec n 0); [done|]. rewrite run_updates. done.
Qed.

(** C32. A chunk size that is far enough below zero as an [int32] makes the
    streaming path panic: for a request parser without callbacks that expects a
    chunk size, with the size line whole in the buffer and at least one byte
    after it, when the size plus the length of the line and its line end is below
    zero, the position after the chunk is before the start of the buffer. (A size
    just below zero, such as -1, gives [ErrChunkSize] instead.) *)
Theorem chunk_size_overflow_panics line n x rest p tr :
  p_defaultType p = REQUEST -> p_fastPhase p = fastPhaseChunkedSize -> p_lineScratchLen p = 0 ->
  crlf_free line -> parseChunkSizeLineBytes line = Ok (Some n) -> n + blen line + 2 < 0 ->
  blen (x :: rest) < 2 ^ 31 ->
  Execute None (line ++ CRLF ++ x :: rest) (p, tr) = Crash SliceBounds.
Proof.
  intros Ht Hph Hl Hf Hn Hneg Hlen. set (b := line ++ CRLF ++ x :: rest).
  pose proof (blen_nonneg line). assert (0 < blen b) as Hb by (unfold b, CRLF; blens).
  assert (wrap32 n = n) as Hw.
  { rewrite parseChunkSizeLineBytes_spec in Hn. cbv zeta in Hn. case_match; [|done]. injection Hn as <-.
    apply wrap32_idem. }
  rewrite Execute_None_chunked by auto. unfold consumeFastChunked, consumeFastChunkedWithCallbacks.
  rewrite Nat.add_comm. cbn [Nat.add]. rewrite (chunked_loop_size _ [] line (x :: rest) n) by (done || lia).
  fold b. change ([] ++ b) with b. change (blen [] + blen line + 2) with (0 + blen line + 2). rewrite Z.add_0_l.
  set (q := assigns _ p). cbn [chunked_loop].
  assert (blen b = blen line + 2 + blen (x :: rest)) as Hbl by (unfold b, CRLF; blens).
  rewrite blen_cons in *. pose proof (blen_nonneg rest).
  destruct (Z.leb_spec (blen b) (blen line + 2)); [lia|]. rewrite run_gets. cbn [id].
  replace (p_fastPhase q) with fastPhaseChunkedData by (by destruct p). rewrite bool_decide_true by done.
  replace (p_contentLength q) with n by (by destruct p).
  rewrite (wrap32_small (blen b - (blen line + 2))) by (unfold int32_range; lia).
  destruct (Z.ltb_spec n (blen b - (blen line + 2))); [|lia].
  unfold when, skip. cbn [on andb]. rewrite (run_bind (mret tt) _ _ tt _ eq_refl), run_modify.
  rewrite Hw, Z.sub_diag. change (wrap32 0 =? 0) with true. cbv iota. rewrite run_modify.
  destruct (Z.ltb_spec (blen b - (blen line + 2 + n)) 2); [lia|].
  assert (gindex b (blen line + 2 + n) = Crash SliceBounds) as ->; [|done].
  unfold gindex. by destruct (Z.leb_spec 0 (blen line + 2 + n)); [lia|].
Qed.

Lemma chunk_size_overflow_panics_witness :
  let p := fst (after None [bs "POST / HTTP/1.1" ++ CRLF ++ bs "Transfer-Encoding: chunked" ++ CRLF ++ CRLF]) in
  Execute None (bs "80000000" ++ CRLF ++ bs "x") (p, []) = Crash SliceBounds.
Proof.
  intros p. apply (chunk_size_overflow_panics (bs "80000000") (- 2 ^ 31) "x"%byte [] p []).
  4: apply scanCRLFBytes_None.
  all: vm_compute; reflexivity.
Defined.

(** The size -1 does not reach below the start of the buffer. *)
Example chunk_size_minus_one :
  let p := fst (after None [bs "POST / HTTP/1.1" ++ CRLF ++ bs "Transfer-Encoding: chunked" ++ CRLF ++ CRLF]) in
  exists s, Execute None (bs "ffffffff" ++ CRLF ++ bs "abcd" ++ CRLF) (p, []) = Ok ((0, Some ErrChunkSize), s).
Proof. eexists. vm_compute. reflexivity. Qed.

(** ** Responses *)

(** A response with a body that arrives in one buffer is reported twice by a
    response parser: the streaming path reports the status and the headers, gives
    up at the end of the headers, and the one-buffer path reports them again. *)
Theorem response_reported_twice :
  let b := bs "HTTP/1.1 200 OK" ++ CRLF ++ bs "Content-Length: 2" ++ CRLF ++ CRLF ++ bs "ok" in
  exists p', Execute (Some all_callbacks) b (New RESPONSE, []) =
    Ok ((40, None), (p',
      [EvMessageBegin 0; EvStatus (bs "OK") 17; EvHeaderField (bs "Content-Length") 36;
       EvHeaderValue (bs "2") 36;
       EvMessageBegin 0; EvStatus (bs "OK") 40; EvHeaderField (bs "Content-Length") 40;
       EvHeaderValue (bs "2") 40; EvHeadersComplete 40; EvBody (bs "ok") 40; EvMessageComplete 40])).
Proof. eexists. vm_compute. reflexivity. Qed.
