(* ===== verification/ResponseStream.v ===== *)
(** * Responses in several buffers (internal/parser/engine.go)

    The streaming path for responses handles those that have no body by their
    status.  The header block may arrive cut anywhere but inside a line end: the
    callbacks are those of the response, once each and in order, whatever the cuts.
    What it does not do is make the parser ready for the next response. *)

From S2P Require Import Prelude Scan Strconv Method Cursor StartLine Framing Chunked Message Parser.
From S2P Require Import FastPath FastPathMore SplitPath Execute FastSpec ExecuteSpec Streaming.

(** A callback without the position it is told. *)
Definition erase (e : Event) : Event :=
  match e with
  | EvMessageBegin _ => EvMessageBegin 0
  | EvURL b _ => EvURL b 0
  | EvStatus b _ => EvStatus b 0
  | EvHeaderField b _ => EvHeaderField b 0
  | EvHeaderValue b _ => EvHeaderValue b 0
  | EvHeadersComplete _ => EvHeadersComplete 0
  | EvBody b _ => EvBody b 0
  | EvMessageComplete _ => EvMessageComplete 0
  end.

Lemma erase_ev c e : map erase (ev c e) = ev c (erase e).
Proof. by destruct c. Qed.

Lemma erase_header s n h : map erase (header_events s n h) = header_events s 0 h.
Proof. unfold header_events. by rewrite map_app, !erase_ev. Qed.

(** The callbacks of a response without a body. *)
Definition response_events (s : Setting) (r : responseLine) (hs : list headerLine) : list Event :=
  ev (MessageBegin s) (EvMessageBegin 0) ++ ev (Status s && (0 <? blen (sl_Reason r))) (EvStatus (sl_Reason r) 0) ++
  headers_events s 0 hs ++ ev (HeadersComplete s) (EvHeadersComplete 0) ++ ev (MessageComplete s) (EvMessageComplete 0).

Section Loop.
Context (s : Setting).

(** ** One line of the loop *)

Definition response_line (line : bytes) (next len : Z) (go stay : M fastResult) : M fastResult :=
  phase ← gets p_fastPhase;
  match phase with
  | fastPhaseResponseLine =>
      parsed ← lift (parseResponseLineBytes line);
      match parsed with
      | None => mret (0, true, Some ErrStatusLineHTTP)
      | Some parsed =>
          updates [set_Method NoMethod; set_Major (sl_Major parsed); set_Minor (sl_Minor parsed);
                   set_StatusCode (sl_StatusCode parsed)];;
          emitStatusLine s parsed next;;
          updates [set_lineScratchLen 0; set_fastPhase fastPhaseHeaders];;
          go
      end
  | fastPhaseHeaders =>
      if blen line =? 0 then
        code ← gets p_StatusCode;
        if negb (responseStatusHasNoBody code) then mret not_handled
        else
          when (HeadersComplete s) (emit (EvHeadersComplete next));;
          modify (set_phase (bs "messageDone"));;
          complete (Some s) next;;
          updates [set_fastPhase fastPhaseIdle; set_lineScratchLen 0];;
          mret (len, true, None)
      else
        (h ← lift (parseHeaderLineBytes line);
         match h with None => skip | Some h => emit_header s h next end);;
        modify (set_lineScratchLen 0);;
        go
  | _ => stay
  end.

Lemma response_loop_line fuel pre l rest st :
  crlf_free l -> let b := pre ++ l ++ CRLF ++ rest in
  response_loop (S fuel) (Some s) b (blen pre) st =
    withLine (fun e => (0, true, Some e)) l (fun line =>
      response_line line (blen pre + blen l + 2) (blen b)
        (response_loop fuel (Some s) b (blen pre + blen l + 2)) (response_loop fuel (Some s) b (blen pre))) st.
Proof.
  intros Hl b. cbn [response_loop].
  destruct (Z.leb_spec (blen b) (blen pre)) as [H|_]; [unfold b, CRLF in H; blens|].
  rewrite (gslice_suffix pre (l ++ CRLF ++ rest)) by done.
  rewrite run_lift. rewrite scanCRLFBytes_app by done.
  rewrite (gslice_app pre l (CRLF ++ rest)) by done.
  rewrite run_lift. apply withLine_ext. intros line st'. done.
Qed.

Lemma response_loop_end fuel b st : response_loop (S fuel) (Some s) b (blen b) st = Ok ((blen b, true, None), st).
Proof. cbn [response_loop]. by destruct (Z.leb_spec (blen b) (blen b)); [|lia]. Qed.

(** ** The header block *)

(** Between buffers: [q] is the start of a header line that has arrived. *)
Record in_headers (code : Z) (q : bytes) (p : Parser) : Prop := {
  ih_scratch : scratch_ok p;
  ih_partial : partial p = q;
  ih_type : p_defaultType p = RESPONSE;
  ih_phase : p_fastPhase p = fastPhaseHeaders;
  ih_code : p_StatusCode p = code }.

Lemma in_headers_norm code q p p' :
  in_headers code q p -> scratch_ok p' -> norm p' = norm p -> in_headers code (partial p') p'.
Proof.
  intros [H1 H2 H3 H4 H5] Hok Hn. constructor; [done | done | | |].
  - rewrite <- H3. apply (f_equal p_defaultType) in Hn. by destruct p, p'.
  - rewrite <- H4. by apply norm_phase.
  - rewrite <- H5. apply (f_equal p_StatusCode) in Hn. by destruct p, p'.
Qed.

Lemma in_headers_clear code q p : in_headers code q p -> in_headers code [] (set_lineScratchLen 0 p).
Proof.
  intros [H1 H2 H3 H4 H5]. destruct (scratch_ok_clear p H1) as [C1 C2]. by constructor; [done | done | destruct p..].
Qed.

(** A response parser between messages, with what it remembers of earlier ones. *)
Record idle (started : bool) (off : Z) (p : Parser) : Prop := {
  id_scratch : scratch_ok p;
  id_partial : p_lineScratchLen p = 0;
  id_type : p_defaultType p = RESPONSE;
  id_phase : p_fastPhase p = fastPhaseIdle;
  id_started : p_messageStarted p = started;
  id_offset : p_statusOffset p = off }.

(** A header line, of which [q] came before; it ends with [l]. *)
Lemma header_line_run code q l h fuel pre rest p tr :
  in_headers code q p -> crlf_free l -> blen (q ++ l) <= scratchBufferSize -> q ++ l <> [] ->
  parseHeaderLineBytes (q ++ l) = Ok (Some h) ->
  let b := pre ++ l ++ CRLF ++ rest in
  exists p', in_headers code [] p' /\ p_messageStarted p' = p_messageStarted p /\ p_statusOffset p' = p_statusOffset p /\
    response_loop (S fuel) (Some s) b (blen pre) (p, tr) =
      response_loop fuel (Some s) b (blen (pre ++ l ++ CRLF)) (p', tr ++ header_events s (blen pre + blen l + 2) h).
Proof.
  intros Hp Hl Hfit Hne Hh b. pose proof Hp as [Hok Hq _ _ _].
  destruct (withLine_run l p tr Hok) as (p1 & Hok1 & Hn1 & Hrun); [by rewrite Hq, <- blen_app|].
  pose proof (in_headers_norm code q p p1 Hp Hok1 Hn1) as Hp1.
  exists (set_lineScratchLen 0 p1). split; [by eapply in_headers_clear|].
  split; [apply (f_equal p_messageStarted) in Hn1; by destruct p, p1|].
  split; [apply (f_equal p_statusOffset) in Hn1; by destruct p, p1|].
  unfold b. rewrite response_loop_line by done. rewrite Hrun, Hq. unfold response_line.
  rewrite run_gets, (ih_phase _ _ _ Hp1). destruct (Z.eqb_spec (blen (q ++ l)) 0) as [E|_]; [by apply blen_zero in E|].
  rewrite Hh. rewrite (run_emits _ _ (header_events s (blen pre + blen l + 2) h)).
  2:{ apply (emits_lift _ (Some h)); [done | apply emit_header_emits]. }
  rewrite run_modify. by replace (blen (pre ++ l ++ CRLF)) with (blen pre + blen l + 2) by (unfold CRLF; blens).
Qed.

(** The empty line. *)
Lemma blank_line_run code fuel pre p tr :
  in_headers code [] p -> responseStatusHasNoBody code = true ->
  let b := pre ++ CRLF in
  exists p' es, idle (p_messageStarted p) (p_statusOffset p) p' /\ p_messageCompleteCalled p' = true /\ map erase es = ev (HeadersComplete s) (EvHeadersComplete 0) ++ ev (MessageComplete s) (EvMessageComplete 0) /\
    response_loop (S fuel) (Some s) b (blen pre) (p, tr) = Ok ((blen b, true, None), (p', tr ++ es)).
Proof.
  intros Hp Hc b. pose proof Hp as [Hok Hq _ _ _].
  assert (b = pre ++ [] ++ CRLF ++ []) as -> by (by rewrite !app_nil_r).
  rewrite response_loop_line by apply crlf_free_nil. destruct (withLine_run [] p tr Hok) as (p1 & Hok1 & Hn1 & Hrun).
  { rewrite Hq. by vm_compute. }
  pose proof (in_headers_norm code [] p p1 Hp Hok1 Hn1) as [_ _ Ht1 Hf1 Hc1].
  assert (p_messageStarted p1 = p_messageStarted p /\ p_statusOffset p1 = p_statusOffset p) as [Hm Ho].
  { split; [apply (f_equal p_messageStarted) in Hn1 | apply (f_equal p_statusOffset) in Hn1]; by destruct p, p1. }
  rewrite Hrun, Hq. unfold response_line. rewrite run_gets, Hf1. change (blen ([] ++ [] : bytes) =? 0) with true. cbv iota.
  rewrite run_gets, Hc1, Hc. cbn [negb]. rewrite (run_emits _ _ _ _ _ (emits_ev _ _)), run_modify.
  assert (forall (k : M fastResult) n q t, (complete (Some s) n;; k) (q, t) =
    k (set_messageCompleteCalled true q, t ++ ev (MessageComplete s) (EvMessageComplete n))) as Hcomp.
  { intros k n q t. unfold complete, on. cbn. destruct (MessageComplete s); cbn; unfold mbind, M_bind; cbn; [done|]. by rewrite app_nil_r. }
  rewrite Hcomp, run_updates. eexists _, _. split; [|split; [|split; [|rewrite <- app_assoc; reflexivity]]].
  - destruct (scratch_ok_clear p1 Hok1) as [C1 _]. destruct p1. cbn in *. by constructor.
  - by destruct p1.
  - by rewrite map_app, !erase_ev.
Qed.

(** ** Any cuts *)

Definition lines_text (ls : list bytes) : bytes := concat (map (fun l => l ++ CRLF) ls).

(** A header line that fits the line buffer. *)
Definition good_line (l : bytes) (h : headerLine) : Prop :=
  l <> [] /\ crlf_free l /\ blen l <= scratchBufferSize /\ parseHeaderLineBytes l = Ok (Some h).

(** After [q] of the first of the lines [ls] comes [more], to the end of the block. *)
Definition to_come (q more : bytes) (ls : list bytes) : Prop :=
  match ls with
  | [] => q = [] /\ more = CRLF
  | l :: ls' => exists l', l = q ++ l' /\ more = l' ++ CRLF ++ lines_text ls' ++ CRLF
  end.

Lemma to_come_start ls : to_come [] (lines_text ls ++ CRLF) ls.
Proof. destruct ls as [|l ls]; [done|]. exists l. split; [done|]. unfold lines_text. cbn. by rewrite <- !app_assoc. Qed.

(** No cut inside a line end. *)
Definition cut_after (b : bytes) : Prop := forall x, b <> x ++ [CR].

Lemma cut_after_tail x y : cut_after (x ++ y) -> cut_after y.
Proof. intros H z ->. apply (H (x ++ z)). by rewrite <- app_assoc. Qed.

Lemma crlf_free_mid x y z : crlf_free (x ++ y ++ z) -> crlf_free y.
Proof. intros H a b ->. apply (H (x ++ a) (b ++ z)). by rewrite <- !app_assoc. Qed.

(** The part of a line that ends a buffer. *)
Lemma header_part_run code q t fuel pre p tr :
  in_headers code q p -> crlf_free t -> t <> [] -> blen (q ++ t) <= scratchBufferSize ->
  exists p', in_headers code (q ++ t) p' /\ p_messageStarted p' = p_messageStarted p /\ p_statusOffset p' = p_statusOffset p /\
    response_loop (S fuel) (Some s) (pre ++ t) (blen pre) (p, tr) = Ok ((blen (pre ++ t), true, None), (p', tr)).
Proof.
  intros Hp Ht Hne Hfit. pose proof Hp as [Hok Hq _ _ _].
  destruct (appendScratch_run t p tr Hok) as (p1 & E & Hok1 & Hq1 & Hn1); [by rewrite Hq, <- blen_app|].
  pose proof (in_headers_norm code q p p1 Hp Hok1 Hn1) as Hp1. rewrite Hq1, Hq in Hp1. exists p1.
  split; [done|]. split; [apply (f_equal p_messageStarted) in Hn1; by destruct p, p1|].
  split; [apply (f_equal p_statusOffset) in Hn1; by destruct p, p1|].
  cbn [response_loop]. destruct (Z.leb_spec (blen (pre ++ t)) (blen pre)) as [H|_].
  { rewrite blen_app in H. destruct t; [done|]. blens. }
  rewrite gslice_suffix by done. rewrite run_lift, (proj2 (scanCRLFBytes_None t)) by done.
  rewrite (run_bind _ _ _ _ _ E), run_gets, (ih_phase _ _ _ Hp1). rewrite bool_decide_false by done. done.
Qed.

Definition completes : list Event := ev (HeadersComplete s) (EvHeadersComplete 0) ++ ev (MessageComplete s) (EvMessageComplete 0).

Lemma headers_events_cons h hs : headers_events s 0 (h :: hs) = header_events s 0 h ++ headers_events s 0 hs.
Proof. done. Qed.

(** One buffer of the header block. *)
Lemma headers_buffer code ls hs fuel pre t more q p tr :
  responseStatusHasNoBody code = true -> in_headers code q p -> Forall2 good_line ls hs -> to_come q (t ++ more) ls ->
  cut_after t -> (length t < fuel)%nat ->
  exists p' es, response_loop fuel (Some s) (pre ++ t) (blen pre) (p, tr) = Ok ((blen (pre ++ t), true, None), (p', tr ++ es)) /\
    (more = [] /\ idle (p_messageStarted p) (p_statusOffset p) p' /\ p_messageCompleteCalled p' = true /\
       map erase es = headers_events s 0 hs ++ completes \/
     exists q' ls' hs0 hs', hs = hs0 ++ hs' /\ in_headers code q' p' /\ p_messageStarted p' = p_messageStarted p /\
       p_statusOffset p' = p_statusOffset p /\ Forall2 good_line ls' hs' /\ to_come q' more ls' /\ map erase es = headers_events s 0 hs0).
Proof.
  intros Hc Hp Hls. revert fuel pre t q p tr Hp. induction Hls as [|l h ls hs (Hne & Hfree & Hfit & Hh) Hls IH]; intros fuel pre t q p tr Hp Hto Hcut Hf.
  all: destruct fuel as [|fuel]; [lia|].
  all: destruct t as [|x t]; [rewrite app_nil_r, response_loop_end; exists p, []; rewrite app_nil_r; split; [done|];
    right; eexists q, _, [], _; split_and!; [reflexivity | exact Hp | done | done | by constructor | exact Hto | done]|].
  - destruct Hto as [-> Hto]. injection Hto as -> Hto. destruct t as [|y t]; [by destruct (Hcut [])|].
    injection Hto as -> Hto. apply app_eq_nil in Hto as [-> ->].
    destruct (blank_line_run code fuel pre p tr Hp Hc) as (p' & es & H1 & H2 & H3 & E). exists p', es. split; [exact E|]. by left.
  - destruct Hto as (l' & -> & Hto). set (t0 := x :: t) in *.
    assert ((exists l2, l' = t0 ++ l2 /\ more = l2 ++ CRLF ++ lines_text ls ++ CRLF) \/
      (exists t', t0 = l' ++ CRLF ++ t' /\ t' ++ more = lines_text ls ++ CRLF)) as [(l2 & -> & ->)|(t' & Et & Ht')].
    { apply app_eq_app in Hto as [r [[E1 E2]|[E1 E2]]]; [|left; by exists r].
      destruct r as [|c r]; [left; exists []; rewrite app_nil_r in *; by rewrite E1|]. injection E2 as <- E2.
      destruct r as [|d r]; [by destruct (Hcut l')|]. injection E2 as <- E2. right. exists r. by rewrite E1. }
    + destruct (header_part_run code q t0 fuel pre p tr Hp) as (p' & H1 & H2 & H3 & E); [by eapply crlf_free_mid | done | rewrite app_assoc, blen_app in Hfit; pose proof (blen_nonneg l2); lia|].
      exists p', []. rewrite app_nil_r. split; [exact E|]. right. exists (q ++ t0), ((q ++ t0 ++ l2) :: ls), [], (h :: hs).
      split_and!; try done; [by constructor; [split_and!|]|]. exists l2. by rewrite app_assoc.
    + destruct (header_line_run code q l' h fuel pre t' p tr Hp) as (p1 & Hp1 & Hm1 & Ho1 & E); [| done.. |].
      { by eapply (crlf_free_mid q l' []); rewrite app_nil_r. }
      rewrite Et in Hcut, Hf |- *. rewrite E. replace (pre ++ l' ++ CRLF ++ t') with ((pre ++ l' ++ CRLF) ++ t') by (by rewrite <- !app_assoc).
      destruct (IH fuel (pre ++ l' ++ CRLF) t' [] p1 (tr ++ header_events s (blen pre + blen l' + 2) h) Hp1) as (p' & es & E' & H).
      { rewrite Ht'. apply to_come_start. }
      { apply (cut_after_tail (l' ++ CRLF)). by rewrite <- app_assoc. }
      { rewrite !length_app in Hf. cbn in Hf. lia. }
      rewrite Hm1, Ho1 in H. exists p', (header_events s (blen pre + blen l' + 2) h ++ es). rewrite (app_assoc tr). split; [exact E'|].
      destruct H as [(H1 & H2 & H3 & H4)|(q' & ls' & hs0 & hs' & -> & H1 & H2 & H3 & H4 & H5 & H6)]; [left|right].
      * split_and!; [done | done | done|]. by rewrite map_app, erase_header, H4, headers_events_cons, app_assoc.
      * exists q', ls', (h :: hs0), hs'. split_and!; try done. by rewrite map_app, erase_header, H6, headers_events_cons.
Qed.

(** ** Buffer after buffer *)

Lemma Execute_response b p tr n err st' :
  p_defaultType p = RESPONSE -> b <> [] -> tryFastSplitResponse (Some s) b (p, tr) = Ok ((n, true, err), st') ->
  Execute (Some s) b (p, tr) = Ok ((n, err), st').
Proof.
  intros Ht Hb E. unfold Execute, executeClean. destruct (Z.eqb_spec (blen b) 0) as [Hz|_]; [by apply blen_zero in Hz|].
  rewrite run_gets, Ht. rewrite bool_decide_false by done. by apply tryPaths_take.
Qed.

Lemma split_response_headers code q b p tr :
  in_headers code q p -> tryFastSplitResponse (Some s) b (p, tr) = response_loop (S (length b)) (Some s) b 0 (p, tr).
Proof.
  intros [_ _ Ht Hf _]. unfold tryFastSplitResponse. rewrite run_gets, Ht. rewrite bool_decide_true by done. cbn [negb].
  unfold enterSplit. rewrite (run_bind _ _ _ tt (p, tr)); [done|]. rewrite run_gets, Hf. by rewrite bool_decide_false.
Qed.

Lemma headers_feed code bufs ls hs q p tr :
  responseStatusHasNoBody code = true -> in_headers code q p -> Forall2 good_line ls hs -> to_come q (concat bufs) ls ->
  Forall cut_after bufs ->
  exists p' es, feed (Some s) bufs (p, tr) = Ok ((blen (concat bufs), None), (p', tr ++ es)) /\
    idle (p_messageStarted p) (p_statusOffset p) p' /\ p_messageCompleteCalled p' = true /\
    map erase es = headers_events s 0 hs ++ completes.
Proof.
  intros Hc Hp Hls Hto Hcut. revert ls hs q p tr Hp Hls Hto. induction Hcut as [|b bufs Hb Hcut IH]; intros ls hs q p tr Hp Hls Hto.
  { exfalso. cbn in Hto. destruct ls as [|l ls]; [by destruct Hto|]. destruct Hto as (l' & _ & Hto). by destruct l'. }
  cbn [concat feed]. destruct (decide (b = [])) as [->|Hne].
  { rewrite (run_bind _ _ _ _ _ (Execute_empty _ _)). destruct (IH ls hs q p tr Hp Hls Hto) as (p' & es & E & H).
    rewrite (run_bind _ _ _ _ _ E). by exists p', es. }
  destruct (headers_buffer code ls hs (S (length b)) [] b (concat bufs) q p tr Hc Hp Hls Hto Hb) as (p1 & es & E & H); [lia|].
  pose proof (split_response_headers code q b p tr Hp) as Es. cbn [app] in E. change (blen (@nil byte)) with 0 in E.
  rewrite E in Es.
  rewrite (run_bind _ _ _ _ _ (Execute_response b p tr _ _ _ (ih_type _ _ _ Hp) Hne Es)). cbn [app].
  destruct H as [(Hm & Hi & Hdone & He)|(q' & ls' & hs0 & hs' & -> & Hp1 & Hm1 & Ho1 & Hls' & Hto' & He)].
  - rewrite (run_bind _ _ _ _ _ (feed_empty (Some s) bufs _ Hm)), Hm. exists p1, es. rewrite app_nil_r, Z.add_0_r. by split_and!.
  - destruct (IH ls' hs' q' p1 (tr ++ es) Hp1 Hls' Hto') as (p' & es' & E' & Hi & Hdone & He').
    rewrite (run_bind _ _ _ _ _ E'). exists p', (es ++ es'). rewrite blen_app, <- app_assoc, <- Hm1, <- Ho1. split_and!; try done.
    rewrite map_app, He, He'. unfold headers_events. by rewrite map_app, concat_app, app_assoc.
Qed.

(** ** The status line *)

(** The callbacks of a status line, on a parser that remembers an earlier message. *)
Definition status_events (started : bool) (off : Z) (reason : bytes) (n : Z) : list Event :=
  ev (MessageBegin s && negb started) (EvMessageBegin 0) ++
  ev (Status s && (off <? blen reason)) (EvStatus (drop (Z.to_nat off) reason) n).

(** What the parser remembers after them. *)
Definition status_started (started : bool) : bool := started || MessageBegin s.
Definition status_offset (off : Z) (reason : bytes) : Z := if Status s then Z.max off (blen reason) else off.

Definition after_status (reason : bytes) (p : Parser) : Parser :=
  let p1 := if MessageBegin s && negb (p_messageStarted p) then set_messageStarted true p else p in
  if Status s && (p_statusOffset p <? blen reason) then set_statusOffset (blen reason) p1 else p1.

Lemma after_status_started reason p : p_messageStarted (after_status reason p) = status_started (p_messageStarted p).
Proof. unfold after_status, status_started. destruct p as [], p_messageStarted, (MessageBegin s), (_ && _); done. Qed.

Lemma after_status_offset reason p : p_statusOffset (after_status reason p) = status_offset (p_statusOffset p) reason.
Proof.
  unfold after_status, status_offset. destruct p. cbn.
  destruct (Status s); cbn; destruct (Z.ltb_spec p_statusOffset (blen reason)), (_ && _); cbn; lia.
Qed.

Lemma emitStatusLine_run r n p tr : 0 <= p_statusOffset p ->
  emitStatusLine s r n (p, tr) =
    Ok (tt, (after_status (sl_Reason r) p, tr ++ status_events (p_messageStarted p) (p_statusOffset p) (sl_Reason r) n)).
Proof.
  intros Ho. unfold emitStatusLine, status_events, after_status. rewrite run_gets.
  set (p1 := if MessageBegin s && negb (p_messageStarted p) then set_messageStarted true p else p).
  rewrite (run_bind _ _ _ tt (p1, tr ++ ev (MessageBegin s && negb (p_messageStarted p)) (EvMessageBegin 0))).
  2:{ unfold p1. destruct (_ && _); cbn; [done | by rewrite app_nil_r]. }
  rewrite run_gets. assert (p_statusOffset p1 = p_statusOffset p) as -> by (unfold p1; by destruct (_ && _), p).
  destruct (Status s && _) eqn:E; cbn [when].
  - apply andb_prop in E as [_ E%Z.ltb_lt]. 
    rewrite <- (take_drop (Z.to_nat (p_statusOffset p)) (sl_Reason r)) at 1.
    rewrite gslice_suffix by (unfold blen in *; rewrite length_take; lia). rewrite run_lift. cbn. by rewrite app_assoc.
  - cbn. by rewrite app_nil_r.
Qed.

Lemma status_line_run started off l0 t r p tr :
  idle started off p -> 0 <= off -> crlf_free l0 -> parseResponseLineBytes l0 = Ok (Some r) ->
  let b := l0 ++ CRLF ++ t in
  exists p' n, in_headers (sl_StatusCode r) [] p' /\ p_messageStarted p' = status_started started /\
    p_statusOffset p' = status_offset off (sl_Reason r) /\
    tryFastSplitResponse (Some s) b (p, tr) =
      response_loop (length b) (Some s) b (blen (l0 ++ CRLF)) (p', tr ++ status_events started off (sl_Reason r) n).
Proof.
  intros [Hok Hq Ht Hf <- <-] Hoff Hl Hr b.
  set (p1 := set_phase (initialPhase RESPONSE) (set_currentType RESPONSE (set_fastPhase fastPhaseResponseLine p))).
  assert (tryFastSplitResponse (Some s) b (p, tr) = response_loop (S (length b)) (Some s) b 0 (p1, tr)) as ->.
  { unfold tryFastSplitResponse. rewrite run_gets, Ht. rewrite bool_decide_true by done. cbn [negb].
    unfold enterSplit. rewrite (run_bind _ _ _ tt (p1, tr)); [done|]. rewrite run_gets, Hf. by rewrite bool_decide_true. }
  change (response_loop (S (length b)) (Some s) b 0) with (response_loop (S (length b)) (Some s) ([] ++ b) (blen (@nil byte))).
  unfold b at 2. rewrite response_loop_line by done.
  assert (p_lineScratchLen p1 = 0 /\ p_fastPhase p1 = fastPhaseResponseLine) as [Hq1 Hf1] by (by destruct p).
  unfold withLine. rewrite run_gets, Hq1. cbn [Z.eqb]. unfold response_line. rewrite run_gets, Hf1, Hr, run_lift, run_updates.
  set (p2 := assigns _ p1).
  assert (p_messageStarted p2 = p_messageStarted p /\ p_statusOffset p2 = p_statusOffset p) as [Hm2 Ho2] by (by destruct p).
  rewrite (run_bind _ _ _ _ _ (emitStatusLine_run r (blen (@nil byte) + blen l0 + 2) p2 tr ltac:(by rewrite Ho2))), run_updates, Hm2, Ho2.
  eexists _, _. split; [|split; [|split; [|by replace (blen (l0 ++ CRLF)) with (blen (@nil byte) + blen l0 + 2) by (unfold CRLF; blens)]]].
  - destruct (scratch_ok_clear p Hok) as [C1 C2]. unfold p2, after_status, p1.
    by constructor; destruct (_ && _), (_ && _), p.
  - rewrite <- Hm2, <- (after_status_started (sl_Reason r)). by destruct (after_status (sl_Reason r) p2).
  - rewrite <- Ho2, <- after_status_offset. by destruct (after_status (sl_Reason r) p2).
Qed.

(** A response in buffers, on a parser that remembers [started] and [off]. *)
Lemma response_feed started off l0 t bufs ls hs r p tr :
  idle started off p -> 0 <= off ->
  crlf_free l0 -> parseResponseLineBytes l0 = Ok (Some r) -> responseStatusHasNoBody (sl_StatusCode r) = true ->
  Forall2 good_line ls hs -> concat (t :: bufs) = lines_text ls ++ CRLF -> Forall cut_after (t :: bufs) ->
  let text := l0 ++ CRLF ++ lines_text ls ++ CRLF in
  exists p' es, feed (Some s) ((l0 ++ CRLF ++ t) :: bufs) (p, tr) = Ok ((blen text, None), (p', tr ++ es)) /\
    map erase es = map erase (status_events started off (sl_Reason r) 0) ++ headers_events s 0 hs ++ completes /\
    idle (status_started started) (status_offset off (sl_Reason r)) p' /\ p_messageCompleteCalled p' = true.
Proof.
  intros Hi Hoff Hl Hr Hc Hls Htext Hcut text. inversion_clear Hcut as [|? ? Ht Hbufs]. cbn [concat] in Htext.
  destruct (status_line_run started off l0 t r p tr Hi Hoff Hl Hr) as (p1 & n & Hp1 & Hm1 & Ho1 & E1).
  set (b := l0 ++ CRLF ++ t) in *. set (es1 := status_events started off (sl_Reason r) n) in *.
  assert (map erase es1 = map erase (status_events started off (sl_Reason r) 0)) as He1.
  { unfold es1, status_events. by rewrite !map_app, !erase_ev. }
  assert (b = (l0 ++ CRLF) ++ t) as Eb by (unfold b; by rewrite <- app_assoc).
  destruct (headers_buffer (sl_StatusCode r) ls hs (length b) (l0 ++ CRLF) t (concat bufs) [] p1 (tr ++ es1) Hc Hp1 Hls)
    as (p2 & es2 & E2 & H); [rewrite Htext; apply to_come_start | done | rewrite Eb, !length_app; cbn; lia|].
  rewrite <- Eb in E2. rewrite E2 in E1.
  assert (b <> []) as Hne by (unfold b; by destruct l0).
  assert (text = b ++ concat bufs) as -> by (unfold text, b; by rewrite <- Htext, <- !app_assoc).
  cbn [feed]. rewrite (run_bind _ _ _ _ _ (Execute_response b p tr _ _ _ (id_type _ _ _ Hi) Hne E1)).
  rewrite Hm1, Ho1 in H. destruct H as [(Hm & Hi2 & Hdone & He)|(q' & ls' & hs0 & hs' & -> & Hp2 & Hm2 & Ho2 & Hls' & Hto & He)].
  - rewrite (run_bind _ _ _ _ _ (feed_empty (Some s) bufs _ Hm)), Hm. exists p2, (es1 ++ es2).
    rewrite app_nil_r, Z.add_0_r, <- app_assoc, map_app, He, He1. by split_and!.
  - destruct (headers_feed (sl_StatusCode r) bufs ls' hs' q' p2 ((tr ++ es1) ++ es2) Hc Hp2 Hls' Hto Hbufs) as (p3 & es3 & E3 & Hi3 & Hdone & He3).
    rewrite (run_bind _ _ _ _ _ E3). exists p3, (es1 ++ es2 ++ es3). rewrite Hm2, Ho2 in Hi3.
    rewrite blen_app, <- !app_assoc, !map_app, He, He1, He3. split_and!; try done.
    unfold headers_events. by rewrite map_app, concat_app, <- !app_assoc.
Qed.

(** A response that has no body by its status, and its buffers: cut anywhere but
    inside a line end, the first one holding the status line whole. *)
Record response_text (r : responseLine) (hs : list headerLine) (bufs : list bytes) : Prop := {
  rt_noBody : responseStatusHasNoBody (sl_StatusCode r) = true;
  rt_bufs : exists l0 ls t bufs', bufs = (l0 ++ CRLF ++ t) :: bufs' /\ crlf_free l0 /\
    parseResponseLineBytes l0 = Ok (Some r) /\ Forall2 good_line ls hs /\
    concat (t :: bufs') = lines_text ls ++ CRLF /\ Forall cut_after (t :: bufs') }.

Lemma response_text_feed started off r hs bufs p tr :
  idle started off p -> 0 <= off -> response_text r hs bufs ->
  exists p' es, feed (Some s) bufs (p, tr) = Ok ((blen (concat bufs), None), (p', tr ++ es)) /\
    map erase es = map erase (status_events started off (sl_Reason r) 0) ++ headers_events s 0 hs ++ completes /\
    idle (status_started started) (status_offset off (sl_Reason r)) p' /\ p_messageCompleteCalled p' = true.
Proof.
  intros Hi Ho [Hc (l0 & ls & t & bufs' & -> & Hl & Hr & Hls & Ht & Hcut)].
  replace (concat ((l0 ++ CRLF ++ t) :: bufs')) with (l0 ++ CRLF ++ lines_text ls ++ CRLF)
    by (rewrite <- Ht; cbn [concat]; by rewrite <- !app_assoc).
  by apply (response_feed started off l0 t bufs' ls hs r p tr).
Qed.

Lemma idle_New : idle false 0 (New RESPONSE).
Proof. by constructor. Qed.

(** C9. A response that has no body by its status, on a new parser, with the
    status line whole in the first buffer, header lines that are well formed and
    fit the line buffer, and the rest cut into buffers anywhere but inside a line
    end: every byte is consumed, the callbacks are those of the response, once
    each and in order, whatever those cuts, and the parser is between messages
    again. *)
Theorem Execute_response_stream r hs bufs tr : response_text r hs bufs ->
  exists p' es, feed (Some s) bufs (New RESPONSE, tr) = Ok ((blen (concat bufs), None), (p', tr ++ es)) /\
    map erase es = response_events s r hs /\
    p_fastPhase p' = fastPhaseIdle /\ p_lineScratchLen p' = 0 /\ p_messageCompleteCalled p' = true.
Proof.
  intros Ht. destruct (response_text_feed false 0 r hs bufs (New RESPONSE) tr idle_New ltac:(lia) Ht) as (p' & es & E & He & Hi & Hd).
  exists p', es. split; [exact E|]. destruct Hi. split_and!; try done. rewrite He. unfold status_events, response_events, completes.
  change (Z.to_nat 0) with O. by rewrite drop_0, map_app, !erase_ev, andb_true_r, <- !app_assoc.
Qed.

(** What the parser remembers is not undone when the response ends: a second
    response, on the same parser and with a reason not longer than the first one's,
    is parsed to its end but its start is never announced, neither as a message
    that begins nor by its status; its first callback is a header's. *)
Theorem second_response_unannounced r1 hs1 bufs1 r2 hs2 bufs2 :
  MessageBegin s = true -> Status s = true -> blen (sl_Reason r2) <= blen (sl_Reason r1) ->
  response_text r1 hs1 bufs1 -> response_text r2 hs2 bufs2 ->
  exists p1 es1 p2 es2,
    feed (Some s) bufs1 (New RESPONSE, []) = Ok ((blen (concat bufs1), None), (p1, es1)) /\
    feed (Some s) bufs2 (p1, es1) = Ok ((blen (concat bufs2), None), (p2, es1 ++ es2)) /\
    map erase es2 = headers_events s 0 hs2 ++ completes.
Proof.
  intros Hm Hs Hle H1 H2.
  destruct (response_text_feed false 0 r1 hs1 bufs1 (New RESPONSE) [] idle_New ltac:(lia) H1) as (p1 & es1 & E1 & _ & Hi & _).
  unfold status_started, status_offset in Hi. rewrite Hm, Hs in Hi. pose proof (blen_nonneg (sl_Reason r1)).
  destruct (response_text_feed _ _ r2 hs2 bufs2 p1 es1 Hi ltac:(lia) H2) as (p2 & es2 & E2 & He & _).
  exists p1, es1, p2, es2. split_and!; [done..|]. rewrite He. unfold status_events.
  destruct (Z.ltb_spec (Z.max 0 (blen (sl_Reason r1))) (blen (sl_Reason r2))); [lia|]. by rewrite Hm, Hs.
Qed.
End Loop.

(** 304 Not Modified, in three buffers; the second one ends inside a header name. *)
Definition not_modified_line : responseLine := {| sl_Major := 1; sl_Minor := 1; sl_StatusCode := 304; sl_Reason := bs "Not Modified" |}.
Definition not_modified_bufs : list bytes :=
  [bs "HTTP/1.1 304 Not Modified" ++ CRLF; bs "ETag: x" ++ CRLF ++ bs "Ser"; bs "ver: a" ++ CRLF ++ CRLF].
Definition not_modified_headers : list headerLine := [mkHeaderLine (bs "ETag") (bs "x"); mkHeaderLine (bs "Server") (bs "a")].

Lemma not_modified_text : response_text not_modified_line not_modified_headers not_modified_bufs.
Proof.
  split; [done|]. exists (bs "HTTP/1.1 304 Not Modified"), [bs "ETag: x"; bs "Server: a"], [], (tail not_modified_bufs).
  split_and!; [done | by apply scanCRLFBytes_None | by vm_compute | | by vm_compute |].
  - repeat (constructor; [split_and!; [done | by apply scanCRLFBytes_None | by vm_compute | by vm_compute]|]). constructor.
  - repeat constructor. all: intros x E; apply (f_equal (@rev byte)) in E; rewrite (rev_app_distr x) in E; by vm_compute in E.
Qed.

Lemma Execute_response_stream_witness :
  exists p' es, feed (Some all_callbacks) not_modified_bufs (New RESPONSE, []) = Ok ((blen (concat not_modified_bufs), None), (p', es)) /\
    map erase es = [EvMessageBegin 0; EvStatus (bs "Not Modified") 0; EvHeaderField (bs "ETag") 0; EvHeaderValue (bs "x") 0;
      EvHeaderField (bs "Server") 0; EvHeaderValue (bs "a") 0; EvHeadersComplete 0; EvMessageComplete 0] /\
    p_fastPhase p' = fastPhaseIdle /\ p_lineScratchLen p' = 0 /\ p_messageCompleteCalled p' = true.
Proof. exact (Execute_response_stream all_callbacks not_modified_line not_modified_headers not_modified_bufs [] not_modified_text). Defined.

Lemma second_response_unannounced_witness :
  exists p1 es1 p2 es2,
    feed (Some all_callbacks) not_modified_bufs (New RESPONSE, []) = Ok ((blen (concat not_modified_bufs), None), (p1, es1)) /\
    feed (Some all_callbacks) not_modified_bufs (p1, es1) = Ok ((blen (concat not_modified_bufs), None), (p2, es1 ++ es2)) /\
    map erase es2 = [EvHeaderField (bs "ETag") 0; EvHeaderValue (bs "x") 0;
      EvHeaderField (bs "Server") 0; EvHeaderValue (bs "a") 0; EvHeadersComplete 0; EvMessageComplete 0].
Proof.
  refine (second_response_unannounced all_callbacks not_modified_line not_modified_headers not_modified_bufs
    not_modified_line not_modified_headers not_modified_bufs eq_refl eq_refl _ not_modified_text not_modified_text). by vm_compute.
Defined.
