(* ===== verification/Request.v ===== *)
(** * Reading a request from a connection (internal/parser/request.go)

    [ReadRequest] reads the head of a request from a [bufio.Reader] and hands
    the rest of the stream to a body reader.  The reader is modelled by its
    buffer size and by the bytes the connection still delivers, with the error
    that ends them; a header map holds Go slices over a modelled heap, because the
    code stores the first value of every header in one shared array.

    [url.ParseRequestURI], which the code calls for targets it does not split
    itself, is an argument of the definitions: what is proved holds for any. *)

From S2P Require Import Prelude Scan Strconv Method StartLine Framing Parser.

(** ** The buffered reader *)

Record bufReader : Type := mkReader {
  rd_size : nat;        (* the size of the buffer *)
  rd_data : bytes;      (* what is buffered and what the connection delivers *)
  rd_err : perror }.    (* the error after that *)

(** The error of [ReadSlice]. *)
Inductive sliceErr : Type := NoErr | ErrBufferFull | ReadErr (e : perror).

(** [r.ReadSlice('\n')]: up to and including the delimiter, if it is among the
    next [rd_size] bytes; else a full buffer; else what is left, with the error. *)
Definition ReadSlice (r : bufReader) : bytes * sliceErr * bufReader :=
  let window := take (rd_size r) (rd_data r) in
  match scanToByte window LF with
  | Some i =>
      let n := S (Z.to_nat i) in
      (take n (rd_data r), NoErr, mkReader (rd_size r) (drop n (rd_data r)) (rd_err r))
  | None =>
      if (rd_size r <=? length (rd_data r))%nat
      then (window, ErrBufferFull, mkReader (rd_size r) (drop (rd_size r) (rd_data r)) (rd_err r))
      else (rd_data r, ReadErr (rd_err r), mkReader (rd_size r) [] (rd_err r))
  end.

(** What the code below uses of a [*bufio.Reader]: [ReadSlice('\n')]; [lr_left]
    bounds the lines that are left. *)
Class LineReader (R : Type) : Type := {
  lr_ReadSlice : R -> res (bytes * sliceErr * R);
  lr_left : R -> nat }.

#[global] Instance bufReader_lines : LineReader bufReader := {|
  lr_ReadSlice := fun r => Ok (ReadSlice r); lr_left := fun r => length (rd_data r) |}.

(** Computations that read and may fail with an error value. *)
Definition RM (R A : Type) : Type := R -> res ((A + perror) * R).

#[global] Instance RM_ret R : MRet (RM R) := fun A a r => Ok (inl a, r).
#[global] Instance RM_bind R : MBind (RM R) := fun A B k m r =>
  match m r with
  | Ok (inl a, r') => k a r'
  | Ok (inr e, r') => Ok (inr e, r')
  | Crash f => Crash f
  end.

Definition throw {R A} (e : perror) : RM R A := fun r => Ok (inr e, r).
Definition pure {R A} (x : res A) : RM R A := fun r =>
  match x with Ok a => Ok (inl a, r) | Crash f => Crash f end.

Definition trimCRLFLine {R} (line : bytes) : RM R bytes :=
  if blen line <? 2 then throw ErrNoEndLF
  else
    x ← pure (gindex line (blen line - 2));
    y ← pure (gindex line (blen line - 1));
    if negb (Byte.eqb x CR) || negb (Byte.eqb y LF) then throw ErrNoEndLF
    else if MaxHeaderSize <? blen line - 2 then throw ErrHeaderOverflow
    else pure (gslice line 0 (blen line - 2)).

(** The loop that accumulates a line longer than the buffer. *)
Fixpoint read_long `{LineReader R} (fuel : nat) (line : bytes) : RM R bytes :=
  match fuel with
  | O => fun _ => Crash OutOfFuel
  | S fuel' => fun r =>
      match lr_ReadSlice r with
      | Crash f => Crash f
      | Ok (part, ErrBufferFull, r') => read_long fuel' (line ++ part) r'
      | Ok (part, ReadErr e, r') => Ok (inr e, r')
      | Ok (part, NoErr, r') => trimCRLFLine (line ++ part) r'
      end
  end.

Definition readCRLFLine `{LineReader R} : RM R bytes := fun r =>
  match lr_ReadSlice r with
  | Crash f => Crash f
  | Ok (part, NoErr, r') => trimCRLFLine part r'
  | Ok (part, ReadErr e, r') => Ok (inr e, r')
  | Ok (part, ErrBufferFull, r') => read_long (S (lr_left r')) part r'
  end.

(** ** Request targets *)

(** [url.URL]. *)
Record url_URL : Type := mkURL {
  u_Scheme : bytes; u_Opaque : bytes; u_User : option (bytes * option bytes); u_Host : bytes;
  u_Path : bytes; u_RawPath : bytes; u_OmitHost : bool; u_ForceQuery : bool; u_RawQuery : bytes;
  u_Fragment : bytes; u_RawFragment : bytes }.

(** A URL of which only the host, the path and the query are set. *)
Definition plainURL (host path query : bytes) : url_URL :=
  mkURL [] [] None host path [] false false query [] [].

(** The loop over a target after its slash: [None] at a percent or hash sign,
    else the index of the first question mark. *)
Fixpoint target_loop (b : bytes) (i : Z) (query : option Z) : option (option Z) :=
  match b with
  | [] => Some query
  | c :: b' =>
      if Byte.eqb c "%"%byte || Byte.eqb c "#"%byte then None
      else if Byte.eqb c "?"%byte
      then target_loop b' (i + 1) (match query with None => Some i | q => q end)
      else target_loop b' (i + 1) query
  end.

Definition parseRequestURL (ParseRequestURI : bytes -> url_URL + perror) (method : Method)
    (requestURI : bytes) : res (url_URL + perror) :=
  let slash := match requestURI with c :: _ => Byte.eqb c "/"%byte | [] => false end in
  if bool_decide (method = CONNECT) && negb slash then Ok (inl (plainURL requestURI [] []))
  else if slash then
    match target_loop (tail requestURI) 1 None with
    | None => Ok (ParseRequestURI requestURI)
    | Some (Some q) =>
        path ← gslice requestURI 0 q;
        query ← gslice_from requestURI (q + 1);
        Ok (inl (plainURL [] path query))
    | Some None => Ok (inl (plainURL [] requestURI []))
    end
  else Ok (ParseRequestURI requestURI).

(** ** Versions and connections *)

Definition httpVersionString (major minor : Z) : bytes :=
  if (major =? 1) && (minor =? 0) then bs "HTTP/1.0"
  else if (major =? 1) && (minor =? 1) then bs "HTTP/1.1"
  else bs "HTTP/" ++ Itoa major ++ bs "." ++ Itoa minor.

Definition shouldCloseAfterReadConnection (major minor : Z) (close keepAlive : bool) : bool :=
  if (major =? 1) && (minor =? 0) then negb keepAlive else close.

(** ** Header values and names *)

Definition blank_or_comma (c : byte) : bool := is_blank c || Byte.eqb c ","%byte.

Fixpoint drop_while (f : byte -> bool) (b : bytes) : bytes :=
  match b with [] => [] | c :: b' => if f c then drop_while f b' else b end.

(** The bytes before the first comma, and the rest from it on. *)
Fixpoint take_part (b : bytes) : bytes :=
  match b with [] => [] | c :: b' => if Byte.eqb c ","%byte then [] else c :: take_part b' end.

(** [trimmedEnd]: without the blanks at the end. *)
Definition trim_end (b : bytes) : bytes := rev (drop_while is_blank (rev b)).

(** The loop of [headerValueHasTokenBytes] on [value[start:]]. *)
Fixpoint token_loop (fuel : nat) (value token : bytes) : res bool :=
  match fuel with
  | O => Crash OutOfFuel
  | S fuel' =>
      match value with
      | [] => Ok false
      | _ =>
          let v := drop_while blank_or_comma value in
          let part := take_part v in
          if equalFoldToken (trim_end part) token then Ok true
          else token_loop fuel' (drop (S (length part)) v) token
      end
  end.

Definition headerValueHasTokenBytes (value token : bytes) : res bool :=
  token_loop (S (length value)) value token.

Definition upper_byte (c : byte) : byte :=
  if (b2z "a"%byte <=? b2z c) && (b2z c <=? b2z "z"%byte) then z2b (b2z c - 32) else c.
Definition lower_byte (c : byte) : byte :=
  if (b2z "A"%byte <=? b2z c) && (b2z c <=? b2z "Z"%byte) then z2b (b2z c + 32) else c.

Fixpoint canonical_loop (name : bytes) (upper : bool) : bytes :=
  match name with
  | [] => []
  | c :: name' =>
      let c := if upper then upper_byte c else lower_byte c in
      c :: canonical_loop name' (Byte.eqb c "-"%byte)
  end.

Definition canonicalHeaderKeyBytes (name : bytes) : bytes := canonical_loop name true.

(** The cases of [canonicalHeaderKey], in order. *)
Definition canonical_cases : list (bytes * bytes) :=
  [(bs "connection", bs "Connection"); (bs "content-length", bs "Content-Length");
   (bs "transfer-encoding", bs "Transfer-Encoding"); (bs "cache-control", bs "Cache-Control");
   (bs "accept", bs "Accept"); (bs "accept-encoding", bs "Accept-Encoding");
   (bs "accept-language", bs "Accept-Language"); (bs "user-agent", bs "User-Agent");
   (bs "referer", bs "Referer"); (bs "dnt", bs "Dnt")].

Definition canonicalHeaderKey (name : bytes) : option bytes :=
  option_map snd (List.find (fun c => equalFoldToken name (fst c)) canonical_cases).

(** The key under which [ReadRequest] stores a header. *)
Definition header_key (name : bytes) : bytes :=
  match canonicalHeaderKey name with Some k => k | None => canonicalHeaderKeyBytes name end.

(** ** Slices of strings on a heap *)

Abbreviation heap := (list (list bytes)).

Record goSlice : Type := mkSlice { sc_arr : nat; sc_off : nat; sc_len : nat; sc_cap : nat }.

Definition cells (h : heap) (a : nat) : list bytes := default [] (h !! a).

(** The elements of a slice. *)
Definition read (h : heap) (s : goSlice) : list bytes :=
  take (sc_len s) (drop (sc_off s) (cells h (sc_arr s))).

Definition write (h : heap) (a i : nat) (v : bytes) : heap := <[a := <[i := v]> (cells h a)]> h.

Section Headers.
(** The spare capacity [append] gives to an array it allocates for [n] elements
    is the implementation's choice. *)
Context (spare : nat -> nat).

Definition append (h : heap) (s : goSlice) (v : bytes) : heap * goSlice :=
  if (sc_len s <? sc_cap s)%nat then
    (write h (sc_arr s) (sc_off s + sc_len s) v,
     mkSlice (sc_arr s) (sc_off s) (S (sc_len s)) (sc_cap s))
  else
    let n := S (sc_len s) in
    (h ++ [read h s ++ [v] ++ replicate (spare n) []], mkSlice (length h) 0 n (n + spare n)).

(** The header map under construction: the heap, whose array 0 is
    [firstValues], the map and [firstValueIdx]. *)
Record building : Type := mkBuilding {
  bd_heap : heap; bd_map : gmap bytes goSlice; bd_idx : nat }.

Definition add_value (n : nat) (b : building) (kv : bytes * bytes) : res building :=
  match bd_map b !! fst kv with
  | Some existing =>
      let '(h, s) := append (bd_heap b) existing (snd kv) in
      Ok (mkBuilding h (<[fst kv := s]> (bd_map b)) (bd_idx b))
  | None =>
      if (bd_idx b <? n)%nat
      then Ok (mkBuilding (write (bd_heap b) 0 (bd_idx b) (snd kv))
                 (<[fst kv := mkSlice 0 (bd_idx b) 1 1]> (bd_map b)) (S (bd_idx b)))
      else Crash SliceBounds
  end.

Fixpoint add_values (n : nat) (b : building) (kvs : list (bytes * bytes)) : res building :=
  match kvs with
  | [] => Ok b
  | kv :: kvs' => b' ← add_value n b kv; add_values n b' kvs'
  end.

(** The heap and the [http.Header] map of the parsed headers. *)
Definition buildHeaders (kvs : list (bytes * bytes)) : res (heap * gmap bytes goSlice) :=
  match kvs with
  | [] => Ok ([], ∅)
  | _ =>
      let n := length kvs in
      b ← add_values n (mkBuilding [replicate n []] ∅ 0) kvs;
      Ok (bd_heap b, bd_map b)
  end.
End Headers.

(** ** The request *)

(** What [req.Body] reads: nothing, the next [n] bytes of the connection, or a
    chunked body decoded by [httputil.NewChunkedReader]. *)
Inductive bodyReader : Type := NoBody | LimitReader (n : Z) | ChunkedReader.

(** [http.Request], the fields the code sets; the header values are on a heap. *)
Record Request : Type := mkRequest {
  r_Method : bytes;
  r_URL : url_URL;
  r_Proto : bytes;
  r_ProtoMajor : Z;
  r_ProtoMinor : Z;
  r_heap : heap;
  r_Header : gmap bytes goSlice;
  r_Host : bytes;
  r_RequestURI : bytes;
  r_Close : bool;
  r_Body : bodyReader;
  r_ContentLength : Z;
  r_TransferEncoding : list bytes }.

(** The variables of the header loop. *)
Record headState : Type := mkHead {
  hd_parsed : list (bytes * bytes);
  hd_meta : messageMeta;
  hd_host : bytes;
  hd_close : bool;
  hd_keepAlive : bool }.

Definition head_header {R} (h : headerLine) (st : headState) : RM R headState :=
  match applyHeaderMeta (hd_meta st) h with
  | None => throw (headerSemanticError (hd_meta st) h)
  | Some meta =>
      let st := mkHead (hd_parsed st) meta (hd_host st) (hd_close st) (hd_keepAlive st) in
      if equalFoldToken (Name h) (bs "host") then
        mret (if bool_decide (hd_host st = [])
              then mkHead (hd_parsed st) (hd_meta st) (Value h) (hd_close st) (hd_keepAlive st)
              else st)
      else
        st ← (if equalFoldToken (Name h) (bs "connection") then
                close ← pure (headerValueHasTokenBytes (Value h) (bs "close"));
                keep ← pure (headerValueHasTokenBytes (Value h) (bs "keep-alive"));
                mret (mkHead (hd_parsed st) (hd_meta st) (hd_host st)
                        (if close : bool then true else hd_close st)
                        (if keep : bool then true else hd_keepAlive st))
              else mret st);
        mret (mkHead (hd_parsed st ++ [(header_key (Name h), Value h)]) (hd_meta st) (hd_host st)
                (hd_close st) (hd_keepAlive st))
  end.

Fixpoint head_loop `{LineReader R} (fuel : nat) (st : headState) : RM R headState :=
  match fuel with
  | O => fun _ => Crash OutOfFuel
  | S fuel' =>
      line ← readCRLFLine;
      if blen line =? 0 then mret st
      else
        h ← pure (parseHeaderLineBytes line);
        match h with
        | None => throw ErrHeaderOverflow
        | Some h => st ← head_header h st; head_loop fuel' st
        end
  end.

Section ReadRequest.
Context (ParseRequestURI : bytes -> url_URL + perror) (spare : nat -> nat).

Definition ReadRequest `{LineReader R} : RM R Request := fun r =>
  (line ← readCRLFLine;
   l ← pure (parseRequestLineBytes line);
   match l with
   | None => throw ErrReqMethod
   | Some requestLine =>
       let requestURI := rl_Target requestLine in
       u ← pure (parseRequestURL ParseRequestURI (rl_Method requestLine) requestURI);
       match u with
       | inr e => throw e
       | inl requestURL =>
           st ← head_loop (S (lr_left r))
                  (mkHead [] (mkMeta REQUEST 0 false 0 false) (u_Host requestURL) false false);
           hm ← pure (buildHeaders spare (hd_parsed st));
           let meta := hd_meta st in
           let req body length te :=
             mkRequest (Method_String (rl_Method requestLine)) requestURL
               (httpVersionString (rl_Major requestLine) (rl_Minor requestLine))
               (rl_Major requestLine) (rl_Minor requestLine) (fst hm) (snd hm) (hd_host st) requestURI
               (shouldCloseAfterReadConnection (rl_Major requestLine) (rl_Minor requestLine)
                  (hd_close st) (hd_keepAlive st)) body length te in
           match decideBodyMode meta with
           | bodyModeNone => mret (req NoBody 0 [])
           | bodyModeContentLength =>
               mret (req (if 0 <? m_contentLength meta then LimitReader (m_contentLength meta) else NoBody)
                       (m_contentLength meta) [])
           | bodyModeChunked => mret (req ChunkedReader (-1) [bs "chunked"])
           | bodyModeEOF => throw UnsupportedBodyMode
           end
       end
   end) r.
End ReadRequest.

(** [addParsedHeader] on a map with value semantics. *)
Definition addParsedHeader (headers : gmap bytes (list bytes)) (name value : bytes)
    : gmap bytes (list bytes) :=
  match canonicalHeaderKey name with
  | Some canonical =>
      <[canonical := match headers !! canonical with Some l => l ++ [value] | None => [value] end]> headers
  | None =>
      let key := canonicalHeaderKeyBytes name in
      <[key := match headers !! key with Some l => l ++ [value] | None => [value] end]> headers
  end.
