(* ===== verification/RequestSpec.v ===== *)
(** * What ReadRequest does

    Lines are read the same way whatever the buffer size; header names are
    canonical; header values are grouped by name in order; the connection tokens
    are those of the comma-separated list; a request head is read exactly, and
    what follows it is left for the body. *)

From S2P Require Import Prelude Scan Strconv Method StartLine Framing Chunked Message Parser Request.

(** ** Lines *)

(** The line that the bytes [l] before an LF stand for. *)
Definition line_result (l : bytes) : bytes + perror :=
  match rev l with
  | c :: l' =>
      if negb (Byte.eqb c CR) then inr ErrNoEndLF
      else if MaxHeaderSize <? blen l' then inr ErrHeaderOverflow else inl (rev l')
  | [] => inr ErrNoEndLF
  end.

Lemma line_result_crlf l :
  line_result (l ++ [CR]) = if MaxHeaderSize <? blen l then inr ErrHeaderOverflow else inl l.
Proof.
  unfold line_result. rewrite rev_app_distr. cbn [rev app]. rewrite rev_involutive.
  unfold blen. by rewrite length_rev.
Qed.

Lemma trimCRLFLine_spec {R} l (r : R) : trimCRLFLine (l ++ [LF]) r = Ok (line_result l, r).
Proof.
  destruct l as [|x l _] using rev_ind; [done|]. unfold trimCRLFLine.
  assert (blen ((l ++ [x]) ++ [LF]) = blen l + 2) as Hlen by blens. rewrite Hlen.
  pose proof (blen_nonneg l). destruct (Z.ltb_spec (blen l + 2) 2); [lia|].
  replace (blen l + 2 - 2) with (blen l) by lia. replace (blen l + 2 - 1) with (blen l + 1) by lia.
  rewrite <- app_assoc. cbn [app]. rewrite (gindex_app l [LF] x (blen l)) by done.
  rewrite (cons_middle x l), app_assoc, (gindex_app (l ++ [x]) [] LF (blen l + 1)) by blens.
  cbn [pure]. unfold mbind, RM_bind. cbn [pure]. rewrite byte_eqb_refl, orb_false_r.
  destruct (Byte.eqb x CR) eqn:E; cbn [negb].
  - apply byte_eqb_eq in E as ->. rewrite line_result_crlf. destruct (_ <? _); [done|].
    rewrite <- app_assoc, gslice_prefix by done. done.
  - unfold line_result. rewrite rev_app_distr. cbn [rev app]. by rewrite E.
Qed.

(** The bytes up to the first LF, if there is one. *)
Inductive lf_view (b : bytes) : Prop :=
| LF_some l rest : b = l ++ LF :: rest -> (LF ∉ l) -> lf_view b
| LF_none : (LF ∉ b) -> lf_view b.

Lemma lf_viewP b : lf_view b.
Proof.
  destruct (scanToByte b LF) as [i|] eqn:E.
  - apply scanToByte_Some in E as (l & r & -> & Hl & _). by apply (LF_some _ l r).
  - apply scanToByte_None in E. by apply LF_none.
Qed.

Lemma ReadSlice_line n l rest err :
  (LF ∉ l) -> (length l < n)%nat ->
  ReadSlice (mkReader n (l ++ LF :: rest) err) = (l ++ [LF], NoErr, mkReader n rest err).
Proof.
  intros Hl Hn. unfold ReadSlice. cbn [rd_size rd_data rd_err].
  rewrite take_app_ge by lia. destruct (n - length l)%nat as [|k] eqn:Ek; [lia|]. cbn [take].
  rewrite scanToByte_app by done. rewrite to_nat_blen.
  replace (S (length l)) with (length (l ++ [LF])) by (rewrite length_app; cbn; lia).
  rewrite (cons_middle LF l rest), app_assoc, take_app_length, drop_app_length. done.
Qed.

Lemma ReadSlice_full n b err :
  LF ∉ take n b -> (n <= length b)%nat ->
  ReadSlice (mkReader n b err) = (take n b, ErrBufferFull, mkReader n (drop n b) err).
Proof.
  intros Hl Hn. unfold ReadSlice. cbn [rd_size rd_data rd_err].
  rewrite (proj2 (scanToByte_None _ _)) by done.
  by destruct (Nat.leb_spec n (length b)); [|lia].
Qed.

Lemma ReadSlice_eof n b err :
  LF ∉ b -> (length b < n)%nat ->
  ReadSlice (mkReader n b err) = (b, ReadErr err, mkReader n [] err).
Proof.
  intros Hl Hn. unfold ReadSlice. cbn [rd_size rd_data rd_err]. rewrite take_ge by lia.
  rewrite (proj2 (scanToByte_None _ _)) by done.
  by destruct (Nat.leb_spec n (length b)); [lia|].
Qed.

(** What a line is, from the bytes read before and those still to come. *)
Lemma read_long_run fuel n acc b err :
  (0 < n)%nat -> (length b < fuel)%nat ->
  (forall l rest, b = l ++ LF :: rest -> (LF ∉ l) ->
     read_long fuel acc (mkReader n b err) = Ok (line_result (acc ++ l), mkReader n rest err)) /\
  ((LF ∉ b) -> read_long fuel acc (mkReader n b err) = Ok (inr err, mkReader n [] err)).
Proof.
  intros Hn. revert acc b. induction fuel as [|fuel IH]; intros acc b Hf; [lia|]. cbn [read_long]. unfold lr_ReadSlice, bufReader_lines. split.
  - intros l rest -> Hl. destruct (Nat.lt_ge_cases (length l) n) as [Hlt|Hge].
    + rewrite ReadSlice_line by done. rewrite app_assoc. apply trimCRLFLine_spec.
    + assert (exists a d, l = a ++ d /\ length a = n) as (a & d & -> & Ha).
      { exists (take n l), (drop n l). rewrite take_drop, length_take. split; [done | lia]. }
      apply not_elem_of_app in Hl as [Hl1 Hl2]. rewrite <- app_assoc, <- Ha in *.
      rewrite ReadSlice_full, take_app_length, drop_app_length;
        [| by rewrite take_app_length | rewrite length_app; lia].
      rewrite app_assoc. apply IH; [|done | done]. rewrite !length_app in *. cbn [length] in *. lia.
  - intros Hb. destruct (Nat.lt_ge_cases (length b) n) as [Hlt|Hge]; [by rewrite ReadSlice_eof|].
    rewrite <- (take_drop n b), not_elem_of_app in Hb. destruct Hb as [Hb1 Hb2].
    rewrite ReadSlice_full by done. apply IH; [|done]. rewrite length_drop. lia.
Qed.

Lemma readCRLFLine_run n b err :
  (0 < n)%nat ->
  (forall l rest, b = l ++ LF :: rest -> (LF ∉ l) ->
     readCRLFLine (mkReader n b err) = Ok (line_result l, mkReader n rest err)) /\
  ((LF ∉ b) -> readCRLFLine (mkReader n b err) = Ok (inr err, mkReader n [] err)).
Proof.
  intros Hn. unfold readCRLFLine, lr_ReadSlice, lr_left, bufReader_lines. split.
  - intros l rest -> Hl. destruct (Nat.lt_ge_cases (length l) n) as [Hlt|Hge].
    + rewrite ReadSlice_line by done. apply trimCRLFLine_spec.
    + assert (exists a d, l = a ++ d /\ length a = n) as (a & d & -> & Ha).
      { exists (take n l), (drop n l). rewrite take_drop, length_take. split; [done | lia]. }
      apply not_elem_of_app in Hl as [Hl1 Hl2]. rewrite <- app_assoc, <- Ha in *.
      rewrite ReadSlice_full, take_app_length, drop_app_length;
        [| by rewrite take_app_length | rewrite length_app; lia].
      apply read_long_run; [done | cbn; lia | done | done].
  - intros Hb. destruct (Nat.lt_ge_cases (length b) n) as [Hlt|Hge]; [by rewrite ReadSlice_eof|].
    rewrite <- (take_drop n b), not_elem_of_app in Hb. destruct Hb as [Hb1 Hb2].
    rewrite ReadSlice_full by done. apply read_long_run; [done | cbn; lia | done].
Qed.

(** [readCRLFLine] reads one line whatever the size of the reader's buffer:
    the bytes up to the first LF, without the CR that must stand before it, at most
    [MaxHeaderSize] of them, and it leaves what follows the LF; if there is no
    LF, it returns the connection's error.  It always returns. *)
Theorem readCRLFLine_correct n b err :
  (0 < n)%nat ->
  exists o rest, readCRLFLine (mkReader n b err) = Ok (o, mkReader n rest err) /\
    ((exists l, b = l ++ LF :: rest /\ (LF ∉ l) /\ o = line_result l) \/
     ((LF ∉ b) /\ rest = [] /\ o = inr err)).
Proof.
  intros Hn. destruct (readCRLFLine_run n b err Hn) as [H1 H2].
  destruct (lf_viewP b) as [l rest E Hl|Hl].
  - exists (line_result l), rest. split; [by apply H1 | eauto].
  - exists (inr err), []. split; [by apply H2 | eauto].
Qed.

Lemma readCRLFLine_correct_witness :
  exists o rest, readCRLFLine (mkReader 16 (bs "a line that is longer than the buffer" ++ CRLF ++ bs "x") IOEOF)
      = Ok (o, mkReader 16 rest IOEOF) /\
    ((exists l, bs "a line that is longer than the buffer" ++ CRLF ++ bs "x" = l ++ LF :: rest /\
        (LF ∉ l) /\ o = line_result l) \/
     ((LF ∉ bs "a line that is longer than the buffer" ++ CRLF ++ bs "x") /\ rest = [] /\ o = inr IOEOF)).
Proof. apply readCRLFLine_correct. lia. Defined.

(** ** Header names *)

(** Letter case does not matter to the canonical form. *)
Lemma upper_lower c : upper_byte (lower c) = upper_byte c.
Proof. revert c. by intros []. Qed.
Lemma lower_lower c : lower_byte c = lower c.
Proof. revert c. by intros []. Qed.
Lemma lower_upper c : lower (upper_byte c) = lower c.
Proof. revert c. by intros []. Qed.

Lemma canonical_loop_lower name up : canonical_loop (map lower name) up = canonical_loop name up.
Proof.
  revert up. induction name as [|c name IH]; intros up; cbn [map canonical_loop]; [done|].
  replace (if up then upper_byte (lower c) else lower_byte (lower c))
    with (if up then upper_byte c else lower_byte c); [by rewrite IH|].
  destruct up; [by rewrite upper_lower | by rewrite !lower_lower, lower_idem].
Qed.

Lemma lower_canonical_loop name up : map lower (canonical_loop name up) = map lower name.
Proof.
  revert up. induction name as [|c name IH]; intros up; cbn [map canonical_loop]; [done|].
  rewrite IH. f_equal. destruct up; [apply lower_upper | transitivity (lower (lower c)); [by rewrite <- (lower_lower c) | apply lower_idem]].
Qed.

Lemma canonical_cases_ok :
  Forall (fun c => canonicalHeaderKeyBytes (fst c) = snd c) canonical_cases.
Proof. repeat constructor. Qed.

Lemma header_key_canonical name : header_key name = canonicalHeaderKeyBytes name.
Proof.
  unfold header_key, canonicalHeaderKey.
  destruct (List.find _ canonical_cases) as [[k v]|] eqn:E; [|done]. cbn.
  apply List.find_some in E as [Hin Heq]. apply equalFoldToken_true in Heq. cbn in Heq.
  pose proof canonical_cases_ok as H. rewrite List.Forall_forall in H. specialize (H _ Hin). cbn in H.
  rewrite <- H, <- Heq. apply canonical_loop_lower.
Qed.

(** Header names are stored in canonical form: the table of common names and
    the general rule agree on every name, and two names are stored under the same
    key exactly when they are equal but for letter case. *)
Theorem header_key_correct a b :
  header_key a = canonicalHeaderKeyBytes a /\
  (header_key a = header_key b <-> map lower a = map lower b) /\
  header_key (header_key a) = header_key a.
Proof.
  rewrite !header_key_canonical. unfold canonicalHeaderKeyBytes. split_and!; [done | |].
  - split; intros H.
    + apply (f_equal (map lower)) in H. by rewrite !lower_canonical_loop in H.
    + apply (f_equal (fun x => canonical_loop x true)) in H. by rewrite !canonical_loop_lower in H.
  - transitivity (canonical_loop (map lower (canonical_loop a true)) true); [by rewrite canonical_loop_lower|].
    by rewrite lower_canonical_loop, canonical_loop_lower.
Qed.

(** ** Connection tokens *)

(** The elements of a comma-separated list. *)
Fixpoint split_commas (b : bytes) : list bytes :=
  match b with
  | [] => [[]]
  | c :: b' =>
      if Byte.eqb c ","%byte then [] :: split_commas b'
      else match split_commas b' with p :: ps => (c :: p) :: ps | [] => [[c]] end
  end.

(** Without the blanks at both ends. *)
Definition trim (b : bytes) : bytes := trim_end (drop_while is_blank b).

(** A list has an element that is the token, but for blanks and letter case. *)
Definition has_token (token value : bytes) : bool :=
  existsb (fun p => equalFoldToken (trim p) token) (split_commas value).

Lemma equalFoldToken_nil token : token <> [] -> equalFoldToken [] token = false.
Proof. intros H. rewrite equalFoldToken_spec. by apply bool_decide_eq_false; destruct token. Qed.

Lemma split_commas_cons b : exists p ps, split_commas b = p :: ps.
Proof.
  induction b as [|c b (p & ps & E)]; cbn; [eauto|]. destruct (Byte.eqb c ","%byte); [eauto|]. rewrite E. eauto.
Qed.

Lemma has_token_skip token v :
  token <> [] -> has_token token (drop_while blank_or_comma v) = has_token token v.
Proof.
  intros Ht. unfold has_token. induction v as [|c v IH]; [done|]. cbn [drop_while].
  destruct (blank_or_comma c) eqn:E; [|done]. rewrite IH. clear IH. cbn [split_commas].
  unfold blank_or_comma in E. destruct (Byte.eqb c ","%byte) eqn:Ec.
  - cbn [existsb]. change (trim []) with (@nil byte). by rewrite equalFoldToken_nil.
  - rewrite orb_false_r in E. destruct (split_commas_cons v) as (p & ps & ->). cbn [existsb].
    unfold trim. cbn [drop_while]. by rewrite E.
Qed.

(** The first element and the rest. *)
Lemma split_commas_part v :
  split_commas v = take_part v ::
    match drop (length (take_part v)) v with [] => [] | _ :: r => split_commas r end.
Proof.
  induction v as [|c v IH]; [done|]. cbn [split_commas take_part].
  destruct (Byte.eqb c ","%byte) eqn:E; [done|]. cbn [length drop]. by rewrite IH at 1.
Qed.

Lemma drop_while_head f b : match drop_while f b with c :: _ => f c = false | [] => True end.
Proof. induction b as [|c b IH]; [done|]. cbn. by destruct (f c) eqn:E. Qed.

Lemma drop_while_length f b : (length (drop_while f b) <= length b)%nat.
Proof. induction b as [|c b IH]; [done|]. cbn. destruct (f c); cbn; lia. Qed.

Lemma token_loop_run fuel value token :
  token <> [] -> (length value < fuel)%nat ->
  token_loop fuel value token = Ok (has_token token value).
Proof.
  intros Ht. revert value. induction fuel as [|fuel IH]; intros value Hf; [lia|]. cbn [token_loop].
  destruct value as [|c0 value0] eqn:Ev; [unfold has_token; cbn; change (trim []) with (@nil byte);
    by rewrite equalFoldToken_nil|].
  rewrite <- Ev in *. rewrite <- (has_token_skip token value) by done.
  set (v := drop_while blank_or_comma value). pose proof (drop_while_head blank_or_comma value) as Hh.
  pose proof (drop_while_length blank_or_comma value) as Hl. fold v in Hh, Hl.
  assert (trim (take_part v) = trim_end (take_part v)) as Htrim.
  { unfold trim. destruct v as [|c v']; [done|]. unfold blank_or_comma in Hh. apply orb_false_iff in Hh as [Hb Hc].
    cbn [take_part]. rewrite Hc. cbn [drop_while]. by rewrite Hb. }
  unfold has_token. rewrite split_commas_part. cbn [existsb]. rewrite Htrim.
  destruct (equalFoldToken (trim_end (take_part v)) token); [done|]. cbn [orb].
  rewrite <- Nat.add_1_r, <- drop_drop. destruct (drop (length (take_part v)) v) as [|x r] eqn:Er.
  - cbn [drop]. destruct fuel; [|done]. rewrite Ev in Hf. cbn in Hf. lia.
  - cbn [drop]. rewrite drop_0. apply IH. apply (f_equal length) in Er. rewrite length_drop in Er. cbn [length] in Er.
    clearbody v. lia.
Qed.

(** [headerValueHasTokenBytes] finds a token exactly when the comma-separated
    value has it as an element, disregarding letter case and the blanks around
    elements; it always returns. *)
Theorem headerValueHasToken_correct value token :
  token <> [] -> headerValueHasTokenBytes value token = Ok (has_token token value).
Proof. intros Ht. apply token_loop_run; [done | lia]. Qed.

Lemma headerValueHasToken_correct_witness :
  headerValueHasTokenBytes (bs " foo ,, Keep-Alive , bar") (bs "keep-alive") =
  Ok (has_token (bs "keep-alive") (bs " foo ,, Keep-Alive , bar")).
Proof. apply headerValueHasToken_correct. discriminate. Defined.

(** ** Header values *)

(** The values of a key, in order. *)
Definition values (kvs : list (bytes * bytes)) (k : bytes) : list bytes :=
  map snd (List.filter (fun kv => bool_decide (fst kv = k)) kvs).

Lemma values_snoc kvs k' v k :
  values (kvs ++ [(k', v)]) k = values kvs k ++ (if bool_decide (k' = k) then [v] else []).
Proof.
  unfold values. rewrite List.filter_app, map_app. cbn. by destruct (bool_decide (k' = k)).
Qed.

(** *** Reads and writes *)

Lemma cells_write h a i v a' :
  (a < length h)%nat ->
  cells (write h a i v) a' = if bool_decide (a' = a) then <[i := v]> (cells h a) else cells h a'.
Proof.
  intros Ha. unfold cells, write. destruct (bool_decide_reflect (a' = a)) as [->|Hne].
  - by rewrite list_lookup_insert_eq.
  - by rewrite list_lookup_insert_ne.
Qed.

Lemma read_write_other h a i v s :
  (a < length h)%nat ->
  (sc_arr s <> a \/ i < sc_off s \/ sc_off s + sc_len s <= i)%nat ->
  read (write h a i v) s = read h s.
Proof.
  intros Ha Hs. unfold read. rewrite cells_write by done.
  destruct (bool_decide_reflect (sc_arr s = a)) as [<-|]; [|done].
  destruct Hs as [?|[Hlt|Hge]]; [done | by rewrite drop_insert_lt by lia |].
  rewrite drop_insert_ge by lia. by rewrite take_insert_ge by lia.
Qed.

Lemma read_write_end h s v :
  (sc_arr s < length h)%nat -> (sc_off s + sc_len s < length (cells h (sc_arr s)))%nat ->
  read (write h (sc_arr s) (sc_off s + sc_len s) v)
    (mkSlice (sc_arr s) (sc_off s) (S (sc_len s)) (sc_cap s)) = read h s ++ [v].
Proof.
  intros Ha Hl. unfold read. cbn [sc_arr sc_off sc_len]. rewrite cells_write, bool_decide_true by done.
  rewrite (take_S_r _ _ v).
  - rewrite drop_insert_ge by lia. by rewrite take_insert_ge by lia.
  - rewrite lookup_drop. by apply list_lookup_insert_eq.
Qed.

Lemma read_grow h x s : (sc_arr s < length h)%nat -> read (h ++ [x]) s = read h s.
Proof. intros Ha. unfold read, cells. by rewrite lookup_app_l. Qed.

(** *** The invariant of the loop *)

(** A slice of the map: its cells exist, it holds the values of its key, and a
    slice of the shared array is full. *)
Record slice_ok (b : building) (s : goSlice) (vs : list bytes) : Prop := {
  so_arr : (sc_arr s < length (bd_heap b))%nat;
  so_read : read (bd_heap b) s = vs;
  so_len : sc_len s = length vs;
  so_pos : (0 < sc_len s)%nat;
  so_cap : (sc_len s <= sc_cap s)%nat;
  so_cells : (sc_off s + sc_cap s <= length (cells (bd_heap b) (sc_arr s)))%nat;
  so_first : sc_arr s = 0%nat -> (sc_off s < bd_idx b)%nat /\ sc_len s = 1%nat /\ sc_cap s = 1%nat }.

Record building_ok (n : nat) (pre : list (bytes * bytes)) (b : building) : Prop := {
  bo_first : (0 < length (bd_heap b))%nat /\ length (cells (bd_heap b) 0) = n;
  bo_idx : (bd_idx b <= length pre)%nat;
  bo_some : forall k s, bd_map b !! k = Some s -> slice_ok b s (values pre k);
  bo_none : forall k, bd_map b !! k = None -> values pre k = [];
  bo_apart : forall k1 k2 s1 s2, bd_map b !! k1 = Some s1 -> bd_map b !! k2 = Some s2 -> k1 <> k2 ->
    sc_arr s1 = sc_arr s2 -> sc_arr s1 = 0%nat /\ sc_off s1 <> sc_off s2 }.

Lemma building_start n : building_ok n [] (mkBuilding [replicate n []] ∅ 0).
Proof.
  constructor; cbn; try done.
  - split; [lia | by apply length_replicate].
Qed.

Lemma slice_ok_values b s vs vs' : slice_ok b s vs -> vs' = vs -> slice_ok b s vs'.
Proof. by intros H ->. Qed.

(** A change of the heap and the index that leaves a slice's cells alone. *)
Lemma slice_ok_frame b b' s vs :
  slice_ok b s vs -> (length (bd_heap b) <= length (bd_heap b'))%nat ->
  read (bd_heap b') s = read (bd_heap b) s ->
  length (cells (bd_heap b') (sc_arr s)) = length (cells (bd_heap b) (sc_arr s)) ->
  (bd_idx b <= bd_idx b')%nat -> slice_ok b' s vs.
Proof.
  intros [H1 H2 H3 Hpos H4 H5 H6] Hl Hr Hc Hi.
  constructor; [lia | congruence | done | done | done | lia |]. intros Hz. specialize (H6 Hz). lia.
Qed.

Section Grouping.
Context (spare : nat -> nat) (n : nat).

(** Storing a slice under a key, when the slices of the other keys keep their
    cells. *)
Lemma building_ok_set pre b k v h idx s' :
  building_ok n pre b ->
  (length (bd_heap b) <= length h)%nat -> length (cells h 0) = n ->
  (bd_idx b <= idx <= S (length pre))%nat ->
  slice_ok (mkBuilding h ∅ idx) s' (values pre k ++ [v]) ->
  (forall k2 s2, k2 <> k -> bd_map b !! k2 = Some s2 ->
     read h s2 = read (bd_heap b) s2 /\
     length (cells h (sc_arr s2)) = length (cells (bd_heap b) (sc_arr s2)) /\
     (sc_arr s2 = sc_arr s' -> sc_arr s' = 0%nat /\ sc_off s2 <> sc_off s')) ->
  building_ok n (pre ++ [(k, v)]) (mkBuilding h (<[k := s']> (bd_map b)) idx).
Proof.
  intros [[Hh Hc0] Hidx Hsome Hnone Hapart] Hlen Hn Hi Hs' Hother.
  assert (forall k2, k2 <> k -> values (pre ++ [(k, v)]) k2 = values pre k2) as Hval.
  { intros k2 Hne. rewrite values_snoc, bool_decide_false by congruence. apply app_nil_r. }
  constructor; cbn [bd_heap bd_map bd_idx].
  - split; [lia | done].
  - rewrite length_app. cbn. lia.
  - intros k2 s2. destruct (decide (k2 = k)) as [->|Hne].
    + rewrite lookup_insert_eq. intros [= <-]. rewrite values_snoc, bool_decide_true by done. by destruct Hs'.
    + rewrite lookup_insert_ne by done. intros H2. rewrite Hval by done.
      destruct (Hother k2 s2 Hne H2) as (R & L & _).
      eapply slice_ok_frame; [by apply Hsome | done | done | done | cbn; lia].
  - intros k2. destruct (decide (k2 = k)) as [->|Hne]; [by rewrite lookup_insert_eq|].
    rewrite lookup_insert_ne, Hval by done. apply Hnone.
  - intros k1 k2 s1 s2. destruct (decide (k1 = k)) as [->|N1], (decide (k2 = k)) as [->|N2];
      rewrite ?lookup_insert_eq, ?lookup_insert_ne by done; intros H1 H2 Hne E; simplify_eq.
    + destruct (Hother k2 s2 N2 H2) as (_ & _ & Hd). destruct (Hd (eq_sym E)). by split.
    + destruct (Hother k1 s1 N1 H1) as (_ & _ & Hd). destruct (Hd E). split; congruence.
    + by apply (Hapart k1 k2).
Qed.

(** [append] to the slice of a key: in place, in an array no other key uses, or
    to a new array. *)
Lemma add_existing pre b k v s :
  building_ok n pre b -> bd_map b !! k = Some s ->
  building_ok n (pre ++ [(k, v)])
    (mkBuilding (fst (append spare (bd_heap b) s v))
       (<[k := snd (append spare (bd_heap b) s v)]> (bd_map b)) (bd_idx b)).
Proof.
  intros Hb Hk. pose proof Hb as [[Hh Hc0] Hidx Hsome _ Hapart].
  pose proof (Hsome k s Hk) as [Ha Hr Hlen Hpos Hcap Hcells Hfirst]. unfold append.
  destruct (Nat.ltb_spec (sc_len s) (sc_cap s)) as [Hlt|Hge]; cbn [fst snd].
  - assert (sc_arr s <> 0%nat) as Hnz by (intros Hz; specialize (Hfirst Hz); lia).
    assert (forall a i x, length (write (bd_heap b) a i x) = length (bd_heap b)) as Hw
      by (intros; apply length_insert).
    apply building_ok_set; [done | by rewrite Hw | | lia | |].
    + by rewrite cells_write, bool_decide_false by congruence.
    + constructor; cbn [bd_heap bd_idx sc_arr sc_off sc_len sc_cap]; rewrite ?Hw;
        [done | | rewrite length_app; cbn; lia | lia | lia | | done].
      * rewrite read_write_end by (done || lia). by rewrite Hr.
      * rewrite cells_write, bool_decide_true, length_insert by done. lia.
    + intros k2 s2 Hne H2. cbn [sc_arr sc_off].
      assert (sc_arr s2 <> sc_arr s) as Hd
        by (intros E; destruct (Hapart k2 k s2 s H2 Hk Hne E) as [E0 _]; congruence).
      rewrite read_write_other, cells_write, bool_decide_false by (done || by left). done.
  - assert (length (read (bd_heap b) s) = sc_len s) as Hrl by congruence.
    apply building_ok_set; [done | rewrite length_app; lia | | lia | |].
    + unfold cells. rewrite lookup_app_l by lia. done.
    + set (x := read (bd_heap b) s ++ [v] ++ _). assert (cells (bd_heap b ++ [x]) (length (bd_heap b)) = x) as Hx
        by (unfold cells; by rewrite list_lookup_middle).
      constructor; cbn [bd_heap bd_idx sc_arr sc_off sc_len sc_cap];
        [rewrite length_app; cbn; lia | | rewrite length_app; cbn; lia | lia | lia | | lia].
      * unfold read at 1. cbn [sc_arr sc_off sc_len]. rewrite Hx. unfold x. cbn [drop].
        rewrite drop_0, app_assoc, take_app_length'; [by rewrite Hr|]. rewrite length_app. cbn. lia.
      * rewrite Hx. unfold x. rewrite !length_app, length_replicate. cbn. lia.
    + intros k2 s2 Hne H2. pose proof (so_arr _ _ _ (Hsome k2 s2 H2)) as Ha2. cbn [sc_arr sc_off].
      rewrite read_grow by done. unfold cells. rewrite lookup_app_l by done. split_and!; [done | done | lia].
Qed.

(** The first value of a key goes to the next cell of the shared array. *)
Lemma add_first pre b k v :
  building_ok n pre b -> bd_map b !! k = None -> (bd_idx b < n)%nat ->
  building_ok n (pre ++ [(k, v)])
    (mkBuilding (write (bd_heap b) 0 (bd_idx b) v)
       (<[k := mkSlice 0 (bd_idx b) 1 1]> (bd_map b)) (S (bd_idx b))).
Proof.
  intros Hb Hk Hi. pose proof Hb as [[Hh Hc0] Hidx Hsome Hnone _].
  assert (length (write (bd_heap b) 0 (bd_idx b) v) = length (bd_heap b)) as Hw by apply length_insert.
  assert (forall a, length (cells (write (bd_heap b) 0 (bd_idx b) v) a) = length (cells (bd_heap b) a)) as Hcl.
  { intros a. rewrite cells_write by done. destruct (bool_decide_reflect (a = 0%nat)) as [->|]; [|done].
    apply length_insert. }
  apply building_ok_set; [done | by rewrite Hw | by rewrite Hcl | lia | |].
  - rewrite Hnone by done. constructor; cbn [bd_heap bd_idx sc_arr sc_off sc_len sc_cap];
      rewrite ?Hw, ?Hcl; [done | | done | lia | lia | lia | lia].
    unfold read. cbn [sc_arr sc_off sc_len]. rewrite cells_write, bool_decide_true by done.
    rewrite drop_insert_ge, Nat.sub_diag by lia.
    destruct (drop (bd_idx b) (cells (bd_heap b) 0)) as [|x l] eqn:E; [|done].
    apply (f_equal length) in E. rewrite length_drop in E. cbn in E. lia.
  - intros k2 s2 Hne H2. destruct (Hsome k2 s2 H2) as [Ha2 _ _ _ _ _ Hf2]. rewrite Hcl. cbn [sc_arr sc_off].
    split_and!; [| done | intros E; specialize (Hf2 E); lia].
    apply read_write_other; [done|]. destruct (decide (sc_arr s2 = 0%nat)) as [E|]; [|by left].
    specialize (Hf2 E). lia.
Qed.

Lemma add_values_ok kvs pre b :
  building_ok n pre b -> (length pre + length kvs <= n)%nat ->
  exists b', add_values spare n b kvs = Ok b' /\ building_ok n (pre ++ kvs) b'.
Proof.
  revert pre b. induction kvs as [|[k v] kvs IH]; intros pre b Hb Hl; cbn [add_values].
  - exists b. by rewrite app_nil_r.
  - cbn [length] in Hl. rewrite (cons_middle (k, v) pre kvs), app_assoc. unfold add_value. cbn [fst snd].
    destruct (bd_map b !! k) as [s|] eqn:Ek.
    + pose proof (add_existing pre b k v s Hb Ek) as Hb'.
      destruct (append spare (bd_heap b) s v) as [h s']. cbn [mbind res_bind fst snd] in *.
      apply IH; [done|]. rewrite length_app. cbn. lia.
    + pose proof (bo_idx _ _ _ Hb). destruct (Nat.ltb_spec (bd_idx b) n); [|lia]. cbn [mbind res_bind].
      apply IH; [by apply add_first|]. rewrite length_app. cbn. lia.
Qed.
End Grouping.

Lemma buildHeaders_run spare kvs :
  exists h m, buildHeaders spare kvs = Ok (h, m) /\
    forall k, option_map (read h) (m !! k) =
      match values kvs k with [] => None | vs => Some vs end.
Proof.
  unfold buildHeaders. destruct kvs as [|kv kvs]; [by exists [], ∅|].
  destruct (add_values_ok spare (length (kv :: kvs)) (kv :: kvs) [] _ (building_start _)) as (b & -> & Hb);
    [cbn; lia|].
  exists (bd_heap b), (bd_map b). split; [done|]. intros k. destruct (bd_map b !! k) as [s|] eqn:E.
  - destruct (bo_some _ _ _ Hb k s E) as [_ Hr Hlen Hpos _ _ _]. cbn [option_map app] in *. rewrite Hr.
    destruct (values (kv :: kvs) k) eqn:Ev; [cbn in Hlen; lia | done].
  - pose proof (bo_none _ _ _ Hb k E) as Hn. cbn [app] in Hn. by rewrite Hn.
Qed.

(** The plain way to build the map: one header after the other, each value at
    the end of the list of its name. *)
Definition add_parsed (headers : gmap bytes (list bytes)) (h : headerLine) : gmap bytes (list bytes) :=
  addParsedHeader headers (Name h) (Value h).

Definition keyed (hs : list headerLine) : list (bytes * bytes) :=
  map (fun h => (header_key (Name h), Value h)) hs.

Lemma addParsedHeader_key headers name value :
  addParsedHeader headers name value =
    <[header_key name := default [] (headers !! header_key name) ++ [value]]> headers.
Proof.
  unfold addParsedHeader, header_key. destruct (canonicalHeaderKey name) as [k|]; f_equal;
    by destruct (headers !! _).
Qed.

Lemma add_parsed_values hs k :
  fold_left add_parsed hs ∅ !! k = match values (keyed hs) k with [] => None | vs => Some vs end.
Proof.
  induction hs as [|h hs IH] using rev_ind; [done|]. rewrite fold_left_app. cbn [fold_left].
  unfold keyed. rewrite map_app. cbn [map]. rewrite values_snoc. fold (keyed hs).
  unfold add_parsed at 1. rewrite addParsedHeader_key.
  destruct (decide (header_key (Name h) = k)) as [->|Hk].
  - rewrite lookup_insert_eq, IH, bool_decide_true by done. by destruct (values (keyed hs) k).
  - rewrite lookup_insert_ne, IH, bool_decide_false, app_nil_r by done. done.
Qed.

(** C30. The header map groups the values of each name in the order they came,
    for any headers and whatever spare room [append] leaves in new arrays:
    although the first values of all names share one array, no value overwrites
    another, and the map is the one that adding the headers one by one with
    [addParsedHeader] gives. *)
Theorem buildHeaders_correct spare hs :
  exists h m, buildHeaders spare (keyed hs) = Ok (h, m) /\
    forall k,
      option_map (read h) (m !! k) = match values (keyed hs) k with [] => None | vs => Some vs end /\
      option_map (read h) (m !! k) = fold_left add_parsed hs ∅ !! k.
Proof.
  destruct (buildHeaders_run spare (keyed hs)) as (h & m & E & Hv). exists h, m. split; [done|].
  intros k. by rewrite add_parsed_values, Hv.
Qed.

(** ** The head of a request *)

(** A line that can be read: it fits and has no LF. *)
Definition readable (l : bytes) : Prop := (LF ∉ l) /\ blen l <= MaxHeaderSize.

Lemma readCRLFLine_readable n l rest err :
  (0 < n)%nat -> readable l ->
  readCRLFLine (mkReader n (l ++ CRLF ++ rest) err) = Ok (inl l, mkReader n rest err).
Proof.
  intros Hn [Hl Hm]. destruct (readCRLFLine_run n (l ++ CRLF ++ rest) err Hn) as [H _].
  rewrite (H (l ++ [CR]) rest); [| by rewrite <- app_assoc |].
  - rewrite line_result_crlf. by destruct (Z.ltb_spec MaxHeaderSize (blen l)); [lia|].
  - rewrite not_elem_of_app. split; [done|]. by intros [=]%list_elem_of_singleton.
Qed.

Definition is_host (h : headerLine) : bool := equalFoldToken (Name h) (bs "host").
Definition conn_token (token : bytes) (h : headerLine) : bool :=
  equalFoldToken (Name h) (bs "connection") && has_token token (Value h).

(** The host: the one of the target, or else the first of the Host headers that
    is not empty. *)
Definition first_host (hosts : list bytes) : bytes :=
  default [] (List.find (fun h => negb (bool_decide (h = []))) hosts).

(** The state of the header loop after the headers [hs]. *)
Definition head_after (meta : messageMeta) (host : bytes) (hs : list headerLine) : headState :=
  mkHead (map (fun h => (header_key (Name h), Value h)) (List.filter (fun h => negb (is_host h)) hs))
    meta (first_host (host :: map Value (List.filter is_host hs)))
    (existsb (conn_token (bs "close")) hs) (existsb (conn_token (bs "keep-alive")) hs).

Lemma first_host_snoc hosts h :
  first_host (hosts ++ [h]) = if bool_decide (first_host hosts = []) then h else first_host hosts.
Proof.
  unfold first_host. induction hosts as [|x hosts IH]; cbn.
  - destruct (bool_decide_reflect (h = [])) as [->|]; done.
  - destruct (bool_decide_reflect (x = [])) as [->|Hx]; cbn; [exact IH|]. by rewrite bool_decide_false.
Qed.

Lemma host_not_connection h : is_host h = true -> equalFoldToken (Name h) (bs "connection") = false.
Proof.
  unfold is_host. rewrite equalFoldToken_true, equalFoldToken_spec. intros E. rewrite E. done.
Qed.

Lemma conn_token_host token h : is_host h = true -> conn_token token h = false.
Proof. intros E. unfold conn_token. by rewrite host_not_connection. Qed.

Lemma if_orb (a b : bool) : (if a then true else b) = b || a.
Proof. by destruct a, b. Qed.

Lemma head_header_run {R} meta meta' host hs h (r : R) :
  applyHeaderMeta meta h = Some meta' ->
  head_header h (head_after meta host hs) r = Ok (inl (head_after meta' host (hs ++ [h])), r).
Proof.
  intros Hm. unfold head_header, head_after. cbn [hd_meta hd_parsed hd_host hd_close hd_keepAlive]. rewrite Hm.
  rewrite !List.filter_app, !map_app, !existsb_app. cbn [List.filter map existsb]. rewrite !orb_false_r.
  fold (is_host h). destruct (is_host h) eqn:Eh; cbn [negb map].
  - rewrite !(conn_token_host _ h Eh), !orb_false_r, app_nil_r.
    rewrite app_comm_cons, first_host_snoc. unfold mret, RM_ret. cbn. by destruct (bool_decide _).
  - rewrite !app_nil_r. unfold mbind, RM_bind, mret, RM_ret, conn_token, headerValueHasTokenBytes.
    destruct (equalFoldToken (Name h) (bs "connection")); cbn [andb].
    + rewrite !token_loop_run by (done || lia). cbn. by rewrite !if_orb.
    + cbn. by rewrite !orb_false_r.
Qed.

(** A header block and the empty line after it. *)
Lemma head_loop_run n lines hs1 hs fuel meta meta' host rest err :
  (0 < n)%nat -> Forall (fun l => readable l /\ l <> []) lines ->
  Forall2 (fun l h => parseHeaderLineBytes l = Ok (Some h)) lines hs1 ->
  applyHeaders meta hs1 = Some meta' -> (length lines < fuel)%nat ->
  head_loop fuel (head_after meta host hs) (mkReader n (header_block lines ++ CRLF ++ rest) err) =
    Ok (inl (head_after meta' host (hs ++ hs1)), mkReader n rest err).
Proof.
  intros Hn Hl Hp. revert hs fuel meta. induction Hp as [|l h lines hs1 Hh Hp IH];
    intros hs [|fuel] meta Ha Hf; try (cbn in Hf; lia); cbn [head_loop]; unfold mbind at 1, RM_bind at 1.
  - injection Ha as <-. rewrite app_nil_r. change (header_block [] ++ CRLF ++ rest) with ([] ++ CRLF ++ rest).
    rewrite (readCRLFLine_readable n [] rest err) by first [done | by split; [apply not_elem_of_nil | ]]. done.
  - inversion_clear Hl as [|? ? [Hr Hne] Hl']. cbn [applyHeaders] in Ha.
    destruct (applyHeaderMeta meta h) as [m1|] eqn:Em; [|done].
    replace (header_block (l :: lines) ++ CRLF ++ rest) with (l ++ CRLF ++ (header_block lines ++ CRLF ++ rest))
      by (unfold header_block; cbn; by rewrite <- !app_assoc).
    rewrite readCRLFLine_readable by done.
    destruct (Z.eqb_spec (blen l) 0) as [Hz|_]; [by apply blen_zero in Hz|].
    unfold mbind at 1, RM_bind at 1. rewrite Hh. cbn [pure]. unfold mbind at 1, RM_bind at 1.
    rewrite (head_header_run meta m1) by done. rewrite (cons_middle h hs hs1), (app_assoc hs).
    apply IH; [done | done | cbn in Hf; lia].
Qed.

Lemma header_block_length lines : (length lines <= length (header_block lines))%nat.
Proof.
  induction lines as [|l lines IH]; [done|]. unfold header_block in *. cbn. rewrite !length_app. cbn. lia.
Qed.

(** What the framing of a request says of its body. *)
Definition request_framing (meta : messageMeta) : bodyReader * Z * list bytes :=
  if m_hasTransferEncoding meta then (ChunkedReader, -1, [bs "chunked"])
  else if m_hasContentLength meta && (0 <? m_contentLength meta)
  then (LimitReader (m_contentLength meta), m_contentLength meta, [])
  else (NoBody, if m_hasContentLength meta then m_contentLength meta else 0, []).

Definition no_framing : messageMeta := mkMeta REQUEST 0 false 0 false.

(** The request that a request line and headers describe. *)
Definition request_of (l : requestLine) (u : url_URL) (hs : list headerLine) (meta : messageMeta)
    (h : heap) (m : gmap bytes goSlice) : Request :=
  mkRequest (Method_String (rl_Method l)) u (httpVersionString (rl_Major l) (rl_Minor l))
    (rl_Major l) (rl_Minor l) h m (first_host (u_Host u :: map Value (List.filter is_host hs)))
    (rl_Target l)
    (shouldCloseAfterReadConnection (rl_Major l) (rl_Minor l)
       (existsb (conn_token (bs "close")) hs) (existsb (conn_token (bs "keep-alive")) hs))
    (fst (fst (request_framing meta))) (snd (fst (request_framing meta))) (snd (request_framing meta)).

(** The named values of all headers but the hosts. *)
Definition named_values (hs : list headerLine) : list (bytes * bytes) :=
  map (fun h => (header_key (Name h), Value h)) (List.filter (fun h => negb (is_host h)) hs).

Lemma request_end {R} l u hs meta h m (r : R) :
  m_kind meta = REQUEST ->
  (let req body length te :=
     mkRequest (Method_String (rl_Method l)) u (httpVersionString (rl_Major l) (rl_Minor l))
       (rl_Major l) (rl_Minor l) h m (hd_host (head_after meta (u_Host u) hs)) (rl_Target l)
       (shouldCloseAfterReadConnection (rl_Major l) (rl_Minor l)
          (hd_close (head_after meta (u_Host u) hs)) (hd_keepAlive (head_after meta (u_Host u) hs)))
       body length te in
   match decideBodyMode meta with
   | bodyModeNone => mret (req NoBody 0 [])
   | bodyModeContentLength =>
       mret (req (if 0 <? m_contentLength meta then LimitReader (m_contentLength meta) else NoBody)
               (m_contentLength meta) [])
   | bodyModeChunked => mret (req ChunkedReader (-1) [bs "chunked"])
   | bodyModeEOF => throw UnsupportedBodyMode
   end : RM R Request) r = Ok (inl (request_of l u hs meta h m), r).
Proof.
  intros Hk. unfold request_of, request_framing, decideBodyMode. rewrite Hk.
  destruct (m_hasTransferEncoding meta), (m_hasContentLength meta); try done.
  cbn [andb]. destruct (Z.eqb_spec (m_contentLength meta) 0) as [->|]; [done|].
  by destruct (0 <? m_contentLength meta).
Qed.

Lemma ReadRequest_run ParseRequestURI spare n line lines l u hs meta rest err :
  (0 < n)%nat -> readable line -> Forall (fun x => readable x /\ x <> []) lines ->
  parseRequestLineBytes line = Ok (Some l) ->
  Forall2 (fun x h => parseHeaderLineBytes x = Ok (Some h)) lines hs ->
  parseRequestURL ParseRequestURI (rl_Method l) (rl_Target l) = Ok (inl u) ->
  applyHeaders no_framing hs = Some meta ->
  exists h m,
    ReadRequest ParseRequestURI spare
      (mkReader n (line ++ CRLF ++ header_block lines ++ CRLF ++ rest) err) =
        Ok (inl (request_of l u hs meta h m), mkReader n rest err) /\
    forall k, option_map (read h) (m !! k) =
      match values (named_values hs) k with [] => None | vs => Some vs end.
Proof.
  intros Hn Hline Hlines Hl Hh Hu Hm.
  destruct (buildHeaders_run spare (named_values hs)) as (h & m & Hb & Hv). exists h, m. split; [|exact Hv].
  unfold ReadRequest, lr_left, bufReader_lines at 2. unfold mbind at 1, RM_bind at 1. rewrite readCRLFLine_readable by done.
  unfold mbind at 1, RM_bind at 1. rewrite Hl. cbn [pure].
  unfold mbind at 1, RM_bind at 1. rewrite Hu. cbn [pure].
  unfold mbind at 1, RM_bind at 1.
  change (mkHead [] (mkMeta REQUEST 0 false 0 false) (u_Host u) false false)
    with (mkHead [] no_framing (u_Host u) false false).
  replace (mkHead [] no_framing (u_Host u) false false) with (head_after no_framing (u_Host u) []).
  2:{ unfold head_after, first_host. cbn. by destruct (bool_decide_reflect (u_Host u = [])) as [->|]. }
  rewrite (head_loop_run n lines hs [] _ no_framing meta) by
    (done || (pose proof (header_block_length lines); cbn [rd_data]; rewrite !length_app; cbn; lia)).
  cbn [app]. unfold mbind at 1, RM_bind at 1. cbn [hd_parsed head_after]. fold (named_values hs).
  rewrite Hb. cbn [pure fst snd].
  apply (request_end l u hs meta h m). by rewrite (proj1 (applyHeaders_kind _ _ _ Hm)).
Qed.

(** C10. A request head is read exactly: a request line and header lines, each
    ended by CRLF, then an empty line, give the request they describe (method,
    target, version, host, connection handling, framing, and every header's values
    in order under its canonical name), whatever the buffer size, and the reader
    is left at the first byte of the body. *)
Theorem ReadRequest_correct ParseRequestURI spare n line lines l u hs meta rest err :
  (0 < n)%nat -> readable line -> Forall (fun x => readable x /\ x <> []) lines ->
  parseRequestLineBytes line = Ok (Some l) ->
  Forall2 (fun x h => parseHeaderLineBytes x = Ok (Some h)) lines hs ->
  parseRequestURL ParseRequestURI (rl_Method l) (rl_Target l) = Ok (inl u) ->
  applyHeaders no_framing hs = Some meta ->
  exists h m,
    ReadRequest ParseRequestURI spare
      (mkReader n (line ++ CRLF ++ header_block lines ++ CRLF ++ rest) err) =
        Ok (inl (request_of l u hs meta h m), mkReader n rest err) /\
    forall k, option_map (read h) (m !! k) =
      match values (named_values hs) k with [] => None | vs => Some vs end.
Proof. exact (ReadRequest_run ParseRequestURI spare n line lines l u hs meta rest err). Qed.

Lemma ReadRequest_correct_witness :
  let post := bs "POST /a?b=c HTTP/1.1" in
  let lines := [bs "Host: h"; bs "accept: x"; bs "Content-Length: 3"; bs "Accept: y"; bs "connection: CLOSE , x"] in
  exists r,
    ReadRequest (fun _ => inr ErrReqMethod) (fun n => n)
      (mkReader 7 (post ++ CRLF ++ header_block lines ++ CRLF ++ bs "abcGET") ErrMethod) =
      Ok (inl r, mkReader 7 (bs "abcGET") ErrMethod) /\
    r_Body r = LimitReader 3 /\ r_Close r = true /\ r_Host r = bs "h" /\
    r_URL r = plainURL [] (bs "/a") (bs "b=c") /\
    option_map (read (r_heap r)) (r_Header r !! bs "Accept") = Some [bs "x"; bs "y"].
Proof.
  cbv zeta.
  destruct (ReadRequest_correct (fun _ => inr ErrReqMethod) (fun n => n) 7 (bs "POST /a?b=c HTTP/1.1")
    [bs "Host: h"; bs "accept: x"; bs "Content-Length: 3"; bs "Accept: y"; bs "connection: CLOSE , x"]
    (mkRequestLine POST (bs "/a?b=c") 1 1) (plainURL [] (bs "/a") (bs "b=c"))
    [mkHeaderLine (bs "Host") (bs "h"); mkHeaderLine (bs "accept") (bs "x");
     mkHeaderLine (bs "Content-Length") (bs "3"); mkHeaderLine (bs "Accept") (bs "y");
     mkHeaderLine (bs "connection") (bs "CLOSE , x")]
    (mkMeta REQUEST 0 true 3 false) (bs "abcGET") ErrMethod) as (h & m & E & Hv).
  1: lia.
  1: split; [refine (bool_decide_unpack _ _); vm_compute; exact I | by vm_compute].
  1: repeat (constructor; [split; [split; [refine (bool_decide_unpack _ _); vm_compute; exact I | by vm_compute] | done]|]);
       constructor.
  1: by vm_compute.
  1: repeat (constructor; [by vm_compute|]); constructor.
  1: by vm_compute.
  1: by vm_compute.
  eexists. split; [exact E|]. split_and!; [by vm_compute .. |]. cbn [r_heap r_Header request_of].
  rewrite Hv. by vm_compute.
Defined.

(** ** Termination and targets *)

(** Reading a line succeeds with less left to read, or is an error. *)
Lemma readCRLFLine_total n b err :
  (0 < n)%nat ->
  exists x b', readCRLFLine (mkReader n b err) = Ok (x, mkReader n b' err) /\
    (length b' <= length b)%nat /\ forall l, x = inl l -> (length b' < length b)%nat.
Proof.
  intros Hn. destruct (readCRLFLine_run n b err Hn) as [H1 H2].
  destruct (scanToByte b LF) as [i|] eqn:Hs.
  - apply scanToByte_Some in Hs as (l & rest & E & Hl & _). rewrite (H1 l rest E Hl).
    eexists _, _. split; [done|]. rewrite E, length_app. cbn. split; [lia | intros; lia].
  - apply scanToByte_None in Hs. rewrite (H2 Hs). eexists _, _. split; [done|]. cbn. split; [lia | done].
Qed.

Lemma head_header_total {R} h st (r : R) : exists x, head_header h st r = Ok (x, r).
Proof.
  unfold head_header, mbind, RM_bind, mret, RM_ret, throw, headerValueHasTokenBytes.
  destruct (applyHeaderMeta _ _); [|eauto]. destruct (equalFoldToken _ _); [eauto|].
  destruct (equalFoldToken _ _); [|eauto]. rewrite !token_loop_run by (done || lia). cbn. eauto.
Qed.

Lemma head_loop_total n err fuel st b :
  (0 < n)%nat -> (length b < fuel)%nat ->
  exists x b', head_loop fuel st (mkReader n b err) = Ok (x, mkReader n b' err) /\ (length b' <= length b)%nat.
Proof.
  intros Hn. revert st b. induction fuel as [|fuel IH]; intros st b Hf; [lia|]. cbn [head_loop].
  unfold mbind at 1, RM_bind at 1.
  destruct (readCRLFLine_total n b err Hn) as ([l|e] & b' & -> & Hle & Hlt); [|eauto].
  specialize (Hlt l eq_refl). destruct (blen l =? 0); [eexists _, _; done|].
  unfold mbind at 1, RM_bind at 1. destruct (parseHeaderLineBytes_total l) as [[h|] ->]; [|eexists _, _; done].
  cbn [pure]. unfold mbind, RM_bind.
  destruct (head_header_total h st (mkReader n b' err)) as [[st'|e] ->]; [|eauto].
  destruct (IH st' b') as (x & b2 & -> & Hle2); [lia|]. exists x, b2. split; [done | lia].
Qed.

Lemma target_loop_spec b i q :
  target_loop b i q =
    if existsb (fun c => Byte.eqb c "%" || Byte.eqb c "#") b then None
    else Some (match q with Some _ => q | None => option_map (Z.add i) (scanToByte b "?") end).
Proof.
  revert i q. induction b as [|c b IH]; intros i q; cbn [target_loop existsb]; [by destruct q|].
  destruct (_ || _); [done|]. cbn [orb]. rewrite scanToByte_cons.
  destruct (Byte.eqb c "?") eqn:E; rewrite IH; destruct (existsb _ b); try done; destruct q as [z|]; cbn; try done.
  - by rewrite Z.add_0_r.
  - destruct (scanToByte b "?"); cbn; [|done]. do 2 f_equal. lia.
Qed.

(** What a target stands for. *)
Definition target_url (ParseRequestURI : bytes -> url_URL + perror) (method : Method) (t : bytes)
    : url_URL + perror :=
  if bool_decide (head t = Some "/"%byte) then
    if existsb (fun c => Byte.eqb c "%" || Byte.eqb c "#") t then ParseRequestURI t
    else inl (match scanToByte t "?" with
              | Some q => plainURL [] (take (Z.to_nat q) t) (drop (S (Z.to_nat q)) t)
              | None => plainURL [] t []
              end)
  else if bool_decide (method = CONNECT) then inl (plainURL t [] []) else ParseRequestURI t.

Lemma parseRequestURL_run ParseRequestURI method t :
  parseRequestURL ParseRequestURI method t = Ok (target_url ParseRequestURI method t).
Proof.
  unfold parseRequestURL, target_url. destruct t as [|c t]; [by destruct (bool_decide (method = CONNECT))|].
  cbn [head tail]. rewrite scanToByte_cons. destruct (Byte.eqb c "/") eqn:E.
  - apply byte_eqb_eq in E as ->. rewrite andb_false_r, bool_decide_true by done.
    rewrite target_loop_spec. cbn [existsb]. change (Byte.eqb "/" "%" || Byte.eqb "/" "#") with false. cbn [orb].
    destruct (existsb _ t); [done|]. change (Byte.eqb "/" "?") with false. cbv iota.
    destruct (scanToByte t "?") as [q|] eqn:Hq; cbn [option_map]; [|done].
    apply scanToByte_Some in Hq as (l & r & -> & _ & ->). set (t := l ++ "?"%byte :: r).
    assert (blen ("/"%byte :: t) = 2 + blen l + blen r) as Hb by (subst t; blens).
    pose proof (blen_nonneg l). pose proof (blen_nonneg r). unfold gslice_from.
    rewrite !gslice_ok by lia. cbn [mbind res_bind]. rewrite drop_0, Z.sub_0_r.
    rewrite (take_ge (drop _ _)) by (rewrite length_drop; unfold blen in *; lia).
    do 4 f_equal; lia.
  - apply byte_eqb_neq in E. rewrite (bool_decide_false (Some c = Some "/"%byte)) by congruence. rewrite andb_true_r.
    by destruct (bool_decide (method = CONNECT)).
Qed.

(** Origin-form targets are split without the general parser: a target that
    starts with a slash and has no percent or hash sign gives the path before its
    first question mark and the query after it; a CONNECT target without a slash is
    a host; every other target is left to the general parser. *)
Theorem parseRequestURL_correct ParseRequestURI method t :
  parseRequestURL ParseRequestURI method t = Ok (target_url ParseRequestURI method t).
Proof. exact (parseRequestURL_run ParseRequestURI method t). Qed.

Lemma ReadRequest_returns ParseRequestURI spare n b err :
  (0 < n)%nat ->
  exists x b', ReadRequest ParseRequestURI spare (mkReader n b err) = Ok (x, mkReader n b' err) /\
    (length b' <= length b)%nat /\ forall req, x = inl req -> (length b' < length b)%nat.
Proof.
  intros Hn. unfold ReadRequest. cbn [rd_data lr_left bufReader_lines]. unfold mbind at 1, RM_bind at 1.
  destruct (readCRLFLine_total n b err Hn) as ([line|e] & b1 & -> & Hle & Hlt); [|by eexists _, _].
  specialize (Hlt line eq_refl).
  unfold mbind at 1, RM_bind at 1. destruct (parseRequestLineBytes_total line) as [[l|] ->]; [|eexists _, _; done].
  cbn [pure]. unfold mbind at 1, RM_bind at 1. rewrite parseRequestURL_run. cbn [pure].
  destruct (target_url _ _ _) as [u|e]; [|eexists _, _; done].
  unfold mbind at 1, RM_bind at 1.
  destruct (head_loop_total n err (S (length b)) (mkHead [] (mkMeta REQUEST 0 false 0 false) (u_Host u) false false)
    b1 Hn) as ([st|e] & b2 & -> & Hle2); [lia | |eexists _, _; split; [done|]; split; [lia | done]].
  unfold mbind at 1, RM_bind at 1. destruct (buildHeaders_run spare (hd_parsed st)) as (h & m & -> & _).
  cbn [pure]. destruct (decideBodyMode (hd_meta st)); eexists _, _; (split; [done|]); split; first [lia | intros; lia].
Qed.

(** [ReadRequest] always returns, with a request or an error, whatever the
    connection delivers and whatever the buffer size: no input makes it panic or
    loop, and it never reads past what is there. *)
Theorem ReadRequest_total ParseRequestURI spare n b err :
  (0 < n)%nat ->
  exists x b', ReadRequest ParseRequestURI spare (mkReader n b err) = Ok (x, mkReader n b' err).
Proof. intros Hn. destruct (ReadRequest_returns ParseRequestURI spare n b err Hn) as (x & b' & E & _). eauto. Qed.

Lemma ReadRequest_total_witness :
  exists x b', ReadRequest (fun _ => inr ErrReqMethod) (fun _ => 0%nat)
    (mkReader 4 (bs "GET % HTTP/1.1") ErrMethod) = Ok (x, mkReader 4 b' ErrMethod).
Proof. apply ReadRequest_total. lia. Defined.
