(* ===== verification/Reader.v ===== *)
(** * Readers (io.Reader, bufio.Reader, adaptor.BufferedConn)

    [Request] sees a buffered reader as the bytes that are left.  Here is the
    reader itself: a connection that delivers its bytes in pieces of any size, the
    buffer that is filled from it, and the wrapper that [Hijack] hands out.
    [io.Reader] is a class with a law; the theorems show that the view of [Request]
    is right however the bytes arrive, and that nothing is lost to a handler that
    takes the connection over. *)

From S2P Require Import Prelude Scan Strconv Method StartLine Framing Request.

(** ** io.Reader *)

(** [Read(p)] with [len(p) = n]: the bytes, and the error if there is one. *)
Class ioReader (R : Type) : Type := Read : nat -> R -> bytes * option perror * R.

(** A reader that delivers the bytes [pending] in order, at least one per call, and
    then its error, again and again. *)
Class Stream (R : Type) `{ioReader R} : Type := {
  valid : R -> Prop;
  pending : R -> bytes;
  ending : R -> perror;
  Read_law : forall n r, (0 < n)%nat -> valid r ->
    let '(p, e, r') := Read n r in
    valid r' /\ ending r' = ending r /\ pending r = p ++ pending r' /\ (length p <= n)%nat /\
    match e with None => p <> [] | Some x => p = [] /\ pending r' = [] /\ x = ending r end }.

(** *** A connection *)

(** The pieces that arrive, and the error at the end. *)
Record wire : Type := mkWire { wi_pieces : list bytes; wi_err : perror }.

Fixpoint read_pieces (n : nat) (ps : list bytes) : bytes * list bytes :=
  match ps with
  | [] => ([], [])
  | [] :: ps' => read_pieces n ps'
  | p :: ps' => (take n p, if (n <? length p)%nat then drop n p :: ps' else ps')
  end.

#[global] Instance wire_reader : ioReader wire := fun n r =>
  match read_pieces n (wi_pieces r) with
  | ([], ps) => ([], Some (wi_err r), mkWire ps (wi_err r))
  | (p, ps) => (p, None, mkWire ps (wi_err r))
  end.

Lemma read_pieces_spec n ps :
  (0 < n)%nat ->
  match read_pieces n ps with
  | ([], ps') => concat ps = [] /\ concat ps' = []
  | (p, ps') => (length p <= n)%nat /\ concat ps = p ++ concat ps'
  end.
Proof.
  intros Hn. induction ps as [|[|x p] ps IH]; cbn [read_pieces]; [done | exact IH |].
  destruct n as [|n]; [lia|]. cbn [take]. split; [cbn; rewrite length_take; lia|].
  destruct (Nat.ltb_spec (S n) (length (x :: p))) as [Hlt|Hge]; cbn [concat drop app].
  - by rewrite app_assoc, take_drop.
  - cbn in Hge. by rewrite take_ge by lia.
Qed.

#[global] Program Instance wire_stream : Stream wire := {|
  valid := fun _ => True; pending := fun r => concat (wi_pieces r); ending := wi_err |}.
Next Obligation.
  intros n r Hn _. unfold Read, wire_reader. pose proof (read_pieces_spec n (wi_pieces r) Hn) as Hs.
  destruct (read_pieces n (wi_pieces r)) as [[|x p] ps]; cbn -[concat]; destruct Hs as [H1 H2]; split_and!; try done; try lia.
  congruence.
Qed.

(** ** bufio.Reader *)

(** The size of the buffer, the bytes in it, the error that was read, and the reader
    below. *)
Record bufio (R : Type) : Type := mkBufio {
  b_size : nat; b_buf : bytes; b_err : option perror; b_rd : R }.
Arguments mkBufio {R}. Arguments b_size {R}. Arguments b_buf {R}. Arguments b_err {R}. Arguments b_rd {R}.

Section Bufio.
Context {R : Type} `{ioReader R}.

Definition NewReaderSize (rd : R) (size : nat) : bufio R := mkBufio (Nat.max size 16) [] None rd.
Definition NewReader (rd : R) : bufio R := NewReaderSize rd 4096.

Definition Buffered (b : bufio R) : nat := length (b_buf b).

(** [fill], for a reader that does not return without bytes and without an error. *)
Definition fill (b : bufio R) : bufio R :=
  let '(p, e, rd) := Read (b_size b - length (b_buf b)) (b_rd b) in
  mkBufio (b_size b) (b_buf b ++ p) e rd.

(** [ReadSlice('\n')]; [fuel] bounds the calls of [fill]. *)
Fixpoint slice_loop (fuel : nat) (b : bufio R) : res (bytes * sliceErr * bufio R) :=
  match fuel with
  | O => Crash OutOfFuel
  | S fuel' =>
      match scanToByte (b_buf b) LF with
      | Some i =>
          let n := S (Z.to_nat i) in
          Ok (take n (b_buf b), NoErr, mkBufio (b_size b) (drop n (b_buf b)) (b_err b) (b_rd b))
      | None =>
          match b_err b with
          | Some e => Ok (b_buf b, ReadErr e, mkBufio (b_size b) [] None (b_rd b))
          | None =>
              if (b_size b <=? length (b_buf b))%nat
              then Ok (b_buf b, ErrBufferFull, mkBufio (b_size b) [] None (b_rd b))
              else slice_loop fuel' (fill b)
          end
      end
  end.

Definition bufio_ReadSlice (b : bufio R) : res (bytes * sliceErr * bufio R) := slice_loop (S (S (b_size b))) b.

(** [Read]: what is buffered; else directly into a large [p], or through the buffer. *)
Definition bufio_Read (n : nat) (b : bufio R) : bytes * option perror * bufio R :=
  match b_buf b, b_err b with
  | [], e => if (n =? 0)%nat then ([], e, mkBufio (b_size b) [] None (b_rd b)) else
  match e with
  | Some e => ([], Some e, mkBufio (b_size b) [] None (b_rd b))
  | None =>
      if (b_size b <=? n)%nat then
        let '(p, e, rd) := Read n (b_rd b) in (p, e, mkBufio (b_size b) [] None rd)
      else
        let '(p, e, rd) := Read (b_size b) (b_rd b) in
        match p with
        | [] => ([], e, mkBufio (b_size b) [] None rd)
        | _ => (take n p, None, mkBufio (b_size b) (drop n p) e rd)
        end
  end
  | buf, e => (take n buf, None, mkBufio (b_size b) (drop n buf) e (b_rd b))
  end.
End Bufio.

#[global] Instance bufio_reader {R} `{ioReader R} : ioReader (bufio R) := bufio_Read.

(** ** adaptor.BufferedConn *)

(** The connection, which is also the reader below the buffered one. *)
Record BufferedConn (R : Type) : Type := mkBufferedConn { bc_Reader : bufio R }.
Arguments mkBufferedConn {R}. Arguments bc_Reader {R}.

Definition BufferedConn_Read {R} `{ioReader R} (n : nat) (c : BufferedConn R) : bytes * option perror * BufferedConn R :=
  let b := bc_Reader c in
  if (0 <? Buffered b)%nat then let '(p, e, b') := Read n b in (p, e, mkBufferedConn b')
  else let '(p, e, rd) := Read n (b_rd b) in (p, e, mkBufferedConn (mkBufio (b_size b) (b_buf b) (b_err b) rd)).

#[global] Instance bufferedConn_reader {R} `{ioReader R} : ioReader (BufferedConn R) := BufferedConn_Read.

(** The reader that [Hijack] returns: a new buffer over the wrapped connection. *)
Definition hijack_reader {R} `{ioReader R} (reader : bufio R) : BufferedConn R * bufio (BufferedConn R) :=
  let wrappedConn := mkBufferedConn reader in (wrappedConn, NewReader wrappedConn).
