(* ===== verification/ReaderSpec.v ===== *)
(** * What the readers guarantee *)

From S2P Require Import Prelude Scan Strconv Method StartLine Framing Request RequestSpec Reader.

(** ** The buffer is a stream over a stream *)

Section Streams.
Context {R : Type} `{Stream R}.

(** A buffer that is not empty of size, not overfull, and whose error is the end. *)
Definition bufio_valid (b : bufio R) : Prop :=
  (0 < b_size b)%nat /\ (length (b_buf b) <= b_size b)%nat /\ valid (b_rd b) /\
  match b_err b with
  | Some e => pending (b_rd b) = [] /\ e = ending (b_rd b) /\ (length (b_buf b) < b_size b)%nat
  | None => True
  end.

Definition bufio_pending (b : bufio R) : bytes := b_buf b ++ pending (b_rd b).
Definition bufio_ending (b : bufio R) : perror := ending (b_rd b).

Lemma bufio_Read_law n b :
  (0 < n)%nat -> bufio_valid b ->
  let '(p, e, b') := bufio_Read n b in
  bufio_valid b' /\ bufio_ending b' = bufio_ending b /\ bufio_pending b = p ++ bufio_pending b' /\ (length p <= n)%nat /\
  match e with None => p <> [] | Some x => p = [] /\ bufio_pending b' = [] /\ x = bufio_ending b end.
Proof.
  intros Hn (Hs & Hl & Hv & He). unfold bufio_Read, bufio_valid, bufio_pending, bufio_ending.
  destruct (b_buf b) as [|x buf] eqn:Eb.
  - destruct (Nat.eqb_spec n 0); [lia|]. destruct (b_err b) as [e|].
    { destruct He as (He & -> & _). cbn. rewrite He. split_and!; try done; lia. }
    destruct (Nat.leb_spec (b_size b) n).
    + pose proof (Read_law n (b_rd b) Hn Hv) as Hr. destruct (Read n (b_rd b)) as [[p e] rd]. cbn.
      destruct Hr as (G1 & G2 & G3 & G4 & G5). split_and!; try done; try lia.
    + pose proof (Read_law (b_size b) (b_rd b) Hs Hv) as Hr. destruct (Read (b_size b) (b_rd b)) as [[p e] rd].
      destruct Hr as (G1 & G2 & G3 & G4 & G5). destruct p as [|y p].
      * destruct e as [e|]; [|done]. destruct G5 as (_ & G5 & ->). cbn. rewrite G3. cbn. split_and!; try done; lia.
      * destruct e as [e|]; [by destruct G5|]. cbn [b_size b_buf b_err b_rd]. destruct n as [|n]; [lia|]. cbn [take drop].
        split_and!; try done; [rewrite length_drop; cbn in *; lia | | cbn; rewrite length_take; lia].
        rewrite G3. cbn. by rewrite app_assoc, take_drop.
  - destruct n as [|n]; [lia|]. cbn [take drop b_size b_buf b_err b_rd].
    split_and!; try done; [rewrite length_drop; cbn in *; lia | | | cbn; rewrite length_take; lia].
    + destruct (b_err b); [|done]. destruct He as (? & ? & ?). split_and!; try done. rewrite length_drop. cbn in *. lia.
    + cbn. by rewrite app_assoc, take_drop.
Qed.

#[global] Instance bufio_stream : Stream (bufio R) := {|
  valid := bufio_valid; pending := bufio_pending; ending := bufio_ending; Read_law := bufio_Read_law |}.

(** ** The wrapped connection *)

Definition wrapped_valid (c : BufferedConn R) : Prop := bufio_valid (bc_Reader c).

Lemma BufferedConn_Read_law n c :
  (0 < n)%nat -> wrapped_valid c ->
  let '(p, e, c') := BufferedConn_Read n c in
  wrapped_valid c' /\ bufio_ending (bc_Reader c') = bufio_ending (bc_Reader c) /\
  bufio_pending (bc_Reader c) = p ++ bufio_pending (bc_Reader c') /\ (length p <= n)%nat /\
  match e with None => p <> [] | Some x => p = [] /\ bufio_pending (bc_Reader c') = [] /\ x = bufio_ending (bc_Reader c) end.
Proof.
  intros Hn Hv. unfold BufferedConn_Read, Buffered. destruct c as [b]. cbn [bc_Reader] in *. unfold wrapped_valid in *. cbn [bc_Reader] in Hv.
  destruct (Nat.ltb_spec 0 (length (b_buf b))) as [Hlt|Hge].
  - unfold Read, bufio_reader. pose proof (bufio_Read_law n b Hn Hv) as Hr. destruct (bufio_Read n b) as [[p e] b']. exact Hr.
  - destruct Hv as (Hs & Hl & Hv & He). pose proof (Read_law n (b_rd b) Hn Hv) as Hr.
    destruct (Read n (b_rd b)) as [[p e] rd]. destruct Hr as (G1 & G2 & G3 & G4 & G5). cbn [bc_Reader].
    unfold bufio_valid, bufio_pending, bufio_ending. cbn [b_size b_buf b_err b_rd].
    assert (b_buf b = []) as Eb by (apply length_zero_iff_nil; lia). rewrite Eb. cbn [app].
    split_and!; try done; try (cbn; lia). destruct (b_err b) as [x|]; [|done]. destruct He as (He & -> & Hlt).
    rewrite He in G3. symmetry in G3. apply app_eq_nil in G3 as [_ G3]. rewrite G2. split_and!; [done | done | cbn; lia].
Qed.

#[global] Instance bufferedConn_stream : Stream (BufferedConn R) := {|
  valid := wrapped_valid; pending := fun c => bufio_pending (bc_Reader c); ending := fun c => bufio_ending (bc_Reader c);
  Read_law := BufferedConn_Read_law |}.
End Streams.

(** ** The view of [Request] *)

Section Refinement.
Context {R : Type} `{Stream R}.

(** What [Request] sees of a buffered reader. *)
Definition seen (b : bufio R) : bufReader := mkReader (b_size b) (pending b) (ending b).

Lemma fill_spec b :
  bufio_valid b -> b_err b = None -> (length (b_buf b) < b_size b)%nat ->
  bufio_valid (fill b) /\ seen (fill b) = seen b /\
  (is_Some (b_err (fill b)) \/ (length (b_buf b) < length (b_buf (fill b)))%nat).
Proof.
  intros (Hs & Hl & Hv & _) He Hlt. unfold fill.
  pose proof (Read_law (b_size b - length (b_buf b)) (b_rd b) ltac:(lia) Hv) as Hr.
  destruct (Read _ (b_rd b)) as [[p e] rd]. destruct Hr as (G1 & G2 & G3 & G4 & G5).
  unfold seen, bufio_valid. cbn [pending ending bufio_stream b_size b_buf b_err b_rd].
  unfold bufio_pending, bufio_ending. cbn [b_size b_buf b_err b_rd].
  rewrite <- app_assoc, <- G3, G2. rewrite length_app. destruct e as [e|].
  - destruct G5 as (-> & G5 & ->). cbn [length]. split_and!; try done; try lia. by left.
  - split_and!; try done; try lia. right. destruct p; [done | cbn; lia].
Qed.

Lemma slice_loop_refines fuel b :
  bufio_valid b ->
  (match b_err b with Some _ => 0 | None => S (b_size b - length (b_buf b)) end < fuel)%nat ->
  exists line err b', slice_loop fuel b = Ok (line, err, b') /\ bufio_valid b' /\ ReadSlice (seen b) = (line, err, seen b').
Proof.
  revert b. induction fuel as [|fuel IH]; intros b Hb Hf; [lia|]. cbn [slice_loop].
  pose proof Hb as (Hs & Hl & Hv & He).
  destruct (scanToByte (b_buf b) LF) as [i|] eqn:Ei.
  - apply scanToByte_Some in Ei as (l & rest & El & Hlf & ->). rewrite to_nat_blen. eexists _, _, _. split; [done|]. split.
    { split_and!; cbn [b_size b_buf b_err b_rd]; try done; rewrite length_drop; [lia|].
      destruct (b_err b); [|done]. destruct He as (? & ? & ?). split_and!; try done; lia. }
    unfold seen. cbn [b_size pending ending bufio_stream]. unfold bufio_pending, bufio_ending. cbn [b_buf b_rd].
    rewrite El, <- app_assoc. cbn [app]. rewrite ReadSlice_line; [| done | rewrite El, length_app in Hl; cbn in Hl; lia].
    replace (S (length l)) with (length (l ++ [LF])) by (rewrite length_app; cbn; lia).
    rewrite (cons_middle LF l rest), app_assoc, take_app_length, drop_app_length. done.
  - apply scanToByte_None in Ei. unfold seen. cbn [pending ending bufio_stream]. unfold bufio_pending, bufio_ending.
    destruct (b_err b) as [e|] eqn:Ee.
    { destruct He as (Hp & -> & Hlt). eexists _, _, _. split; [done|]. cbn [b_size b_buf b_rd]. rewrite Hp, app_nil_r.
      rewrite ReadSlice_eof by done. split; [split_and!; cbn; try done; lia | done]. }
    destruct (Nat.leb_spec (b_size b) (length (b_buf b))) as [Hfull|Hlt].
    + assert (length (b_buf b) = b_size b) as Heq by lia. eexists _, _, _. split; [done|]. cbn [b_size b_buf b_rd].
      rewrite ReadSlice_full; [| by rewrite <- Heq, take_app_length | rewrite length_app; lia].
      rewrite <- Heq, take_app_length, drop_app_length. split; [split_and!; cbn; try done; lia | done].
    + destruct (fill_spec b Hb Ee Hlt) as (G1 & G2 & G3).
      destruct (IH (fill b) G1) as (line & err & b' & E1 & E2 & E3).
      { assert (b_size (fill b) = b_size b) as Esz by (unfold fill; by destruct (Read _ _) as [[? ?] ?]).
        destruct (b_err (fill b)); [lia|]. destruct G3 as [[? ?]|G3]; [done | lia]. }
      exists line, err, b'. split_and!; [done | done|]. rewrite G2 in E3. exact E3.
Qed.

(** [ReadSlice] of the reader is that of [Request]. *)
Lemma bufio_ReadSlice_refines b :
  bufio_valid b ->
  exists line err b', bufio_ReadSlice b = Ok (line, err, b') /\ bufio_valid b' /\ ReadSlice (seen b) = (line, err, seen b').
Proof. intros Hb. apply slice_loop_refines; [done|]. destruct (b_err b); lia. Qed.

#[global] Instance bufio_lines : LineReader (bufio R) := {|
  lr_ReadSlice := bufio_ReadSlice; lr_left := fun b => length (pending b) |}.

(** A computation on the reader and the same one on what is seen of it. *)
Definition simulates {A} (m : RM (bufio R) A) (m' : RM bufReader A) : Prop := forall b, bufio_valid b ->
  match m b with
  | Ok (x, b') => bufio_valid b' /\ m' (seen b) = Ok (x, seen b')
  | Crash f => m' (seen b) = Crash f
  end.

Lemma seen_ret {A} (a : A) : simulates (mret a) (mret a).
Proof. intros b Hb. done. Qed.
Lemma seen_throw {A} e : simulates (@throw _ A e) (throw e).
Proof. intros b Hb. done. Qed.
Lemma seen_pure {A} (x : res A) : simulates (pure x) (pure x).
Proof. intros b Hb. by destruct x. Qed.

Lemma seen_bind {A B} (m : RM (bufio R) A) m' (k : A -> RM (bufio R) B) k' :
  simulates m m' -> (forall a, simulates (k a) (k' a)) -> simulates (m ≫= k) (m' ≫= k').
Proof.
  intros Hm Hk b Hb. unfold mbind, RM_bind. specialize (Hm b Hb). destruct (m b) as [[[a|e] b']|f].
  - destruct Hm as [Hb' ->]. by apply Hk.
  - by destruct Hm as [Hb' ->].
  - by rewrite Hm.
Qed.
End Refinement.

Create HintDb seen discriminated.
#[global] Hint Resolve seen_ret seen_throw seen_pure seen_bind : seen.

Section Requests.
Context {R : Type} `{Stream R}.

Lemma seen_trim line : simulates (trimCRLFLine (R := bufio R) line) (trimCRLFLine line).
Proof. unfold trimCRLFLine. repeat first [apply seen_bind; [apply seen_pure | intros ?] | case_match]; auto with seen. Qed.

Lemma seen_read_long fuel line : simulates (read_long (R := bufio R) fuel line) (read_long fuel line).
Proof.
  revert line. induction fuel as [|fuel IH]; intros line b Hb; cbn [read_long]; [done|].
  cbn [lr_ReadSlice bufio_lines bufReader_lines].
  destruct (bufio_ReadSlice_refines b Hb) as (part & err & b' & -> & Hb' & ->).
  destruct err; [by apply seen_trim | by apply IH | done].
Qed.

Lemma seen_readCRLFLine : simulates (readCRLFLine (R := bufio R)) readCRLFLine.
Proof.
  intros b Hb. unfold readCRLFLine. cbn [lr_ReadSlice bufio_lines bufReader_lines].
  destruct (bufio_ReadSlice_refines b Hb) as (part & err & b' & -> & Hb' & ->).
  destruct err; [by apply seen_trim | | done].
  change (lr_left (seen b')) with (lr_left b'). by apply seen_read_long.
Qed.

Lemma seen_head_header h st : simulates (head_header (R := bufio R) h st) (head_header h st).
Proof.
  unfold head_header. destruct (applyHeaderMeta _ _); [|auto with seen]. destruct (equalFoldToken _ _); [auto with seen|].
  apply seen_bind; [destruct (equalFoldToken _ _); auto 10 with seen | auto with seen].
Qed.

Lemma seen_head_loop fuel st : simulates (head_loop (R := bufio R) fuel st) (head_loop fuel st).
Proof.
  revert st. induction fuel as [|fuel IH]; intros st; cbn [head_loop]; [by intros b Hb|].
  apply seen_bind; [apply seen_readCRLFLine|]. intros line. destruct (blen line =? 0); [auto with seen|].
  apply seen_bind; [auto with seen|]. intros [h|]; [|auto with seen].
  apply seen_bind; [apply seen_head_header | intros; apply IH].
Qed.

Lemma seen_ReadRequest ParseRequestURI spare :
  simulates (ReadRequest (R := bufio R) ParseRequestURI spare) (ReadRequest ParseRequestURI spare).
Proof.
  intros b Hb. unfold ReadRequest. change (lr_left (seen b)) with (lr_left b). generalize (S (lr_left b)). intros fuel.
  refine (seen_bind _ _ _ _ seen_readCRLFLine _ b Hb). intros line. apply seen_bind; [apply seen_pure|].
  intros [l|]; [|apply seen_throw]. apply seen_bind; [apply seen_pure|]. intros [u|e]; [|apply seen_throw].
  apply seen_bind; [apply seen_head_loop|]. intros st. apply seen_bind; [apply seen_pure|]. intros hm.
  destruct (decideBodyMode (hd_meta st)); auto with seen.
Qed.
End Requests.

(** C7. How a request arrives does not matter: [ReadRequest] on a buffered reader,
    with anything already in its buffer and the rest coming in pieces of any size,
    always returns, and returns what it returns on the same bytes in one piece; the
    bytes it leaves unread are the same as well.  (The reader of the theorems on
    [ReadRequest] is that view of the real one.) *)
Theorem ReadRequest_arrival ParseRequestURI spare (b : bufio wire) :
  bufio_valid b ->
  let whole b := mkReader (b_size b) (b_buf b ++ concat (wi_pieces (b_rd b))) (wi_err (b_rd b)) in
  exists x b', ReadRequest ParseRequestURI spare b = Ok (x, b') /\ bufio_valid b' /\
    ReadRequest ParseRequestURI spare (whole b) = Ok (x, whole b').
Proof.
  intros Hb whole. pose proof (seen_ReadRequest ParseRequestURI spare b Hb) as Hs.
  destruct (ReadRequest_returns ParseRequestURI spare (b_size b) (pending b) (ending b)) as (x & d & E & _); [apply Hb|].
  destruct (ReadRequest ParseRequestURI spare b) as [[y b']|f].
  - destruct Hs as [Hb' Hs]. by exists y, b'.
  - unfold seen in Hs. by rewrite E in Hs.
Qed.

Lemma ReadRequest_arrival_witness :
  let b := mkBufio 16 (bs "GET /i") None (mkWire [bs "ndex HT"; bs "TP/1.1"; [CR]; LF :: CRLF ++ bs "rest"] IOEOF) in
  exists x b', ReadRequest (fun _ => inr ErrReqMethod) (fun n => n) b = Ok (inl x, b') /\
    r_RequestURI x = bs "/index" /\ pending b' = bs "rest".
Proof.
  intros b. assert (bufio_valid b) as Hv by (split_and!; cbn; try done; lia).
  destruct (ReadRequest_arrival (fun _ => inr ErrReqMethod) (fun n => n) b Hv) as (x & b' & E1 & _ & E2).
  destruct x as [x|e]; [|vm_compute in E2; discriminate]. exists x, b'. split; [done|].
  vm_compute in E1. injection E1 as <- <-. split; reflexivity.
Defined.

(** ** Reading a stream to its end *)

Section ReadAll.
Context {R : Type} `{Stream R}.

(** Reads of the given sizes; the bytes that came, the last error, the reader. *)
Fixpoint reads (sizes : list nat) (r : R) : bytes * option perror * R :=
  match sizes with
  | [] => ([], None, r)
  | n :: ns =>
      let '(p, e, r1) := Read n r in
      match e with
      | Some _ => (p, e, r1)
      | None => let '(q, e, r2) := reads ns r1 in (p ++ q, e, r2)
      end
  end.

Lemma reads_law sizes r :
  Forall (fun n => (0 < n)%nat) sizes -> valid r ->
  let '(p, e, r') := reads sizes r in
  valid r' /\ pending r = p ++ pending r' /\
  match e with
  | Some x => pending r' = [] /\ x = ending r
  | None => (length sizes <= length p)%nat
  end.
Proof.
  intros Hs. revert r. induction Hs as [|n ns Hn Hs IH]; intros r Hv; cbn [reads]; [done|].
  pose proof (Read_law n r Hn Hv) as Hr. destruct (Read n r) as [[p [e|]] r1]; destruct Hr as (G1 & G2 & G3 & G4 & G5).
  - by destruct G5 as (-> & G5 & ->).
  - specialize (IH r1 G1). destruct (reads ns r1) as [[q e] r2]. destruct IH as (G6 & G7 & G8).
    split_and!; [done | by rewrite G3, G7, app_assoc |]. destruct e as [x|]; [by rewrite <- G2|].
    destruct p; [done|]. cbn in *. rewrite length_app. lia.
Qed.
End ReadAll.

(** C25. A handler that takes the connection over loses nothing: whatever the engine's
    reader has already buffered and however the rest arrives, reads of any sizes
    through the connection that [Hijack] returns, or through the buffered reader it
    returns with it, deliver exactly the bytes that were not read yet, in order, at
    least one per call until the connection ends, and then its error. *)
Theorem hijack_loses_nothing (b : bufio wire) sizes :
  bufio_valid b -> Forall (fun n => (0 < n)%nat) sizes ->
  let '(conn, rd) := hijack_reader b in
  let stream := b_buf b ++ concat (wi_pieces (b_rd b)) in
  (exists rest, let '(p, e, _) := reads sizes conn in stream = p ++ rest /\
     match e with Some x => rest = [] /\ x = wi_err (b_rd b) | None => (length sizes <= length p)%nat end) /\
  (exists rest, let '(p, e, _) := reads sizes rd in stream = p ++ rest /\
     match e with Some x => rest = [] /\ x = wi_err (b_rd b) | None => (length sizes <= length p)%nat end).
Proof.
  intros Hv Hs. unfold hijack_reader. split.
  - pose proof (reads_law sizes (mkBufferedConn b) Hs Hv) as Hr.
    destruct (reads sizes (mkBufferedConn b)) as [[p e] c']. destruct Hr as (_ & H1 & H2). exists (pending c').
    split; [exact H1 | exact H2].
  - assert (valid (NewReader (mkBufferedConn b))) as Hv2 by (split_and!; [cbn; lia | cbn; lia | exact Hv | done]).
    pose proof (reads_law sizes (NewReader (mkBufferedConn b)) Hs Hv2) as Hr.
    destruct (reads sizes (NewReader (mkBufferedConn b))) as [[p e] c']. destruct Hr as (_ & H1 & H2). exists (pending c').
    split; [exact H1 | exact H2].
Qed.

Lemma hijack_loses_nothing_witness :
  let b := mkBufio 16 (bs "left") None (mkWire [bs " over"; []; bs "!"] IOEOF) in
  fst (reads [3; 3; 3; 3; 3; 3]%nat (snd (hijack_reader b))) = (bs "left over!", Some IOEOF) /\
  exists rest, let '(p, e, _) := reads [2; 7]%nat (fst (hijack_reader b)) in b_buf b ++ concat (wi_pieces (b_rd b)) = p ++ rest.
Proof.
  intros b. split; [vm_compute; reflexivity|].
  assert (bufio_valid b) as Hv by (split_and!; [cbn; lia | cbn; lia | done | done]).
  destruct (hijack_loses_nothing b [2; 7]%nat Hv) as [[rest H1] _]; [repeat constructor; lia|].
  exists rest. cbn [fst hijack_reader] in *. destruct (reads _ _) as [[p e] c']. apply H1.
Defined.
