(* ===== verification/Bufio.v ===== *)
(** * bufio.Writer over a connection

    The buffered writer of the Go standard library through which every response
    is written: [Write], [WriteString] and [Flush], with the error that sticks to
    the writer.  The connection is a function that says of each write how much of
    it is delivered; what it delivered is kept in [bw_out]. *)

From S2P Require Import Prelude.

(** [net.Conn.Write] after the bytes delivered so far: [None] when all of the
    given bytes are delivered, [Some n] when an error stops it after [n]. *)
Definition connWrite : Type := bytes -> bytes -> option nat.

(** A connection that never fails. *)
Definition healthy : connWrite := fun _ _ => None.

Record bufWriter : Type := mkWriter {
  bw_size : nat;          (* len(b.buf) *)
  bw_conn : connWrite;    (* b.wr *)
  bw_buf : bytes;         (* b.buf[:b.n] *)
  bw_err : bool;          (* b.err != nil *)
  bw_out : bytes }.       (* what the connection has delivered *)

Definition bw_Available (b : bufWriter) : nat := (bw_size b - length (bw_buf b))%nat.

(** A write to the connection: the number of bytes taken, and the error. *)
Definition conn_write (b : bufWriter) (p : bytes) : nat * bool * bytes :=
  match bw_conn b (bw_out b) p with
  | None => (length p, false, bw_out b ++ p)
  | Some n => (Nat.min n (length p), true, bw_out b ++ take n p)
  end.

Definition bw_Flush (b : bufWriter) : bufWriter :=
  if bw_err b then b
  else match bw_buf b with
       | [] => b
       | buf =>
           let '(n, err, out) := conn_write b buf in
           if err then mkWriter (bw_size b) (bw_conn b) (drop n buf) true out
           else mkWriter (bw_size b) (bw_conn b) [] false out
       end.

(** The loop of [Write] and [WriteString], which returns the number of bytes
    taken; [direct] when a large write may bypass an empty buffer. *)
Fixpoint write_loop (fuel : nat) (direct : bool) (b : bufWriter) (nn : nat) (p : bytes)
    : res (nat * bufWriter) :=
  match fuel with
  | O => Crash OutOfFuel
  | S fuel' =>
      if (bw_Available b <? length p)%nat && negb (bw_err b) then
        if direct && bool_decide (bw_buf b = []) then
          let '(n, err, out) := conn_write b p in
          write_loop fuel' direct (mkWriter (bw_size b) (bw_conn b) [] err out) (nn + n) (drop n p)
        else
          let n := bw_Available b in
          write_loop fuel' direct
            (bw_Flush (mkWriter (bw_size b) (bw_conn b) (bw_buf b ++ take n p) false (bw_out b)))
            (nn + n) (drop n p)
      else if bw_err b then Ok (nn, b)
      else Ok ((nn + length p)%nat,
               mkWriter (bw_size b) (bw_conn b) (bw_buf b ++ p) false (bw_out b))
  end.

Definition bw_Write (b : bufWriter) (p : bytes) : res (nat * bufWriter) :=
  write_loop (S (S (length p))) true b 0 p.

(** [WriteString], to a connection that has no [WriteString] of its own. *)
Definition bw_WriteString (b : bufWriter) (s : bytes) : res (nat * bufWriter) :=
  write_loop (S (S (length s))) false b 0 s.

(** ** What is written *)

(** All that was written without error: delivered or still buffered. *)
Definition total (b : bufWriter) : bytes := bw_out b ++ bw_buf b.

Record bw_ok (b : bufWriter) : Prop := {
  bk_size : (0 < bw_size b)%nat;
  bk_fits : (length (bw_buf b) <= bw_size b)%nat }.

(** What a write of [p] does: all of it, or, with the sticky error, some of it. *)
Definition wrote (b : bufWriter) (p : bytes) (b' : bufWriter) : Prop :=
  bw_ok b' /\ bw_size b' = bw_size b /\ bw_conn b' = bw_conn b /\
  (bw_err b' = false -> total b' = total b ++ p) /\
  bw_out b' `prefix_of` total b ++ p.

Lemma bw_Flush_wrote b :
  bw_ok b -> bw_err b = false -> wrote b [] (bw_Flush b) /\ (bw_err (bw_Flush b) = false -> bw_buf (bw_Flush b) = []).
Proof.
  intros [Hs Hf] He. unfold bw_Flush, wrote, total. rewrite He, app_nil_r.
  destruct (bw_buf b) as [|c buf] eqn:Eb.
  - rewrite Eb, app_nil_r. split_and!; try done. constructor; [done|]. by rewrite Eb.
  - unfold conn_write. destruct (bw_conn b (bw_out b) (c :: buf)) as [n|]; cbn [bw_err bw_buf bw_out bw_size bw_conn].
    + split_and!; try done; [|by apply prefix_app, prefix_take].
      constructor; cbn [bw_size bw_buf]; [done|]. rewrite length_drop. cbn [length] in *. lia.
    + split_and!; try done; [by constructor; cbn; lia | by rewrite app_nil_r].
Qed.

(** Once the error is set, writes are refused and nothing changes. *)
Lemma write_loop_stuck fuel direct b nn p :
  bw_err b = true -> write_loop (S fuel) direct b nn p = Ok (nn, b).
Proof. intros E. cbn [write_loop]. rewrite E. by rewrite andb_false_r. Qed.

Lemma wrote_app b p q b1 b2 :
  bw_err b1 = false -> wrote b p b1 -> wrote b1 q b2 -> wrote b (p ++ q) b2.
Proof.
  intros He (_ & Hs1 & Hc1 & Ht1 & _) (Hok & Hs2 & Hc2 & Ht2 & Hp2). specialize (Ht1 He).
  rewrite Ht1 in *. rewrite <- app_assoc in *. split_and!; try done; congruence.
Qed.

Lemma wrote_err b p q b1 :
  bw_err b1 = true -> wrote b p b1 -> wrote b (p ++ q) b1.
Proof.
  intros He (Hok & Hs & Hc & Ht & Hp). split_and!; try done; [congruence|].
  rewrite app_assoc. by apply prefix_app_r.
Qed.

(** The two ways the loop makes room. *)
Lemma direct_wrote b p n err out :
  bw_ok b -> bw_buf b = [] -> conn_write b p = (n, err, out) ->
  wrote b p (mkWriter (bw_size b) (bw_conn b) [] err out) /\ (err = false -> n = length p).
Proof.
  intros [Hs Hf] Eb. unfold conn_write, wrote, total. rewrite Eb.
  destruct (bw_conn b (bw_out b) p); intros [= <- <- <-]; cbn [bw_err bw_buf bw_out bw_size bw_conn];
    rewrite !app_nil_r; (split; [split_and!; try done; [by constructor; cbn; lia | ..] | done]).
  by apply prefix_app, prefix_take.
Qed.

Lemma fill_wrote b p :
  bw_ok b -> bw_err b = false ->
  let b1 := bw_Flush (mkWriter (bw_size b) (bw_conn b) (bw_buf b ++ take (bw_Available b) p) false (bw_out b)) in
  wrote b (take (bw_Available b) p) b1 /\ (bw_err b1 = false -> bw_buf b1 = []).
Proof.
  intros [Hs Hf] He b1. subst b1. set (b0 := mkWriter _ _ _ _ _).
  assert (bw_ok b0) as Hok.
  { constructor; cbn; [done|]. rewrite length_app, length_take. unfold bw_Available. lia. }
  destruct (bw_Flush_wrote b0 Hok eq_refl) as [(H1 & H2 & H3 & H4 & H5) H6]. split; [|done].
  unfold total in H4, H5. cbn [b0 bw_out bw_buf] in H4, H5. unfold wrote, total.
  rewrite app_nil_r, app_assoc in H4, H5. by split_and!.
Qed.

Lemma write_loop_run fuel direct b nn p :
  bw_ok b -> bw_err b = false ->
  (length p + (if bool_decide (bw_buf b = []) then 0 else 1) < fuel)%nat ->
  exists n b', write_loop fuel direct b nn p = Ok (n, b') /\ wrote b p b' /\
    (bw_err b' = false -> n = (nn + length p)%nat).
Proof.
  revert b nn p. induction fuel as [|fuel IH]; intros b nn p Hok He Hf; [lia|].
  cbn [write_loop]. rewrite He. cbn [negb]. rewrite andb_true_r. pose proof Hok as [Hs Hfit].
  destruct (Nat.ltb_spec (bw_Available b) (length p)) as [Hlt|Hge].
  2:{ eexists _, _. split; [done|]. split; [|done]. unfold bw_Available in Hge. split_and!; try done.
      - constructor; cbn; [done|]. rewrite length_app. lia.
      - intros _. unfold total. cbn. by rewrite app_assoc.
      - unfold total. cbn. rewrite <- app_assoc. by apply prefix_app_r. }
  destruct (direct && bool_decide (bw_buf b = [])) eqn:Ed.
  - apply andb_true_iff in Ed as [_ Eb%bool_decide_eq_true]. rewrite Eb, bool_decide_true in Hf by done.
    destruct (conn_write b p) as [[n err] out] eqn:Ec.
    destruct (direct_wrote b p n err out Hok Eb Ec) as [Hw Hn]. destruct err.
    + destruct fuel as [|fuel]; [lia|]. rewrite write_loop_stuck by done. eexists _, _. by split_and!.
    + rewrite (Hn eq_refl), drop_all. destruct (IH _ (nn + length p)%nat [] (proj1 Hw) eq_refl) as (n' & b' & -> & Hw' & Hn').
      { cbn. lia. }
      eexists _, _. split; [done|]. split; [|intros E; specialize (Hn' E); cbn in Hn'; lia].
      rewrite <- (app_nil_r p). by refine (wrote_app _ p [] _ _ _ Hw Hw').
  - destruct (fill_wrote b p Hok He) as [Hw Hb]. set (b1 := bw_Flush _) in *.
    destruct (bw_err b1) eqn:E1.
    + destruct fuel as [|fuel]; [lia|]. rewrite write_loop_stuck by done.
      eexists _, _. split; [done|]. split; [|congruence].
      rewrite <- (take_drop (bw_Available b) p). by apply wrote_err.
    + destruct (IH b1 (nn + bw_Available b)%nat (drop (bw_Available b) p) (proj1 Hw) E1) as (n' & b' & -> & Hw' & Hn').
      { rewrite (Hb eq_refl), bool_decide_true, length_drop by done. unfold bw_Available in *.
        destruct (bool_decide_reflect (bw_buf b = [])) as [E|E]; [rewrite E in *; cbn in *; lia | lia]. }
      eexists _, _. split; [done|]. split; [rewrite <- (take_drop (bw_Available b) p); by eapply wrote_app|].
      intros E. rewrite (Hn' E), length_drop. lia.
Qed.

(** [Write] and [WriteString] are total: they write all, or set the error. *)
Lemma bw_write_run direct b p :
  bw_ok b -> bw_err b = false ->
  exists n b', write_loop (S (S (length p))) direct b 0 p = Ok (n, b') /\ wrote b p b' /\
    (bw_err b' = false -> n = length p).
Proof. intros Hok He. apply write_loop_run; [done | done |]. destruct (bool_decide _); lia. Qed.

(** A healthy connection never sets the error. *)
Lemma write_loop_healthy fuel direct b nn p n b' :
  bw_conn b = healthy -> bw_err b = false -> write_loop fuel direct b nn p = Ok (n, b') -> bw_err b' = false.
Proof.
  revert b nn p. induction fuel as [|fuel IH]; intros b nn p Hh He; cbn [write_loop]; [done|].
  rewrite He. cbn [negb]. rewrite andb_true_r. destruct (_ <? _)%nat; [|by intros [= <- <-]].
  destruct (direct && _).
  - unfold conn_write. rewrite Hh. cbn [healthy]. by apply IH.
  - unfold bw_Flush. cbn [bw_err bw_buf]. destruct (bw_buf b ++ _) eqn:Eb; [by apply IH|].
    unfold conn_write. cbn [bw_conn bw_out]. rewrite Hh. cbn [healthy]. by apply IH.
Qed.
