(* ===== verification/Adaptor.v ===== *)
(** * The response writer (adaptor/adaptor.go)

    [ResponseWriter] decides how a response is framed -- Content-Length when the
    whole body is known in time, chunked otherwise -- and writes it through the
    connection's [bufio.Writer].  Every operation of it that changes its state or
    writes is here, with the error returns of the code.

    Of the standard library, [http.Header.Write], [http.StatusText] and
    [bufio.Writer] are modelled; [http.DetectContentType], the clock behind the
    Date header, the growth of [append] and a [ReadFrom] of the connection are
    arguments of the definitions. *)

From stdpp Require Import sorting.
From S2P Require Import Prelude Strconv Bufio.

(** ** http.Header *)

(** [http.Header]: a map from names to values. *)
Abbreviation Header := (gmap bytes (list bytes)).

Definition firstHeaderValue (headers : Header) (key : bytes) : bytes :=
  match headers !! key with
  | Some (v :: _) => v
  | _ => []
  end.

Definition setSingleHeaderValue (headers : Header) (key value : bytes) : Header :=
  <[key := [value]]> headers.

(** Bytewise order on strings. *)
Fixpoint bytes_leb (a b : bytes) : bool :=
  match a, b with
  | [], _ => true
  | _ :: _, [] => false
  | x :: a', y :: b' =>
      if b2z x <? b2z y then true else if b2z y <? b2z x then false else bytes_leb a' b'
  end.

Definition key_le (x y : bytes * list bytes) : Prop := bytes_leb (fst x) (fst y) = true.
#[global] Instance key_le_dec : RelDecision key_le.
Proof. intros x y. unfold key_le. apply _. Defined.

(** [httpguts.ValidHeaderFieldName]: a non-empty token. *)
Definition token_chars : bytes :=
  bs "!#$%&'*+-.0123456789ABCDEFGHIJKLMNOPQRSTUVWXYZ^_`abcdefghijklmnopqrstuvwxyz|~".
Definition is_token_char (c : byte) : bool := existsb (Byte.eqb c) token_chars.
Definition valid_name (name : bytes) : bool :=
  negb (bool_decide (name = [])) && forallb is_token_char name.

(** [headerNewlineToSpace.Replace], then [textproto.TrimString]. *)
Definition newline_to_space (c : byte) : byte := if Byte.eqb c LF || Byte.eqb c CR then SP else c.
Definition is_space (c : byte) : bool :=
  Byte.eqb c SP || Byte.eqb c HT || Byte.eqb c LF || Byte.eqb c CR.
Fixpoint trim_left (b : bytes) : bytes :=
  match b with [] => [] | c :: b' => if is_space c then trim_left b' else b end.
Definition sanitize (v : bytes) : bytes :=
  rev (trim_left (rev (trim_left (map newline_to_space v)))).

(** The headers of a map, in the order and with the values [Header.Write] gives
    them. *)
Definition header_entries (h : Header) : list (bytes * bytes) :=
  concat (map (fun kv => if valid_name (fst kv) then map (fun v => (fst kv, sanitize v)) (snd kv) else [])
            (merge_sort key_le (map_to_list h))).

(** ** http.StatusText *)

Definition status_texts : list (Z * bytes) :=
  [(100, bs "Continue"); (101, bs "Switching Protocols"); (102, bs "Processing"); (103, bs "Early Hints");
   (200, bs "OK"); (201, bs "Created"); (202, bs "Accepted"); (203, bs "Non-Authoritative Information");
   (204, bs "No Content"); (205, bs "Reset Content"); (206, bs "Partial Content"); (207, bs "Multi-Status");
   (208, bs "Already Reported"); (226, bs "IM Used"); (300, bs "Multiple Choices");
   (301, bs "Moved Permanently"); (302, bs "Found"); (303, bs "See Other"); (304, bs "Not Modified");
   (305, bs "Use Proxy"); (307, bs "Temporary Redirect"); (308, bs "Permanent Redirect");
   (400, bs "Bad Request"); (401, bs "Unauthorized"); (402, bs "Payment Required"); (403, bs "Forbidden");
   (404, bs "Not Found"); (405, bs "Method Not Allowed"); (406, bs "Not Acceptable");
   (407, bs "Proxy Authentication Required"); (408, bs "Request Timeout"); (409, bs "Conflict");
   (410, bs "Gone"); (411, bs "Length Required"); (412, bs "Precondition Failed");
   (413, bs "Request Entity Too Large"); (414, bs "Request URI Too Long");
   (415, bs "Unsupported Media Type"); (416, bs "Requested Range Not Satisfiable");
   (417, bs "Expectation Failed"); (418, bs "I'm a teapot"); (421, bs "Misdirected Request");
   (422, bs "Unprocessable Entity"); (423, bs "Locked"); (424, bs "Failed Dependency");
   (425, bs "Too Early"); (426, bs "Upgrade Required"); (428, bs "Precondition Required");
   (429, bs "Too Many Requests"); (431, bs "Request Header Fields Too Large");
   (451, bs "Unavailable For Legal Reasons"); (500, bs "Internal Server Error");
   (501, bs "Not Implemented"); (502, bs "Bad Gateway"); (503, bs "Service Unavailable");
   (504, bs "Gateway Timeout"); (505, bs "HTTP Version Not Supported");
   (506, bs "Variant Also Negotiates"); (507, bs "Insufficient Storage"); (508, bs "Loop Detected");
   (510, bs "Not Extended"); (511, bs "Network Authentication Required")].

Definition StatusText (code : Z) : bytes :=
  match List.find (fun e => fst e =? code) status_texts with Some e => snd e | None => [] end.

Definition StatusOK : Z := 200.

(** ** The writer *)

Record ResponseWriter : Type := mkRW {
  w_header : Header;
  w_trailer : Header;
  w_statusCode : Z;
  w_hijacked : bool;
  w_headerSent : bool;
  w_chunked : bool;
  w_bufWriter : option bufWriter;   (* nil once detached *)
  w_pending : bytes;
  w_pendingCap : nat }.             (* cap(w.pending) *)

(** The errors a caller sees. *)
Inductive gerr : Type := ErrHijacked | ErrAlreadyHijacked | ErrWrite | ErrRead.

(** Computations on the writer: they may return an error, with the number of
    bytes the method reports beside it. *)
Definition W (A : Type) : Type := ResponseWriter -> res ((A + nat * gerr) * ResponseWriter).

#[global] Instance W_ret : MRet W := fun A a w => Ok (inl a, w).
#[global] Instance W_bind : MBind W := fun A B k m w =>
  match m w with
  | Ok (inl a, w') => k a w'
  | Ok (inr e, w') => Ok (inr e, w')
  | Crash f => Crash f
  end.

Definition wthrow {A} (n : nat) (e : gerr) : W A := fun w => Ok (inr (n, e), w).
Definition wget {A} (f : ResponseWriter -> A) : W A := fun w => Ok (inl (f w), w).
Definition wput (f : ResponseWriter -> ResponseWriter) : W unit := fun w => Ok (inl tt, f w).

(** Errors of [m] reported beside [n]; errors of [m] ignored. *)
Definition withCount {A} (n : nat) (m : W A) : W A := fun w =>
  match m w with Ok (inr (_, e), w') => Ok (inr (n, e), w') | r => r end.
Definition ignore {A} (m : W A) : W unit := fun w =>
  match m w with Ok (_, w') => Ok (inl tt, w') | Crash f => Crash f end.

(** Assignments to the fields. *)
Definition set_header (h : Header) (w : ResponseWriter) : ResponseWriter :=
  mkRW h (w_trailer w) (w_statusCode w) (w_hijacked w) (w_headerSent w) (w_chunked w)
    (w_bufWriter w) (w_pending w) (w_pendingCap w).
Definition set_trailer (h : Header) (w : ResponseWriter) : ResponseWriter :=
  mkRW (w_header w) h (w_statusCode w) (w_hijacked w) (w_headerSent w) (w_chunked w)
    (w_bufWriter w) (w_pending w) (w_pendingCap w).
Definition set_status (c : Z) (w : ResponseWriter) : ResponseWriter :=
  mkRW (w_header w) (w_trailer w) c (w_hijacked w) (w_headerSent w) (w_chunked w)
    (w_bufWriter w) (w_pending w) (w_pendingCap w).
Definition set_hijacked (x : bool) (w : ResponseWriter) : ResponseWriter :=
  mkRW (w_header w) (w_trailer w) (w_statusCode w) x (w_headerSent w) (w_chunked w)
    (w_bufWriter w) (w_pending w) (w_pendingCap w).
Definition set_headerSent (x : bool) (w : ResponseWriter) : ResponseWriter :=
  mkRW (w_header w) (w_trailer w) (w_statusCode w) (w_hijacked w) x (w_chunked w)
    (w_bufWriter w) (w_pending w) (w_pendingCap w).
Definition set_chunked (x : bool) (w : ResponseWriter) : ResponseWriter :=
  mkRW (w_header w) (w_trailer w) (w_statusCode w) (w_hijacked w) (w_headerSent w) x
    (w_bufWriter w) (w_pending w) (w_pendingCap w).
Definition set_bufWriter (b : option bufWriter) (w : ResponseWriter) : ResponseWriter :=
  mkRW (w_header w) (w_trailer w) (w_statusCode w) (w_hijacked w) (w_headerSent w) (w_chunked w)
    b (w_pending w) (w_pendingCap w).
Definition set_pending (p : bytes) (cap : nat) (w : ResponseWriter) : ResponseWriter :=
  mkRW (w_header w) (w_trailer w) (w_statusCode w) (w_hijacked w) (w_headerSent w) (w_chunked w)
    (w_bufWriter w) p cap.

(** [w.pending = w.pending[:0]]. *)
Definition clear_pending (w : ResponseWriter) : ResponseWriter := set_pending [] (w_pendingCap w) w.

(** [w.bufWriter.Write(p)], [w.bufWriter.WriteString(s)] and
    [w.bufWriter.Flush()]. *)
Definition wr_with (direct : bool) (p : bytes) : W nat := fun w =>
  match w_bufWriter w with
  | None => Crash NilDeref
  | Some b =>
      match write_loop (S (S (length p))) direct b 0 p with
      | Crash f => Crash f
      | Ok (n, b') =>
          Ok (if bw_err b' then inr (n, ErrWrite) else inl n, set_bufWriter (Some b') w)
      end
  end.
Definition wr : bytes -> W nat := wr_with true.
Definition wrs : bytes -> W nat := wr_with false.
Definition wflush : W unit := fun w =>
  match w_bufWriter w with
  | None => Crash NilDeref
  | Some b =>
      let b' := bw_Flush b in
      Ok (if bw_err b' then inr (0%nat, ErrWrite) else inl tt, set_bufWriter (Some b') w)
  end.

Definition chunkEnd : bytes := bs "0" ++ CRLF ++ CRLF.
Definition lastChunk : bytes := bs "0" ++ CRLF.
Definition pooledPendingCapLimit : nat := 4096.
Definition pooledHeaderMapEntryLimit : nat := 32.

Definition headerContentLength : bytes := bs "Content-Length".
Definition headerContentType : bytes := bs "Content-Type".
Definition headerTransferEnc : bytes := bs "Transfer-Encoding".

(** [h.Write(w.bufWriter)]. *)
Fixpoint write_entries (es : list (bytes * bytes)) : W unit :=
  match es with
  | [] => mret tt
  | (k, v) :: es' =>
      _ ← wrs k; _ ← wrs (bs ": "); _ ← wrs v; _ ← wrs CRLF;
      write_entries es'
  end.
Definition Header_Write (h : Header) : W unit := write_entries (header_entries h).

Definition writeChunkHeader (length : Z) : W unit :=
  _ ← wr (formatInt length 16); _ ← wr CRLF; mret tt.

Definition writeChunkTrailer : W unit := _ ← wr CRLF; mret tt.

Section Writer.
(** The Date header's value, content sniffing, the capacity [append] gives to a
    new array for [n] bytes, and the connection's own [ReadFrom], if it has one:
    after the bytes delivered so far, how many bytes of what is read it
    delivers, and its error. *)
Context (currentDate : bytes) (DetectContentType : bytes -> bytes) (grow : nat -> nat)
  (connReadFrom : option (bytes -> list (bytes * option bool) -> nat * option gerr)).

(** One chunk of data already in hand. *)
Definition write_pending : W unit :=
  chunked ← wget w_chunked;
  pending ← wget w_pending;
  if chunked : bool then
    _ ← writeChunkHeader (blen pending); _ ← wr pending; writeChunkTrailer
  else
    _ ← wr pending; mret tt.

(** The head written for a plain 200 response with a length. *)
Definition fast_head (contentType contentLength : bytes) : W unit :=
  _ ← wrs (bs "HTTP/1.1 200 OK" ++ CRLF);
  _ ← wr (bs "Date: "); _ ← wrs currentDate; _ ← wr CRLF;
  _ ← (if negb (bool_decide (contentType = []))
       then _ ← wr (bs "Content-Type: "); _ ← wrs contentType; _ ← wr CRLF; mret tt
       else mret tt);
  _ ← wr (bs "Content-Length: "); _ ← wrs contentLength; _ ← wr CRLF; _ ← wr CRLF;
  _ ← wput (set_chunked false);
  wput (set_headerSent true).

Definition status_text (code : Z) : bytes :=
  let t := StatusText code in
  if bool_decide (t = []) then bs "status code " ++ Itoa code else t.

Definition general_head (contentLength : bytes) (hasTrailers : bool) : W unit :=
  code ← wget w_statusCode;
  header ← wget w_header;
  _ ← wrs (bs "HTTP/1.1 " ++ Itoa code ++ bs " " ++ status_text code ++ CRLF);
  _ ← (if bool_decide (firstHeaderValue header (bs "Date") = [])
       then _ ← wr (bs "Date: "); _ ← wrs (currentDate ++ CRLF); mret tt
       else mret tt);
  let chunked := bool_decide (contentLength = []) || hasTrailers in
  _ ← wput (set_chunked chunked);
  _ ← Header_Write header;
  _ ← (if chunked && bool_decide (firstHeaderValue header headerTransferEnc = [])
       then if hasTrailers
            then _ ← wr (bs "Transfer-Encoding: chunked, trailers" ++ CRLF); mret tt
            else _ ← wr (bs "Transfer-Encoding: chunked" ++ CRLF); mret tt
       else mret tt);
  _ ← wr CRLF;
  wput (set_headerSent true).

Definition ensureHeaderSent : W unit :=
  sent ← wget w_headerSent;
  if sent : bool then mret tt
  else
    header ← wget w_header;
    trailer ← wget w_trailer;
    code ← wget w_statusCode;
    let contentLength := firstHeaderValue header headerContentLength in
    let contentType := firstHeaderValue header headerContentType in
    let hasTrailers := (0 <? size trailer)%nat in
    if (code =? StatusOK) && negb hasTrailers
       && bool_decide (firstHeaderValue header (bs "Date") = [])
       && bool_decide (firstHeaderValue header headerTransferEnc = [])
       && negb (bool_decide (contentLength = [])) && (size header <=? 2)%nat
       && ((size header =? 1)%nat || ((size header =? 2)%nat && negb (bool_decide (contentType = []))))
    then fast_head contentType contentLength
    else general_head contentLength hasTrailers.

(** [append(w.pending[:0], p...)]. *)
Definition store_pending (p : bytes) (w : ResponseWriter) : ResponseWriter :=
  set_pending p (if (length p <=? w_pendingCap w)%nat then w_pendingCap w else grow (length p)) w.

(** The sniffed Content-Type, if none is set. *)
Definition sniff (p : bytes) : W unit :=
  wput (fun w =>
    if bool_decide (firstHeaderValue (w_header w) headerContentType = [])
    then set_header (setSingleHeaderValue (w_header w) headerContentType
                       (DetectContentType (take (Nat.min (length p) 512) p))) w
    else w).

(** The data of [Write] and [WriteString] once the head is sent. *)
Definition write_data (direct : bool) (p : bytes) : W nat :=
  chunked ← wget w_chunked;
  if chunked : bool then
    _ ← withCount 0 (writeChunkHeader (blen p));
    n ← wr_with direct p;
    _ ← withCount n writeChunkTrailer;
    mret n
  else wr_with direct p.

Definition Write (p : bytes) : W nat :=
  hijacked ← wget w_hijacked;
  if hijacked : bool then wthrow 0 ErrHijacked
  else if (length p =? 0)%nat then mret 0%nat
  else
    sent ← wget w_headerSent;
    if sent : bool then write_data true p
    else
      _ ← sniff p;
      header ← wget w_header;
      trailer ← wget w_trailer;
      pending ← wget w_pending;
      if bool_decide (firstHeaderValue header headerContentLength = [])
         && bool_decide (firstHeaderValue header headerTransferEnc = [])
         && (size trailer =? 0)%nat
      then
        if (length pending =? 0)%nat then
          _ ← wput (store_pending p);
          mret (length p)
        else
          _ ← withCount 0 ensureHeaderSent;
          _ ← withCount 0 write_pending;
          _ ← wput clear_pending;
          write_data true p
      else
        _ ← withCount 0 ensureHeaderSent;
        write_data true p.

Definition WriteString (s : bytes) : W nat :=
  hijacked ← wget w_hijacked;
  if hijacked : bool then wthrow 0 ErrHijacked
  else if (length s =? 0)%nat then mret 0%nat
  else
    sent ← wget w_headerSent;
    _ ← (if sent : bool then mret tt
         else _ ← sniff s; withCount 0 ensureHeaderSent);
    write_data false s.

(** The results of a reader's successive [Read] calls: the bytes, and [None] for
    no error, [Some true] for [io.EOF], [Some false] for another error.  The list
    ends with [io.EOF] in any case. *)
Fixpoint copy_loop (reads : list (bytes * option bool)) (n : nat) : W nat :=
  match reads with
  | [] => mret n
  | (p, er) :: reads' =>
      chunked ← wget w_chunked;
      n ← (if (length p =? 0)%nat then mret n
           else
             _ ← withCount n
                   (if chunked : bool then
                      _ ← wr (formatInt (blen p) 16); _ ← wr CRLF; _ ← wr p; _ ← wr CRLF; mret tt
                    else _ ← wr p; mret tt);
             mret (n + length p)%nat);
      match er with
      | Some true => mret n
      | Some false => wthrow n ErrRead
      | None => copy_loop reads' n
      end
  end.

(** The bytes a reader delivers before its first error. *)
Fixpoint reads_data (reads : list (bytes * option bool)) : bytes :=
  match reads with
  | [] => []
  | (p, None) :: reads' => p ++ reads_data reads'
  | (p, Some _) :: _ => p
  end.

(** [rf.ReadFrom(r)] on the connection itself. *)
Definition conn_ReadFrom (rf : bytes -> list (bytes * option bool) -> nat * option gerr)
    (reads : list (bytes * option bool)) : W nat := fun w =>
  match w_bufWriter w with
  | None => Crash NilDeref
  | Some b =>
      let '(n, e) := rf (bw_out b) reads in
      let b' := mkWriter (bw_size b) (bw_conn b) (bw_buf b) (bw_err b)
                  (bw_out b ++ take n (reads_data reads)) in
      Ok (match e with None => inl n | Some e => inr (n, e) end, set_bufWriter (Some b') w)
  end.

Definition ReadFrom (reads : list (bytes * option bool)) : W nat :=
  hijacked ← wget w_hijacked;
  if hijacked : bool then wthrow 0 ErrHijacked
  else
    sent ← wget w_headerSent;
    _ ← (if sent : bool then mret tt else withCount 0 ensureHeaderSent);
    chunked ← wget w_chunked;
    if chunked : bool then copy_loop reads 0
    else
      _ ← ignore wflush;
      match connReadFrom with
      | Some rf => conn_ReadFrom rf reads
      | None => copy_loop reads 0
      end.

Definition WriteHeader (statusCode : Z) : W unit :=
  wput (fun w => if w_hijacked w || w_headerSent w then w else set_status statusCode w).

Definition Flush : W unit :=
  hijacked ← wget w_hijacked;
  if hijacked : bool then mret tt
  else
    ignore (
      sent ← wget w_headerSent;
      _ ← (if sent : bool then mret tt
           else
             pending ← wget w_pending;
             header ← wget w_header;
             if (0 <? length pending)%nat && bool_decide (firstHeaderValue header headerContentLength = [])
             then _ ← ensureHeaderSent; _ ← write_pending; wput clear_pending
             else ensureHeaderSent);
      wflush).

(** [Hijack]: the buffered writer, which now belongs to the caller. *)
Definition Hijack : W (option bufWriter) :=
  hijacked ← wget w_hijacked;
  if hijacked : bool then wthrow 0 ErrAlreadyHijacked
  else
    _ ← wput (set_hijacked true);
    _ ← ignore wflush;
    writer ← wget w_bufWriter;
    _ ← wput (set_bufWriter None);
    mret writer.

Definition EndResponse : W unit :=
  hijacked ← wget w_hijacked;
  if hijacked : bool then mret tt
  else
    sent ← wget w_headerSent;
    _ ← (if sent : bool then mret tt
         else
           _ ← wput (fun w =>
                 if bool_decide (firstHeaderValue (w_header w) headerContentLength = [])
                 then set_header (setSingleHeaderValue (w_header w) headerContentLength
                        (if (0 <? length (w_pending w))%nat then Itoa (blen (w_pending w)) else bs "0")) w
                 else w);
           ensureHeaderSent);
    pending ← wget w_pending;
    _ ← (if (0 <? length pending)%nat then _ ← wr pending; wput clear_pending else mret tt);
    chunked ← wget w_chunked;
    trailer ← wget w_trailer;
    _ ← (if chunked : bool then
           if (0 <? size trailer)%nat
           then _ ← wr lastChunk; _ ← Header_Write trailer; _ ← wr CRLF; mret tt
           else _ ← wr chunkEnd; mret tt
         else mret tt);
    wflush.
End Writer.

(** ** The pool *)

(** A writer made by [rwPool.New]. *)
Definition pool_New : ResponseWriter := mkRW ∅ ∅ 0 false false false None [] 0.

(** [NewResponseWriter] on a writer from the pool and the context's buffered
    writer. *)
Definition NewResponseWriter (pooled : ResponseWriter) (writer : bufWriter) : ResponseWriter :=
  mkRW (w_header pooled) (w_trailer pooled) StatusOK false false false (Some writer)
    [] (w_pendingCap pooled).

(** [Release]: the writer as it goes back to the pool. *)
Definition Release (w : ResponseWriter) : ResponseWriter :=
  let '(pending, cap) :=
    if (pooledPendingCapLimit <? w_pendingCap w)%nat then ([], 0%nat) else ([], w_pendingCap w) in
  let header : Header := if (pooledHeaderMapEntryLimit <? size (w_header w))%nat then ∅ else ∅ in
  let trailer : Header := if (pooledHeaderMapEntryLimit <? size (w_trailer w))%nat then ∅ else ∅ in
  mkRW header trailer 0 false false false None pending cap.
