(* ===== verification/AdaptorFaults.v ===== *)
(** * The response writer on a failing connection

    The code returns at the first error of a write and the buffered writer keeps
    the error.  [good] says what this gives for one computation: it never panics;
    after an error it delivers nothing more; and until an error it does exactly
    what it does on a connection that never fails.  Every operation is [good], so
    what a failing connection delivers is a prefix of the response. *)

From S2P Require Import Prelude Strconv Bufio Adaptor.

(** A buffered writer that is in order and works on a healthy connection. *)
Definition sound (b : bufWriter) : Prop := bw_ok b /\ bw_err b = false /\ bw_conn b = healthy.

Lemma sound_write direct b p :
  sound b -> exists b', write_loop (S (S (length p))) direct b 0 p = Ok (length p, b') /\ sound b' /\ total b' = total b ++ p.
Proof.
  intros (Hok & He & Hc). destruct (bw_write_run direct b p Hok He) as (n & b' & E & Hw & Hn).
  pose proof (write_loop_healthy _ _ _ _ _ _ _ Hc He E) as He'. exists b'. rewrite E, (Hn He').
  destruct Hw as (Hok' & _ & Hc' & Ht & _). split_and!; [done | split_and!; congruence | auto].
Qed.

Lemma sound_flush b : sound b -> sound (bw_Flush b) /\ total (bw_Flush b) = total b /\ bw_buf (bw_Flush b) = [].
Proof.
  intros (Hok & He & Hc). destruct (bw_Flush_wrote b Hok He) as [(Hok' & _ & Hc' & Ht & _) Hbuf].
  assert (bw_err (bw_Flush b) = false) as He' by (unfold bw_Flush, conn_write; rewrite He, Hc; by destruct (bw_buf b)).
  rewrite app_nil_r in Ht. split_and!; auto; [by split_and!; try congruence].
Qed.

(** Two runs in step: the same state, and the same bytes written, on a healthy
    connection and on any. *)
Definition in_step (w1 w2 : ResponseWriter) : Prop :=
  exists w b1 b2, w1 = set_bufWriter (Some b1) w /\ w2 = set_bufWriter (Some b2) w /\
    sound b1 /\ bw_ok b2 /\ bw_err b2 = false /\ total b1 = total b2.

(** Two runs of which the second has failed. *)
Definition cut_off (w1 w2 : ResponseWriter) : Prop :=
  exists b1 b2, w_bufWriter w1 = Some b1 /\ w_bufWriter w2 = Some b2 /\
    sound b1 /\ bw_err b2 = true /\ bw_out b2 `prefix_of` total b1.

Record good {A} (m : W A) : Prop := {
  gd_mono : forall w b, w_bufWriter w = Some b -> sound b ->
    exists r w' b', m w = Ok (r, w') /\ w_bufWriter w' = Some b' /\ sound b' /\
      total b `prefix_of` total b';
  gd_frozen : forall w b, w_bufWriter w = Some b -> bw_err b = true ->
    exists r w', m w = Ok (r, w') /\ w_bufWriter w' = Some b;
  gd_step : forall w1 w2, in_step w1 w2 ->
    exists r1 w1' r2 w2', m w1 = Ok (r1, w1') /\ m w2 = Ok (r2, w2') /\
      (r1 = r2 /\ in_step w1' w2' \/ cut_off w1' w2');
  gd_keep : forall w r w', m w = Ok (r, w') -> w_hijacked w' = w_hijacked w }.

Create HintDb good discriminated.

(** ** The primitive operations *)

Lemma good_get {A} (f : ResponseWriter -> A) :
  (forall b w, f (set_bufWriter b w) = f w) -> good (wget f).
Proof.
  intros Hf. unfold wget. constructor; [by eauto 10 | by eauto | | by intros ? ? ? [= _ <-]].
  intros w1 w2 Hs. eexists _, _, _, _. split; [done|]. split; [done|]. left. split; [|done].
  destruct Hs as (w & b1 & b2 & -> & -> & _). by rewrite !Hf.
Qed.

Lemma good_put (g : ResponseWriter -> ResponseWriter) :
  (forall b w, g (set_bufWriter b w) = set_bufWriter b (g w)) ->
  (forall w, w_bufWriter (g w) = w_bufWriter w) ->
  (forall w, w_hijacked (g w) = w_hijacked w) -> good (wput g).
Proof.
  intros Hg Hb Hh. unfold wput. constructor; [| | |by intros ? ? ? [= _ <-]].
  - intros w b E Hs. eexists _, _, b. rewrite Hb. by split_and!.
  - intros w b E _. eexists _, _. rewrite Hb. by split_and!.
  - intros w1 w2 (w & b1 & b2 & -> & -> & H). eexists _, _, _, _. split_and!; [done..|].
    left. split; [done|]. exists (g w), b1, b2. by rewrite !Hg.
Qed.

Lemma good_ret {A} (a : A) : good (mret a).
Proof. exact (good_get (fun _ => a) (fun _ _ => eq_refl)). Qed.

Lemma good_throw {A} n e : good (@wthrow A n e).
Proof.
  unfold wthrow. constructor; [by eauto 10 | by eauto | | by intros ? ? ? [= _ <-]].
  intros w1 w2 Hs. eexists _, _, _, _. split_and!; [done..|]. by left.
Qed.

(** A change of the buffered writer that writes [p] or fails. *)
Lemma good_writer {A} (p : bytes) (op : bufWriter -> res (A * bufWriter)) (err : A -> A + nat * gerr)
    (f : A -> A + nat * gerr) :
  (forall b, bw_ok b -> bw_err b = false -> exists a b', op b = Ok (a, b') /\ wrote b p b') ->
  (forall b a b', bw_conn b = healthy -> bw_err b = false -> op b = Ok (a, b') -> bw_err b' = false) ->
  (forall b, bw_err b = true -> exists a, op b = Ok (a, b)) ->
  (forall b1 b2 a1 a2 b1' b2', op b1 = Ok (a1, b1') -> op b2 = Ok (a2, b2') ->
     bw_err b1 = false -> bw_err b2 = false -> bw_ok b1 -> bw_ok b2 ->
     bw_err b1' = false -> bw_err b2' = false -> a1 = a2) ->
  good (fun w => match w_bufWriter w with
                 | None => Crash NilDeref
                 | Some b => match op b with
                             | Crash e => Crash e
                             | Ok (a, b') => Ok (if bw_err b' then err a else f a, set_bufWriter (Some b') w)
                             end
                 end).
Proof.
  intros Hop Hh Hstuck Hsame. constructor.
  4:{ intros w r w'. destruct (w_bufWriter w) as [b|]; [|done]. destruct (op b) as [[a b']|]; [|done].
      by intros [= _ <-]. }
  - intros w b E (Hok & He & Hc). rewrite E. destruct (Hop b Hok He) as (a & b' & Eo & Hok' & _ & Hc' & Ht & _).
    pose proof (Hh _ _ _ Hc He Eo) as He'. rewrite Eo. eexists _, _, b'. split; [done|]. split; [done|].
    split; [split_and!; [done | done | congruence]|]. rewrite (Ht He'). by apply prefix_app_r.
  - intros w b E He. rewrite E. destruct (Hstuck b He) as [a ->]. by eexists _, _.
  - intros w1 w2 (w & b1 & b2 & -> & -> & (Hok1 & He1 & Hc1) & Hok2 & He2 & Ht). cbn [w_bufWriter set_bufWriter].
    destruct (Hop b1 Hok1 He1) as (a1 & b1' & E1 & Hok1' & _ & Hc1' & Ht1 & _).
    destruct (Hop b2 Hok2 He2) as (a2 & b2' & E2 & Hok2' & _ & _ & Ht2 & Hp2).
    pose proof (Hh _ _ _ Hc1 He1 E1) as He1'. rewrite E1, E2, He1'. specialize (Ht1 He1').
    eexists _, _, _, _. split; [done|]. split; [done|].
    assert (sound b1') as Hs1 by (split_and!; [done | done | congruence]).
    destruct (bw_err b2') eqn:E2'.
    + right. exists b1', b2'. cbn [w_bufWriter set_bufWriter]. rewrite Ht1, Ht. by split_and!.
    + left. split; [by rewrite (Hsame b1 b2 a1 a2 b1' b2')|]. exists w, b1', b2'.
      rewrite Ht1, (Ht2 eq_refl), Ht. by split_and!.
Qed.

Lemma good_wr direct p : good (wr_with direct p).
Proof.
  apply (good_writer p (fun b => write_loop (S (S (length p))) direct b 0 p) (fun n => inr (n, ErrWrite)) inl).
  - intros b Hok He. destruct (bw_write_run direct b p Hok He) as (n & b' & E & Hw & _). eauto.
  - intros b a b' Hc He E. by eapply write_loop_healthy.
  - intros b He. eexists. by apply write_loop_stuck.
  - intros b1 b2 a1 a2 b1' b2' E1 E2 He1 He2 Hok1 Hok2 He1' He2'.
    destruct (bw_write_run direct b1 p Hok1 He1) as (n1 & c1 & F1 & _ & G1).
    destruct (bw_write_run direct b2 p Hok2 He2) as (n2 & c2 & F2 & _ & G2).
    assert (n1 = a1 /\ c1 = b1' /\ n2 = a2 /\ c2 = b2') as (-> & -> & -> & ->) by (split_and!; congruence).
    by rewrite (G1 He1'), (G2 He2').
Qed.

Lemma good_flush : good wflush.
Proof.
  eapply (good_writer [] (fun b => Ok (tt, bw_Flush b)) (fun _ => inr (0%nat, ErrWrite)) inl).
  - intros b Hok He. eexists _, _. split; [done|]. by apply bw_Flush_wrote.
  - intros b [] b' Hc He [= <-]. unfold bw_Flush, conn_write. rewrite He, Hc. by destruct (bw_buf b).
  - intros b He. exists tt. unfold bw_Flush. by rewrite He.
  - by intros ? ? [] [].
Qed.

(** ** Composition *)

Lemma good_bind {A B} (m : W A) (k : A -> W B) : good m -> (forall a, good (k a)) -> good (m ≫= k).
Proof.
  intros Hm Hk. unfold mbind, W_bind. constructor.
  4:{ intros w r w'. destruct (m w) as [[[a|e] w1]|] eqn:E; [| |done]; apply (gd_keep m Hm) in E.
      - intros E2%(gd_keep _ (Hk a)). congruence.
      - by intros [= _ <-]. }
  - intros w b E Hs. destruct (gd_mono m Hm w b E Hs) as ([a|e] & w1 & b1 & -> & E1 & Hs1 & Hp1); [|eauto 10].
    destruct (gd_mono _ (Hk a) w1 b1 E1 Hs1) as (r & w2 & b2 & -> & E2 & Hs2 & Hp2).
    eexists _, _, _. split_and!; [done..|]. by trans (total b1).
  - intros w b E He. destruct (gd_frozen m Hm w b E He) as ([a|e] & w1 & -> & E1); [|eauto].
    by apply (gd_frozen _ (Hk a)).
  - intros w1 w2 Hs. destruct (gd_step m Hm w1 w2 Hs) as (r1 & w1' & r2 & w2' & -> & -> & [[-> Hs']|Hc]).
    + destruct r2 as [a|e]; [by apply (gd_step _ (Hk a)) | eauto 10].
    + destruct Hc as (b1 & b2 & E1 & E2 & Hs1 & He2 & Hp).
      assert (exists r1' w1'' b1', (match r1 with inl a => k a w1' | inr e => Ok (inr e, w1') end) = Ok (r1', w1'') /\
        w_bufWriter w1'' = Some b1' /\ sound b1' /\ total b1 `prefix_of` total b1') as (r1' & w1'' & b1' & F1 & G1 & Hs1' & Hp').
      { destruct r1 as [a|e]; [by apply (gd_mono _ (Hk a)) | by eexists _, _, b1]. }
      assert (exists r2' w2'', (match r2 with inl a => k a w2' | inr e => Ok (inr e, w2') end) = Ok (r2', w2'') /\
        w_bufWriter w2'' = Some b2) as (r2' & w2'' & F2 & G2).
      { destruct r2 as [a|e]; [by apply (gd_frozen _ (Hk a)) | by eexists _, _]. }
      exists r1', w1'', r2', w2''. split; [by destruct r1|]. split; [by destruct r2|].
      right. exists b1', b2. split_and!; try done. by trans (total b1).
Qed.

(** A change of the result only. *)
Lemma good_result {A B} (m : W A) (f : A + nat * gerr -> B + nat * gerr) :
  good m -> good (fun w => match m w with Ok (r, w') => Ok (f r, w') | Crash e => Crash e end).
Proof.
  intros Hm. constructor.
  4:{ intros w r w'. destruct (m w) as [[a w1]|] eqn:E; [|done]. apply (gd_keep m Hm) in E.
      by intros [= _ <-]. }
  - intros w b E Hs. destruct (gd_mono m Hm w b E Hs) as (r & w1 & b1 & -> & H). eauto.
  - intros w b E He. destruct (gd_frozen m Hm w b E He) as (r & w1 & -> & E1). eauto.
  - intros w1 w2 Hs. destruct (gd_step m Hm w1 w2 Hs) as (r1 & w1' & r2 & w2' & -> & -> & H).
    eexists _, _, _, _. split_and!; [done..|]. destruct H as [[-> H]|H]; auto.
Qed.

Lemma good_ext {A} (m m' : W A) : (forall w, m w = m' w) -> good m -> good m'.
Proof.
  intros E Hm. constructor; intros *; rewrite <- ?E; [by apply gd_mono | by apply gd_frozen | intros Hs; by apply gd_step | by apply gd_keep].
Qed.

Lemma good_ignore {A} (m : W A) : good m -> good (ignore m).
Proof. exact (good_result m (fun _ => inl tt)). Qed.

Lemma good_withCount {A} n (m : W A) : good m -> good (withCount n m).
Proof.
  intros Hm. apply (good_ext _ _) with (2 := good_result m (fun r =>
    match r with inl a => inl a | inr (_, e) => inr (n, e) end) Hm).
  intros w. unfold withCount. by destruct (m w) as [[[a|[k e]] w']|].
Qed.

Lemma good_if {A} (c : bool) (m1 m2 : W A) : good m1 -> good m2 -> good (if c then m1 else m2).
Proof. by destruct c. Qed.

#[export] Hint Resolve good_ret good_throw good_wr good_flush good_ignore good_withCount good_if : good.

(** Takes a computation apart into primitive operations. *)
Ltac solve_good :=
  repeat first
    [ solve [auto with good nocore]
    | apply good_bind; [|intros ?]
    | apply good_get; done
    | apply good_ignore | apply good_withCount | apply good_if
    | match goal with |- good (match ?x with _ => _ end) => destruct x end ].

(** ** Every operation *)

Lemma good_wr' p : good (wr p). Proof. exact (good_wr true p). Qed.
Lemma good_wrs p : good (wrs p). Proof. exact (good_wr false p). Qed.
Lemma good_set_chunked x : good (wput (set_chunked x)). Proof. by apply good_put. Qed.
Lemma good_set_headerSent x : good (wput (set_headerSent x)). Proof. by apply good_put. Qed.
Lemma good_clear : good (wput clear_pending). Proof. by apply good_put. Qed.
#[export] Hint Resolve good_wr' good_wrs good_set_chunked good_set_headerSent good_clear : good.

Lemma good_entries es : good (write_entries es).
Proof. induction es as [|[k v] es IH]; cbn [write_entries]; solve_good. Qed.
Lemma good_Header_Write h : good (Header_Write h).
Proof. apply good_entries. Qed.
#[export] Hint Resolve good_Header_Write : good.

Lemma good_chunkHeader n : good (writeChunkHeader n).
Proof. unfold writeChunkHeader. solve_good. Qed.
Lemma good_chunkTrailer : good writeChunkTrailer.
Proof. unfold writeChunkTrailer. solve_good. Qed.
#[export] Hint Resolve good_chunkHeader good_chunkTrailer : good.

Section Operations.
Context (currentDate : bytes) (DetectContentType : bytes -> bytes) (grow : nat -> nat).

Lemma good_ensureHeaderSent : good (ensureHeaderSent currentDate).
Proof. unfold ensureHeaderSent, fast_head, general_head. cbv zeta. solve_good. Qed.
Hint Resolve good_ensureHeaderSent : good.

Lemma good_sniff p : good (sniff DetectContentType p).
Proof.
  apply good_put; intros; cbn [w_header set_bufWriter]; by destruct (bool_decide _).
Qed.

Lemma good_store_pending p : good (wput (store_pending grow p)).
Proof. by apply good_put. Qed.

Lemma good_write_pending : good write_pending.
Proof. unfold write_pending. solve_good. Qed.

Lemma good_write_data direct p : good (write_data direct p).
Proof. unfold write_data. solve_good. Qed.
Hint Resolve good_sniff good_store_pending good_write_pending good_write_data : good.

Lemma good_Write p : good (Write currentDate DetectContentType grow p).
Proof. unfold Write. solve_good. Qed.

Lemma good_WriteString s : good (WriteString currentDate DetectContentType s).
Proof. unfold WriteString. solve_good. Qed.

Lemma good_copy_loop reads n : good (copy_loop reads n).
Proof.
  revert n. induction reads as [|[p [[]|]] reads IH]; intros n; cbn [copy_loop]; solve_good.
Qed.
Hint Resolve good_copy_loop : good.

Lemma good_ReadFrom reads : good (ReadFrom currentDate None reads).
Proof. unfold ReadFrom. solve_good. Qed.

Lemma good_WriteHeader c : good (WriteHeader c).
Proof.
  apply good_put; intros; cbn [w_hijacked w_headerSent set_bufWriter]; by destruct (_ || _).
Qed.

Lemma good_Flush : good (Flush currentDate).
Proof. unfold Flush. solve_good. Qed.

Lemma good_EndResponse : good (EndResponse currentDate).
Proof.
  unfold EndResponse. solve_good.
  apply good_put; intros; cbn [w_header set_bufWriter]; by destruct (bool_decide _).
Qed.

(** ** Whole responses *)

(** What a handler does with a response writer. *)
Inductive op : Type :=
| OWrite (p : bytes) | OWriteString (s : bytes) | OReadFrom (reads : list (bytes * option bool))
| OFlush | OWriteHeader (code : Z).

(** One call; the handler may ignore its error. *)
Definition run_op (o : op) : W unit :=
  match o with
  | OWrite p => ignore (Write currentDate DetectContentType grow p)
  | OWriteString s => ignore (WriteString currentDate DetectContentType s)
  | OReadFrom reads => ignore (ReadFrom currentDate None reads)
  | OFlush => Flush currentDate
  | OWriteHeader c => WriteHeader c
  end.

Fixpoint run_ops (os : list op) : W unit :=
  match os with
  | [] => mret tt
  | o :: os' => _ ← run_op o; run_ops os'
  end.

(** The calls of a handler, then the end of the response. *)
Definition respond (os : list op) : W unit := _ ← run_ops os; EndResponse currentDate.

Lemma good_run_op o : good (run_op o).
Proof.
  destruct o; cbn [run_op]; [apply good_ignore.. | |].
  - apply good_Write.
  - apply good_WriteString.
  - apply good_ReadFrom.
  - apply good_Flush.
  - apply good_WriteHeader.
Qed.

Lemma good_run_ops os : good (run_ops os).
Proof.
  induction os as [|o os IH]; cbn [run_ops]; [apply good_ret|]. apply good_bind; [apply good_run_op | done].
Qed.

Lemma bind_inl {A B} (m : W A) (k : A -> W B) w c w2 :
  (m ≫= k) w = Ok (inl c, w2) -> exists a w1, m w = Ok (inl a, w1) /\ k a w1 = Ok (inl c, w2).
Proof. unfold mbind, W_bind. destruct (m w) as [[[a|e] w1]|]; [eauto | done..]. Qed.

Lemma wflush_empty w w' b :
  wflush w = Ok (inl tt, w') -> w_bufWriter w' = Some b -> bw_buf b = [] /\ bw_err b = false.
Proof.
  unfold wflush. destruct (w_bufWriter w) as [b0|]; [|done].
  destruct (bw_err (bw_Flush b0)) eqn:E; [done|]. intros [= <-] [= <-].
  unfold bw_Flush in *. destruct (bw_err b0) eqn:E0; [congruence|].
  destruct (bw_buf b0) eqn:Eb; [done|]. destruct (conn_write b0 _) as [[n []] out]; done.
Qed.

(** A response that ends without error has been delivered. *)
Lemma EndResponse_flushed w w' b :
  w_hijacked w = false -> EndResponse currentDate w = Ok (inl tt, w') -> w_bufWriter w' = Some b ->
  bw_buf b = [] /\ bw_err b = false.
Proof.
  intros Hh. unfold EndResponse. intros (a & w1 & E1 & H)%bind_inl. injection E1 as <- <-. rewrite Hh in H.
  repeat (apply bind_inl in H as (? & ? & _ & H)). by eapply wflush_empty.
Qed.

Lemma respond_flushed os w w' b :
  w_hijacked w = false -> respond os w = Ok (inl tt, w') -> w_bufWriter w' = Some b ->
  bw_buf b = [] /\ bw_err b = false.
Proof.
  intros Hh (? & w1 & E1 & E2)%bind_inl Hb. apply (gd_keep _ (good_run_ops os)) in E1.
  eapply EndResponse_flushed; [|done..]. congruence.
Qed.

Lemma good_respond os : good (respond os).
Proof. apply good_bind; [apply good_run_ops | intros _; apply good_EndResponse]. Qed.
End Operations.

(** C12. A response writer on a connection that may fail at any write: whatever
    the handler calls, and whether or not it looks at errors, nothing panics, and
    what the connection delivers is a prefix of what the same calls write on a
    connection that never fails; if [EndResponse] reports no error, all of it was
    delivered. *)
Theorem failing_connection_prefix currentDate DetectContentType grow conn n pooled os :
  (0 < n)%nat ->
  exists r1 w1 b1 r2 w2 b2,
    respond currentDate DetectContentType grow os
      (NewResponseWriter pooled (mkWriter n healthy [] false [])) = Ok (r1, w1) /\
    respond currentDate DetectContentType grow os
      (NewResponseWriter pooled (mkWriter n conn [] false [])) = Ok (r2, w2) /\
    w_bufWriter w1 = Some b1 /\ w_bufWriter w2 = Some b2 /\
    bw_out b2 `prefix_of` total b1 /\
    (r2 = inl tt -> bw_out b2 = total b1).
Proof.
  intros Hn. set (w := NewResponseWriter pooled (mkWriter n healthy [] false [])).
  set (w' := NewResponseWriter pooled (mkWriter n conn [] false [])).
  assert (in_step w w') as Hs.
  { exists w, (mkWriter n healthy [] false []), (mkWriter n conn [] false []).
    assert (forall c, bw_ok (mkWriter n c [] false [])) as Hok by (intros c; constructor; cbn; lia).
    split_and!; try done; apply Hok. }
  destruct (gd_step _ (good_respond currentDate DetectContentType grow os) w w' Hs)
    as (r1 & w1 & r2 & w2 & E1 & E2 & H).
  pose proof (fun b => respond_flushed currentDate DetectContentType grow os w' w2 b eq_refl) as Hf.
  destruct H as [[-> (v & b1 & b2 & -> & -> & _ & _ & _ & Ht)]|(b1 & b2 & Eb1 & Eb2 & _ & He & Hp)].
  - exists r2, (set_bufWriter (Some b1) v), b1, r2, (set_bufWriter (Some b2) v), b2. split_and!; try done.
    + rewrite Ht. by apply prefix_app_r.
    + intros ->. destruct (Hf b2 E2 eq_refl) as [E _]. rewrite Ht. unfold total. by rewrite E, app_nil_r.
  - exists r1, w1, b1, r2, w2, b2. split_and!; try done.
    intros ->. destruct (Hf b2 E2 Eb2) as [_ E]. congruence.
Qed.

Lemma failing_connection_prefix_witness :
  exists r1 w1 b1 r2 w2 b2,
    respond (bs "now") (fun _ => bs "text/plain") (fun n => n) [OWrite (bs "hello"); OFlush; OWriteString (bs "x")]
      (NewResponseWriter pool_New (mkWriter 8 healthy [] false [])) = Ok (r1, w1) /\
    respond (bs "now") (fun _ => bs "text/plain") (fun n => n) [OWrite (bs "hello"); OFlush; OWriteString (bs "x")]
      (NewResponseWriter pool_New (mkWriter 8 (fun out p => if (20 <? length out)%nat then Some 3%nat else None) [] false [])) =
      Ok (r2, w2) /\
    w_bufWriter w1 = Some b1 /\ w_bufWriter w2 = Some b2 /\
    bw_out b2 `prefix_of` total b1 /\ (r2 = inl tt -> bw_out b2 = total b1).
Proof. apply failing_connection_prefix. lia. Defined.
