(* ===== verification/ReadEvents.v ===== *)
(** * Read handlers (engine/engine.go, ServeConn)

    A handler that has hijacked its connection may leave a read handler behind: the
    event loop calls [ServeConn] whenever there is something to read on the
    connection, and [ServeConn] calls the read handler once, with the buffered reader
    and writer of the connection.  Here is that part of [ServeConn] on the models of
    the reader and the writer, with the event loop as a loop.  What a read handler
    reads is a program of [io.ReadFull] calls; such a program takes exactly the bytes
    it asks for, and leaves the reader at the end of what has arrived when they end
    there. *)

From S2P Require Import Prelude Scan Strconv Method StartLine Framing Request Reader ReaderSpec Bufio Adaptor AdaptorFaults.

(** ** io.ReadFull *)

(** The bytes, the error that stopped it short, the reader; [fuel] bounds the reads. *)
Fixpoint full_loop {R} `{ioReader R} (fuel n : nat) (b : bufio R) : res (bytes * option perror * bufio R) :=
  match n, fuel with
  | O, _ => Ok ([], None, b)
  | _, O => Crash OutOfFuel
  | _, S fuel' =>
      let '(p, e, b1) := Read n b in
      match e with
      | Some x => Ok (p, if (n <=? length p)%nat then None else Some x, b1)
      | None =>
          '(q, e, b2) ← full_loop fuel' (n - length p) b1;
          Ok (p ++ q, e, b2)
      end
  end.

Definition ReadFull {R} `{ioReader R} (n : nat) (b : bufio R) : res (bytes * option perror * bufio R) := full_loop n n b.

(** ** Reading programs *)

Inductive rprog (A : Type) : Type :=
| RDone (a : A)
| RFail (e : perror)
| RFull (n : nat) (k : bytes -> rprog A).
Arguments RDone {A}. Arguments RFail {A}. Arguments RFull {A}.

Fixpoint rbind {A B} (m : rprog A) (f : A -> rprog B) : rprog B :=
  match m with
  | RDone a => f a
  | RFail e => RFail e
  | RFull n k => RFull n (fun d => rbind (k d) f)
  end.

Fixpoint run_reads {A} {R} `{ioReader R} (m : rprog A) (b : bufio R) : res ((A + perror) * bufio R) :=
  match m with
  | RDone a => Ok (inl a, b)
  | RFail e => Ok (inr e, b)
  | RFull n k =>
      '(d, e, b1) ← ReadFull n b;
      match e with Some x => Ok (inr x, b1) | None => run_reads (k d) b1 end
  end.

(** On bytes that are all there: the result and what is left. *)
Fixpoint on_bytes {A} (m : rprog A) (d : bytes) : option (A * bytes) :=
  match m with
  | RDone a => Some (a, d)
  | RFail _ => None
  | RFull n k => if (n <=? length d)%nat then on_bytes (k (take n d)) (drop n d) else None
  end.

Lemma on_bytes_bind {A B} (m : rprog A) (f : A -> rprog B) d :
  on_bytes (rbind m f) d = match on_bytes m d with Some (a, d') => on_bytes (f a) d' | None => None end.
Proof. revert d. induction m as [a|e|n k IH]; intros d; cbn; [done | done|]. destruct (n <=? length d)%nat; [apply IH | done]. Qed.

(** A program that does not ask for what comes later. *)
Lemma on_bytes_app {A} (m : rprog A) d a d' rest :
  on_bytes m d = Some (a, d') -> on_bytes m (d ++ rest) = Some (a, d' ++ rest).
Proof.
  revert d. induction m as [x|e|n k IH]; intros d; cbn; [by intros [= -> ->] | done|].
  destruct (Nat.leb_spec n (length d)); [|done]. intros E. rewrite (proj2 (Nat.leb_le _ _)) by (rewrite length_app; lia).
  rewrite take_app_le, drop_app_le by lia. by apply IH.
Qed.

(** ** ServeConn with a read handler *)

Inductive hresult : Type := HandlerOk | HandlerErr | HandlerPanicked.

Definition ReadHandler : Type := bufio wire -> bufWriter -> res (hresult * bufio wire * bufWriter).

(** One call: whether the connection is closed; a panic is recovered. *)
Definition serve_read (h : ReadHandler) (b : bufio wire) (w : bufWriter) : res (bool * bufio wire * bufWriter) :=
  '(r, b, w) ← h b w;
  Ok (match r with HandlerOk => false | HandlerErr | HandlerPanicked => true end, b, w).

(** The event loop: [readable] is whether it has something to read on a connection,
    and so calls [ServeConn]. *)
Fixpoint read_events (readable : wire -> bool) (fuel : nat) (h : ReadHandler) (b : bufio wire) (w : bufWriter)
    : res (bool * bufio wire * bufWriter) :=
  match fuel with
  | O => Crash OutOfFuel
  | S fuel' =>
      if readable (b_rd b) then
        match serve_read h b w with
        | Ok (true, b, w) => Ok (true, b, w)
        | Ok (false, b, w) => read_events readable fuel' h b w
        | Crash f => Crash f
        end
      else Ok (false, b, w)
  end.

(** What netpoll documents of its OnRequest callback: it is called when the
    connection has bytes to read, and only then. *)
Definition polls (readable : wire -> bool) : Prop := forall c, readable c = true <-> concat (wi_pieces c) <> [].

Definition has_bytes (c : wire) : bool := bool_decide (concat (wi_pieces c) <> []).

Lemma has_bytes_polls : polls has_bytes.
Proof. intros c. apply bool_decide_eq_true. Qed.

Lemma polls_true readable c : polls readable -> concat (wi_pieces c) <> [] -> readable c = true.
Proof. intros H. apply H. Qed.

Lemma polls_false readable c : polls readable -> concat (wi_pieces c) = [] -> readable c = false.
Proof. intros H E. destruct (readable c) eqn:Er; [|done]. by apply H in Er. Qed.

(** ** Reading up to the end of a piece *)

(** [r] is to be read before the pieces [later], in pieces that end where it ends. *)
Definition ahead (b : bufio wire) (r : bytes) (later : list bytes) : Prop :=
  (0 < b_size b)%nat /\ b_err b = None /\
  exists ps, wi_pieces (b_rd b) = ps ++ later /\ b_buf b ++ concat ps = r /\ Forall (fun p => p <> []) ps.

Lemma ahead_done b later : ahead b [] later -> b_buf b = [] /\ wi_pieces (b_rd b) = later.
Proof.
  intros (_ & _ & ps & Hp & Hr & Hne). apply app_eq_nil in Hr as [Hb Hc]. split; [done|].
  destruct Hne as [|p ps Hp0 _]; [done|]. by apply app_eq_nil in Hc as [? _].
Qed.

Lemma ahead_read n b r later :
  (0 < n)%nat -> r <> [] -> ahead b r later ->
  exists p b' r', Read n b = (p, None, b') /\ p <> [] /\ (length p <= n)%nat /\ r = p ++ r' /\ ahead b' r' later /\
    b_size b' = b_size b /\ wi_err (b_rd b') = wi_err (b_rd b).
Proof.
  intros Hn Hr (Hs & He & ps & Hp & Hc & Hne). unfold Read, bufio_reader, bufio_Read.
  destruct n as [|n]; [lia|]. destruct (b_buf b) as [|x buf] eqn:Eb.
  - destruct Hne as [|q ps Hq Hne]; [by subst|]. rewrite He. cbn [Nat.eqb].
    destruct q as [|y q]; [done|]. unfold Read, wire_reader. rewrite Hp. cbn [read_pieces app].
    set (rem s := if (s <? length (y :: q))%nat then drop s (y :: q) :: ps else ps).
    assert (forall s, (0 < s)%nat -> concat (rem s) = drop s (y :: q) ++ concat ps /\ Forall (fun p => p <> []) (rem s)) as Hrem.
    { intros s Hs0. unfold rem. destruct (Nat.ltb_spec s (length (y :: q))).
      - split; [done|]. constructor; [|done]. intros E. apply (f_equal length) in E. rewrite length_drop in E. cbn in *. lia.
      - split; [|done]. by rewrite drop_ge by done. }
    assert (forall s, (if (s <? length (y :: q))%nat then drop s (y :: q) :: ps ++ later else ps ++ later) = rem s ++ later) as Er
      by (intros s; unfold rem; by destruct (_ <? _)%nat).
    destruct (Nat.leb_spec (b_size b) (S n)).
    + cbn [take]. rewrite Er. destruct (Hrem (S n)) as [Hr1 Hr2]; [lia|]. eexists _, _, (concat (rem (S n))).
      split_and!; [done | done | cbn; rewrite length_take; lia | | | done | done].
      * rewrite Hr1. change (y :: take n q) with (take (S n) (y :: q)). rewrite app_assoc, take_drop. by rewrite <- Hc.
      * split_and!; [done | done|]. by exists (rem (S n)).
    + destruct (b_size b) as [|s] eqn:Es; [lia|]. cbn [take]. rewrite Er. destruct (Hrem (S s)) as [Hr1 Hr2]; [lia|].
      eexists _, _, (drop n (take s q) ++ concat (rem (S s))). split_and!; [done | done | cbn; rewrite length_take; lia | | | done | done].
      * cbn [app]. f_equal. rewrite app_assoc, take_drop, Hr1. cbn [drop]. rewrite app_assoc, take_drop. by rewrite <- Hc.
      * split_and!; [cbn; lia | done|]. by exists (rem (S s)).
  - eexists _, _, (drop n buf ++ concat ps). cbn [take drop]. split_and!; [done | done | cbn; rewrite length_take; lia | | | done | done].
    + rewrite <- Hc. cbn. by rewrite app_assoc, take_drop.
    + split_and!; [done | done|]. by exists ps.
Qed.

Lemma full_ahead fuel n b r later :
  (n <= fuel)%nat -> (n <= length r)%nat -> ahead b r later ->
  exists b', full_loop fuel n b = Ok (take n r, None, b') /\ ahead b' (drop n r) later /\
    b_size b' = b_size b /\ wi_err (b_rd b') = wi_err (b_rd b).
Proof.
  revert n b r. induction fuel as [|fuel IH]; intros [|n] b r Hf Hl Ha; try lia.
  1, 2: exists b; by cbn.
  destruct (ahead_read (S n) b r later) as (p & b1 & r1 & E & Hp & Hpn & -> & Ha1 & Hs1 & He1); [lia | intros ->; cbn in Hl; lia | done|].
  cbn [full_loop]. rewrite E. rewrite length_app in Hl. assert (0 < length p)%nat by (destruct p; [done | cbn; lia]).
  destruct (IH (S n - length p)%nat b1 r1 ltac:(lia) ltac:(lia) Ha1) as (b2 & -> & Ha2 & Hs2 & He2). cbn [mbind res_bind].
  exists b2. rewrite take_app_ge, drop_app_ge by lia. split_and!; [done | done | congruence | congruence].
Qed.

Lemma run_ahead {A} (m : rprog A) b r later a r' :
  ahead b r later -> on_bytes m r = Some (a, r') ->
  exists b', run_reads m b = Ok (inl a, b') /\ ahead b' r' later /\ b_size b' = b_size b /\ wi_err (b_rd b') = wi_err (b_rd b).
Proof.
  revert b r. induction m as [x|e|n k IH]; intros b r Ha; cbn [on_bytes run_reads]; [|done|].
  - intros [= -> ->]. by exists b.
  - destruct (Nat.leb_spec n (length r)) as [Hl|]; [|done]. intros E.
    destruct (full_ahead n n b r later ltac:(lia) Hl Ha) as (b1 & E1 & Ha1 & Hs1 & He1). unfold ReadFull. rewrite E1. cbn [mbind res_bind].
    destruct (IH _ b1 _ Ha1 E) as (b2 & -> & Ha2 & Hs2 & He2). exists b2. split_and!; [done | done | congruence | congruence].
Qed.

(** *** A piece that is taken in at once *)

(** All that is left is in the buffer, or in one piece that fits into it. *)
Definition taken_in (b : bufio wire) (r : bytes) : Prop := b_err b = None /\ b_buf b = r /\ wi_pieces (b_rd b) = [].
Definition arrived (b : bufio wire) (r : bytes) : Prop :=
  b_err b = None /\ b_buf b = [] /\ wi_pieces (b_rd b) = [r] /\ (length r <= b_size b)%nat.

Lemma taken_in_full fuel n b r :
  (n <= fuel)%nat -> (n <= length r)%nat -> taken_in b r ->
  exists b', full_loop fuel n b = Ok (take n r, None, b') /\ taken_in b' (drop n r).
Proof.
  destruct n as [|n]; [destruct fuel; by exists b|]. destruct fuel as [|fuel]; [lia|]. intros Hf Hl (He & Hb & Hw).
  cbn [full_loop]. unfold Read, bufio_reader, bufio_Read. rewrite Hb, He. destruct r as [|x r]; [cbn in Hl; lia|].
  cbn [take length] in *. rewrite length_take. replace (S n - S (min n (length r)))%nat with 0%nat by lia.
  destruct fuel; cbn [full_loop mbind res_bind]; rewrite app_nil_r; eexists; (split; [done|]); by split_and!.
Qed.

Lemma arrived_full fuel n b r :
  (0 < n <= fuel)%nat -> (n < length r)%nat -> arrived b r ->
  exists b', full_loop fuel n b = Ok (take n r, None, b') /\ taken_in b' (drop n r).
Proof.
  intros Hf Hl (He & Hb & Hw & Hs). destruct n as [|n]; [lia|]. destruct fuel as [|fuel]; [lia|].
  cbn [full_loop]. unfold Read, bufio_reader, bufio_Read. rewrite Hb, He. cbn [Nat.eqb].
  destruct (Nat.leb_spec (b_size b) (S n)); [lia|]. unfold Read, wire_reader. rewrite Hw. destruct r as [|x r]; [cbn in Hl; lia|].
  cbn [read_pieces]. destruct (b_size b) as [|s] eqn:Es; [lia|]. rewrite (proj2 (Nat.ltb_ge _ _)) by lia.
  rewrite (take_ge _ (S s)) by lia. cbn [take length] in *. rewrite length_take. replace (S n - S (min n (length r)))%nat with 0%nat by lia.
  destruct fuel; cbn [full_loop mbind res_bind]; rewrite app_nil_r; eexists; (split; [done|]); by split_and!.
Qed.

Lemma run_taken_in {A} (m : rprog A) b r a r' :
  taken_in b r -> on_bytes m r = Some (a, r') -> exists b', run_reads m b = Ok (inl a, b') /\ taken_in b' r'.
Proof.
  revert b r. induction m as [x|e|n k IH]; intros b r Ha; cbn [on_bytes run_reads]; [|done|].
  - intros [= -> ->]. by exists b.
  - destruct (Nat.leb_spec n (length r)) as [Hl|]; [|done]. intros E.
    destruct (taken_in_full n n b r ltac:(lia) Hl Ha) as (b1 & E1 & Ha1). unfold ReadFull. rewrite E1. by apply (IH _ b1 _ Ha1).
Qed.

(** A program that reads something, but not all, takes in all of it. *)
Lemma run_arrived {A} (m : rprog A) b r a r' :
  arrived b r -> on_bytes m r = Some (a, r') -> r' <> [] -> (length r' < length r)%nat ->
  exists b', run_reads m b = Ok (inl a, b') /\ taken_in b' r'.
Proof.
  intros Ha. induction m as [x|e|n k IH]; cbn [on_bytes run_reads]; [|done|].
  - intros [= -> ->] _ Hl. lia.
  - destruct (Nat.leb_spec n (length r)) as [Hl|]; [|done]. intros E Hne Hlt. destruct n as [|n].
    { unfold ReadFull. cbn [full_loop mbind res_bind]. rewrite take_0, drop_0 in E. by apply IH. }
    assert (forall (m : rprog A) d x d', on_bytes m d = Some (x, d') -> (length d' <= length d)%nat) as Hmono.
    { clear. intros m. induction m as [y|e|n k IH]; intros d x d'; cbn; [by intros [= _ ->] | done|].
      destruct (n <=? length d)%nat; [|done]. intros E%IH. rewrite length_drop in E. lia. }
    assert (S n < length r)%nat.
    { destruct (decide (S n < length r)%nat); [done|]. destruct Hne. rewrite drop_ge in E by lia. apply Hmono in E. by destruct r'; [|cbn in E; lia]. }
    destruct (arrived_full (S n) (S n) b r ltac:(lia) ltac:(lia) Ha) as (b1 & E1 & Ha1). unfold ReadFull. rewrite E1. cbn [mbind res_bind].
    by eapply run_taken_in.
Qed.

(** ** Handlers that answer messages *)

(** [h] takes the message [msg] when it has all arrived, and nothing more, and
    answers it by [reply], at once. *)
Definition answers (h : ReadHandler) (msg reply : bytes) : Prop :=
  msg <> [] /\ forall b later w, ahead b msg later -> sound w -> bw_buf w = [] ->
    exists b' w', h b w = Ok (HandlerOk, b', w') /\ ahead b' [] later /\ sound w' /\ bw_buf w' = [] /\
      bw_out w' = bw_out w ++ reply.

(** [h] takes the first message of a piece that is taken in at once, and leaves the
    rest in the buffer. *)
Definition answers_first (h : ReadHandler) (msg reply : bytes) : Prop :=
  msg <> [] /\ forall b rest w, rest <> [] -> arrived b (msg ++ rest) -> sound w -> bw_buf w = [] ->
    exists b' w', h b w = Ok (HandlerOk, b', w') /\ taken_in b' rest /\ bw_buf w' = [] /\ bw_out w' = bw_out w ++ reply.

(** Each message arrives in pieces of its own. *)
Definition arrives (msg : bytes) (pieces : list bytes) : Prop := concat pieces = msg /\ Forall (fun p => p <> []) pieces.

Section Events.
Context (h : ReadHandler) (readable : wire -> bool) (Hpolls : polls readable).

Lemma events_in_order msgs replies piecess b w :
  Forall2 (answers h) msgs replies -> Forall2 arrives msgs piecess ->
  (0 < b_size b)%nat -> b_err b = None -> b_buf b = [] -> wi_pieces (b_rd b) = concat piecess -> sound w -> bw_buf w = [] ->
  exists b' w', read_events readable (S (length msgs)) h b w = Ok (false, b', w') /\
    b_buf b' = [] /\ wi_pieces (b_rd b') = [] /\ bw_buf w' = [] /\ bw_out w' = bw_out w ++ concat replies.
Proof.
  intros Hans Harr. revert piecess Harr b w. induction Hans as [|msg reply msgs replies [Hne Hh] Hans IH];
    intros piecess Harr b w Hs He Hb Hp Hw Hbuf.
  { inversion Harr; subst. cbn [length read_events]. rewrite polls_false by (done || by rewrite Hp).
    exists b, w. split_and!; try done. cbn. by rewrite app_nil_r. }
  inversion Harr as [|? pieces ? piecess' [Hc Hne2] Harr' E1 E2]; subst piecess. cbn [concat] in Hp.
  cbn [length read_events].
  rewrite polls_true by (done || by rewrite Hp, concat_app, Hc; intros [? _]%app_eq_nil).
  assert (ahead b msg (concat piecess')) as Ha.
  { split_and!; [done | done|]. exists pieces. by rewrite Hb. }
  destruct (Hh b _ w Ha Hw Hbuf) as (b1 & w1 & E & Ha1 & Hw1 & Hbuf1 & Ho1). destruct (ahead_done _ _ Ha1) as [Hb1 Hp1].
  unfold serve_read. rewrite E. cbn [mbind res_bind].
  destruct (IH piecess' Harr' b1 w1) as (b' & w' & E' & R1 & R2 & R3 & R4); [apply Ha1 | apply Ha1 | done | done | done | done|].
  exists b', w'. split_and!; [exact E' | done | done | done|]. rewrite R4, Ho1. cbn. by rewrite app_assoc.
Qed.

(** Two messages that arrive together: only the first is answered. *)
Lemma events_stall msg reply rest b w :
  answers_first h msg reply -> rest <> [] -> arrived b (msg ++ rest) -> sound w -> bw_buf w = [] ->
  exists b' w', read_events readable 2 h b w = Ok (false, b', w') /\
    b_buf b' = rest /\ wi_pieces (b_rd b') = [] /\ bw_buf w' = [] /\ bw_out w' = bw_out w ++ reply.
Proof.
  intros [Hne Hh] Hrest Harr Hw Hbuf. pose proof Harr as (_ & _ & Hp & _).
  destruct (Hh b rest w Hrest Harr Hw Hbuf) as (b1 & w1 & E & (_ & Hb1 & Hp1) & Hbuf1 & Ho1).
  cbn [read_events]. rewrite polls_true by (done || by rewrite Hp; cbn [concat]; rewrite app_nil_r; intros [? _]%app_eq_nil).
  unfold serve_read. rewrite E. cbn [mbind res_bind].
  rewrite polls_false by (done || by rewrite Hp1). exists b1, w1. by split_and!.
Qed.
End Events.

(** *** Reading a message, then answering it *)

Definition message_handler {A} (read : rprog A) (respond : A -> bufWriter -> res (hresult * bufWriter)) : ReadHandler :=
  fun b w =>
    '(x, b) ← run_reads read b;
    match x with
    | inr _ => Ok (HandlerErr, b, w)
    | inl a => '(r, w) ← respond a w; Ok (r, b, w)
    end.

Section Messages.
Context {A : Type} (read : rprog A) (respond : A -> bufWriter -> res (hresult * bufWriter)).

(** [msg] is one message, and [reply] is sent for it at once. *)
Definition answered (msg reply : bytes) : Prop :=
  msg <> [] /\ exists a, on_bytes read msg = Some (a, []) /\
  forall w, sound w -> bw_buf w = [] -> exists w', respond a w = Ok (HandlerOk, w') /\ sound w' /\ bw_buf w' = [] /\
    bw_out w' = bw_out w ++ reply.

Lemma message_answers msg reply : answered msg reply -> answers (message_handler read respond) msg reply.
Proof.
  intros (Hne & a & Hread & Hresp). split; [done|]. intros b later w Ha Hw Hbuf.
  destruct (run_ahead read b msg later a [] Ha Hread) as (b1 & Er & Ha1 & _).
  destruct (Hresp w Hw Hbuf) as (w1 & Ew & H). exists b1, w1.
  unfold message_handler. rewrite Er. cbn [mbind res_bind]. rewrite Ew. by cbn [mbind res_bind].
Qed.

Lemma message_answers_first msg reply : answered msg reply -> answers_first (message_handler read respond) msg reply.
Proof.
  intros (Hne & a & Hread & Hresp). split; [done|]. intros b rest w Hrest Harr Hw Hbuf.
  apply (on_bytes_app _ _ _ _ rest) in Hread. cbn [app] in Hread.
  destruct (run_arrived read b _ a rest Harr Hread Hrest) as (b1 & Er & Ht).
  { rewrite length_app. destruct msg; [done | cbn; lia]. }
  destruct (Hresp w Hw Hbuf) as (w1 & Ew & _ & Hbuf1 & Ho1). exists b1, w1.
  unfold message_handler. rewrite Er. cbn [mbind res_bind]. rewrite Ew. by cbn [mbind res_bind].
Qed.
End Messages.
