(* ===== verification/AdaptorSpec.v ===== *)
(** * What the response writer sends

    On a connection that works, the calls of a handler and [EndResponse] together
    send one message: the status line, the Date, the handler's headers and a
    framing header, then the body in that framing.  The proof follows the writer
    through its three phases: nothing written, one write held back, head sent. *)

From S2P Require Import Prelude Scan Strconv Method StartLine Framing Message MessageRoundtrip.
From S2P Require Import Bufio Adaptor AdaptorFaults.

(** ** Computations that succeed *)

(** From state [w], whatever is in the buffer, [m] gives [r] and the state
    [w1], and writes [p]. *)
Definition talks {A} (m : W A) (w : ResponseWriter) (r : A + nat * gerr) (w1 : ResponseWriter)
    (p : bytes) : Prop :=
  forall b, sound b -> exists b',
    m (set_bufWriter (Some b) w) = Ok (r, set_bufWriter (Some b') w1) /\ sound b' /\
    total b' = total b ++ p.

Section Calculus.
Context {A B : Type}.

Lemma talks_bind (m : W A) (k : A -> W B) w a w1 p r w2 q :
  talks m w (inl a) w1 p -> talks (k a) w1 r w2 q -> talks (m ≫= k) w r w2 (p ++ q).
Proof.
  intros Hm Hk b Hb. destruct (Hm b Hb) as (b1 & E1 & Hb1 & T1).
  destruct (Hk b1 Hb1) as (b2 & E2 & Hb2 & T2). exists b2. unfold mbind, W_bind. rewrite E1, E2.
  split_and!; [done..|]. by rewrite T2, T1, app_assoc.
Qed.

Lemma talks_silent_bind (m : W A) (k : A -> W B) w a w1 r w2 q :
  talks m w (inl a) w1 [] -> talks (k a) w1 r w2 q -> talks (m ≫= k) w r w2 q.
Proof. intros. by eapply (talks_bind m k w a w1 []). Qed.

Lemma talks_get (f : ResponseWriter -> A) w :
  (forall b w, f (set_bufWriter b w) = f w) -> talks (wget f) w (inl (f w)) w [].
Proof. intros Hf b Hb. exists b. unfold wget. rewrite Hf, app_nil_r. by split_and!. Qed.

Lemma talks_put (g : ResponseWriter -> ResponseWriter) w :
  (forall b w, g (set_bufWriter b w) = set_bufWriter b (g w)) -> talks (wput g) w (inl tt) (g w) [].
Proof. intros Hg b Hb. exists b. unfold wput. rewrite Hg, app_nil_r. by split_and!. Qed.

Lemma talks_put_to (g : ResponseWriter -> ResponseWriter) w w1 :
  (forall b w, g (set_bufWriter b w) = set_bufWriter b (g w)) -> g w = w1 ->
  talks (wput g) w (inl tt) w1 [].
Proof. intros Hg <-. by apply talks_put. Qed.

Lemma talks_ret (a : A) w : talks (mret a) w (inl a) w [].
Proof. intros b Hb. exists b. rewrite app_nil_r. by split_and!. Qed.

Lemma talks_throw n e w : talks (@wthrow A n e) w (inr (n, e)) w [].
Proof. intros b Hb. exists b. rewrite app_nil_r. by split_and!. Qed.

Lemma talks_ignore (m : W A) w r w1 p : talks m w r w1 p -> talks (ignore m) w (inl tt) w1 p.
Proof. intros Hm b Hb. destruct (Hm b Hb) as (b1 & E & H). exists b1. unfold ignore. by rewrite E. Qed.

Lemma talks_withCount n (m : W A) w a w1 p :
  talks m w (inl a) w1 p -> talks (withCount n m) w (inl a) w1 p.
Proof. intros Hm b Hb. destruct (Hm b Hb) as (b1 & E & H). exists b1. unfold withCount. by rewrite E. Qed.

Lemma talks_eq (m : W A) w r w1 p q : talks m w r w1 p -> p = q -> talks m w r w1 q.
Proof. by intros H <-. Qed.
End Calculus.

Lemma talks_wr direct p w : talks (wr_with direct p) w (inl (length p)) w p.
Proof.
  intros b Hb. destruct (sound_write direct b p Hb) as (b' & E & Hb' & Ht). exists b'.
  unfold wr_with. cbn [w_bufWriter set_bufWriter]. rewrite E. destruct Hb' as (? & He & ?). rewrite He. by split_and!.
Qed.

Lemma talks_flush w : talks wflush w (inl tt) w [].
Proof.
  intros b Hb. destruct (sound_flush b Hb) as (Hb' & Ht & _). exists (bw_Flush b). unfold wflush. cbn [w_bufWriter set_bufWriter].
  destruct Hb' as (? & He & ?). rewrite He, app_nil_r. by split_and!.
Qed.

(** The same for a computation that ends with a flush: all of it is delivered. *)
Definition talks_out {A} (m : W A) (w : ResponseWriter) (r : A + nat * gerr) (w1 : ResponseWriter) (p : bytes) : Prop :=
  forall b, sound b -> exists b',
    m (set_bufWriter (Some b) w) = Ok (r, set_bufWriter (Some b') w1) /\ sound b' /\ bw_buf b' = [] /\ bw_out b' = total b ++ p.

Lemma talks_out_talks {A} (m : W A) w r w1 p : talks_out m w r w1 p -> talks m w r w1 p.
Proof.
  intros H b Hb. destruct (H b Hb) as (b' & E & Hb' & Hbuf & Ho). exists b'. split_and!; try done.
  unfold total at 1. by rewrite Hbuf, app_nil_r.
Qed.

Lemma talks_out_bind {A B} (m : W A) (k : A -> W B) w a w1 p r w2 q :
  talks m w (inl a) w1 p -> talks_out (k a) w1 r w2 q -> talks_out (m ≫= k) w r w2 (p ++ q).
Proof.
  intros Hm Hk b Hb. destruct (Hm b Hb) as (b1 & E1 & Hb1 & T1).
  destruct (Hk b1 Hb1) as (b2 & E2 & Hb2 & T2 & T3). exists b2. unfold mbind, W_bind. rewrite E1, E2.
  split_and!; [done..|]. by rewrite T3, T1, app_assoc.
Qed.

Lemma talks_out_ignore {A} (m : W A) w r w1 p : talks_out m w r w1 p -> talks_out (ignore m) w (inl tt) w1 p.
Proof. intros Hm b Hb. destruct (Hm b Hb) as (b1 & E & H). exists b1. unfold ignore. by rewrite E. Qed.

Lemma talks_out_flush {A} (m : W A) w a w1 p : talks m w (inl a) w1 p -> talks_out (_ ← m; wflush) w (inl tt) w1 p.
Proof.
  intros Hm. rewrite <- (app_nil_r p). eapply talks_out_bind; [exact Hm|]. intros b Hb.
  destruct (sound_flush b Hb) as (Hb' & Ht & Hbuf). exists (bw_Flush b). unfold wflush. cbn [w_bufWriter set_bufWriter].
  unfold total at 1 in Ht. rewrite Hbuf, app_nil_r in Ht. pose proof Hb' as (? & He & ?). rewrite He, app_nil_r. by split_and!.
Qed.

(** Steps through a computation, one primitive at a time. *)
Ltac talk :=
  repeat first
    [ eapply talks_bind; [first [apply talks_wr | apply talks_flush]|]
    | eapply talks_silent_bind; [first [apply talks_get; done | apply talks_put; done | apply talks_ret]|]
    | progress cbv beta iota ].
Ltac talk_end :=
  first [apply talks_ret | apply talks_put; done | apply talks_flush | apply talks_wr].

(** ** Heads *)

Definition hline (kv : bytes * bytes) : headerLine := mkHeaderLine (fst kv) (snd kv).

Lemma write_entries_talks es w :
  talks (write_entries es) w (inl tt) w (header_block (map print_header (map hline es))).
Proof.
  induction es as [|[k v] es IH]; cbn [write_entries]; [apply talks_ret|].
  eapply talks_eq; [talk; exact IH|].
  unfold header_block, print_header. cbn [map concat hline fst snd Name Value]. by rewrite <- !app_assoc.
Qed.

Section Responses.
Context (currentDate : bytes) (DetectContentType : bytes -> bytes) (grow : nat -> nat).

Definition date_line : headerLine := mkHeaderLine (bs "Date") currentDate.

(** The short form of the head is for a 200 response whose only headers are a
    Content-Length and perhaps a Content-Type. *)
Definition short_head (h : Header) (code : Z) : bool :=
  (code =? StatusOK) && bool_decide (firstHeaderValue h (bs "Date") = [])
  && bool_decide (firstHeaderValue h headerTransferEnc = [])
  && negb (bool_decide (firstHeaderValue h headerContentLength = [])) && (size h <=? 2)%nat
  && ((size h =? 1)%nat || ((size h =? 2)%nat && negb (bool_decide (firstHeaderValue h headerContentType = [])))).

(** The header lines of a response without trailers. *)
Definition head_lines (h : Header) (code : Z) : list headerLine :=
  let cl := firstHeaderValue h headerContentLength in
  let ct := firstHeaderValue h headerContentType in
  if short_head h code then
    date_line :: (if bool_decide (ct = []) then [] else [mkHeaderLine headerContentType ct])
      ++ [mkHeaderLine headerContentLength cl]
  else
    (if bool_decide (firstHeaderValue h (bs "Date") = []) then [date_line] else [])
      ++ map hline (header_entries h)
      ++ (if bool_decide (cl = []) && bool_decide (firstHeaderValue h headerTransferEnc = [])
          then [chunked_header] else []).

Definition status_line_of (code : Z) : responseLine := mkResponseLine 1 1 code (status_text code).

(** The text of the head. *)
Definition head_out (h : Header) (code : Z) : bytes := print_response (status_line_of code) (head_lines h code) [].

Lemma fast_head_talks w ct cl :
  talks (fast_head currentDate ct cl) w (inl tt) (set_headerSent true (set_chunked false w))
    (print_response (status_line_of 200)
       (date_line :: (if bool_decide (ct = []) then [] else [mkHeaderLine headerContentType ct])
          ++ [mkHeaderLine headerContentLength cl]) []).
Proof.
  unfold fast_head. eapply talks_eq.
  - talk. eapply (talks_bind _ _ w tt w
      (if bool_decide (ct = []) then [] else print_header (mkHeaderLine headerContentType ct) ++ CRLF)).
    + destruct (bool_decide (ct = [])); cbn [negb]; [apply talks_ret|].
      eapply talks_eq; [talk; talk_end|]. unfold print_header. cbn. by rewrite <- ?app_assoc.
    + talk. talk_end.
  - unfold print_response, header_block, print_header. destruct (bool_decide (ct = []));
      cbn [map concat app date_line Name Value]; rewrite <- !app_assoc; reflexivity.
Qed.

Lemma general_head_talks w :
  w_trailer w = ∅ ->
  let h := w_header w in
  let cl := firstHeaderValue h headerContentLength in
  talks (general_head currentDate cl false) w (inl tt)
    (set_headerSent true (set_chunked (bool_decide (cl = [])) w))
    (print_response (status_line_of (w_statusCode w))
       ((if bool_decide (firstHeaderValue h (bs "Date") = []) then [date_line] else [])
          ++ map hline (header_entries h)
          ++ (if bool_decide (cl = []) && bool_decide (firstHeaderValue h headerTransferEnc = [])
              then [chunked_header] else [])) []).
Proof.
  intros Ht h cl. unfold general_head. eapply talks_eq.
  - talk. cbv zeta. rewrite !orb_false_r. fold h.
    eapply (talks_bind _ _ w tt w
      (if bool_decide (firstHeaderValue h (bs "Date") = []) then print_header date_line ++ CRLF else [])).
    { destruct (bool_decide _); [|apply talks_ret].
      eapply talks_eq; [talk; talk_end|]. unfold print_header. cbn [date_line Name Value].
      by rewrite app_nil_r, <- !app_assoc. }
    talk. eapply talks_bind; [apply write_entries_talks|].
    eapply (talks_bind _ _ _ tt (set_chunked (bool_decide (cl = [])) w)
      (if bool_decide (cl = []) && bool_decide (firstHeaderValue h headerTransferEnc = [])
       then print_header chunked_header ++ CRLF else [])).
    { fold h. destruct (_ && _); [|apply talks_ret]. eapply talks_eq; [talk; talk_end | done]. }
    talk. talk_end.
  - unfold print_response, header_block. rewrite !map_app, !concat_app, <- !app_assoc.
    unfold print_status_line. rewrite <- !app_assoc. fold h.
    destruct (bool_decide (firstHeaderValue h (bs "Date") = [])), (_ && _);
      cbn [map concat app]; rewrite ?app_nil_r, <- ?app_assoc; reflexivity.
Qed.

(** The head is sent once. *)
Lemma ensureHeaderSent_talks w :
  w_trailer w = ∅ -> w_headerSent w = false ->
  talks (ensureHeaderSent currentDate) w (inl tt)
    (set_headerSent true (set_chunked (bool_decide (firstHeaderValue (w_header w) headerContentLength = [])) w))
    (head_out (w_header w) (w_statusCode w)).
Proof.
  intros Ht Hs. unfold ensureHeaderSent. talk. rewrite Hs. talk. rewrite Ht. cbv zeta.
  change (0 <? size (∅ : Header))%nat with false. cbn [negb]. rewrite andb_true_r.
  unfold head_out, head_lines. fold (short_head (w_header w) (w_statusCode w)).
  destruct (short_head (w_header w) (w_statusCode w)) eqn:E.
  - unfold short_head in E. apply andb_true_iff in E as [E _]. apply andb_true_iff in E as [E _].
    apply andb_true_iff in E as [E Hcl]. apply andb_true_iff in E as [E _].
    apply andb_true_iff in E as [Hc%Z.eqb_eq _].
    apply negb_true_iff in Hcl. rewrite Hcl, Hc. apply fast_head_talks.
  - by apply general_head_talks.
Qed.

(** ** Data *)

Lemma chunk_talks direct p w :
  w_chunked w = true -> talks (write_data direct p) w (inl (length p)) w (encode_chunk p).
Proof.
  intros Hc. unfold write_data. talk. rewrite Hc. eapply talks_eq.
  - eapply talks_bind.
    { apply talks_withCount. unfold writeChunkHeader. talk. talk_end. }
    talk. eapply talks_bind.
    { apply talks_withCount. unfold writeChunkTrailer. talk. talk_end. }
    talk_end.
  - unfold encode_chunk. by rewrite !app_nil_r, <- !app_assoc.
Qed.

Lemma pending_talks w :
  w_chunked w = true -> talks write_pending w (inl tt) w (encode_chunk (w_pending w)).
Proof.
  intros Hc. unfold write_pending. talk. rewrite Hc. eapply talks_eq.
  - eapply talks_bind.
    { unfold writeChunkHeader. talk. talk_end. }
    talk. unfold writeChunkTrailer. talk. talk_end.
  - unfold encode_chunk. by rewrite !app_nil_r, <- !app_assoc.
Qed.

(** The non-empty chunks a reader's data is sent in. *)
Fixpoint read_chunks (reads : list (bytes * option bool)) : list bytes :=
  match reads with
  | [] => []
  | (p, er) :: reads' =>
      (if (length p =? 0)%nat then [] else [p])
        ++ match er with None => read_chunks reads' | Some _ => [] end
  end.

Lemma read_chunks_data reads : concat (read_chunks reads) = reads_data reads.
Proof.
  induction reads as [|[p [e|]] reads IH]; cbn [read_chunks reads_data]; [done|..];
    rewrite ?concat_app, ?IH, ?app_nil_r; destruct p; cbn; by rewrite ?app_nil_r.
Qed.

Lemma read_chunks_nonempty reads : Forall (fun c => c <> []) (read_chunks reads).
Proof.
  induction reads as [|[p er] reads IH]; cbn [read_chunks]; [constructor|].
  apply Forall_app. split; [|by destruct er]. destruct p; cbn; [constructor | by repeat constructor].
Qed.

Lemma copy_talks reads n w :
  w_chunked w = true ->
  exists r, talks (copy_loop reads n) w r w (concat (map encode_chunk (read_chunks reads))).
Proof.
  intros Hc. revert n. induction reads as [|[p er] reads IH]; intros n; cbn [copy_loop read_chunks].
  { eexists. apply talks_ret. }
  rewrite map_app, concat_app.
  assert (exists n', talks (if (length p =? 0)%nat then mret n
     else _ ← withCount n (_ ← wr (formatInt (blen p) 16); _ ← wr CRLF; _ ← wr p; _ ← wr CRLF; mret tt);
          mret (n + length p)%nat) w (inl n') w
     (concat (map encode_chunk (if (length p =? 0)%nat then [] else [p])))) as [n' Hn].
  { destruct (length p =? 0)%nat; eexists; [apply talks_ret|]. eapply talks_eq.
    - eapply talks_bind; [apply talks_withCount; talk; talk_end | talk_end].
    - cbn. by rewrite !app_nil_r. }
  destruct er as [[]|].
  - eexists. eapply talks_silent_bind; [by apply talks_get|]. rewrite Hc. eapply talks_bind; [exact Hn | talk_end].
  - eexists. eapply talks_silent_bind; [by apply talks_get|]. rewrite Hc. eapply talks_bind; [exact Hn | apply talks_throw].
  - destruct (IH n') as [r Hr]. exists r. eapply talks_silent_bind; [by apply talks_get|]. rewrite Hc.
    eapply talks_bind; [exact Hn | exact Hr].
Qed.

(** ** Phases *)

Inductive phase : Type := Fresh | Held | Sent.

(** What a call does to the phase and to the status; [None] for the calls that
    bypass data held back. *)
Definition next_phase (s : phase * Z) (o : op) : option (phase * Z) :=
  match o, fst s with
  | OWriteHeader c, Sent => Some s
  | OWriteHeader c, ph => Some (ph, c)
  | OFlush, _ => Some (Sent, snd s)
  | OWrite [], _ | OWriteString [], _ => Some s
  | OWrite _, Fresh => Some (Held, snd s)
  | OWrite _, _ => Some (Sent, snd s)
  | OWriteString _, Held | OReadFrom _, Held => None
  | OWriteString _, _ | OReadFrom _, _ => Some (Sent, snd s)
  end.

Fixpoint phases (s : phase * Z) (os : list op) : option (phase * Z) :=
  match os with
  | [] => Some s
  | o :: os' => match next_phase s o with Some s' => phases s' os' | None => None end
  end.

Definition op_data (o : op) : bytes :=
  match o with
  | OWrite p => p
  | OWriteString s => s
  | OReadFrom reads => reads_data reads
  | OFlush | OWriteHeader _ => []
  end.

(** All that a handler writes. *)
Definition written (os : list op) : bytes := concat (map op_data os).

(** A value that is sent as it is. *)
Definition clean (v : bytes) : Prop := sanitize v = v.

(** Headers that do not interfere with the framing; a Content-Type has one clean
    value. *)
Record headers_ok (h : Header) : Prop := {
  ho_framing : map_Forall (fun k _ => equalFoldToken k (bs "content-length") = false /\
                                      equalFoldToken k (bs "transfer-encoding") = false) h;
  ho_type : forall vs, h !! headerContentType = Some vs -> exists v, vs = [v] /\ clean v }.

Lemma headers_no_length h : headers_ok h -> firstHeaderValue h headerContentLength = [] /\ h !! headerContentLength = None.
Proof.
  intros [Hf _]. unfold firstHeaderValue. destruct (h !! headerContentLength) as [vs|] eqn:E; [|done].
  by destruct (Hf _ _ E) as [[=] _].
Qed.

Lemma headers_no_coding h : headers_ok h -> firstHeaderValue h headerTransferEnc = [].
Proof.
  intros [Hf _]. unfold firstHeaderValue. destruct (h !! headerTransferEnc) as [vs|] eqn:E; [|done].
  by destruct (Hf _ _ E) as [_ [=]].
Qed.

Hypothesis clean_date : clean currentDate.
Hypothesis clean_sniffed : forall p, clean (DetectContentType p).

(** The headers the handler starts with; the writer adds at most a sniffed
    Content-Type, if there is none. *)
Context (h0 : Header).

Definition ours (h : Header) : Prop :=
  headers_ok h /\
  (h = h0 \/ firstHeaderValue h0 headerContentType = [] /\
             exists p, h = setSingleHeaderValue h0 headerContentType (DetectContentType p)).

Lemma ours_no_length h : ours h -> firstHeaderValue h headerContentLength = [] /\ h !! headerContentLength = None.
Proof. intros [H _]. by apply headers_no_length. Qed.

Lemma ours_no_coding h : ours h -> firstHeaderValue h headerTransferEnc = [].
Proof. intros [H _]. by apply headers_no_coding. Qed.

(** The state [w] of a writer in phase [s] after the data [body], of which [out]
    has been written out. *)
Record inv (s : phase * Z) (w : ResponseWriter) (body out : bytes) : Prop := {
  iv_trailer : w_trailer w = ∅;
  iv_hijacked : w_hijacked w = false;
  iv_headers : ours (w_header w);
  iv_status : w_statusCode w = snd s;
  iv_phase :
    match fst s with
    | Fresh => w_headerSent w = false /\ w_pending w = [] /\ body = [] /\ out = []
    | Held => w_headerSent w = false /\ w_pending w = body /\ body <> [] /\ out = []
    | Sent =>
        w_headerSent w = true /\ w_chunked w = true /\ w_pending w = [] /\
        exists cs, body = concat cs /\ Forall (fun c => c <> []) cs /\
          out = head_out (w_header w) (snd s) ++ concat (map encode_chunk cs)
    end }.

(** The writer after sniffing. *)
Definition sniffed (p : bytes) (w : ResponseWriter) : ResponseWriter :=
  if bool_decide (firstHeaderValue (w_header w) headerContentType = [])
  then set_header (setSingleHeaderValue (w_header w) headerContentType
                     (DetectContentType (take (Nat.min (length p) 512) p))) w
  else w.

Lemma sniff_talks p w : talks (sniff DetectContentType p) w (inl tt) (sniffed p w) [].
Proof. apply talks_put. intros b v. cbn [w_header set_bufWriter]. by destruct (bool_decide _). Qed.

Lemma sniffed_headers p w : ours (w_header w) -> ours (w_header (sniffed p w)).
Proof.
  intros Hh. unfold sniffed. destruct (bool_decide_reflect (firstHeaderValue (w_header w) headerContentType = []))
    as [E|]; [|done]. destruct Hh as [[Hf Ht] Hfrom]. split; [constructor|].
  - unfold setSingleHeaderValue. apply map_Forall_insert_2; [by vm_compute | exact Hf].
  - cbn [w_header set_header]. unfold setSingleHeaderValue. rewrite lookup_insert. intros vs [= <-]. eauto.
  - right. cbn [w_header set_header]. destruct Hfrom as [Hw|[E0 [q Hw]]]; rewrite Hw in *; [by eauto|].
    split; [done|]. unfold setSingleHeaderValue. rewrite insert_insert_eq. eauto.
Qed.

(** The fields that sniffing leaves alone. *)
Lemma sniffed_fields p w :
  w_trailer (sniffed p w) = w_trailer w /\ w_hijacked (sniffed p w) = w_hijacked w /\
  w_statusCode (sniffed p w) = w_statusCode w /\ w_headerSent (sniffed p w) = w_headerSent w /\
  w_pending (sniffed p w) = w_pending w.
Proof. unfold sniffed. by destruct (bool_decide _). Qed.

(** The head is sent, as chunked, from any phase before. *)
Lemma send_head_talks w :
  w_trailer w = ∅ -> w_headerSent w = false -> ours (w_header w) ->
  talks (ensureHeaderSent currentDate) w (inl tt) (set_headerSent true (set_chunked true w))
    (head_out (w_header w) (w_statusCode w)).
Proof.
  intros Ht Hs Hh. pose proof (ensureHeaderSent_talks w Ht Hs) as H.
  by rewrite (proj1 (ours_no_length _ Hh)), bool_decide_true in H.
Qed.

(** The outcome of one call. *)
Definition steps_to (s : phase * Z) (m : W unit) (w : ResponseWriter) (body out : bytes) : Prop :=
  exists w' p, talks m w (inl tt) w' p /\ inv s w' body (out ++ p).

Lemma steps_same s m w body out :
  inv s w body out -> talks m w (inl tt) w [] -> steps_to s m w body out.
Proof. intros Hi Hm. exists w, []. by rewrite app_nil_r. Qed.

Lemma chunk_sent c direct p w body out :
  inv (Sent, c) w body out -> p <> [] ->
  talks (write_data direct p) w (inl (length p)) w (encode_chunk p) /\ inv (Sent, c) w (body ++ p) (out ++ encode_chunk p).
Proof.
  intros [H1 H2 H3 H4 (Hs & Hc & Hp & cs & -> & Hcs & ->)] Hne. split; [by apply chunk_talks|].
  constructor; try done. split_and!; try done. exists (cs ++ [p]). split_and!.
  - rewrite concat_app. cbn. by rewrite app_nil_r.
  - apply Forall_app. by repeat constructor.
  - rewrite map_app, concat_app. cbn. by rewrite app_nil_r, <- app_assoc.
Qed.

(** The state after the head has been sent, with nothing held back. *)
Lemma inv_head_sent c w :
  w_trailer w = ∅ -> w_hijacked w = false -> ours (w_header w) -> w_statusCode w = c -> w_pending w = [] ->
  inv (Sent, c) (set_headerSent true (set_chunked true w)) [] (head_out (w_header w) c).
Proof.
  intros H1 H2 H3 H4 H5. constructor; try done. split_and!; try done. exists []. split_and!; [done | constructor|].
  cbn. by rewrite app_nil_r.
Qed.

(** The state after the head and the data held back have been sent. *)
Lemma inv_held_sent c w :
  w_trailer w = ∅ -> w_hijacked w = false -> ours (w_header w) -> w_statusCode w = c -> w_pending w <> [] ->
  inv (Sent, c) (clear_pending (set_headerSent true (set_chunked true w))) (w_pending w)
    (head_out (w_header w) c ++ encode_chunk (w_pending w)).
Proof.
  intros H1 H2 H3 H4 H5. constructor; try done. split_and!; try done. exists [w_pending w].
  split_and!; [by cbn; rewrite app_nil_r | by repeat constructor | by cbn; rewrite app_nil_r].
Qed.

(** [Write] before the head is sent: the data is held back, or what is held back
    goes first. *)
Lemma Write_unsent p w r w' q :
  p <> [] -> w_hijacked w = false -> w_headerSent w = false -> w_trailer w = ∅ -> ours (w_header w) ->
  talks (if (length (w_pending w) =? 0)%nat
         then _ ← wput (store_pending grow p); mret (length p)
         else _ ← withCount 0 (ensureHeaderSent currentDate); _ ← withCount 0 write_pending;
              _ ← wput clear_pending; write_data true p) (sniffed p w) r w' q ->
  talks (Write currentDate DetectContentType grow p) w r w' q.
Proof.
  intros Hne H2 Hs H1 H3 Ht. destruct (sniffed_fields p w) as (F1 & F2 & F3 & F4 & F5).
  pose proof (sniffed_headers p w H3) as F6. unfold Write. talk. rewrite H2.
  replace (length p =? 0)%nat with false by (by destruct p). talk. rewrite Hs.
  eapply talks_silent_bind; [apply sniff_talks|]. talk.
  rewrite (proj1 (ours_no_length _ F6)), (ours_no_coding _ F6), F1, H1, F5.
  rewrite bool_decide_true by done. exact Ht.
Qed.

(** [Write] after it. *)
Lemma Write_sent c p w body out :
  inv (Sent, c) w body out -> p <> [] ->
  steps_to (Sent, c) (run_op currentDate DetectContentType grow (OWrite p)) w (body ++ p) out.
Proof.
  intros Hi Hne. destruct (chunk_sent c true p _ _ _ Hi Hne) as [Ht Hi2]. destruct Hi as [_ H2 _ _ (Hs & _)].
  eexists _, _. split; [|exact Hi2]. eapply talks_ignore. unfold Write. talk. rewrite H2.
  replace (length p =? 0)%nat with false by (by destruct p). talk. by rewrite Hs.
Qed.

Lemma Write_fresh c p w body out :
  inv (Fresh, c) w body out -> p <> [] ->
  steps_to (Held, c) (run_op currentDate DetectContentType grow (OWrite p)) w (body ++ p) out.
Proof.
  intros [H1 H2 H3 H4 (Hs & Hpe & -> & ->)] Hne. cbn [snd] in H4.
  destruct (sniffed_fields p w) as (F1 & F2 & F3 & F4 & F5). pose proof (sniffed_headers p w H3) as F6.
  eexists _, []. split.
  - eapply talks_ignore, Write_unsent; [done..|]. rewrite Hpe. cbn [length Nat.eqb].
    eapply talks_silent_bind; [by apply talks_put|]. talk_end.
  - constructor; cbn; [congruence | congruence | done | congruence|]. rewrite F4. by split_and!.
Qed.

Lemma Write_held c p w body out :
  inv (Held, c) w body out -> p <> [] ->
  steps_to (Sent, c) (run_op currentDate DetectContentType grow (OWrite p)) w (body ++ p) out.
Proof.
  intros [H1 H2 H3 H4 (Hs & Hpe & Hb & ->)] Hne. cbn [snd] in H4.
  destruct (sniffed_fields p w) as (F1 & F2 & F3 & F4 & F5). pose proof (sniffed_headers p w H3) as F6.
  assert (w_pending (sniffed p w) = body) as F7 by congruence.
  pose proof (inv_held_sent c (sniffed p w)) as Hi. rewrite F7 in Hi.
  destruct (chunk_sent c true p _ _ _ (Hi ltac:(congruence) ltac:(congruence) F6 ltac:(congruence) Hb) Hne) as [Ht Hi2].
  eexists _, _. split; [|exact Hi2].
  eapply talks_ignore, Write_unsent; [done..|]. rewrite Hpe.
  replace (length body =? 0)%nat with false by (by destruct body). rewrite <- app_assoc.
  replace c with (w_statusCode (sniffed p w)) by congruence.
  eapply talks_bind; [apply talks_withCount, send_head_talks; congruence|].
  eapply talks_bind; [|eapply talks_silent_bind; [by apply talks_put | exact Ht]].
  rewrite <- F7. apply talks_withCount. exact (pending_talks (set_headerSent true (set_chunked true (sniffed p w))) eq_refl).
Qed.

(** [WriteString] and [ReadFrom] with nothing held back. *)
Lemma WriteString_step ph c p w body out :
  inv (ph, c) w body out -> ph <> Held -> p <> [] ->
  steps_to (Sent, c) (run_op currentDate DetectContentType grow (OWriteString p)) w (body ++ p) out.
Proof.
  intros Hi Hph Hne. pose proof Hi as [H1 H2 H3 H4 H5]. cbn [fst snd] in *.
  destruct (sniffed_fields p w) as (F1 & F2 & F3 & F4 & F5). pose proof (sniffed_headers p w H3) as F6.
  assert ((length p =? 0)%nat = false) as Hp by (by destruct p).
  destruct ph; [| done |].
  - destruct H5 as (Hs & Hpe & -> & ->).
    pose proof (inv_head_sent c (sniffed p w) ltac:(congruence) ltac:(congruence) F6 ltac:(congruence) ltac:(congruence)) as Hi'.
    destruct (chunk_sent c false p _ _ _ Hi' Hne) as [Ht Hi2]. eexists _, _. split; [|exact Hi2].
    eapply talks_ignore. unfold WriteString. talk. rewrite H2, Hp. talk. rewrite Hs.
    eapply talks_bind; [|exact Ht]. eapply talks_silent_bind; [apply sniff_talks|].
    replace c with (w_statusCode (sniffed p w)) by congruence.
    apply talks_withCount, send_head_talks; congruence.
  - destruct (chunk_sent c false p _ _ _ Hi Hne) as [Ht Hi2]. destruct H5 as (Hs & _).
    eexists _, _. split; [|exact Hi2]. eapply talks_ignore. unfold WriteString. talk. rewrite H2, Hp. talk.
    rewrite Hs. eapply talks_silent_bind; [apply talks_ret | exact Ht].
Qed.

Lemma copy_sent c reads w body out :
  inv (Sent, c) w body out ->
  exists r p, talks (copy_loop reads 0) w r w p /\ inv (Sent, c) w (body ++ reads_data reads) (out ++ p).
Proof.
  intros [H1 H2 H3 H4 (Hs & Hc & Hp & cs & -> & Hcs & ->)]. destruct (copy_talks reads 0 w Hc) as [r Ht].
  eexists r, _. split; [exact Ht|]. constructor; try done. split_and!; try done. exists (cs ++ read_chunks reads).
  split_and!; [by rewrite concat_app, read_chunks_data | | by rewrite map_app, concat_app, <- app_assoc].
  apply Forall_app. split; [done | apply read_chunks_nonempty].
Qed.

Lemma ReadFrom_step ph c reads w body out :
  inv (ph, c) w body out -> ph <> Held ->
  steps_to (Sent, c) (run_op currentDate DetectContentType grow (OReadFrom reads)) w (body ++ reads_data reads) out.
Proof.
  intros Hi Hph. pose proof Hi as [H1 H2 H3 H4 H5]. cbn [fst snd] in *. destruct ph; [| done |].
  - destruct H5 as (Hs & Hpe & -> & ->).
    destruct (copy_sent c reads _ _ _ (inv_head_sent c w H1 H2 H3 H4 Hpe)) as (r & p & Ht & Hi2).
    eexists _, _. split; [|exact Hi2]. eapply talks_ignore. unfold ReadFrom. talk. rewrite H2. talk. rewrite Hs.
    eapply talks_bind; [rewrite <- H4; by apply talks_withCount, send_head_talks|]. talk. exact Ht.
  - destruct (copy_sent c reads _ _ _ Hi) as (r & p & Ht & Hi2). destruct H5 as (Hs & Hc & _).
    eexists _, _. split; [|exact Hi2]. eapply talks_ignore. unfold ReadFrom. talk. rewrite H2. talk. rewrite Hs.
    eapply talks_silent_bind; [apply talks_ret|]. talk. rewrite Hc. exact Ht.
Qed.

Lemma Flush_out ph c w body out :
  inv (ph, c) w body out ->
  exists w' p, talks_out (run_op currentDate DetectContentType grow OFlush) w (inl tt) w' p /\ inv (Sent, c) w' body (out ++ p).
Proof.
  intros Hi. pose proof Hi as [H1 H2 H3 H4 H5]. cbn [fst snd run_op] in *.
  pose proof (send_head_talks w H1) as Hh. rewrite H4 in Hh.
  assert (forall (X : bool -> W unit) w' p, talks (X (w_headerSent w)) w (inl tt) w' p ->
    talks_out (hijacked ← wget w_hijacked; if hijacked : bool then mret tt else ignore (sent ← wget w_headerSent; _ ← X sent; wflush))
      w (inl tt) w' p) as Hflush.
  { intros X w' p HX. eapply (talks_out_bind _ _ w _ w []); [by apply talks_get|]. rewrite H2. eapply talks_out_ignore.
    eapply (talks_out_bind _ _ w _ w []); [by apply talks_get|]. by eapply talks_out_flush. }
  unfold Flush. destruct ph.
  - destruct H5 as (Hs & Hpe & -> & ->). eexists _, _. split; [|exact (inv_head_sent c w H1 H2 H3 H4 Hpe)].
    apply (Hflush (fun sent : bool => if sent then mret tt else _)). rewrite Hs. talk. rewrite Hpe.
    cbn [length Nat.ltb Nat.leb andb]. by apply Hh.
  - destruct H5 as (Hs & <- & Hne & ->). eexists _, _. split; [|exact (inv_held_sent c w H1 H2 H3 H4 Hne)].
    apply (Hflush (fun sent : bool => if sent then mret tt else _)). rewrite Hs. talk.
    rewrite (proj1 (ours_no_length _ H3)), bool_decide_true, andb_true_r by done.
    replace (0 <? length (w_pending w))%nat with true by (by destruct (w_pending w)).
    eapply talks_bind; [by apply Hh|]. rewrite <- (app_nil_r (encode_chunk _)).
    eapply talks_bind; [|by apply talks_put].
    exact (pending_talks (set_headerSent true (set_chunked true w)) eq_refl).
  - eexists w, []. rewrite app_nil_r. split; [|done]. destruct H5 as (Hs & _).
    apply (Hflush (fun sent : bool => if sent then mret tt else _)). rewrite Hs. apply talks_ret.
Qed.

Lemma Flush_step ph c w body out :
  inv (ph, c) w body out ->
  steps_to (Sent, c) (run_op currentDate DetectContentType grow OFlush) w body out.
Proof. intros Hi. destruct (Flush_out ph c w body out Hi) as (w' & p & Ht & Hi'). exists w', p. split; [by apply talks_out_talks | done]. Qed.

Lemma WriteHeader_talks code w :
  talks (WriteHeader code) w (inl tt) (if w_hijacked w || w_headerSent w then w else set_status code w) [].
Proof. apply talks_put. intros b v. cbn [w_hijacked w_headerSent set_bufWriter]. by destruct (_ || _). Qed.

Lemma WriteHeader_step s s' code w body out :
  inv s w body out -> next_phase s (OWriteHeader code) = Some s' ->
  steps_to s' (run_op currentDate DetectContentType grow (OWriteHeader code)) w body out.
Proof.
  intros [H1 H2 H3 H4 H5] Hn. eexists _, []. split; [apply WriteHeader_talks|]. rewrite H2, app_nil_r.
  destruct s as [ph c]. cbn in H4, H5, Hn. destruct ph; injection Hn as <-.
  - destruct H5 as (Hs & H5). rewrite Hs. by constructor.
  - destruct H5 as (Hs & H5). rewrite Hs. by constructor.
  - pose proof H5 as (Hs & _). rewrite Hs. by constructor.
Qed.

(** A whole handler. *)
Lemma op_step s s' o w body out :
  inv s w body out -> next_phase s o = Some s' ->
  steps_to s' (run_op currentDate DetectContentType grow o) w (body ++ op_data o) out.
Proof.
  intros Hi Hn. destruct s as [ph c]. destruct o as [p|p|reads| |code]; cbn [op_data].
  - destruct p as [|x p]; [|destruct ph; injection Hn as <-;
      [by apply Write_fresh | by apply Write_held | by apply Write_sent]].
    assert (s' = (ph, c)) as -> by (by destruct ph; injection Hn as <-). rewrite app_nil_r.
    apply steps_same; [done|]. eapply talks_ignore. unfold Write. talk. rewrite (iv_hijacked _ _ _ _ Hi). talk_end.
  - destruct p as [|x p]; [|destruct ph; [|discriminate|]; injection Hn as <-; by eapply WriteString_step].
    assert (s' = (ph, c)) as -> by (by destruct ph; injection Hn as <-). rewrite app_nil_r.
    apply steps_same; [done|]. eapply talks_ignore. unfold WriteString. talk. rewrite (iv_hijacked _ _ _ _ Hi). talk_end.
  - destruct ph; [|discriminate|]; injection Hn as <-; by eapply ReadFrom_step.
  - rewrite app_nil_r. assert (s' = (Sent, c)) as -> by (by destruct ph; injection Hn as <-). by eapply Flush_step.
  - rewrite app_nil_r. by eapply WriteHeader_step.
Qed.

Lemma run_ops_steps os s s' w body out :
  inv s w body out -> phases s os = Some s' ->
  steps_to s' (run_ops currentDate DetectContentType grow os) w (body ++ written os) out.
Proof.
  unfold written. revert s w body out. induction os as [|o os IH]; intros s w body out Hi Hn; cbn [phases run_ops map concat] in *.
  - injection Hn as <-. rewrite app_nil_r. apply steps_same; [done | apply talks_ret].
  - destruct (next_phase s o) as [s1|] eqn:E; [|done].
    destruct (op_step s s1 o w body out Hi E) as (w1 & p & Ht & Hi1).
    destruct (IH s1 w1 _ _ Hi1 Hn) as (w2 & q & Ht2 & Hi2). rewrite <- app_assoc in Hi2.
    exists w2, (p ++ q). split; [by eapply talks_bind | by rewrite <- app_assoc in Hi2].
Qed.

(** ** The end of the response *)

(** The headers with the length of the body. *)
Definition with_length (h : Header) (n : Z) : Header := setSingleHeaderValue h headerContentLength (Itoa n).

Lemma EndResponse_unsent w :
  w_trailer w = ∅ -> w_hijacked w = false -> firstHeaderValue (w_header w) headerContentLength = [] -> w_headerSent w = false ->
  let h := with_length (w_header w) (blen (w_pending w)) in
  exists w', talks (EndResponse currentDate) w (inl tt) w' (head_out h (w_statusCode w) ++ w_pending w) /\
    w_header w' = h /\ w_statusCode w' = w_statusCode w.
Proof.
  intros H1 H2 H3 Hs h. set (w1 := set_header h w).
  assert (firstHeaderValue h headerContentLength = Itoa (blen (w_pending w))) as Hcl
    by (unfold h, with_length, setSingleHeaderValue, firstHeaderValue; by rewrite lookup_insert).
  assert (bool_decide (firstHeaderValue h headerContentLength = []) = false) as Hne.
  { apply bool_decide_false. rewrite Hcl. apply Itoa_spec. apply blen_nonneg. }
  pose proof (ensureHeaderSent_talks w1 H1 Hs) as He. cbn [w_header w1 set_header w_statusCode] in He. rewrite Hne in He.
  set (w2 := set_headerSent true (set_chunked false w1)) in *.
  set (w3 := if (0 <? length (w_pending w))%nat then clear_pending w2 else w2).
  exists w3. split; [|unfold w3; by destruct (_ <? _)%nat].
  unfold EndResponse. talk. rewrite H2. talk. rewrite Hs. eapply talks_bind.
  - eapply talks_silent_bind; [|exact He].
    apply talks_put_to; [intros b v; cbn [w_header w_pending set_bufWriter]; by destruct (bool_decide (firstHeaderValue (w_header v) _ = _))|].
    rewrite H3, bool_decide_true by done. unfold w1, h, with_length.
    by destruct (w_pending w).
  - talk. rewrite <- (app_nil_r (w_pending w)). eapply talks_bind.
    + change (w_pending w2) with (w_pending w).
      assert (talks (if (0 <? length (w_pending w))%nat then _ ← wr (w_pending w); wput clear_pending else mret tt)
        w2 (inl tt) w3 (w_pending w)) as Hp; [|exact Hp].
      unfold w3. destruct (w_pending w) as [|x l]; [apply talks_ret|].
      cbn [length Nat.ltb Nat.leb]. eapply talks_eq; [talk; talk_end | by rewrite app_nil_r].
    + talk. replace (w_chunked w3) with false by (unfold w3; by destruct (_ <? _)%nat).
      eapply talks_silent_bind; [apply talks_ret | talk_end].
Qed.

Lemma EndResponse_sent w :
  w_trailer w = ∅ -> w_hijacked w = false -> w_headerSent w = true -> w_chunked w = true -> w_pending w = [] ->
  talks (EndResponse currentDate) w (inl tt) w last_chunk.
Proof.
  intros H1 H2 Hs Hc Hp. unfold EndResponse. talk. rewrite H2. talk. rewrite Hs.
  eapply talks_silent_bind; [apply talks_ret|]. talk. rewrite Hp. eapply talks_silent_bind; [apply talks_ret|].
  talk. rewrite Hc, H1. change (0 <? size (∅ : Header))%nat with false. cbv iota.
  rewrite <- (app_nil_r last_chunk). eapply talks_bind; [eapply talks_eq; [talk; talk_end | by rewrite app_nil_r] | talk_end].
Qed.

(** The body as it was sent after the head. *)
Inductive sent_as (h : Header) (body : bytes) : Header -> bytes -> Prop :=
| sent_length : sent_as h body (with_length h (blen body)) body
| sent_chunks cs : body = concat cs -> Forall (fun c => c <> []) cs -> sent_as h body h (encode_chunks cs).

(** The whole of a response: its head and its body, of which the framing is one
    of two. *)
Lemma respond_talks os c c' ph w :
  w_trailer w = ∅ -> w_hijacked w = false -> ours (w_header w) -> w_statusCode w = c ->
  w_headerSent w = false -> w_pending w = [] -> phases (Fresh, c) os = Some (ph, c') ->
  exists w' h enc, talks (respond currentDate DetectContentType grow os) w (inl tt) w'
      (print_response (status_line_of c') (head_lines (w_header w') c') enc) /\
    ours h /\ sent_as h (written os) (w_header w') enc.
Proof.
  intros H1 H2 H3 H4 Hs Hp Hn.
  assert (inv (Fresh, c) w [] []) as Hi by (by constructor).
  destruct (run_ops_steps os _ _ w [] [] Hi Hn) as (w1 & p & Ht & [I1 I2 I3 I4 I5]). cbn [app fst snd] in *.
  assert (forall r hs enc, print_response r hs enc = print_response r hs [] ++ enc) as Hpr
    by (intros; unfold print_response; by rewrite !app_nil_r, <- !app_assoc).
  assert (forall b, w_headerSent w1 = false -> w_pending w1 = b -> written os = b -> p = [] ->
    exists w' h enc, talks (respond currentDate DetectContentType grow os) w (inl tt) w'
      (print_response (status_line_of c') (head_lines (w_header w') c') enc) /\
      ours h /\ sent_as h (written os) (w_header w') enc) as Hunsent.
  { intros b Hs1 Hb <- ->. destruct (EndResponse_unsent w1 I1 I2 (proj1 (ours_no_length _ I3)) Hs1) as (w2 & Ht2 & Eh & Ec). rewrite Hb, I4 in *.
    exists w2, (w_header w1), (written os). rewrite Hpr, Eh. split_and!; [|done | constructor].
    by eapply talks_silent_bind. }
  destruct ph.
  - destruct I5 as (Hs1 & Hp1 & Hw & ->). by eapply Hunsent.
  - destruct I5 as (Hs1 & Hp1 & Hw & ->). by eapply Hunsent.
  - destruct I5 as (Hs1 & Hc1 & Hp1 & cs & Hw & Hcs & ->).
    exists w1, (w_header w1), (encode_chunks cs). rewrite Hpr. split_and!; [|done | by constructor].
    unfold encode_chunks. rewrite app_assoc. eapply talks_bind; [exact Ht | by apply EndResponse_sent].
Qed.
End Responses.
