(* ===== verification/AdaptorRoundtrip.v ===== *)
(** * What the response writer sends is what the parser reads

    The response writer and the parser of the same program, end to end: the bytes
    that a handler's calls put on the connection are parsed back to the status,
    the headers and the body the handler gave. *)

From stdpp Require Import sorting.
From S2P Require Import Prelude Scan Strconv Method StartLine Framing Message MessageRoundtrip.
From S2P Require Import Bufio Adaptor AdaptorFaults AdaptorSpec.

(** ** Header maps as header lines *)

Lemma trim_left_prefix b : exists l, b = l ++ trim_left b.
Proof.
  induction b as [|c b [l IH]]; [by exists []|]. cbn [trim_left].
  destruct (is_space c); [exists (c :: l); cbn; by f_equal | by exists []].
Qed.

Lemma trim_left_head b : match trim_left b with [] => True | c :: _ => is_space c = false end.
Proof. induction b as [|c b IH]; cbn [trim_left]; [done|]. by destruct (is_space c) eqn:E. Qed.

(** Trimming on the right keeps the first byte. *)
Lemma trim_right_head b :
  match b with [] => True | c :: _ => is_space c = false end ->
  match rev (trim_left (rev b)) with [] => True | c :: _ => is_space c = false end.
Proof.
  intros H. destruct (trim_left_prefix (rev b)) as [l E].
  assert (b = rev (trim_left (rev b)) ++ rev l) as Eb by (rewrite <- rev_app_distr, <- E; by rewrite rev_involutive).
  destruct (rev (trim_left (rev b))); [done|]. by rewrite Eb in H.
Qed.

Lemma sanitize_head v : match sanitize v with [] => True | c :: _ => is_blank c = false end.
Proof.
  pose proof (trim_right_head _ (trim_left_head (map newline_to_space v))) as H. unfold sanitize.
  destruct (rev _) as [|c l]; [done|]. revert H. unfold is_space, is_blank.
  destruct (Byte.eqb c SP) eqn:E1, (Byte.eqb c HT) eqn:E2; cbn; done.
Qed.

Lemma trim_left_In c b : In c (trim_left b) -> In c b.
Proof. destruct (trim_left_prefix b) as [l E]. intros H. rewrite E. apply in_app_iff. by right. Qed.

Lemma sanitize_no_CR v : CR ∉ sanitize v.
Proof.
  unfold sanitize. intros H%list_elem_of_In. apply in_rev, trim_left_In, in_rev, trim_left_In, in_map_iff in H as (c & E & _).
  revert E. unfold newline_to_space. destruct (Byte.eqb c LF || Byte.eqb c CR) eqn:E; [done|].
  intros ->. done.
Qed.

Lemma digits_clean l : forallb is_digit l = true -> clean l.
Proof.
  intros H. unfold clean, sanitize.
  assert (map newline_to_space l = l) as ->.
  { induction l as [|c l IH]; [done|]. cbn in *. apply andb_true_iff in H as [Hc Hl]. rewrite (IH Hl). f_equal.
    pose proof (forall_bytes (fun c => implb (is_digit c) (Byte.eqb (newline_to_space c) c)) eq_refl c) as E.
    cbv beta in E. rewrite Hc in E. by apply byte_eqb_eq. }
  assert (forall l, forallb is_digit l = true -> trim_left l = l) as Ht.
  { intros [|c m]; [done|]. cbn. intros [Hc _]%andb_true_iff.
    pose proof (forall_bytes (fun c => implb (is_digit c) (negb (is_space c))) eq_refl c) as E.
    cbv beta in E. rewrite Hc in E. by destruct (is_space c). }
  rewrite (Ht l H), (Ht (rev l)), rev_involutive; [done|]. rewrite forallb_forall in *. intros x Hx.
  apply H. by apply in_rev.
Qed.

Lemma valid_name_plain k : valid_name k = true -> k <> [] /\ (":"%byte ∉ k) /\ (CR ∉ k).
Proof.
  unfold valid_name. intros [Hne Ht]%andb_true_iff. split; [by apply negb_true_iff, bool_decide_eq_false in Hne|].
  rewrite forallb_forall in Ht. split; intros Hin%list_elem_of_In; by specialize (Ht _ Hin).
Qed.

(** The lines of one entry of a header map. *)
Definition entry_lines (kv : bytes * list bytes) : list headerLine :=
  if valid_name (fst kv) then map (fun v => mkHeaderLine (fst kv) (sanitize v)) (snd kv) else [].

Lemma header_entries_perm h :
  map hline (header_entries h) ≡ₚ flat_map entry_lines (map_to_list h).
Proof.
  unfold header_entries. rewrite concat_map, map_map, <- flat_map_concat_map.
  trans (flat_map entry_lines (merge_sort key_le (map_to_list h))).
  - apply reflexive_eq. apply flat_map_ext. intros [k vs]. unfold entry_lines. cbn [fst snd].
    destruct (valid_name k); [by rewrite map_map | done].
  - apply Permutation_flat_map, merge_sort_Permutation.
Qed.

Lemma entry_lines_sendable kv : Forall sendable_header (entry_lines kv).
Proof.
  unfold entry_lines. destruct (valid_name (fst kv)) eqn:E; [|constructor].
  apply Forall_forall. intros x (v & <- & _)%in_map_iff.
  destruct (valid_name_plain _ E) as (H1 & H2 & H3).
  split; [split; [done | apply sanitize_head] | split_and!; [done | done | apply sanitize_no_CR]].
Qed.

Lemma flat_map_Forall {A B} (P : B -> Prop) (f : A -> list B) l :
  (forall x, x ∈ l -> Forall P (f x)) -> Forall P (flat_map f l).
Proof.
  intros H. induction l as [|x l IH]; cbn; [constructor|]. apply Forall_app. split.
  - apply H. constructor.
  - apply IH. intros y Hy. apply H. by constructor.
Qed.

Lemma header_entries_sendable h : Forall sendable_header (map hline (header_entries h)).
Proof.
  rewrite header_entries_perm. apply flat_map_Forall. intros kv _. apply entry_lines_sendable.
Qed.

(** The headers of a handler say nothing of framing. *)
Lemma header_entries_neutral h :
  headers_ok h -> Forall neutral_header (flat_map entry_lines (map_to_list h)).
Proof.
  intros [Hf _]. apply flat_map_Forall. intros [k vs] Hin%elem_of_map_to_list.
  destruct (Hf k vs Hin) as [H1 H2]. pose proof (entry_lines_sendable (k, vs)) as Hs.
  unfold entry_lines in *. cbn [fst snd] in *. destruct (valid_name k); [|constructor].
  apply Forall_forall. intros x Hx. rewrite Forall_forall in Hs. split; [by apply Hs|].
  apply in_map_iff in Hx as (v & <- & _). unfold is_content_length, is_chunked_header. cbn [Name]. by rewrite H1, H2.
Qed.

(** ** Heads as header lines *)

Section Roundtrip.
Context (currentDate : bytes).
Hypothesis clean_date : clean currentDate.

(** The Date line, unless the handler set one. *)
Definition dates (h : Header) : list headerLine :=
  if bool_decide (firstHeaderValue h (bs "Date") = []) then [date_line currentDate] else [].

Lemma with_length_lookup h n : with_length h n !! headerContentLength = Some [Itoa n].
Proof. unfold with_length, setSingleHeaderValue. by rewrite lookup_insert. Qed.

Lemma with_length_first h n : firstHeaderValue (with_length h n) headerContentLength = Itoa n.
Proof. unfold firstHeaderValue. by rewrite with_length_lookup. Qed.

Lemma with_length_other h n k : k <> headerContentLength -> with_length h n !! k = h !! k.
Proof. intros H. unfold with_length, setSingleHeaderValue. by rewrite lookup_insert_ne. Qed.

(** The lines of a head with a length. *)
Lemma with_length_entries h n :
  0 <= n -> headers_ok h ->
  map hline (header_entries (with_length h n)) ≡ₚ
    content_length_header n :: flat_map entry_lines (map_to_list h).
Proof.
  intros Hn Hh. rewrite header_entries_perm. unfold with_length, setSingleHeaderValue.
  rewrite map_to_list_insert by (by apply headers_no_length). cbn [flat_map].
  unfold entry_lines at 1. cbn [fst snd map]. change (valid_name headerContentLength) with true. cbv iota.
  rewrite (digits_clean (Itoa n)) by (by apply Itoa_spec). done.
Qed.

(** A map of one entry. *)
Lemma single_entry (h : Header) k vs : h !! k = Some vs -> size h = 1%nat -> map_to_list h = [(k, vs)].
Proof.
  intros E Hs. assert (delete k h = ∅) as Hd.
  { apply map_size_empty_inv. rewrite map_size_delete_Some by eauto. lia. }
  rewrite <- (insert_delete_id h k vs E), Hd, insert_empty. apply map_to_list_singleton.
Qed.

(** The short form of the head has the lines of the general one. *)
Lemma short_head_lines h n code :
  0 <= n -> headers_ok h -> short_head (with_length h n) code = true ->
  head_lines currentDate (with_length h n) code ≡ₚ
    dates (with_length h n) ++ content_length_header n :: flat_map entry_lines (map_to_list h).
Proof.
  intros Hn Hh Hs. unfold head_lines, dates. rewrite Hs. unfold short_head in Hs.
  apply andb_true_iff in Hs as [Hs Hsize]. apply andb_true_iff in Hs as [Hs _].
  apply andb_true_iff in Hs as [Hs _]. apply andb_true_iff in Hs as [Hs _].
  apply andb_true_iff in Hs as [_ Hd]. rewrite Hd. cbn [app]. constructor.
  assert (size (with_length h n) = S (size h)) as E.
  { apply map_size_insert_None. by apply headers_no_length. }
  rewrite with_length_first.
  assert (firstHeaderValue (with_length h n) headerContentType = firstHeaderValue h headerContentType) as Ect
    by (unfold firstHeaderValue; by rewrite with_length_other).
  rewrite Ect, E in *. destruct (size h) as [|m] eqn:Em; cbn [Nat.eqb] in Hsize.
  - apply map_size_empty_inv in Em as ->. rewrite map_to_list_empty. done.
  - cbn [orb] in Hsize. destruct m; [|done]. cbn [andb] in Hsize. apply negb_true_iff in Hsize. rewrite Hsize.
    unfold firstHeaderValue in *. destruct (h !! headerContentType) as [vs|] eqn:Ev; [|done].
    destruct (ho_type h Hh vs Ev) as (v & -> & Hv). rewrite (single_entry _ _ _ Ev Em). cbn [flat_map].
    unfold entry_lines. cbn [fst snd map]. change (valid_name headerContentType) with true. cbv iota.
    rewrite Hv. cbn [app]. constructor.
Qed.

(** The framing header of a body of [n] bytes, sent with its length or in
    chunks. *)
Definition framing_header (chunked : bool) (n : Z) : headerLine :=
  if chunked then chunked_header else content_length_header n.

(** Either way of sending a body has the lines of the Date, of the framing and of
    the handler's headers. *)
Lemma head_lines_perm h h' body enc code :
  headers_ok h -> sent_as h body h' enc ->
  exists chunked, head_lines currentDate h' code ≡ₚ
      dates h ++ framing_header chunked (blen body) :: flat_map entry_lines (map_to_list h) /\
    (if chunked : bool then exists cs, body = concat cs /\ Forall (fun c => c <> []) cs /\ enc = encode_chunks cs
     else enc = body).
Proof.
  intros Hh [|cs Hb Hcs]; [exists false | exists true]; (split; [|by eauto]); cbn [framing_header].
  - pose proof (blen_nonneg body).
    assert (dates h = dates (with_length h (blen body))) as ->
      by (unfold dates, firstHeaderValue; by rewrite with_length_other).
    destruct (short_head (with_length h (blen body)) code) eqn:E.
    + by apply short_head_lines.
    + unfold head_lines. rewrite E, with_length_first.
      rewrite (bool_decide_false (Itoa _ = [])) by (by apply Itoa_spec). cbn [andb]. rewrite app_nil_r.
      by rewrite with_length_entries.
  - unfold head_lines, short_head. rewrite (proj1 (headers_no_length h Hh)), (headers_no_coding h Hh).
    rewrite (bool_decide_true ([] = [])) by done. cbn [negb]. rewrite !andb_false_r. cbn [andb].
    rewrite header_entries_perm. fold (dates h). by rewrite (Permutation_cons_append (flat_map _ _) chunked_header).
Qed.

Lemma date_sendable h : Forall neutral_header (dates h).
Proof.
  unfold dates. destruct (bool_decide _); repeat constructor; cbn [Name Value date_line].
  - apply scanToByte_None. vm_compute. reflexivity.
  - rewrite <- clean_date. apply sanitize_head.
  - done.
  - apply scanToByte_None. vm_compute. reflexivity.
  - rewrite <- clean_date. apply sanitize_no_CR.
Qed.

(** The meta data of a head with one framing header. *)
Lemma applyHeaders_perm meta hs fh others meta' :
  hs ≡ₚ fh :: others -> Forall neutral_header others ->
  applyHeaderMeta meta fh = Some meta' -> applyHeaders meta hs = Some meta'.
Proof.
  intros Hp Ho Ha. destruct (Permutation_cons_inv_r _ _ _ Hp) as (k1 & k2 & -> & Hp').
  rewrite Hp' in Ho. apply Forall_app in Ho as [H1 H2].
  rewrite applyHeaders_app, neutral_headers_meta by done. cbn [applyHeaders]. rewrite Ha.
  by apply neutral_headers_meta.
Qed.

(** ** The message *)

Lemma status_text_plain code : 100 <= code < 1000 -> CR ∉ print_status_line (status_line_of code).
Proof.
  intros Hc. apply scanToByte_None.
  pose proof (forall_below 1000 (fun code => implb (100 <=? code)
    (match scanToByte (print_status_line (status_line_of code)) CR with None => true | Some _ => false end))
    ltac:(vm_compute; reflexivity) code ltac:(lia)) as H.
  cbv beta in H. replace (100 <=? code) with true in H by (symmetry; blia). by destruct (scanToByte _ CR).
Qed.

Definition response_meta0 (code : Z) : messageMeta := mkMeta RESPONSE code false 0 false.

Lemma response_text code hs meta enc body :
  100 <= code < 1000 -> Forall sendable_header hs -> applyHeaders (response_meta0 code) hs = Some meta ->
  body_text meta enc body ->
  message_text RESPONSE (print_response (status_line_of code) hs enc)
    (mkMessage RESPONSE zero_requestLine (status_line_of code) hs body (decideBodyMode meta) meta).
Proof.
  intros Hc Hs Ha Hb. exists (print_status_line (status_line_of code)), (map print_header hs), enc, (response_meta0 code).
  split_and!; try done.
  - by apply CR_crlf_free, status_text_plain.
  - split_and!; [|done..]. apply status_line_parse; cbn; lia.
  - by apply print_headers_lines.
Qed.

(** The framing of a response body, as the parser sees it. *)
Definition framing_meta (code : Z) (chunked : bool) (n : Z) : messageMeta :=
  if chunked then mkMeta RESPONSE code false 0 true else mkMeta RESPONSE code true n false.

Lemma sent_body chunked code body enc :
  blen body < 2 ^ 31 ->
  (if chunked : bool then exists cs, body = concat cs /\ Forall (fun c => c <> []) cs /\ enc = encode_chunks cs
   else enc = body) ->
  body_text (framing_meta code chunked (blen body)) enc body.
Proof.
  intros Hlt. destruct chunked; cbn [framing_meta].
  - intros (cs & -> & Hcs & ->). exists cs. split; [|done]. apply encode_chunks_text.
    apply Forall_forall. intros c Hin. rewrite Forall_forall in Hcs. split; [by apply Hcs|].
    apply in_split in Hin as (l1 & l2 & ->). rewrite concat_app in Hlt. cbn [concat] in Hlt.
    rewrite !blen_app in Hlt. pose proof (blen_nonneg (concat l1)). pose proof (blen_nonneg (concat l2)). lia.
  - intros ->. unfold body_text, decideBodyMode. cbn. destruct (Z.eqb_spec (blen body) 0) as [E|]; [|done].
    by apply blen_zero in E as ->.
Qed.

(** The lines of a head are well formed, and say how the body is framed. *)
Lemma head_lines_sendable h h' (body : bytes) code chunked :
  headers_ok h ->
  head_lines currentDate h' code ≡ₚ
    dates h ++ framing_header chunked (blen body) :: flat_map entry_lines (map_to_list h) ->
  Forall sendable_header (head_lines currentDate h' code).
Proof.
  intros Hh Hperm. rewrite Hperm. apply Forall_app. split; [apply Forall_neutral_sendable, date_sendable|]. constructor.
  - destruct chunked; [apply chunked_sendable | apply content_length_sendable, blen_nonneg].
  - by apply Forall_neutral_sendable, header_entries_neutral.
Qed.

Lemma head_lines_meta h h' (body : bytes) code chunked :
  headers_ok h -> blen body < 2 ^ 31 ->
  head_lines currentDate h' code ≡ₚ
    dates h ++ framing_header chunked (blen body) :: flat_map entry_lines (map_to_list h) ->
  applyHeaders (response_meta0 code) (head_lines currentDate h' code) = Some (framing_meta code chunked (blen body)).
Proof.
  intros Hh Hlt Hperm. eapply (applyHeaders_perm _ _ (framing_header chunked (blen body))).
  - rewrite Hperm. symmetry. apply Permutation_middle.
  - apply Forall_app. split; [apply date_sendable | by apply header_entries_neutral].
  - pose proof (blen_nonneg body). destruct chunked; [done|]. by rewrite content_length_meta.
Qed.
End Roundtrip.

(** C4. What a handler writes is what its client reads, on a connection that does
    not fail, for handlers that keep to these conditions: the headers are set
    before the first call, hold no Content-Length and no Transfer-Encoding, and
    at most one clean Content-Type ([headers_ok]); there are no trailers and the
    connection is not taken over; no WriteString or ReadFrom is called while a
    single Write is held back ([phases]); the status is between 100 and 999 and
    the body shorter than 2^31 bytes. Then the bytes sent, for any calls and any
    buffer size, are one response of which the parser returns the status set
    before the head was sent, the concatenation of everything written as the
    body, and as headers, in some order, the Date, one framing header and the
    handler's own (with a sniffed Content-Type if it set none). *)
Theorem response_roundtrip currentDate DetectContentType grow n h0 os ph code :
  clean currentDate -> (forall p, clean (DetectContentType p)) -> (0 < n)%nat -> headers_ok h0 ->
  phases (Fresh, StatusOK) os = Some (ph, code) -> 100 <= code < 1000 -> blen (written os) < 2 ^ 31 ->
  exists w b h hs chunked,
    respond currentDate DetectContentType grow os
      (set_header h0 (NewResponseWriter pool_New (mkWriter n healthy [] false []))) = Ok (inl tt, w) /\
    w_bufWriter w = Some b /\ bw_buf b = [] /\
    parseMessageDetailed (bw_out b) RESPONSE =
      Ok (ParseOk (let meta := framing_meta code chunked (blen (written os)) in
                   mkMessage RESPONSE zero_requestLine (status_line_of code) hs (written os)
                     (decideBodyMode meta) meta)) /\
    ours DetectContentType h0 h /\
    hs ≡ₚ dates currentDate h ++ framing_header chunked (blen (written os)) :: flat_map entry_lines (map_to_list h).
Proof.
  intros Hdate Hd Hn Hh0 Hp Hc Hlt. set (b0 := mkWriter n healthy [] false []).
  set (w0 := set_header h0 (NewResponseWriter pool_New b0)).
  destruct (respond_talks currentDate DetectContentType grow Hd h0 os StatusOK code ph w0) as (w1 & h & enc & Ht & Ho & Hsent);
    [done | done | by split; [|left] | done..|]. pose proof Ho as [Hh _].
  assert (sound b0) as Hb0 by (split_and!; [constructor; cbn; lia | done | done]).
  destruct (Ht b0 Hb0) as (b & E & _ & Htot). change (set_bufWriter (Some b0) w0) with w0 in E.
  destruct (respond_flushed currentDate DetectContentType grow os w0 _ b eq_refl E eq_refl) as [Hbuf _].
  unfold total in Htot. rewrite Hbuf, app_nil_r in Htot. cbn [app bw_out bw_buf b0] in Htot.
  destruct (head_lines_perm currentDate h (w_header w1) (written os) enc code Hh Hsent) as (chunked & Hperm & Hform).
  exists (set_bufWriter (Some b) w1), b, h, (head_lines currentDate (w_header w1) code), chunked.
  split_and!; try done. rewrite Htot. apply parse_complete, response_text; [done | | | by apply sent_body].
  - by eapply head_lines_sendable.
  - by eapply head_lines_meta.
Qed.

Lemma response_roundtrip_witness :
  let h0 : Header := {[bs "X-Test" := [bs "a"; bs "b"]]} in
  let os := [OWriteHeader 201; OWrite (bs "hello "); OWrite (bs "world"); OFlush; OWriteString (bs "!")] in
  exists w b h hs chunked,
    respond (bs "now") (fun _ => bs "text/plain") (fun n => n) os
      (set_header h0 (NewResponseWriter pool_New (mkWriter 16 healthy [] false []))) = Ok (inl tt, w) /\
    w_bufWriter w = Some b /\ bw_buf b = [] /\
    parseMessageDetailed (bw_out b) RESPONSE =
      Ok (ParseOk (let meta := framing_meta 201 chunked (blen (written os)) in
                   mkMessage RESPONSE zero_requestLine (status_line_of 201) hs (written os)
                     (decideBodyMode meta) meta)) /\
    ours (fun _ => bs "text/plain") h0 h /\
    hs ≡ₚ dates (bs "now") h ++ framing_header chunked (blen (written os)) :: flat_map entry_lines (map_to_list h).
Proof.
  cbv zeta. apply (response_roundtrip (bs "now") (fun _ => bs "text/plain") (fun n => n) 16 _ _ Sent 201).
  - by vm_compute.
  - intros _. by vm_compute.
  - lia.
  - constructor; [apply map_Forall_singleton; by vm_compute | done].
  - by vm_compute.
  - lia.
  - by vm_compute.
Defined.
