(* ===== verification/AdaptorStream.v ===== *)
(** * Streaming responses (adaptor/adaptor.go)

    A handler that flushes: each [Flush] delivers all that was written since the
    last one, as whole chunks, whatever the size of the buffer; the first one
    delivers the head as well. *)

From S2P Require Import Prelude Scan Strconv Method StartLine Framing Message MessageRoundtrip.
From S2P Require Import Bufio Adaptor AdaptorFaults AdaptorSpec AdaptorRoundtrip.

Section Stream.
Context (currentDate : bytes) (DetectContentType : bytes -> bytes) (grow : nat -> nat).

(** The chunks that carry [data]. *)
Definition chunks_of (data : bytes) (cs : list bytes) : Prop := concat cs = data /\ Forall (fun c => c <> []) cs.

Lemma chunks_of_app d1 c1 d2 c2 : chunks_of d1 c1 -> chunks_of d2 c2 -> chunks_of (d1 ++ d2) (c1 ++ c2).
Proof. intros [<- H1] [<- H2]. split; [apply concat_app | by apply Forall_app]. Qed.

(** A writer whose head has been sent, as chunked. *)
Definition streaming (w : ResponseWriter) : Prop :=
  w_hijacked w = false /\ w_headerSent w = true /\ w_chunked w = true.

Lemma streaming_op o w :
  streaming w -> exists cs, talks (run_op currentDate DetectContentType grow o) w (inl tt) w (concat (map encode_chunk cs)) /\
    chunks_of (op_data o) cs.
Proof.
  intros (Hh & Hs & Hc).
  assert (forall direct p, p <> [] -> talks (write_data direct p) w (inl (length p)) w (concat (map encode_chunk [p]))) as Hchunk.
  { intros direct p _. cbn. rewrite app_nil_r. by apply chunk_talks. }
  destruct o as [p|p|reads| |c]; cbn [run_op op_data].
  - destruct p as [|x p].
    { exists []. split; [|by split]. eapply talks_ignore. unfold Write. talk. rewrite Hh. talk_end. }
    exists [x :: p]. split; [|by split; [apply app_nil_r | repeat constructor]]. eapply talks_ignore. unfold Write. talk. rewrite Hh.
    cbn [length Nat.eqb]. talk. rewrite Hs. by apply Hchunk.
  - destruct p as [|x p].
    { exists []. split; [|by split]. eapply talks_ignore. unfold WriteString. talk. rewrite Hh. talk_end. }
    exists [x :: p]. split; [|by split; [apply app_nil_r | repeat constructor]]. eapply talks_ignore. unfold WriteString. talk. rewrite Hh.
    cbn [length Nat.eqb]. talk. rewrite Hs. eapply talks_silent_bind; [apply talks_ret | by apply Hchunk].
  - destruct (copy_talks reads 0 w Hc) as [r Ht]. exists (read_chunks reads).
    split; [|split; [apply read_chunks_data | apply read_chunks_nonempty]]. eapply talks_ignore. unfold ReadFrom. talk. rewrite Hh. talk.
    rewrite Hs. eapply talks_silent_bind; [apply talks_ret|]. talk. rewrite Hc. exact Ht.
  - exists []. split; [|by split]. unfold Flush. talk. rewrite Hh. eapply talks_ignore. talk. rewrite Hs.
    eapply talks_silent_bind; [apply talks_ret | talk_end].
  - exists []. split; [|by split]. pose proof (WriteHeader_talks c w) as Ht. by rewrite Hh, Hs in Ht.
Qed.

Lemma streaming_ops os w :
  streaming w -> exists cs, talks (run_ops currentDate DetectContentType grow os) w (inl tt) w (concat (map encode_chunk cs)) /\
    chunks_of (written os) cs.
Proof.
  intros Hw. induction os as [|o os IH]; cbn [run_ops].
  { exists []. split; [apply talks_ret | by split]. }
  destruct (streaming_op o w Hw) as (c1 & T1 & C1). destruct IH as (c2 & T2 & C2). exists (c1 ++ c2). split.
  - rewrite map_app, concat_app. by eapply talks_bind.
  - by apply chunks_of_app.
Qed.

Lemma streaming_flush w : streaming w -> talks_out (run_op currentDate DetectContentType grow OFlush) w (inl tt) w [].
Proof.
  intros (Hh & Hs & _). cbn [run_op]. unfold Flush.
  eapply (talks_out_bind _ _ w _ w []); [by apply talks_get|]. rewrite Hh. eapply talks_out_ignore.
  eapply (talks_out_bind _ _ w _ w []); [by apply talks_get|]. rewrite Hs. eapply talks_out_flush, talks_ret.
Qed.

Lemma run_ops_snoc os o w :
  run_ops currentDate DetectContentType grow (os ++ [o]) w =
  (_ ← run_ops currentDate DetectContentType grow os; run_op currentDate DetectContentType grow o) w.
Proof.
  revert w. induction os as [|x os IH]; intros w; cbn [app run_ops].
  - unfold mbind, W_bind, mret, W_ret. destruct (run_op _ _ _ o w) as [[[[]|e] w1]|]; done.
  - unfold mbind, W_bind in *. destruct (run_op _ _ _ x w) as [[[[]|e] w1]|]; [apply IH | done | done].
Qed.
End Stream.

(** Two flushes, with any calls before and between them. *)
Lemma flush_streams currentDate DetectContentType grow h0 os1 os2 ph code n :
  (forall p, clean (DetectContentType p)) -> headers_ok h0 -> (0 < n)%nat ->
  phases (Fresh, StatusOK) os1 = Some (ph, code) ->
  let w0 := set_header h0 (NewResponseWriter pool_New (mkWriter n healthy [] false [])) in
  exists w1 b1 w2 b2 h cs1 cs2,
    run_ops currentDate DetectContentType grow (os1 ++ [OFlush]) w0 = Ok (inl tt, w1) /\ w_bufWriter w1 = Some b1 /\
    run_ops currentDate DetectContentType grow (os2 ++ [OFlush]) w1 = Ok (inl tt, w2) /\ w_bufWriter w2 = Some b2 /\
    bw_buf b1 = [] /\ bw_buf b2 = [] /\
    ours DetectContentType h0 h /\ chunks_of (written os1) cs1 /\ chunks_of (written os2) cs2 /\
    bw_out b1 = head_out currentDate h code ++ concat (map encode_chunk cs1) /\
    bw_out b2 = bw_out b1 ++ concat (map encode_chunk cs2).
Proof.
  intros Hs Hh Hn Hp w0. set (b0 := mkWriter n healthy [] false []) in *.
  assert (sound b0) as Hb0 by (split_and!; [constructor; cbn; lia | done | done]).
  assert (inv currentDate DetectContentType h0 (Fresh, StatusOK) w0 [] []) as Hi
    by (constructor; [done | done | by split; [|left] | done | done]).
  destruct (run_ops_steps currentDate DetectContentType grow Hs h0 os1 _ _ w0 [] [] Hi Hp) as (w & p & Ht & Hi1).
  destruct (Flush_out currentDate DetectContentType grow h0 ph code w _ _ Hi1) as (w1 & q & Hf & [I1 I2 I3 I4 (Hsent & Hc & _ & cs & Hcs & Hne & Hout)]).
  destruct (talks_out_bind _ (fun _ => run_op currentDate DetectContentType grow OFlush) _ _ _ _ _ _ _ Ht Hf b0 Hb0) as (b1 & E1 & Hb1 & Hbuf1 & Ho1).
  assert (streaming w1) as Hst by done.
  destruct (streaming_ops currentDate DetectContentType grow os2 w1 Hst) as (cs2 & Ht2 & Hcs2).
  destruct (talks_out_bind _ (fun _ => run_op currentDate DetectContentType grow OFlush) _ _ _ _ _ _ _ Ht2 (streaming_flush currentDate DetectContentType grow w1 Hst) b1 Hb1) as (b2 & E2 & _ & Hbuf2 & Ho2).
  exists (set_bufWriter (Some b1) w1), b1, (set_bufWriter (Some b2) w1), b2, (w_header w1), cs, cs2.
  rewrite !run_ops_snoc. split_and!; try done.
  - rewrite Ho1. exact Hout.
  - rewrite Ho2. unfold total. by rewrite Hbuf1, !app_nil_r.
Qed.

(** C13. A flush delivers, on a connection that does not fail and for a handler
    that sets no Content-Length and no Transfer-Encoding ([headers_ok]), no
    trailers, and does not call WriteString or ReadFrom while a single Write is
    held back before its first flush ([phases]). When it writes and flushes,
    writes more and flushes again, each flush leaves nothing in the buffer; after
    the first the peer has the head and all the data written so far in whole
    chunks, after the second exactly the data written in between is added, for
    any such calls, any sizes of writes and any size of the buffer. *)
Theorem flush_delivers currentDate DetectContentType grow h0 os1 os2 ph code n :
  (forall p, clean (DetectContentType p)) -> headers_ok h0 -> (0 < n)%nat ->
  phases (Fresh, StatusOK) os1 = Some (ph, code) ->
  let w0 := set_header h0 (NewResponseWriter pool_New (mkWriter n healthy [] false [])) in
  exists w1 b1 w2 b2 h cs1 cs2,
    run_ops currentDate DetectContentType grow (os1 ++ [OFlush]) w0 = Ok (inl tt, w1) /\ w_bufWriter w1 = Some b1 /\
    run_ops currentDate DetectContentType grow (os2 ++ [OFlush]) w1 = Ok (inl tt, w2) /\ w_bufWriter w2 = Some b2 /\
    bw_buf b1 = [] /\ bw_buf b2 = [] /\
    ours DetectContentType h0 h /\ chunks_of (written os1) cs1 /\ chunks_of (written os2) cs2 /\
    bw_out b1 = head_out currentDate h code ++ concat (map encode_chunk cs1) /\
    bw_out b2 = bw_out b1 ++ concat (map encode_chunk cs2).
Proof. intros. by apply (flush_streams currentDate DetectContentType grow h0 os1 os2 ph code n). Qed.

Lemma flush_delivers_witness :
  let w0 := set_header ∅ (NewResponseWriter pool_New (mkWriter 16 healthy [] false [])) in
  let message := bs "a longer message than the buffer" in
  exists w1 b1 w2 b2 cs,
    run_ops (bs "now") (fun _ => bs "text/plain") (fun n => n) ([OWrite (bs "tick")] ++ [OFlush]) w0 = Ok (inl tt, w1) /\
    w_bufWriter w1 = Some b1 /\
    run_ops (bs "now") (fun _ => bs "text/plain") (fun n => n) ([OWriteString message] ++ [OFlush]) w1 = Ok (inl tt, w2) /\
    w_bufWriter w2 = Some b2 /\ bw_buf b2 = [] /\ concat cs = message /\
    bw_out b2 = bw_out b1 ++ concat (map encode_chunk cs).
Proof.
  intros w0 message. destruct (flush_delivers (bs "now") (fun _ => bs "text/plain") (fun n => n) ∅ [OWrite (bs "tick")]
    [OWriteString message] Held 200 16)
    as (w1 & b1 & w2 & b2 & h & cs1 & cs2 & E1 & B1 & E2 & B2 & _ & Hbuf & _ & _ & [Hcs _] & _ & Ho);
    [intros _; by vm_compute | by constructor | lia | done |].
  exists w1, b1, w2, b2, cs2. split_and!; [exact E1 | exact B1 | exact E2 | exact B2 | exact Hbuf | | exact Ho].
  by rewrite Hcs.
Defined.
