(* ===== verification/AdaptorLimits.v ===== *)
(** * The response writer: hijacking, reuse, and where the framing breaks

    A hijacked writer is silent and a pooled one is as new.  The other theorems
    show calls whose data is not delivered as the handler wrote it. *)

From S2P Require Import Prelude Scan Strconv Method StartLine Framing Message MessageRoundtrip.
From S2P Require Import Bufio Adaptor AdaptorFaults AdaptorSpec.

(** ** Hijacking *)

(** What every operation does on a hijacked writer: nothing. *)
Definition silent (date : bytes) (detect : bytes -> bytes) (grow : nat -> nat)
    (rf : option (bytes -> list (bytes * option bool) -> nat * option gerr)) (w : ResponseWriter) : Prop :=
  (forall p, Write date detect grow p w = Ok (inr (0%nat, ErrHijacked), w)) /\
  (forall s, WriteString date detect s w = Ok (inr (0%nat, ErrHijacked), w)) /\
  (forall reads, ReadFrom date rf reads w = Ok (inr (0%nat, ErrHijacked), w)) /\
  (forall code, WriteHeader code w = Ok (inl tt, w)) /\
  Flush date w = Ok (inl tt, w) /\ EndResponse date w = Ok (inl tt, w) /\
  Hijack w = Ok (inr (0%nat, ErrAlreadyHijacked), w).

Lemma hijacked_silent date detect grow rf w : w_hijacked w = true -> silent date detect grow rf w.
Proof.
  intros H. split_and!; intros;
    unfold Write, WriteString, ReadFrom, WriteHeader, Flush, EndResponse, Hijack, mbind, W_bind, wget, wput; by rewrite H.
Qed.

(** [Hijack] hands over the connection: all that was written before is
    delivered first, the caller gets the buffered writer, empty, and from then on
    no operation of the response writer, [EndResponse] included, writes or changes
    anything or touches the buffered writer it gave away. *)
Theorem Hijack_takes_over date detect grow rf w b :
  w_bufWriter w = Some b -> sound b -> w_hijacked w = false ->
  exists b' w', Hijack w = Ok (inl (Some b'), w') /\ bw_out b' = total b /\ bw_buf b' = [] /\
    w_bufWriter w' = None /\ silent date detect grow rf w'.
Proof.
  intros Hb Hs Hh. destruct (talks_flush (set_hijacked true w) b Hs) as (b' & E & _ & Ht).
  replace (set_bufWriter (Some b) (set_hijacked true w)) with (set_hijacked true w) in E
    by (unfold set_hijacked, set_bufWriter; cbn; by rewrite <- Hb).
  destruct (wflush_empty _ _ b' E eq_refl) as [He _]. unfold total in Ht at 1. rewrite He, !app_nil_r in Ht.
  exists b', (set_bufWriter None (set_hijacked true w)). repeat match goal with |- _ = _ /\ _ => split; [try done|] end; [|by apply hijacked_silent].
  unfold Hijack, mbind, W_bind, wget, wput, ignore. by rewrite Hh, E.
Qed.

Lemma Hijack_takes_over_witness :
  let b := mkWriter 16 healthy (bs "tail") false (bs "head ") in
  let w := NewResponseWriter pool_New b in
  exists b' w', Hijack w = Ok (inl (Some b'), w') /\ bw_out b' = total b /\ bw_buf b' = [] /\
    w_bufWriter w' = None /\ silent (bs "now") (fun _ => []) (fun n => n) None w'.
Proof. apply Hijack_takes_over; [done | split_and!; [constructor; cbn; lia | done..] | done]. Defined.

(** ** Reuse *)

(** A writer from the pool is as good as new, whatever was done with it
    before it was released: no header, trailer, status, flag or byte of an earlier
    response is left.  What it keeps of the buffer for held data is at most 4 KiB
    of capacity. *)
Theorem Release_fresh w b :
  (w_pendingCap (Release w) <= pooledPendingCapLimit)%nat /\
  NewResponseWriter (Release w) b =
    set_pending [] (w_pendingCap (Release w)) (NewResponseWriter pool_New b).
Proof.
  unfold Release, NewResponseWriter. destruct (Nat.ltb_spec pooledPendingCapLimit (w_pendingCap w));
    destruct (_ <? size (w_header w))%nat, (_ <? size (w_trailer w))%nat; cbn [w_pendingCap]; (split; [lia | done]).
Qed.

(** ** Where the framing breaks *)

Section Limits.
Context (currentDate : bytes) (DetectContentType : bytes -> bytes) (grow : nat -> nat).

Let fresh (n : nat) (h0 : Header) : ResponseWriter :=
  set_header h0 (NewResponseWriter pool_New (mkWriter n healthy [] false [])).

(** A run that ends a response delivers what it wrote. *)
Lemma respond_delivers os n h0 w p :
  (0 < n)%nat -> talks (respond currentDate DetectContentType grow os) (fresh n h0) (inl tt) w p ->
  exists w' b, respond currentDate DetectContentType grow os (fresh n h0) = Ok (inl tt, w') /\
    w_bufWriter w' = Some b /\ bw_buf b = [] /\ bw_out b = p.
Proof.
  intros Hn Ht. destruct (Ht (mkWriter n healthy [] false [])) as (b & E & _ & Htot).
  { split_and!; [constructor; cbn; lia | done | done]. }
  exists (set_bufWriter (Some b) w), b.
  destruct (respond_flushed currentDate DetectContentType grow os (fresh n h0) _ b eq_refl E eq_refl) as [Hb _].
  unfold total in Htot. rewrite Hb, app_nil_r in Htot. by split_and!.
Qed.

Hypothesis clean_sniffed : forall p, clean (DetectContentType p).

(** [WriteString] while a write is held back: the head and the string go out. *)
Lemma WriteString_held h0 p s w :
  inv currentDate DetectContentType h0 (Held, StatusOK) w p [] -> s <> [] ->
  exists w', talks (run_op currentDate DetectContentType grow (OWriteString s)) w (inl tt) w'
      (head_out currentDate (w_header w') StatusOK ++ encode_chunk s) /\
    ours DetectContentType h0 (w_header w') /\ w_trailer w' = ∅ /\ w_hijacked w' = false /\
    w_headerSent w' = true /\ w_chunked w' = true /\ w_pending w' = p.
Proof.
  intros [H1 H2 H3 H4 (Hs & Hp & _)] Hne. cbn [snd] in H4.
  destruct (sniffed_fields DetectContentType s w) as (F1 & F2 & F3 & F4 & F5).
  pose proof (sniffed_headers DetectContentType clean_sniffed h0 s w H3) as F6.
  set (w1 := sniffed DetectContentType s w) in *. exists (set_headerSent true (set_chunked true w1)).
  split; [|split_and!; cbn; try done; congruence].
  eapply talks_ignore. unfold WriteString. talk. rewrite H2. replace (length s =? 0)%nat with false by (by destruct s).
  talk. rewrite Hs. eapply talks_bind; [|by apply chunk_talks].
  eapply talks_silent_bind; [apply sniff_talks|]. fold w1. cbn [w_header set_headerSent set_chunked].
  replace StatusOK with (w_statusCode w1) by congruence.
  apply talks_withCount. eapply (send_head_talks _ DetectContentType h0); congruence.
Qed.

(** [EndResponse] when data is still held back after the head. *)
Lemma EndResponse_held w p :
  w_trailer w = ∅ -> w_hijacked w = false -> w_headerSent w = true -> w_chunked w = true -> w_pending w = p -> p <> [] ->
  talks (EndResponse currentDate) w (inl tt) (clear_pending w) (p ++ last_chunk).
Proof.
  intros H1 H2 Hs Hc Hp Hne. unfold EndResponse. talk. rewrite H2. talk. rewrite Hs.
  eapply talks_silent_bind; [apply talks_ret|]. talk. rewrite Hp.
  replace (0 <? length p)%nat with true by (by destruct p).
  eapply talks_bind; [eapply talks_eq; [talk; talk_end | by rewrite app_nil_r]|].
  talk. change (w_chunked (clear_pending w)) with (w_chunked w). change (w_trailer (clear_pending w)) with (w_trailer w).
  rewrite Hc, H1. change (0 <? size (∅ : Header))%nat with false. cbv iota. rewrite <- (app_nil_r last_chunk).
  eapply talks_bind; [eapply talks_eq; [talk; talk_end | by rewrite app_nil_r] | talk_end].
Qed.
End Limits.

(** C36. A [WriteString] after a [Write] overtakes it.  The first write of a
    response is held back, but only [Write] and [Flush] send what is held back:
    after any [Write(p)] and [WriteString(s)], the response announces chunks,
    sends [s] as a chunk, and then [p] outside any chunk, before the last chunk
    mark. *)
Theorem WriteString_overtakes_Write currentDate DetectContentType grow n h0 p s :
  (forall x, clean (DetectContentType x)) -> (0 < n)%nat -> headers_ok h0 -> p <> [] -> s <> [] ->
  exists w b h,
    respond currentDate DetectContentType grow [OWrite p; OWriteString s]
      (set_header h0 (NewResponseWriter pool_New (mkWriter n healthy [] false []))) = Ok (inl tt, w) /\
    w_bufWriter w = Some b /\ ours DetectContentType h0 h /\
    bw_out b = print_response (status_line_of 200) (head_lines currentDate h 200)
                 (encode_chunk s ++ p ++ last_chunk).
Proof.
  intros Hd Hn Hh Hp Hs. set (w0 := set_header h0 _).
  assert (inv currentDate DetectContentType h0 (Fresh, StatusOK) w0 [] []) as Hi
    by (constructor; try done; by split; [|left]).
  destruct (Write_fresh currentDate DetectContentType grow Hd h0 StatusOK p w0 [] [] Hi Hp) as (w1 & q & Ht1 & Hi1).
  pose proof (iv_phase _ _ _ _ _ _ _ Hi1) as (_ & _ & _ & Hq). cbn [app] in Hq, Hi1. subst q.
  destruct (WriteString_held currentDate DetectContentType grow Hd h0 p s w1 Hi1 Hs)
    as (w2 & Ht2 & Ho & G1 & G2 & G3 & G4 & G5).
  destruct (respond_delivers currentDate DetectContentType grow [OWrite p; OWriteString s] n h0
    (clear_pending w2) ((head_out currentDate (w_header w2) StatusOK ++ encode_chunk s) ++ p ++ last_chunk)) as (w & b & E & Hb & _ & Ho').
  { done. }
  { eapply talks_bind; [|by apply EndResponse_held]. cbn [run_ops]. eapply talks_silent_bind; [exact Ht1|].
    rewrite <- (app_nil_r (head_out _ _ _ ++ _)). eapply talks_bind; [exact Ht2 | apply talks_ret]. }
  exists w, b, (w_header w2). split_and!; try done. rewrite Ho'. unfold head_out, print_response.
  by rewrite <- !app_assoc.
Qed.

Lemma WriteString_overtakes_Write_witness :
  exists w b h,
    respond (bs "now") (fun _ => bs "text/plain") (fun n => n) [OWrite (bs "a"); OWriteString (bs "b")]
      (set_header ∅ (NewResponseWriter pool_New (mkWriter 4096 healthy [] false []))) = Ok (inl tt, w) /\
    w_bufWriter w = Some b /\ ours (fun _ => bs "text/plain") ∅ h /\
    bw_out b = print_response (status_line_of 200) (head_lines (bs "now") h 200)
                 (encode_chunk (bs "b") ++ bs "a" ++ last_chunk).
Proof.
  apply WriteString_overtakes_Write; [| lia | constructor; [apply map_Forall_empty | done] | done | done].
  intros _. by vm_compute.
Defined.

(** Such a response cannot be parsed: the held byte runs into the size of the
    last chunk. *)
Lemma overtaken_response_unparsable :
  match respond (bs "now") (fun _ => bs "text/plain") (fun n => n) [OWrite (bs "a"); OWriteString (bs "b")]
          (NewResponseWriter pool_New (mkWriter 4096 healthy [] false [])) with
  | Ok (inl tt, w) => option_map (fun b => parseMessageDetailed (bw_out b) RESPONSE) (w_bufWriter w)
  | _ => None
  end = Some (Ok ParseIncomplete).
Proof. vm_compute. reflexivity. Qed.

(** A trailer set after the body was written, as trailers are, breaks the
    framing: the response announces both a Content-Length and chunked coding, and
    the body is sent outside any chunk, run together with the last chunk mark. *)
Theorem late_trailer_breaks_framing :
  match (_ ← Write (bs "now") (fun _ => bs "text/plain") (fun n => n) (bs "hello");
         _ ← wput (set_trailer {[bs "X" := [bs "y"]]});
         EndResponse (bs "now")) (NewResponseWriter pool_New (mkWriter 4096 healthy [] false [])) with
  | Ok (inl tt, w) => option_map bw_out (w_bufWriter w)
  | _ => None
  end = Some (print_response (status_line_of 200)
                [date_line (bs "now"); content_length_header 5; mkHeaderLine headerContentType (bs "text/plain");
                 mkHeaderLine headerTransferEnc (bs "chunked, trailers")]
                (bs "hello0" ++ CRLF ++ bs "X: y" ++ CRLF ++ CRLF)).
Proof. vm_compute. reflexivity. Qed.

(** The short form of the head sends a Content-Type as it is: for a plain 200
    response the bytes of the header value, line ends included, go into the head
    unchanged, where the general form replaces line ends by spaces and trims. *)
Theorem short_head_unsanitized currentDate DetectContentType grow n v :
  (0 < n)%nat -> v <> [] ->
  exists w b,
    respond currentDate DetectContentType grow []
      (set_header {[headerContentType := [v]]} (NewResponseWriter pool_New (mkWriter n healthy [] false []))) =
      Ok (inl tt, w) /\
    w_bufWriter w = Some b /\
    bw_out b = print_response (status_line_of 200)
      [date_line currentDate; mkHeaderLine headerContentType v; content_length_header 0] [].
Proof.
  intros Hn Hv. set (h0 := {[headerContentType := [v]]} : Header).
  destruct (EndResponse_unsent currentDate (set_header h0 (NewResponseWriter pool_New (mkWriter n healthy [] false []))))
    as (w1 & Ht & _); [done | done | by vm_compute | done |]. cbn [w_header w_pending w_statusCode set_header] in Ht.
  change (blen _) with 0 in Ht.
  destruct (respond_delivers currentDate DetectContentType grow [] n h0 w1
    (head_out currentDate (with_length h0 0) 200 ++ []) Hn) as (w & b & E & Hb & _ & Ho).
  { eapply talks_silent_bind; [apply talks_ret | exact Ht]. }
  exists w, b. split_and!; [done.. |]. rewrite Ho, app_nil_r. unfold head_out, head_lines.
  assert (firstHeaderValue (with_length h0 0) headerContentType = v) as Hct by (by vm_compute).
  assert (short_head (with_length h0 0) 200 = true) as ->.
  { unfold short_head. rewrite Hct, (bool_decide_false (v = [])) by done. by vm_compute. }
  rewrite Hct, (bool_decide_false (v = [])) by done. done.
Qed.

Lemma short_head_unsanitized_witness :
  let v := bs "text/html" ++ CRLF ++ bs "Set-Cookie: a=b" in
  exists w b,
    respond (bs "now") (fun _ => []) (fun n => n) []
      (set_header {[headerContentType := [v]]} (NewResponseWriter pool_New (mkWriter 64 healthy [] false []))) =
      Ok (inl tt, w) /\
    w_bufWriter w = Some b /\
    bw_out b = print_response (status_line_of 200)
      [date_line (bs "now"); mkHeaderLine headerContentType v; content_length_header 0] [].
Proof. apply short_head_unsanitized; [lia | done]. Defined.
