(* ===== verification/Engine.v ===== *)
(** * The engine's connection state (engine/engine.go)

    A [ConnectionState] is shared by the goroutines that serve a connection: each
    call of [ServeConn] from the event loop, and the disconnect callback.  It is
    reclaimed by a reference count, guarded by the flag [Processing], and borrows
    its buffered reader and writer from pools only while a request is served.

    Each goroutine is a program counter, each step one atomic operation of the
    code or one call of the code's own helpers; a schedule is a list of events,
    with the answers of the connection and of the handler in them. *)

From S2P Require Import Prelude.

(** ** The engine and its options *)

Definition MaxDrainSize : Z := 64 * 1024.

Record Engine : Type := mkEngine {
  e_requestTimeout : Z; e_maxDrainSize : Z; e_bufferSize : Z }.

Definition WithRequestTimeout (d : Z) (e : Engine) : Engine :=
  mkEngine d (e_maxDrainSize e) (e_bufferSize e).
Definition WithMaxDrainSize (size : Z) (e : Engine) : Engine :=
  mkEngine (e_requestTimeout e) size (e_bufferSize e).
Definition WithBufferSize (size : Z) (e : Engine) : Engine :=
  mkEngine (e_requestTimeout e) (e_maxDrainSize e) size.

Definition NewEngine (opts : list (Engine -> Engine)) : Engine :=
  fold_left (fun e opt => opt e) opts (mkEngine 0 MaxDrainSize 4096).

(** ** The connection state *)

(** Readers, writers and handlers are known by their identity; [s_done] is the
    done channel: nil, or made and perhaps closed. *)
Record ConnectionState : Type := mkState {
  s_Reader : option nat;
  s_Writer : option nat;
  s_RemoteAddr : bytes;
  s_ReadHandler : option nat;
  s_CancelFunc : option nat;
  s_ReadTimeout : Z;
  s_Processing : bool;
  s_refCount : Z;
  s_done : option bool;
  s_err : bool }.

(** A state of the pool, new or reset. *)
Definition zeroState : ConnectionState := mkState None None [] None None 0 false 0 None false.

Definition NewConnectionState (pooled : ConnectionState) (readTimeout : Z) : ConnectionState :=
  mkState (s_Reader pooled) (s_Writer pooled) (s_RemoteAddr pooled) (s_ReadHandler pooled)
    (s_CancelFunc pooled) readTimeout (s_Processing pooled) 1 (Some false) false.

(** [Reset] assigns every field. *)
Definition Reset (s : ConnectionState) : ConnectionState := mkState None None [] None None 0 false 0 None false.

(** [close] of a nil or closed channel panics. *)
Definition Cancel (s : ConnectionState) : res ConnectionState :=
  if s_err s then Ok s
  else match s_done s with
       | Some false =>
           Ok (mkState (s_Reader s) (s_Writer s) (s_RemoteAddr s) (s_ReadHandler s) (s_CancelFunc s)
                 (s_ReadTimeout s) (s_Processing s) (s_refCount s) (Some true) true)
       | _ => Crash NilDeref
       end.

Definition set_io (r w : option nat) (s : ConnectionState) : ConnectionState :=
  mkState r w (s_RemoteAddr s) (s_ReadHandler s) (s_CancelFunc s) (s_ReadTimeout s) (s_Processing s)
    (s_refCount s) (s_done s) (s_err s).
Definition set_RemoteAddr (a : bytes) (s : ConnectionState) : ConnectionState :=
  mkState (s_Reader s) (s_Writer s) a (s_ReadHandler s) (s_CancelFunc s) (s_ReadTimeout s) (s_Processing s)
    (s_refCount s) (s_done s) (s_err s).
Definition set_ReadHandler (h : option nat) (s : ConnectionState) : ConnectionState :=
  mkState (s_Reader s) (s_Writer s) (s_RemoteAddr s) h (s_CancelFunc s) (s_ReadTimeout s) (s_Processing s)
    (s_refCount s) (s_done s) (s_err s).
Definition set_Processing (x : bool) (s : ConnectionState) : ConnectionState :=
  mkState (s_Reader s) (s_Writer s) (s_RemoteAddr s) (s_ReadHandler s) (s_CancelFunc s) (s_ReadTimeout s) x
    (s_refCount s) (s_done s) (s_err s).
(** [atomic.AddInt32(&s.refCount, d)]. *)
Definition add_ref (d : Z) (s : ConnectionState) : ConnectionState :=
  mkState (s_Reader s) (s_Writer s) (s_RemoteAddr s) (s_ReadHandler s) (s_CancelFunc s) (s_ReadTimeout s)
    (s_Processing s) (wrap32 (s_refCount s + d)) (s_done s) (s_err s).

(** ** The pools *)

(** The free readers and writers; [p_next] is the identity of the next new one. *)
Record pools : Type := mkPools { p_readers : list nat; p_writers : list nat; p_next : nat }.

Definition get_reader (p : pools) : nat * pools :=
  match p_readers p with
  | r :: rs => (r, mkPools rs (p_writers p) (p_next p))
  | [] => (p_next p, mkPools [] (p_writers p) (S (p_next p)))
  end.
Definition get_writer (p : pools) : nat * pools :=
  match p_writers p with
  | w :: ws => (w, mkPools (p_readers p) ws (p_next p))
  | [] => (p_next p, mkPools (p_readers p) [] (S (p_next p)))
  end.

(** The memory the goroutines share: the state, the pools, how often the state was
    put back into its pool, how many panics were recovered, and whether the engine
    has called [conn.Close]. *)
Record shared : Type := mkShared {
  sh_state : ConnectionState; sh_pools : pools; sh_put : nat; sh_panics : nat; sh_closed : bool }.

Definition with_state (f : ConnectionState -> ConnectionState) (m : shared) : shared :=
  mkShared (f (sh_state m)) (sh_pools m) (sh_put m) (sh_panics m) (sh_closed m).

(** [conn.Close()]. *)
Definition close_conn (m : shared) : shared :=
  mkShared (sh_state m) (sh_pools m) (sh_put m) (sh_panics m) true.

Definition releasePooledIO (m : shared) : shared :=
  let s := sh_state m in
  let p := sh_pools m in
  let p := match s_Reader s with
           | Some r => mkPools (r :: p_readers p) (p_writers p) (p_next p) | None => p end in
  let p := match s_Writer s with
           | Some w => mkPools (p_readers p) (w :: p_writers p) (p_next p) | None => p end in
  mkShared (set_io None None s) p (sh_put m) (sh_panics m) (sh_closed m).

Definition AcquireConnectionState (m : shared) : shared := with_state (add_ref 1) m.

Definition ReleaseConnectionState (m : shared) : shared :=
  let m := with_state (add_ref (-1)) m in
  if s_refCount (sh_state m) =? 0 then
    let m := with_state Reset (releasePooledIO m) in
    mkShared (sh_state m) (sh_pools m) (S (sh_put m)) (sh_panics m) (sh_closed m)
  else m.

(** The buffers and the address that [ServeConn] sets up before it serves. *)
Definition setup (addr : bytes) (m : shared) : shared :=
  let s := sh_state m in
  let p := sh_pools m in
  let '(r, p) := match s_Reader s with Some r => (r, p) | None => get_reader p end in
  let '(w, p) := match s_Writer s with Some w => (w, p) | None => get_writer p end in
  let s := set_io (Some r) (Some w) s in
  mkShared (if bool_decide (s_RemoteAddr s = []) then set_RemoteAddr addr s else s) p
    (sh_put m) (sh_panics m) (sh_closed m).

(** ** A call of ServeConn *)

(** Where a goroutine is; [Freeing] is the release of the buffers after the
    double check, outside the flag. *)
Inductive pc : Type :=
| Acquiring | Claiming | SettingUp | RunningHandler | CheckingActive | CheckingInput | Handling
| Parked | ReleasingIO | Leaving | Yielding | DoubleChecking | Reclaiming | Freeing | Recovering
| Releasing | Finished.

#[global] Instance pc_eq_dec : EqDecision pc.
Proof. solve_decision. Defined.

(** A request that was served: whether it has a body to drain, how much of it was
    read, [req.Close], its Connection header, and whether more input is buffered. *)
Record served : Type := mkServed {
  sv_contentLength : Z; sv_transferEncoding : bool; sv_drained : Z; sv_close : bool;
  sv_connection : bytes; sv_buffered : bool }.

(** Whether the connection is closed after the request. *)
Definition closes (maxDrainSize : Z) (r : served) : bool :=
  let needsBodyDrain := (0 <? sv_contentLength r) || sv_transferEncoding r in
  let close := if needsBodyDrain && (maxDrainSize <? sv_drained r) then true else sv_close r in
  close || bool_decide (sv_connection r = bs "close").

(** What [handleRequest] comes to; [eof] says whether its error is [io.EOF]. *)
Inductive outcome : Type := Failed (eof : bool) | Hijacked | Served (r : served).

(** The answers of the world to a step. *)
Inductive answer : Type :=
| Yes | No
| Handled (setHandler : option nat) (o : outcome).

Section ServeConn.
Context (maxDrainSize : Z) (addr : bytes).

(** [Some] of the shared memory and the next program counter, or [None] when the
    step is not enabled with this answer. *)
Definition thread_step (a : answer) (m : shared) (l : pc) : option (shared * pc) :=
  let s := sh_state m in
  let panic := mkShared s (sh_pools m) (sh_put m) (S (sh_panics m)) (sh_closed m) in
  match l, a with
  | Acquiring, Yes => Some (AcquireConnectionState m, Claiming)
  | Claiming, Yes =>
      if s_Processing s then Some (m, Releasing)
      else Some (with_state (set_Processing true) m, SettingUp)
  | SettingUp, Yes =>
      Some (setup addr m, match s_ReadHandler s with Some _ => RunningHandler | None => CheckingActive end)
  | RunningHandler, Yes => Some (with_state (set_Processing false) m, Releasing)
  | RunningHandler, No => Some (with_state (set_Processing false) (close_conn m), Releasing)
  | CheckingActive, Yes => Some (m, CheckingInput)
  | CheckingActive, No => Some (m, ReleasingIO)
  | CheckingInput, Yes =>
      match s_Reader s with Some _ => Some (m, Handling) | None => Some (panic, Recovering) end
  | CheckingInput, No =>
      match s_Reader s with Some _ => Some (m, ReleasingIO) | None => Some (panic, Recovering) end
  | Handling, Handled h o =>
      match s_Reader s, s_Writer s with
      | Some _, Some _ =>
          let m := match h with Some _ => with_state (set_ReadHandler h) m | None => m end in
          match o with
          | Failed eof => Some (if eof then m else close_conn m, ReleasingIO)
          | Hijacked =>
              Some (m, match s_ReadHandler (sh_state m) with Some _ => Leaving | None => Parked end)
          | Served r =>
              if closes maxDrainSize r then Some (close_conn m, ReleasingIO)
              else if sv_buffered r then Some (m, CheckingActive)
              else Some (m, Yielding)
          end
      | _, _ => Some (panic, Recovering)
      end
  | Parked, Yes => match s_done s with Some true => Some (m, Leaving) | _ => None end
  | ReleasingIO, Yes => Some (releasePooledIO m, Leaving)
  | Leaving, Yes => Some (with_state (set_Processing false) m, Releasing)
  | Yielding, Yes => Some (with_state (set_Processing false) m, DoubleChecking)
  | DoubleChecking, Yes =>
      match s_Reader s with Some _ => Some (m, Reclaiming) | None => Some (panic, Recovering) end
  | DoubleChecking, No =>
      match s_Reader s with Some _ => Some (m, Freeing) | None => Some (panic, Recovering) end
  | Reclaiming, Yes =>
      if s_Processing s then Some (m, Releasing)
      else Some (with_state (set_Processing true) m, CheckingActive)
  | Freeing, Yes => Some (releasePooledIO m, Releasing)
  | Recovering, Yes => Some (with_state (set_Processing false) (close_conn m), Releasing)
  | Releasing, Yes => Some (ReleaseConnectionState m, Finished)
  | _, _ => None
  end.

(** ** A connection *)

(** The disconnect callback: not yet called, between [Cancel] and the release,
    done. *)
Inductive link : Type := Open | Cancelled | Gone.

Record config : Type := mkConfig { c_shared : shared; c_threads : list pc; c_link : link }.

Inductive event : Type :=
| Spawn                              (* the event loop calls ServeConn *)
| Step (i : nat) (a : answer)        (* goroutine [i] takes a step *)
| Disconnect.                        (* the disconnect callback takes a step *)

Definition step (e : event) (c : config) : option config :=
  match e with
  | Spawn => Some (mkConfig (c_shared c) (c_threads c ++ [Acquiring]) (c_link c))
  | Step i a =>
      match c_threads c !! i with
      | Some l =>
          match thread_step a (c_shared c) l with
          | Some (m, l') => Some (mkConfig m (<[i := l']> (c_threads c)) (c_link c))
          | None => None
          end
      | None => None
      end
  | Disconnect =>
      match c_link c with
      | Open =>
          match Cancel (sh_state (c_shared c)) with
          | Ok s => Some (mkConfig (with_state (fun _ => s) (c_shared c)) (c_threads c) Cancelled)
          | Crash _ => None
          end
      | Cancelled =>
          Some (mkConfig (ReleaseConnectionState (c_shared c)) (c_threads c) Gone)
      | Gone => None
      end
  end.

(** A schedule under a policy of the event loop, which says when it may call. *)
Fixpoint run (policy : config -> event -> bool) (es : list event) (c : config) : option config :=
  match es with
  | [] => Some c
  | e :: es' =>
      if policy c e then
        match step e c with Some c' => run policy es' c' | None => None end
      else None
  end.
End ServeConn.

(** A connection that has just been accepted. *)
Definition accepted (readTimeout : Z) (p : pools) : config :=
  mkConfig (mkShared (NewConnectionState zeroState readTimeout) p 0 0 false) [] Open.
