(* ===== verification/EngineSpec.v ===== *)
(** * The life of a connection state

    Under any interleaving the reference count is the number of those who hold the
    state, up to the moment the last of them releases it.  If the event loop keeps
    a certain order ([orderly]) the state goes back to its pool once; a call that
    takes its reference too late puts it there twice.  When the event loop also
    makes one call at a time, no goroutine runs into a missing
    buffer, buffers are never in a pool and in use, and an idle connection holds
    none.  With overlapping calls that is lost. *)

From S2P Require Import Prelude Engine.

(** ** Policies of the event loop *)

Definition anytime (c : config) (e : event) : bool := true.

(** [ServeConn] is not called once the disconnect callback has begun, and the
    callback does not release the state before the calls in flight have taken their
    reference.  This is an assumption on the poller: the code does nothing to ensure
    it ([AcquireConnectionState] is the first statement of [ServeConn], on a state
    taken from the context of the connection), and the documentation of the poller
    does not promise it.  Theorems that need it name it; the run [late_call] below
    shows what happens without it. *)
Definition orderly (c : config) (e : event) : bool :=
  match e with
  | Spawn => match c_link c with Open => true | _ => false end
  | Step _ _ => true
  | Disconnect =>
      match c_link c with
      | Cancelled => forallb (fun l => negb (bool_decide (l = Acquiring))) (c_threads c)
      | _ => true
      end
  end.

Definition live (c : config) : list pc :=
  List.filter (fun l => negb (bool_decide (l = Finished))) (c_threads c).

(** Besides, one call at a time. *)
Definition serial (c : config) (e : event) : bool :=
  orderly c e && match e with Spawn => bool_decide (live c = []) | _ => true end.

(** Calls are only added. *)
Lemma step_threads max addr e x y :
  step max addr e x = Some y -> (length (c_threads x) <= length (c_threads y))%nat.
Proof.
  destruct e as [|i a|]; cbn [step].
  - intros [= <-]. cbn. rewrite length_app. lia.
  - destruct (c_threads x !! i); [|done]. destruct (thread_step _ _ _ _ _) as [[m l']|]; [|done].
    intros [= <-]. cbn. by rewrite length_insert.
  - destruct (c_link x); [destruct (Cancel _) | |]; intros; simplify_eq/=; done.
Qed.

(** Invariants of a policy. *)
Lemma run_invariant max addr policy (P : config -> Prop) es c c' :
  (forall e x y, P x -> policy x e = true -> step max addr e x = Some y ->
     (length (c_threads y) <= length (c_threads c'))%nat -> P y) ->
  P c -> run max addr policy es c = Some c' -> P c'.
Proof.
  intros Hs.
  assert (forall es x, run max addr policy es x = Some c' -> (length (c_threads x) <= length (c_threads c'))%nat) as Hrun.
  { intros es'. induction es' as [|e es' IH]; intros x; cbn [run]; [by intros [= ->]|].
    destruct (policy x e); [|done]. destruct (step max addr e x) as [y|] eqn:E; [|done]. intros H%IH.
    apply step_threads in E. lia. }
  revert c. induction es as [|e es IH]; intros c Hc; cbn [run]; [by intros [= <-]|].
  destruct (policy c e) eqn:Ep; [|done]. destruct (step max addr e c) as [y|] eqn:E; [|done].
  intros Hr. eapply IH; [|exact Hr]. eapply Hs; eauto.
Qed.

(** ** Counting goroutines *)

(** The goroutines that hold a reference, and those about to take one. *)
Definition holding (l : pc) : bool :=
  match l with Acquiring | Finished => false | _ => true end.
Definition acquiring (l : pc) : bool := bool_decide (l = Acquiring).

Lemma holding_acquiring l : holding l = true -> acquiring l = false.
Proof. by destruct l. Qed.

Definition count (f : pc -> bool) (ls : list pc) : Z := blen (List.filter f ls).

Lemma count_snoc f ls l : count f (ls ++ [l]) = count f ls + Z.b2z (f l).
Proof. unfold count. rewrite List.filter_app, blen_app. cbn. by destruct (f l). Qed.

Lemma split_at {A} (ls : list A) i l l' :
  ls !! i = Some l -> ls = take i ls ++ l :: drop (S i) ls /\ <[i := l']> ls = take i ls ++ l' :: drop (S i) ls.
Proof.
  intros H. split; [by rewrite take_drop_middle|]. apply insert_take_drop. by eapply lookup_lt_Some.
Qed.

Lemma count_insert f ls i l l' :
  ls !! i = Some l -> count f (<[i := l']> ls) = count f ls - Z.b2z (f l) + Z.b2z (f l').
Proof.
  intros H. destruct (split_at ls i l l' H) as [E1 E2]. rewrite E2. rewrite E1 at 3. unfold count.
  rewrite !List.filter_app, !blen_app. cbn [List.filter]. destruct (f l), (f l'); rewrite ?blen_cons; cbn; lia.
Qed.

Lemma count_nonneg f ls : 0 <= count f ls.
Proof. apply blen_nonneg. Qed.

Lemma count_bound f ls : count f ls <= blen ls.
Proof. unfold count, blen. pose proof (List.filter_length_le f ls). lia. Qed.

Lemma count_pos f ls i l : ls !! i = Some l -> f l = true -> 0 < count f ls.
Proof.
  intros H Hf. destruct (split_at ls i l l H) as [E _]. rewrite E. unfold count.
  rewrite List.filter_app, blen_app. cbn [List.filter]. rewrite Hf, blen_cons.
  pose proof (blen_nonneg (List.filter f (take i ls))). pose proof (blen_nonneg (List.filter f (drop (S i) ls))). lia.
Qed.

(** ** The reference count *)

Definition link_refs (k : link) : Z := match k with Gone => 0 | _ => 1 end.

(** The references to the state of [c]. *)
Definition refs (c : config) : Z := link_refs (c_link c) + count holding (c_threads c).

Record ref_inv (c : config) : Prop := {
  ri_gone : c_link c = Gone -> count acquiring (c_threads c) = 0;
  ri_live : 0 < refs c -> sh_put (c_shared c) = 0%nat /\ s_refCount (sh_state (c_shared c)) = refs c;
  ri_released : refs c = 0 -> sh_put (c_shared c) = 1%nat /\ sh_state (c_shared c) = zeroState }.

Lemma refs_nonneg c : 0 <= refs c.
Proof. unfold refs. pose proof (count_nonneg holding (c_threads c)). destruct (c_link c); cbn; lia. Qed.

(** The steps of a goroutine but the first and the last leave the count alone. *)
Lemma thread_step_refs max addr a m l m' l' :
  thread_step max addr a m l = Some (m', l') ->
  (l = Acquiring /\ m' = AcquireConnectionState m /\ l' = Claiming) \/
  (l = Releasing /\ m' = ReleaseConnectionState m /\ l' = Finished) \/
  (holding l = true /\ holding l' = true /\ sh_put m' = sh_put m /\
   s_refCount (sh_state m') = s_refCount (sh_state m)).
Proof.
  unfold thread_step, setup, releasePooledIO. intros H.
  destruct l, a; try discriminate H; repeat case_match; simplify_eq/=; auto 10.
Qed.

(** What the shared memory looks like with [n] references. *)
Definition refs_ok (m : shared) (n : Z) : Prop :=
  if n =? 0 then sh_put m = 1%nat /\ sh_state m = zeroState
  else sh_put m = 0%nat /\ s_refCount (sh_state m) = n.

Lemma ref_inv_iff c :
  ref_inv c <-> (c_link c = Gone -> count acquiring (c_threads c) = 0) /\ refs_ok (c_shared c) (refs c).
Proof.
  pose proof (refs_nonneg c). unfold refs_ok. split.
  - intros [H1 H2 H3]. split; [done|]. destruct (Z.eqb_spec (refs c) 0); [auto | apply H2; lia].
  - intros [H1 H2]. constructor; [done | |]; destruct (Z.eqb_spec (refs c) 0); try lia; done.
Qed.

Lemma release_refs m n :
  0 < n < 2 ^ 31 -> refs_ok m n -> refs_ok (ReleaseConnectionState m) (n - 1).
Proof.
  intros Hn. unfold refs_ok. destruct (Z.eqb_spec n 0); [lia|]. intros [Hp Hc].
  unfold ReleaseConnectionState. cbn [sh_state with_state add_ref s_refCount]. rewrite Hc.
  rewrite wrap32_small by (unfold int32_range; lia). change (n + -1) with (n - 1).
  destruct (Z.eqb_spec (n - 1) 0); cbn; [by rewrite Hp|]. split; [done|].
  rewrite Hc, wrap32_small by (unfold int32_range; lia). lia.
Qed.

Lemma acquire_refs m n :
  0 < n < 2 ^ 31 - 1 -> refs_ok m n -> refs_ok (AcquireConnectionState m) (n + 1).
Proof.
  intros Hn. unfold refs_ok. destruct (Z.eqb_spec n 0), (Z.eqb_spec (n + 1) 0); try lia. intros [Hp Hc].
  split; [done|]. cbn. rewrite Hc, wrap32_small; [done|]. unfold int32_range. lia.
Qed.

(** A step of goroutine [i]. *)
Lemma ref_inv_thread max addr a x i l m l' :
  ref_inv x -> c_threads x !! i = Some l -> thread_step max addr a (c_shared x) l = Some (m, l') ->
  blen (c_threads x) < 2 ^ 31 - 2 -> ref_inv (mkConfig m (<[i := l']> (c_threads x)) (c_link x)).
Proof.
  rewrite !ref_inv_iff. intros [Hg Hr] Ei Et Hb. unfold refs in *. cbn [c_link c_threads c_shared].
  rewrite (count_insert holding _ _ _ _ Ei), (count_insert acquiring _ _ _ _ Ei).
  pose proof (count_bound holding (c_threads x)). pose proof (count_nonneg holding (c_threads x)).
  assert (0 <= link_refs (c_link x) <= 1) as Hlr by (destruct (c_link x); cbn; lia).
  apply thread_step_refs in Et as [(-> & -> & ->)|[(-> & -> & ->)|(Hh & Hh' & Hp & Hc)]].
  - pose proof (count_pos acquiring _ _ _ Ei eq_refl).
    assert (c_link x <> Gone) as Hk by (intros E; specialize (Hg E); lia).
    assert (link_refs (c_link x) = 1) by (by destruct (c_link x)). split; [done|]. cbn [holding Z.b2z].
    rewrite Z.sub_0_r, Z.add_assoc. apply acquire_refs; [lia | done].
  - pose proof (count_pos holding _ _ _ Ei eq_refl). split; [intros E; specialize (Hg E); change (acquiring Releasing) with false; change (acquiring Finished) with false; cbn; lia|].
    cbn [holding Z.b2z]. rewrite Z.add_0_r, Z.add_sub_assoc. apply release_refs; [lia | done].
  - pose proof (count_pos holding _ _ _ Ei Hh). rewrite Hh, Hh'. cbn [Z.b2z].
    split; [intros E; specialize (Hg E); rewrite !holding_acquiring by done; cbn; lia|].
    replace (count holding (c_threads x) - 1 + 1) with (count holding (c_threads x)) by lia. unfold refs_ok in *.
    destruct (Z.eqb_spec (link_refs (c_link x) + count holding (c_threads x)) 0); [lia|]. by rewrite Hp, Hc.
Qed.

Lemma no_acquiring ls : forallb (fun l => negb (bool_decide (l = Acquiring))) ls = true -> count acquiring ls = 0.
Proof.
  unfold count, acquiring. induction ls as [|l ls IH]; cbn; [done|]. intros [H1 H2]%andb_true_iff.
  destruct (bool_decide (l = Acquiring)); [done|]. by apply IH.
Qed.

Lemma Cancel_refs m s n : Cancel (sh_state m) = Ok s -> 0 < n -> refs_ok m n -> refs_ok (with_state (fun _ => s) m) n.
Proof.
  unfold refs_ok, Cancel. intros Hc Hn. destruct (Z.eqb_spec n 0); [lia|]. intros [Hp Hr].
  destruct (s_err (sh_state m)); [by simplify_eq/=|]. by destruct (s_done (sh_state m)) as [[]|]; simplify_eq/=.
Qed.

Lemma ref_inv_step max addr e x y :
  ref_inv x -> orderly x e = true -> step max addr e x = Some y -> blen (c_threads y) < 2 ^ 31 - 2 -> ref_inv y.
Proof.
  intros Hi Ho Hs Hb. destruct e as [|i a|]; cbn [step orderly] in *.
  - injection Hs as <-. rewrite ref_inv_iff in *. destruct Hi as [_ Hr]. destruct (c_link x) eqn:Ek; try discriminate.
    split; [done|]. unfold refs in *. cbn [c_link c_threads c_shared]. by rewrite count_snoc, Z.add_0_r, <- Ek.
  - destruct (c_threads x !! i) as [l|] eqn:Ei; [|done].
    destruct (thread_step max addr a (c_shared x) l) as [[m l']|] eqn:Et; [|done]. injection Hs as <-.
    cbn [c_threads] in Hb. unfold blen in *. rewrite length_insert in Hb. by eapply ref_inv_thread.
  - rewrite ref_inv_iff in *. destruct Hi as [Hg Hr]. unfold refs in Hr.
    pose proof (count_nonneg holding (c_threads x)). pose proof (count_bound holding (c_threads x)).
    destruct (c_link x); cbn [link_refs] in Hr; [| |done].
    + destruct (Cancel (sh_state (c_shared x))) as [s|] eqn:Ec; [|done]. injection Hs as <-. split; [done|].
      unfold refs. cbn. by apply Cancel_refs; [|lia|].
    + injection Hs as <-. cbn [c_threads] in Hb. cbn. split; [intros _; by apply no_acquiring|]. unfold refs. cbn.
      replace (0 + count holding (c_threads x)) with (1 + count holding (c_threads x) - 1) by lia.
      apply release_refs; [lia | done].
Qed.

Lemma accepted_ref_inv t p : ref_inv (accepted t p).
Proof. constructor; [done | done | discriminate]. Qed.

Lemma count_finished ls :
  count holding ls = 0 -> count acquiring ls = 0 -> Forall (fun l => l = Finished) ls.
Proof.
  intros H1 H2. apply Forall_lookup. intros i l Hi. destruct (holding l) eqn:E.
  - pose proof (count_pos holding ls i l Hi E). lia.
  - destruct l; try discriminate; [|done]. pose proof (count_pos acquiring ls i Acquiring Hi eq_refl). lia.
Qed.

(** *** Without a policy

    Whatever the order of calls and callback, up to the moment it is first pooled
    the count of the state is the number of its holders. *)
Definition exact_inv (c : config) : Prop :=
  (sh_put (c_shared c) = 0%nat -> 0 < refs c /\ s_refCount (sh_state (c_shared c)) = refs c) /\
  (sh_put (c_shared c) <> 0%nat -> c_link c = Gone).

(** Only a release pools the state, and only the release of the last reference. *)
Lemma release_put m n :
  (sh_put m = 0%nat -> 0 < n < 2 ^ 31 /\ s_refCount (sh_state m) = n) ->
  let m' := ReleaseConnectionState m in
  (sh_put m' = 0%nat -> 0 < n - 1 /\ s_refCount (sh_state m') = n - 1) /\
  (sh_put m' <> 0%nat -> sh_put m = 0%nat -> n = 1).
Proof.
  intros Hm. cbv zeta. unfold ReleaseConnectionState. cbn [sh_state with_state add_ref s_refCount].
  destruct (Z.eqb_spec (wrap32 (s_refCount (sh_state m) + -1)) 0) as [E|E]; cbn; split; try done; intros H1.
  - intros H. destruct (Hm H) as [Hn Hr]. rewrite Hr, wrap32_small in E by (unfold int32_range; lia). lia.
  - destruct (Hm H1) as [Hn Hr]. rewrite Hr, wrap32_small in E |- * by (unfold int32_range; lia). lia.
Qed.

Lemma exact_thread max addr a x i l m l' :
  exact_inv x -> c_threads x !! i = Some l -> thread_step max addr a (c_shared x) l = Some (m, l') ->
  blen (c_threads x) < 2 ^ 31 - 2 -> exact_inv (mkConfig m (<[i := l']> (c_threads x)) (c_link x)).
Proof.
  intros [H0 Hk] Ei Et Hb. unfold exact_inv, refs in *. cbn [c_link c_threads c_shared].
  rewrite (count_insert holding _ _ _ _ Ei).
  pose proof (count_bound holding (c_threads x)). pose proof (count_nonneg holding (c_threads x)).
  assert (0 <= link_refs (c_link x) <= 1) as Hlr by (destruct (c_link x); cbn; lia).
  apply thread_step_refs in Et as [(-> & -> & ->)|[(-> & -> & ->)|(Hh & Hh' & Hp & Hc)]].
  - cbn [holding Z.b2z]. split; [|done]. intros Hp. destruct (H0 Hp) as [Hn Hr].
    cbn. rewrite Hr, wrap32_small by (unfold int32_range; lia). lia.
  - pose proof (count_pos holding _ _ _ Ei eq_refl). cbn [holding Z.b2z].
    destruct (release_put (c_shared x) (link_refs (c_link x) + count holding (c_threads x))) as [R1 R2].
    { intros Hp. destruct (H0 Hp). lia. }
    split; [intros Hp; destruct (R1 Hp); lia|]. intros Hp.
    destruct (decide (sh_put (c_shared x) = 0%nat)) as [E|E]; [|auto]. specialize (R2 Hp E).
    destruct (c_link x); cbn in *; [lia | lia | done].
  - rewrite Hh, Hh', Hp, Hc. cbn [Z.b2z]. split; [|done]. intros E. destruct (H0 E). lia.
Qed.

Lemma exact_step max addr e x y :
  exact_inv x -> step max addr e x = Some y -> blen (c_threads y) < 2 ^ 31 - 2 -> exact_inv y.
Proof.
  intros Hi Hs Hb. destruct e as [|i a|]; cbn [step] in Hs.
  - injection Hs as <-. unfold exact_inv, refs in *. cbn [c_link c_threads c_shared].
    by rewrite count_snoc, Z.add_0_r.
  - destruct (c_threads x !! i) as [l|] eqn:Ei; [|done].
    destruct (thread_step max addr a (c_shared x) l) as [[m l']|] eqn:Et; [|done]. injection Hs as <-.
    cbn [c_threads] in Hb. unfold blen in *. rewrite length_insert in Hb. by eapply exact_thread.
  - destruct Hi as [H0 Hk]. unfold exact_inv, refs in *.
    pose proof (count_nonneg holding (c_threads x)). pose proof (count_bound holding (c_threads x)).
    destruct (c_link x) eqn:Ek; cbn [link_refs] in H0; [| |done].
    + assert (sh_put (c_shared x) = 0%nat) as Hp.
      { destruct (decide (sh_put (c_shared x) = 0%nat)) as [|E]; [done|]. by specialize (Hk E). }
      destruct (Cancel (sh_state (c_shared x))) as [s|] eqn:Ec; [|done]. injection Hs as <-. cbn.
      split; [|by rewrite Hp]. intros _. destruct (H0 Hp) as [Hn Hr]. split; [done|]. rewrite <- Hr.
      unfold Cancel in Ec. destruct (s_err _); [by simplify_eq/=|]. by destruct (s_done _) as [[]|]; simplify_eq/=.
    + injection Hs as <-. cbn [c_link c_threads c_shared link_refs] in *. split; [|done]. intros Hp.
      destruct (release_put (c_shared x) (1 + count holding (c_threads x))) as [R1 _].
      { intros Hp'. destruct (H0 Hp'). lia. }
      destruct (R1 Hp). lia.
Qed.

(** The step that pools the state first is the release of the last reference. *)
Lemma first_put_unheld max addr e x y :
  exact_inv x -> step max addr e x = Some y -> blen (c_threads x) < 2 ^ 31 - 2 ->
  sh_put (c_shared x) = 0%nat -> sh_put (c_shared y) <> 0%nat -> refs y = 0.
Proof.
  intros [H0 _] Hs Hb Hx Hy. destruct (H0 Hx) as [Hn Hr]. unfold refs in *.
  pose proof (count_bound holding (c_threads x)). pose proof (count_nonneg holding (c_threads x)).
  assert (0 <= link_refs (c_link x) <= 1) as Hlr by (destruct (c_link x); cbn; lia).
  destruct (release_put (c_shared x) (link_refs (c_link x) + count holding (c_threads x))) as [_ R]; [lia|].
  destruct e as [|i a|]; cbn [step] in Hs.
  - injection Hs as <-. done.
  - destruct (c_threads x !! i) as [l|] eqn:Ei; [|done].
    destruct (thread_step max addr a (c_shared x) l) as [[m l']|] eqn:Et; [|done]. injection Hs as <-.
    cbn [c_link c_threads c_shared] in *. rewrite (count_insert holding _ _ _ _ Ei).
    apply thread_step_refs in Et as [(-> & -> & ->)|[(-> & -> & ->)|(_ & _ & Hp & _)]]; [done | | by rewrite Hp in Hy].
    specialize (R Hy Hx). cbn [holding Z.b2z]. lia.
  - destruct (c_link x); [| |done].
    + destruct (Cancel (sh_state (c_shared x))); [|done]. injection Hs as <-. done.
    + injection Hs as <-. specialize (R Hy Hx). cbn [link_refs c_link c_threads] in *. lia.
Qed.

(** A call that takes its reference after the callback has released its own. *)
Definition late_call : list event :=
  [Spawn; Disconnect; Disconnect; Step 0 Yes; Step 0 Yes; Step 0 Yes; Step 0 No; Step 0 Yes; Step 0 Yes; Step 0 Yes].

(** C14. How the connection state is reclaimed, with fewer than 2^31 - 2 calls of
    [ServeConn] on the connection. (1) In every interleaving of calls with the
    disconnect callback: as long as the state has not been pooled its count is
    the number of its holders, of which there is at least one; the step that
    first resets and pools it leaves no holder, and is the callback's own release
    or comes after it. (2) In the interleavings that are [orderly] (no call
    begins after the callback has, and the callback does not release the state
    while a call that has begun has not yet taken its reference), it is reset and
    pooled at most once, exactly when the callback is done and every call has
    finished. (3) That condition on the event loop is needed, and the code does
    not ensure it: a call that takes its reference after the callback has
    released the last one runs on the state that is already in the pool, and puts
    it there a second time. *)
Theorem connection_state_reclaimed max addr t p :
  (forall es c, run max addr anytime es (accepted t p) = Some c -> blen (c_threads c) < 2 ^ 31 - 2 ->
     (sh_put (c_shared c) = 0%nat -> 0 < refs c /\ s_refCount (sh_state (c_shared c)) = refs c) /\
     (sh_put (c_shared c) <> 0%nat -> c_link c = Gone) /\
     (forall e c', sh_put (c_shared c) = 0%nat -> step max addr e c = Some c' -> sh_put (c_shared c') <> 0%nat ->
        refs c' = 0)) /\
  (forall es c, run max addr orderly es (accepted t p) = Some c -> blen (c_threads c) < 2 ^ 31 - 2 ->
     let put := sh_put (c_shared c) in
     (put <= 1)%nat /\
     (put = 1%nat <-> c_link c = Gone /\ Forall (fun l => l = Finished) (c_threads c)) /\
     (put = 1%nat -> sh_state (c_shared c) = zeroState)) /\
  (exists c1 c2, run max addr anytime (take 6 late_call) (accepted t p) = Some c1 /\
     c_threads c1 = [CheckingActive] /\ sh_put (c_shared c1) = 1%nat /\
     run max addr anytime (drop 6 late_call) c1 = Some c2 /\ sh_put (c_shared c2) = 2%nat).
Proof.
  split_and!.
  - intros es c Hrun Hb. assert (exact_inv c) as Hc.
    { eapply (run_invariant max addr anytime exact_inv); [| |exact Hrun]; [|by split].
      intros e x y Hx _ Hs Hlen. eapply exact_step; [done..|]. unfold blen in *. lia. }
    split_and!; [apply Hc.. |]. intros e c' Hp Hs Hp'. by eapply first_put_unheld.
  - intros es c Hrun Hb. cbv zeta.
    assert (ref_inv c) as [Hg Hl Hr].
    { eapply (run_invariant max addr orderly ref_inv); [|apply accepted_ref_inv | exact Hrun].
      intros e x y Hx Ho Hs Hlen. eapply ref_inv_step; [done..|]. unfold blen in *. lia. }
    pose proof (refs_nonneg c). destruct (Z.eq_dec (refs c) 0) as [E|E].
    + destruct (Hr E) as [-> Hz]. split_and!; [lia | | done]. split; [intros _|done]. unfold refs in E.
      pose proof (count_nonneg holding (c_threads c)). destruct (c_link c); cbn in E; [lia | lia |].
      split; [done|]. apply count_finished; [lia | auto].
    + destruct (Hl ltac:(lia)) as [-> Hc]. split_and!; [lia | | done]. split; [done|]. intros [Hk Hf].
      destruct E. unfold refs. rewrite Hk. clear -Hf. induction Hf as [|l ls -> _ IH]; [done | exact IH].
  - destruct p as [[|] [|] ?]; do 2 eexists; (split; [vm_compute; reflexivity|]); by split_and!.
Qed.

Lemma connection_state_reclaimed_witness :
  let es := [Spawn; Step 0 Yes; Step 0 Yes; Step 0 Yes; Disconnect; Disconnect; Step 0 No; Step 0 Yes; Step 0 Yes;
             Step 0 Yes] in
  exists c, run 65536 (bs "peer") orderly es (accepted 10 (mkPools [] [] 0)) = Some c /\
    sh_put (c_shared c) = 1%nat /\ c_link c = Gone /\ Forall (fun l => l = Finished) (c_threads c).
Proof.
  cbv zeta. destruct (run _ _ _ _ _) as [c|] eqn:E; [|vm_compute in E; discriminate]. exists c. split; [done|].
  destruct (connection_state_reclaimed 65536 (bs "peer") 10 (mkPools [] [] 0)) as (_ & H & _).
  specialize (H _ _ E). vm_compute in E. injection E as <-.
  split; [reflexivity|]. by apply H.
Defined.

(** ** One call at a time *)

(** A slot of the state and the free list it borrows from. *)
Definition slot_ok (used : option nat) (free : list nat) (next : nat) : Prop :=
  NoDup free /\ (forall r, r ∈ free -> (r < next)%nat) /\
  (forall r, used = Some r -> (r < next)%nat /\ r ∉ free).

Definition pools_ok (m : shared) : Prop :=
  slot_ok (s_Reader (sh_state m)) (p_readers (sh_pools m)) (p_next (sh_pools m)) /\
  slot_ok (s_Writer (sh_state m)) (p_writers (sh_pools m)) (p_next (sh_pools m)).

Lemma slot_grow used free n : slot_ok used free n -> slot_ok used free (S n).
Proof.
  intros (H1 & H2 & H3). split_and!; [done | intros r Hr; specialize (H2 r Hr); lia|].
  intros r Hr. destruct (H3 r Hr). split; [lia | done].
Qed.

Lemma slot_fresh free n : slot_ok None free n -> slot_ok (Some n) free (S n).
Proof.
  intros (H1 & H2 & _). split_and!; [done | intros r Hr; specialize (H2 r Hr); lia|].
  intros r [= <-]. split; [lia|]. intros Hin%H2. lia.
Qed.

Lemma slot_pop r free n : slot_ok None (r :: free) n -> slot_ok (Some r) free n.
Proof.
  intros (H1 & H2 & _). inversion_clear H1 as [|? ? H0 H3]. split_and!; [done | intros x Hx; apply H2; by constructor|].
  intros x [= <-]. split; [apply H2; constructor | done].
Qed.

Lemma slot_push r free n : slot_ok (Some r) free n -> slot_ok None (r :: free) n.
Proof.
  intros (H1 & H2 & H3). destruct (H3 r eq_refl) as [H4 H5]. split_and!; [by constructor | | done].
  intros x [->|Hx]%elem_of_cons; [done | by apply H2].
Qed.

Lemma releasePooledIO_ok m : pools_ok m -> pools_ok (releasePooledIO m).
Proof.
  intros [Hr Hw]. unfold releasePooledIO, pools_ok.
  destruct (s_Reader (sh_state m)), (s_Writer (sh_state m)); cbn; split; first [done | by apply slot_push].
Qed.

Lemma setup_ok addr m :
  pools_ok m -> pools_ok (setup addr m) /\
  is_Some (s_Reader (sh_state (setup addr m))) /\ is_Some (s_Writer (sh_state (setup addr m))).
Proof.
  intros [Hr Hw]. unfold setup, pools_ok, get_reader, get_writer.
  destruct (s_Reader (sh_state m)) as [r|] eqn:Er, (s_Writer (sh_state m)) as [w|] eqn:Ew,
    (p_readers (sh_pools m)) as [|r' rs] eqn:Epr, (p_writers (sh_pools m)) as [|w' ws] eqn:Epw; cbn;
    rewrite ?Epr, ?Epw; cbn; destruct (bool_decide _); cbn; rewrite ?Epr, ?Epw; cbn;
    split_and!; try done; auto using slot_grow, slot_fresh, slot_pop.
Qed.

Lemma setup_fields addr m :
  s_Processing (sh_state (setup addr m)) = s_Processing (sh_state m) /\
  s_done (sh_state (setup addr m)) = s_done (sh_state m) /\ sh_panics (setup addr m) = sh_panics m /\
  s_ReadHandler (sh_state (setup addr m)) = s_ReadHandler (sh_state m).
Proof.
  unfold setup. destruct (match s_Reader (sh_state m) with Some r => _ | None => _ end) as [r p].
  destruct (match s_Writer (sh_state m) with Some r => _ | None => _ end) as [w q].
  cbn. by destruct (bool_decide _).
Qed.

Definition io_held (s : ConnectionState) : Prop := is_Some (s_Reader s) /\ is_Some (s_Writer s).

(** No buffers, unless a read handler was set or the connection is being closed. *)
Definition io_free (k : link) (s : ConnectionState) : Prop :=
  (s_Reader s = None /\ s_Writer s = None) \/ s_ReadHandler s <> None \/ k <> Open.

(** The state while the only live goroutine, if any, is at [l]. *)
Definition at_pc (k : link) (s : ConnectionState) (l : option pc) : Prop :=
  match l with
  | None | Some (Acquiring | Claiming | Releasing | Finished) => s_Processing s = false /\ io_free k s
  | Some SettingUp => s_Processing s = true
  | Some RunningHandler => s_Processing s = true /\ s_ReadHandler s <> None
  | Some (CheckingActive | CheckingInput | Handling | Parked | ReleasingIO | Yielding) =>
      s_Processing s = true /\ io_held s
  | Some Leaving => s_Processing s = true /\ io_free k s
  | Some (DoubleChecking | Reclaiming | Freeing) => s_Processing s = false /\ io_held s
  | Some Recovering => False
  end.

(** The done channel is closed by the disconnect callback only. *)
Definition done_ok (k : link) (s : ConnectionState) : Prop := k = Open -> s_done s <> Some true.

Lemma thread_step_serial max addr a k m l m' l' :
  thread_step max addr a m l = Some (m', l') -> l <> Releasing ->
  at_pc k (sh_state m) (Some l) -> pools_ok m -> done_ok k (sh_state m) ->
  at_pc k (sh_state m') (Some l') /\ pools_ok m' /\ done_ok k (sh_state m') /\ sh_panics m' = sh_panics m.
Proof.
  intros Hs Hne Hat Hp Hd.
  pose proof (setup_ok addr m Hp) as (Hp1 & Hr1 & Hw1). pose proof (releasePooledIO_ok m Hp) as Hp2.
  pose proof (setup_fields addr m) as (F1 & F2 & F3 & F4).
  destruct l, a; try discriminate Hs; try congruence; cbn [thread_step at_pc] in *; unfold io_held, io_free, done_ok in *;
    repeat case_match; simplify_eq/=; try (destruct_and?; congruence);
    split_and!; rewrite ?F1, ?F2, ?F3, ?F4; try done; try tauto; try congruence; destruct_and?;
    try (destruct_or?; naive_solver).
Qed.

(** A release, by a goroutine or by the callback. *)
Lemma release_serial k m l :
  at_pc k (sh_state m) (Some Releasing) -> pools_ok m -> l = None \/ l = Some Finished ->
  let m' := ReleaseConnectionState m in
  at_pc k (sh_state m') l /\ pools_ok m' /\ (done_ok k (sh_state m) -> done_ok k (sh_state m')) /\
  sh_panics m' = sh_panics m.
Proof.
  intros Hat Hp Hl. unfold ReleaseConnectionState. cbn [sh_state with_state add_ref s_refCount].
  assert (pools_ok (with_state (add_ref (-1)) m)) as Hp1 by done.
  destruct (_ =? 0); cbv zeta.
  - apply releasePooledIO_ok in Hp1 as [[H1 [H2 _]] [H3 [H4 _]]]. split_and!; [|split; by split_and! | done | done].
    destruct Hl as [->| ->]; (split; [done | by left]).
  - split_and!; [by destruct Hl as [->| ->] | done | done | done].
Qed.

(** Which goroutine is live. *)
Lemma live_step c i l l' m k :
  c_threads c !! i = Some l -> l <> Finished -> (length (live c) <= 1)%nat ->
  live c = [l] /\ live (mkConfig m (<[i := l']> (c_threads c)) k) = (if bool_decide (l' = Finished) then [] else [l']).
Proof.
  intros Hi Hne Hl. unfold live in *. cbn [c_threads].
  destruct (split_at _ _ _ l' Hi) as [E1 E2]. rewrite E2. rewrite E1 in Hl |- * at 1.
  rewrite !List.filter_app in *. cbn [List.filter] in *.
  rewrite (bool_decide_false (l = Finished)) in * by done. cbn [negb] in *. rewrite length_app in Hl. cbn [length] in Hl.
  destruct (List.filter _ (take i _)); [|cbn in Hl; lia]. destruct (List.filter _ (drop _ _)); [|cbn in Hl; lia].
  split; [done|]. by destruct (bool_decide (l' = Finished)).
Qed.

Record serial_inv (c : config) : Prop := {
  si_refs : ref_inv c;
  si_pools : pools_ok (c_shared c);
  si_panics : sh_panics (c_shared c) = 0%nat;
  si_done : done_ok (c_link c) (sh_state (c_shared c));
  si_live : (length (live c) <= 1)%nat /\ at_pc (c_link c) (sh_state (c_shared c)) (head (live c)) }.

Lemma serial_thread max addr a x i l m l' :
  serial_inv x -> c_threads x !! i = Some l -> thread_step max addr a (c_shared x) l = Some (m, l') ->
  blen (c_threads x) < 2 ^ 31 - 2 -> serial_inv (mkConfig m (<[i := l']> (c_threads x)) (c_link x)).
Proof.
  intros [Hr Hp Hz Hd [Hl Hat]] Hi Ht Hb. pose proof (ref_inv_thread max addr a x i l m l' Hr Hi Ht Hb) as Hr'.
  assert (l <> Finished) as Hne by (by intros ->; destruct a).
  destruct (live_step x i l l' m (c_link x) Hi Hne Hl) as [E1 E2]. rewrite E1 in Hat. cbn [head] in Hat.
  assert (at_pc (c_link x) (sh_state m) (Some l') /\ pools_ok m /\ done_ok (c_link x) (sh_state m) /\ sh_panics m = 0%nat)
    as (H1 & H2 & H3 & H4).
  { destruct (decide (l = Releasing)) as [->|Hnr].
    - destruct a; try discriminate Ht. injection Ht as <- <-.
      destruct (release_serial (c_link x) (c_shared x) (Some Finished) Hat Hp) as (G1 & G2 & G3 & G4); [by right|].
      split; [exact G1|]. split; [exact G2|]. split; [by apply G3 | congruence].
    - rewrite <- Hz. by eapply thread_step_serial. }
  constructor; try done. rewrite E2. split; [destruct (bool_decide (l' = Finished)); cbn; lia|].
  destruct (bool_decide_reflect (l' = Finished)) as [->|]; done.
Qed.

Lemma live_finished c :
  count holding (c_threads c) = 0 -> count acquiring (c_threads c) = 0 -> live c = [].
Proof.
  intros H1 H2. unfold live. pose proof (count_finished _ H1 H2) as Hf. clear H1 H2.
  induction Hf as [|l ls -> _ IH]; [done | exact IH].
Qed.

Lemma io_free_mono k k' s : io_free k s -> k' <> Open -> io_free k' s.
Proof. unfold io_free. tauto. Qed.

(** A change of the link and of fields that [at_pc] does not read. *)
Lemma at_pc_close k k' s s' l :
  at_pc k s l -> k' <> Open -> s_Processing s' = s_Processing s -> s_Reader s' = s_Reader s ->
  s_Writer s' = s_Writer s -> s_ReadHandler s' = s_ReadHandler s -> at_pc k' s' l.
Proof.
  unfold at_pc, io_free, io_held. intros H Hk E1 E2 E3 E4. rewrite E1, E2, E3, E4.
  destruct l as [[]|]; tauto.
Qed.

(** The release by the callback, with a goroutine at [l] if it is not the last. *)
Lemma release_close k k' m n l :
  s_refCount (sh_state m) = n -> 0 < n < 2 ^ 31 -> pools_ok m -> at_pc k (sh_state m) l -> k' <> Open ->
  (n = 1 -> l = None) ->
  let m' := ReleaseConnectionState m in
  at_pc k' (sh_state m') l /\ pools_ok m' /\ sh_panics m' = sh_panics m.
Proof.
  intros Hc Hn Hp Hat Hk Hl. unfold ReleaseConnectionState. cbn [sh_state with_state add_ref s_refCount].
  assert (pools_ok (with_state (add_ref (-1)) m)) as Hp1 by done.
  rewrite Hc, wrap32_small by (unfold int32_range; lia). destruct (Z.eqb_spec (n + -1) 0) as [E|E]; cbv zeta.
  - apply releasePooledIO_ok in Hp1 as [[P1 [P2 _]] [P3 [P4 _]]]. rewrite Hl by lia.
    split_and!; [split; [done | by left] | split; by split_and! | done].
  - split_and!; [by eapply at_pc_close | done | done].
Qed.

Lemma serial_disconnect max addr x y :
  serial_inv x -> serial x Disconnect = true -> step max addr Disconnect x = Some y ->
  blen (c_threads y) < 2 ^ 31 - 2 -> serial_inv y.
Proof.
  intros [Hr Hp Hz Hd [Hl Hat]] Ho Hs Hb. unfold serial in Ho. rewrite andb_true_r in Ho.
  pose proof (ref_inv_step max addr Disconnect x y Hr Ho Hs Hb) as Hr'. cbn [step orderly] in *.
  destruct (c_link x) eqn:Ek; [| |done].
  - destruct (Cancel (sh_state (c_shared x))) as [s|] eqn:Ec; [|done]. injection Hs as <-. unfold Cancel in Ec.
    assert (s_Processing s = s_Processing (sh_state (c_shared x)) /\ s_Reader s = s_Reader (sh_state (c_shared x)) /\
      s_Writer s = s_Writer (sh_state (c_shared x)) /\ s_ReadHandler s = s_ReadHandler (sh_state (c_shared x)))
      as (E1 & E2 & E3 & E4) by (repeat case_match; by simplify_eq/=).
    constructor; try done; cbn.
    + unfold pools_ok. cbn. by rewrite E2, E3.
    + split; [exact Hl|]. by eapply at_pc_close.
  - injection Hs as <-. destruct Hr as [_ Hlive _].
    assert (refs x = 1 + count holding (c_threads x)) as Hrefs by (unfold refs; by rewrite Ek).
    pose proof (count_nonneg holding (c_threads x)). pose proof (count_bound holding (c_threads x)).
    cbn [c_threads] in Hb. destruct (Hlive ltac:(lia)) as [_ Hc].
    destruct (release_close _ Gone _ _ _ Hc ltac:(lia) Hp Hat ltac:(done)) as (G1 & G2 & G3).
    { intros E. rewrite (live_finished x); [done | lia | by apply no_acquiring]. }
    constructor; try done; cbn [c_shared c_link]; congruence.
Qed.

Lemma serial_step max addr e x y :
  serial_inv x -> serial x e = true -> step max addr e x = Some y -> blen (c_threads y) < 2 ^ 31 - 2 -> serial_inv y.
Proof.
  intros Hi Ho Hs Hb. destruct e as [|i a|]; [| |by eapply serial_disconnect].
  - pose proof Ho as [Ho1 Hl%bool_decide_eq_true]%andb_true_iff.
    pose proof (ref_inv_step max addr Spawn x y (si_refs _ Hi) Ho1 Hs Hb) as Hr'. injection Hs as <-.
    destruct Hi as [_ Hp Hz Hd [_ Hat]]. rewrite Hl in Hat. constructor; try done.
    unfold live in *. cbn [c_threads c_link c_shared]. rewrite List.filter_app, Hl. split; [vm_compute; lia | exact Hat].
  - cbn [step] in Hs. destruct (c_threads x !! i) as [l|] eqn:Ei; [|done].
    destruct (thread_step max addr a (c_shared x) l) as [[m l']|] eqn:Et; [|done]. injection Hs as <-.
    cbn [c_threads] in Hb. unfold blen in *. rewrite length_insert in Hb. by eapply serial_thread.
Qed.



(** ** Overlapping calls *)

(** A request after which the connection stays open and nothing is buffered. *)
Definition plain_request : answer := Handled None (Served (mkServed 0 false 0 false [] false)).

(** C40. The flag does not protect overlapping calls.  A call that has given up the
    flag for its double check still uses and releases the buffers: (1) a second
    call that has taken the flag meanwhile is left without reader and writer in the
    middle of a request, and they are in the pool for another connection; (2) if
    the second call is done first, the first one panics on the missing reader, and
    its recovery clears the flag of a third call, so that a fourth one serves the
    connection at the same time. *)
Theorem overlapping_calls_unsafe :
  (exists es c, run 65536 [] orderly es (accepted 10 (mkPools [] [] 0)) = Some c /\
     c_threads c !! 1%nat = Some Handling /\ s_Processing (sh_state (c_shared c)) = true /\
     s_Reader (sh_state (c_shared c)) = None /\ p_readers (sh_pools (c_shared c)) = [0%nat] /\
     p_writers (sh_pools (c_shared c)) = [1%nat]) /\
  (exists es c, run 65536 [] orderly es (accepted 10 (mkPools [] [] 0)) = Some c /\
     c_threads c !! 2%nat = Some CheckingActive /\ c_threads c !! 3%nat = Some CheckingActive).
Proof.
  pose (first := [Spawn; Step 0 Yes; Step 0 Yes; Step 0 Yes; Step 0 Yes; Step 0 Yes; Step 0 plain_request; Step 0 Yes]).
  split.
  - exists (first ++ [Step 0 No; Spawn; Step 1 Yes; Step 1 Yes; Step 1 Yes; Step 1 Yes; Step 1 Yes; Step 0 Yes]).
    eexists. split; [vm_compute; reflexivity|]. by split_and!.
  - exists (first ++ [Spawn; Step 1 Yes; Step 1 Yes; Step 1 Yes; Step 1 No; Step 1 Yes; Step 1 Yes;
                      Step 0 Yes; Spawn; Step 2 Yes; Step 2 Yes; Step 0 Yes; Spawn; Step 3 Yes; Step 3 Yes;
                      Step 2 Yes; Step 3 Yes]).
    eexists. split; [vm_compute; reflexivity|]. by split_and!.
Qed.
