(* ===== verification/EngineLive.v ===== *)
(** * After the disconnect every call ends

    Once the disconnect callback has begun the connection is not active any more.
    Every call of [ServeConn] then takes a bounded number of steps, none of them
    waits for ever, and when all is done the state is in its pool.  The argument is
    a measure that every step decreases, and a step for every call that is not
    finished. *)

From S2P Require Import Prelude Engine EngineSpec.

(** The policy of the event loop on a connection that is gone: [IsActive] is false. *)
Definition dying (c : config) (e : event) : bool :=
  orderly c e &&
  match e with
  | Step i a =>
      match c_threads c !! i, a with
      | Some CheckingActive, No => true
      | Some CheckingActive, _ => false
      | _, _ => true
      end
  | _ => true
  end.

(** ** The measure *)

(** The most steps a call at [l] still takes. *)
Definition weight (l : pc) : nat :=
  match l with
  | Finished => 0 | Releasing => 1 | Recovering | Leaving | Freeing | RunningHandler => 2
  | ReleasingIO | Parked => 3 | CheckingActive => 4 | Reclaiming => 5 | DoubleChecking => 6 | Yielding => 7
  | Handling => 8 | CheckingInput => 9 | SettingUp => 10 | Claiming => 11 | Acquiring => 12
  end.

Definition measure (c : config) : nat :=
  sum_list_with weight (c_threads c) + match c_link c with Gone => 0 | Cancelled => 1 | Open => 2 end.

Lemma thread_step_weight max addr a m l m' l' :
  thread_step max addr a m l = Some (m', l') -> (l = CheckingActive -> a = No) -> (weight l' < weight l)%nat.
Proof.
  intros Hs Ha. destruct l, a; try discriminate Hs; try (by specialize (Ha eq_refl));
    cbn [thread_step] in Hs; repeat case_match; simplify_eq/=; lia.
Qed.

Lemma sum_weights_insert ls i l l' :
  ls !! i = Some l -> (sum_list_with weight (<[i := l']> ls) + weight l = sum_list_with weight ls + weight l')%nat.
Proof.
  revert i. induction ls as [|x ls IH]; intros [|i] Hi; try done.
  - injection Hi as ->. change (weight l' + sum_list_with weight ls + weight l = weight l + sum_list_with weight ls + weight l')%nat. lia.
  - specialize (IH i Hi). change (weight x + sum_list_with weight (<[i:=l']> ls) + weight l = weight x + sum_list_with weight ls + weight l')%nat. lia.
Qed.

Lemma sum_weights_bound ls : (sum_list_with weight ls <= 12 * length ls)%nat.
Proof. induction ls as [|l ls IH]; cbn [sum_list_with length]; [lia|]. assert (weight l <= 12)%nat by (destruct l; cbn; lia). lia. Qed.

Lemma dying_step max addr e c c' :
  c_link c <> Open -> dying c e = true -> step max addr e c = Some c' ->
  (measure c' < measure c)%nat /\ c_link c' <> Open /\ length (c_threads c') = length (c_threads c).
Proof.
  intros Hk Hd Hs. destruct e as [|i a|]; unfold dying in Hd; cbn [step orderly] in *.
  - by destruct (c_link c).
  - destruct (c_threads c !! i) as [l|] eqn:Ei; [|done].
    destruct (thread_step max addr a (c_shared c) l) as [[m l']|] eqn:Et; [|done]. injection Hs as <-.
    apply thread_step_weight in Et; [|intros ->; by destruct a]. unfold measure. cbn [c_threads c_link].
    pose proof (sum_weights_insert (c_threads c) i l l' Ei). rewrite length_insert. split; [lia | done].
  - unfold measure. destruct (c_link c) eqn:Ek; [done | injection Hs as <- | done]. cbn. split_and!; [lia | done | done].
Qed.

Lemma dying_run max addr es c c' :
  c_link c <> Open -> run max addr dying es c = Some c' ->
  (length es + measure c' <= measure c)%nat /\ c_link c' <> Open /\ length (c_threads c') = length (c_threads c).
Proof.
  revert c. induction es as [|e es IH]; intros c Hk; cbn [run]; [intros [= <-]; split_and!; [cbn; lia | done | done]|].
  destruct (dying c e) eqn:Ed; [|done]. destruct (step max addr e c) as [x|] eqn:Es; [|done]. intros Hr.
  destruct (dying_step max addr e c x Hk Ed Es) as (H1 & H2 & H3). destruct (IH x H2 Hr) as (H4 & H5 & H6).
  split_and!; [cbn; lia | done | congruence].
Qed.

(** ** The done channel *)

(** It is open until the disconnect, and closed after it while the state is held. *)
Definition done_inv (c : config) : Prop :=
  match c_link c with
  | Open => s_done (sh_state (c_shared c)) = Some false /\ s_err (sh_state (c_shared c)) = false
  | _ => 0 < refs c -> s_done (sh_state (c_shared c)) = Some true /\ s_err (sh_state (c_shared c)) = true
  end.

Lemma setup_done addr m :
  s_done (sh_state (setup addr m)) = s_done (sh_state m) /\ s_err (sh_state (setup addr m)) = s_err (sh_state m).
Proof.
  unfold setup. destruct (match s_Reader (sh_state m) with Some r => _ | None => _ end) as [r p].
  destruct (match s_Writer (sh_state m) with Some r => _ | None => _ end) as [w q]. cbn. by destruct (bool_decide _).
Qed.

Lemma thread_step_done max addr a m l m' l' :
  thread_step max addr a m l = Some (m', l') -> l <> Releasing ->
  s_done (sh_state m') = s_done (sh_state m) /\ s_err (sh_state m') = s_err (sh_state m).
Proof.
  intros Hs Hl. pose proof (setup_done addr m) as Hd.
  destruct l, a; try discriminate Hs; try done; cbn [thread_step] in Hs; repeat case_match; simplify_eq/=; done.
Qed.

(** A release that is not the last changes the count only. *)
Lemma release_done m n :
  refs_ok m n -> 1 < n < 2 ^ 31 ->
  s_done (sh_state (ReleaseConnectionState m)) = s_done (sh_state m) /\
  s_err (sh_state (ReleaseConnectionState m)) = s_err (sh_state m).
Proof.
  unfold refs_ok. intros Hr Hn. destruct (Z.eqb_spec n 0); [lia|]. destruct Hr as [_ Hc].
  unfold ReleaseConnectionState. cbn [sh_state with_state add_ref s_refCount]. rewrite Hc, wrap32_small by (unfold int32_range; lia).
  destruct (Z.eqb_spec (n + -1) 0); [lia | done].
Qed.

Lemma done_inv_thread max addr a x i l m l' :
  ref_inv x -> done_inv x -> c_threads x !! i = Some l -> thread_step max addr a (c_shared x) l = Some (m, l') ->
  blen (c_threads x) < 2 ^ 31 - 2 -> done_inv (mkConfig m (<[i := l']> (c_threads x)) (c_link x)).
Proof.
  intros [Hg Hr]%ref_inv_iff Hd Ei Et Hb. pose proof (count_bound holding (c_threads x)).
  assert (0 <= link_refs (c_link x) <= 1) as Hlr by (destruct (c_link x); cbn; lia).
  destruct (decide (l = Releasing)) as [->|Hne].
  - destruct a; try discriminate Et. injection Et as <- <-. pose proof (count_pos holding _ _ _ Ei eq_refl).
    unfold done_inv, refs in *. cbn [c_link c_threads c_shared]. rewrite (count_insert holding _ _ _ _ Ei). cbn [holding Z.b2z].
    destruct (c_link x) eqn:Ek; cbn [link_refs] in *.
    + destruct (release_done _ _ Hr) as [-> ->]; [lia | done].
    + intros Hpos. destruct (release_done _ _ Hr) as [-> ->]; [lia|]. apply Hd. lia.
    + intros Hpos. destruct (release_done _ _ Hr) as [-> ->]; [lia|]. apply Hd. lia.
  - pose proof (thread_step_done _ _ _ _ _ _ _ Et Hne) as [E1 E2]. unfold done_inv, refs in *.
    cbn [c_link c_threads c_shared]. rewrite E1, E2. rewrite (count_insert holding _ _ _ _ Ei).
    apply thread_step_refs in Et as [(-> & -> & ->)|[(-> & -> & ->)|(Hh & Hh' & _)]]; [|done|].
    + pose proof (count_nonneg holding (c_threads x)). cbn [holding Z.b2z]. destruct (c_link x) eqn:Ek; [done | |]; cbn [link_refs] in *.
      * intros _. apply Hd. lia.
      * pose proof (count_pos acquiring _ _ _ Ei eq_refl). specialize (Hg eq_refl). lia.
    + pose proof (count_pos holding _ _ _ Ei Hh). destruct (c_link x); [done | |]; intros _; apply Hd; cbn [link_refs]; lia.
Qed.

Lemma done_inv_step max addr e x y :
  ref_inv x -> done_inv x -> orderly x e = true -> step max addr e x = Some y -> blen (c_threads y) < 2 ^ 31 - 2 ->
  done_inv y.
Proof.
  intros Hr Hd Ho Hs Hb. destruct e as [|i a|]; cbn [step orderly] in *.
  - injection Hs as <-. unfold done_inv in *. cbn [c_link c_shared]. by destruct (c_link x).
  - destruct (c_threads x !! i) as [l|] eqn:Ei; [|done].
    destruct (thread_step max addr a (c_shared x) l) as [[m l']|] eqn:Et; [|done]. injection Hs as <-.
    cbn [c_threads] in Hb. unfold blen in *. rewrite length_insert in Hb. by eapply done_inv_thread.
  - apply ref_inv_iff in Hr as [_ Hr]. unfold done_inv, refs in *. destruct (c_link x) eqn:Ek; [| |done].
    + destruct Hd as [Hd He]. unfold Cancel in Hs. rewrite Hd, He in Hs. by injection Hs as <-.
    + injection Hs as <-. cbn [c_link c_threads c_shared link_refs] in *. intros Hpos.
      pose proof (count_bound holding (c_threads x)).
      destruct (release_done _ _ Hr) as [-> ->]; [lia|]. apply Hd. lia.
Qed.

(** ** No call waits for ever *)

(** An answer that lets a call go on. *)
Definition go (l : pc) : answer :=
  match l with CheckingActive => No | Handling => Handled None (Failed true) | _ => Yes end.

Lemma thread_step_go max addr m l :
  l <> Finished -> (l = Parked -> s_done (sh_state m) = Some true) -> is_Some (thread_step max addr (go l) m l).
Proof.
  intros Hf Hp. destruct l; cbn [thread_step go]; try done; repeat case_match; try (by eexists).
  all: specialize (Hp eq_refl); congruence.
Qed.


