(* ===== verification/EngineContext.v ===== *)
(** * The contexts of requests (engine/engine.go)

    The context of a connection is its [ConnectionState]; with a request timeout
    each request gets a context of its own, derived from it by
    [context.WithTimeout].  [context.Context] is a class here, with the connection
    state and the derived context as instances.  A derived context is cancelled by
    its timer, by [cancel] when the handler has returned, or by a goroutine of the
    context package that waits for the connection's done channel and then asks the
    connection's context for its error.  The clock, the timers and these goroutines
    are steps that interleave with those of [Engine]. *)

From S2P Require Import Prelude Engine EngineSpec EngineLive.

(** ** context.Context *)

Inductive ctxErr : Type := Canceled | DeadlineExceeded.

(** [Done] is nil, or a channel that is open or closed. *)
Class Context (C : Type) : Type := {
  Deadline : C -> option Z; Done : C -> option bool; Err : C -> option ctxErr }.

Definition ConnectionState_Context : Context ConnectionState := {|
  Deadline _ := None; Done := s_done; Err s := if s_err s then Some Canceled else None |}.
#[global] Existing Instance ConnectionState_Context.

(** The keys of context values; the engine has one. *)
Inductive ctxKey : Type := CtxKeyConnectionState | OtherKey (n : nat).

Definition Value (s : ConnectionState) (key : ctxKey) : option ConnectionState :=
  match key with CtxKeyConnectionState => Some s | OtherKey _ => None end.

(** The start of [ServeConn]: the state is a value of the context it is given, or it
    returns an error. *)
Inductive serveErr : Type := ErrStateNotFound.

Definition ServeConn_state (ctx : ctxKey -> option ConnectionState) : ConnectionState + serveErr :=
  match ctx CtxKeyConnectionState with Some s => inl s | None => inr ErrStateNotFound end.

(** A connection's context carries the connection's state, through derived contexts
    as well, which ask their parent for values. *)
Lemma ServeConn_finds_state s (ctx : ctxKey -> option ConnectionState) :
  (forall key, ctx key = Value s key) -> ServeConn_state ctx = inl s.
Proof. intros H. unfold ServeConn_state. by rewrite H. Qed.

(** *** context.WithTimeout *)

(** [t_armed]: its timer has been started. *)
Record timerCtx : Type := mkTimer { t_deadline : Z; t_armed : bool; t_err : option ctxErr }.

#[global] Instance timerCtx_Context : Context timerCtx := {|
  Deadline t := Some (t_deadline t); Done t := Some (bool_decide (t_err t <> None)); Err := t_err |}.

(** The first error stays. *)
Definition cancel (e : ctxErr) (t : timerCtx) : timerCtx :=
  match t_err t with None => mkTimer (t_deadline t) false (Some e) | Some _ => t end.

Section Derive.
Context {P : Type} `{Context P}.

(** [WithTimeout(parent, d)] at the time [now]: an earlier deadline of the parent
    stays, a parent that is done cancels at once, and so does a deadline that has
    passed. *)
Definition WithTimeout (now d : Z) (parent : P) : timerCtx :=
  let inherited := match Done parent with Some true => Err parent | _ => None end in
  let fresh := mkTimer (now + d) (bool_decide (inherited = None) && (now <? now + d))
    (match inherited with
     | None => if now + d <=? now then Some DeadlineExceeded else None
     | Some e => Some e end) in
  match Deadline parent with
  | Some cur => if cur <? now + d then mkTimer cur false inherited else fresh
  | None => fresh
  end.

(** The context that [handleRequest] derives for a request, if it does. *)
Definition request_context (requestTimeout now : Z) (parent : P) : option timerCtx :=
  if 0 <? requestTimeout then
    if match Deadline parent with None => true | Some deadline => requestTimeout <? deadline - now end
    then Some (WithTimeout now requestTimeout parent)
    else None
  else None.
End Derive.

(** The goroutine that passes the end of the connection on: it has not started, it
    waits for the connection or for its own context, for its own context only, it has
    seen the done channel closed, it has ended, it has panicked. *)
Inductive watcher : Type := Unstarted | Watching | Deaf | Woken | Ended | WatcherPanicked.

(** ** Requests in time *)

(** A request whose context was derived: the call that handles it, when it began,
    and whether [handleRequest] still runs. *)
Record request : Type := mkRequest {
  rq_thread : nat; rq_start : Z; rq_ctx : timerCtx; rq_watch : watcher; rq_live : bool }.

Record timed : Type := mkTimed { td_config : config; td_now : Z; td_reqs : list request }.

Inductive watch : Type := Start | Wake | Leave | Deliver.

Inductive timed_event : Type :=
| OfEngine (e : event)
| BeginRequest (i : nat)             (* goroutine [i] derives the context of its request *)
| Tick (d : nat)                     (* time passes *)
| Fire (k : nat)                     (* the timer of request [k] *)
| Watch (k : nat) (w : watch).       (* the goroutine that watches for request [k] *)

Section Timed.
Context (maxDrainSize : Z) (addr : bytes) (requestTimeout : Z).

Definition live_of (i : nat) (r : request) : bool := (rq_thread r =? i)%nat && rq_live r.

(** [defer cancel()]. *)
Definition end_request (i : nat) (r : request) : request :=
  if live_of i r then mkRequest (rq_thread r) (rq_start r) (cancel Canceled (rq_ctx r)) (rq_watch r) false else r.

(** A request that is handled has its context, when there is a timeout; one that
    could not be read has none. *)
Definition may_end (i : nat) (o : outcome) (rs : list request) : bool :=
  match o with Failed _ => true | _ => (requestTimeout <=? 0) || existsb (live_of i) rs end.

(** The end of the connection, for a goroutine that waits for it: it has evaluated
    [parent.Done()] when it started, and that channel stays closed. *)
Definition conn_closed (c : config) : bool := match c_link c with Open => false | _ => true end.

Definition watch_step (c : config) (w : watch) (r : request) : option request :=
  let put t x := Some (mkRequest (rq_thread r) (rq_start r) t x (rq_live r)) in
  match w, rq_watch r with
  | Start, Unstarted =>
      put (rq_ctx r) (match Done (sh_state (c_shared c)) with Some _ => Watching | None => Deaf end)
  | Wake, Watching => if conn_closed c then put (rq_ctx r) Woken else None
  | Leave, (Watching | Deaf) => match Err (rq_ctx r) with Some _ => put (rq_ctx r) Ended | None => None end
  | Deliver, Woken =>
      match Err (sh_state (c_shared c)) with
      | Some e => put (cancel e (rq_ctx r)) Ended
      | None => put (rq_ctx r) WatcherPanicked
      end
  | _, _ => None
  end.

Definition on_request (k : nat) (f : request -> option request) (t : timed) : option timed :=
  match td_reqs t !! k with
  | Some r =>
      match f r with
      | Some r' => Some (mkTimed (td_config t) (td_now t) (<[k := r']> (td_reqs t)))
      | None => None
      end
  | None => None
  end.

Definition timed_step (e : timed_event) (t : timed) : option timed :=
  match e with
  | OfEngine e =>
      match step maxDrainSize addr e (td_config t) with
      | None => None
      | Some c =>
          match e with
          | Step i (Handled _ o) =>
              if may_end i o (td_reqs t)
              then Some (mkTimed c (td_now t) (map (end_request i) (td_reqs t)))
              else None
          | _ => Some (mkTimed c (td_now t) (td_reqs t))
          end
      end
  | BeginRequest i =>
      match c_threads (td_config t) !! i with
      | Some Handling =>
          if existsb (live_of i) (td_reqs t) then None
          else match request_context requestTimeout (td_now t) (sh_state (c_shared (td_config t))) with
               | Some ctx =>
                   let w := match Err ctx with Some _ => Ended | None => Unstarted end in
                   Some (mkTimed (td_config t) (td_now t) (td_reqs t ++ [mkRequest i (td_now t) ctx w true]))
               | None => None
               end
      | _ => None
      end
  | Tick d => Some (mkTimed (td_config t) (td_now t + Z.of_nat d) (td_reqs t))
  | Fire k =>
      on_request k (fun r =>
        if t_armed (rq_ctx r) && (t_deadline (rq_ctx r) <=? td_now t)
        then Some (mkRequest (rq_thread r) (rq_start r) (cancel DeadlineExceeded (rq_ctx r)) (rq_watch r) (rq_live r))
        else None) t
  | Watch k w => on_request k (watch_step (td_config t) w) t
  end.

(** Schedules in which the event loop keeps its order. *)
Fixpoint timed_run (es : list timed_event) (t : timed) : option timed :=
  match es with
  | [] => Some t
  | e :: es' =>
      if match e with OfEngine e => orderly (td_config t) e | _ => true end then
        match timed_step e t with Some t' => timed_run es' t' | None => None end
      else None
  end.
End Timed.

Definition timed_accepted (readTimeout : Z) (p : pools) : timed := mkTimed (accepted readTimeout p) 0 [].

(** ** What holds in every interleaving *)

(** A request, with the connection and the clock. *)
Record request_ok (timeout : Z) (c : config) (now : Z) (r : request) : Prop := {
  ro_deadline : t_deadline (rq_ctx r) = rq_start r + timeout /\ rq_start r <= now;
  ro_late : Err (rq_ctx r) = Some DeadlineExceeded -> t_deadline (rq_ctx r) <= now;
  ro_cancelled : Err (rq_ctx r) = Some Canceled -> c_link c <> Open \/ rq_live r = false;
  ro_armed : Err (rq_ctx r) = None -> t_armed (rq_ctx r) = true;
  ro_live : rq_live r = true -> c_threads c !! rq_thread r = Some Handling;
  ro_ended : rq_live r = false -> Err (rq_ctx r) <> None;
  ro_woken : rq_watch r = Woken -> c_link c <> Open;
  ro_deaf : rq_watch r = Deaf -> rq_live r = false;
  ro_watched : rq_watch r = Ended -> Err (rq_ctx r) <> None;
  ro_panicked : rq_watch r = WatcherPanicked -> refs c = 0 }.

Lemma cancel_err e t : Err (cancel e t) = match Err t with Some x => Some x | None => Some e end.
Proof. unfold cancel. cbn. by destruct (t_err t) eqn:E. Qed.

Lemma cancel_deadline e t : t_deadline (cancel e t) = t_deadline t.
Proof. unfold cancel. by destruct (t_err t). Qed.

(** The connection's own steps keep what a request relies on. *)
Definition config_mono (c c' : config) (keeps : nat -> Prop) : Prop :=
  (c_link c <> Open -> c_link c' <> Open) /\ (refs c = 0 -> refs c' = 0) /\
  forall i, keeps i -> c_threads c !! i = Some Handling -> c_threads c' !! i = Some Handling.

Lemma request_ok_mono timeout c c' now r :
  config_mono c c' (fun i => i = rq_thread r /\ rq_live r = true) -> request_ok timeout c now r -> request_ok timeout c' now r.
Proof.
  intros (H1 & H2 & H3) [D L C A V E W Q Z P]. constructor; auto.
  intros Hc. destruct (C Hc); auto.
Qed.

Lemma refs_zero c : refs c = 0 -> c_link c = Gone /\ count holding (c_threads c) = 0.
Proof. unfold refs. pose proof (count_nonneg holding (c_threads c)). destruct (c_link c); cbn; intros; [exfalso; lia | exfalso; lia | split; [done | lia]]. Qed.

Lemma step_mono max addr e c c' :
  ref_inv c -> orderly c e = true -> step max addr e c = Some c' ->
  config_mono c c' (fun i => forall h o, e <> Step i (Handled h o)).
Proof.
  intros Hr Ho Hs. destruct e as [|i a|]; cbn [step orderly] in *.
  - injection Hs as <-. destruct (c_link c) eqn:Ek; try done. split_and!; cbn.
    + by rewrite Ek.
    + intros Hz. apply refs_zero in Hz as [Hz _]. congruence.
    + intros i _ Hi. by rewrite lookup_app_l by (by eapply lookup_lt_Some).
  - destruct (c_threads c !! i) as [l|] eqn:Ei; [|done].
    destruct (thread_step max addr a (c_shared c) l) as [[m l']|] eqn:Et; [|done]. injection Hs as <-. split_and!; cbn.
    + done.
    + intros Hz. destruct (refs_zero _ Hz) as [Hg Hh].
      assert (l = Finished) as ->.
      { destruct (holding l) eqn:El; [pose proof (count_pos holding _ _ _ Ei El); lia|].
        destruct l; try done. pose proof (count_pos acquiring _ _ _ Ei eq_refl). pose proof (ri_gone _ Hr Hg). lia. }
      by destruct a.
    + intros j Hj Hh. destruct (decide (i = j)) as [<-|Hne]; [|by rewrite list_lookup_insert_ne].
      rewrite Ei in Hh. injection Hh as ->. destruct a as [| |h o]; try discriminate Et. by destruct (Hj h o).
  - destruct (c_link c) eqn:Ek; [|injection Hs as <-|done].
    + destruct (Cancel _); [|done]. injection Hs as <-. split_and!; cbn; try done.
      intros Hz. apply refs_zero in Hz as [Hz _]. congruence.
    + split_and!; cbn; try done. intros Hz. apply refs_zero in Hz as [Hz _]. congruence.
Qed.

(** Everything at once. *)
Record timed_inv (timeout : Z) (t : timed) : Prop := {
  ti_refs : ref_inv (td_config t);
  ti_done : done_inv (td_config t);
  ti_reqs : Forall (request_ok timeout (td_config t) (td_now t)) (td_reqs t) }.

(** A request that begins, on a connection whose context is coherent. *)
Lemma begin_ok timeout c now i ctx :
  0 < timeout -> done_inv c -> c_threads c !! i = Some Handling ->
  request_context timeout now (sh_state (c_shared c)) = Some ctx ->
  request_ok timeout c now (mkRequest i now ctx (match Err ctx with Some _ => Ended | None => Unstarted end) true).
Proof.
  intros Ht Hd Hi. unfold request_context. rewrite (proj2 (Z.ltb_lt 0 timeout)) by done. cbn [Deadline ConnectionState_Context].
  intros [= <-]. unfold WithTimeout. cbn [Deadline Done Err ConnectionState_Context].
  rewrite (proj2 (Z.ltb_lt now _)), (proj2 (Z.leb_gt _ now)) by lia.
  unfold done_inv, refs in Hd. pose proof (count_pos holding _ _ _ Hi eq_refl).
  destruct (c_link c) eqn:Ek.
  - destruct Hd as [E1 E2]. rewrite E1. constructor; cbn; try done; lia.
  - destruct Hd as [E1 E2]; [cbn; lia|]. rewrite E1, E2. constructor; cbn; rewrite ?Ek; try done; try lia; by left.
  - destruct Hd as [E1 E2]; [cbn; lia|]. rewrite E1, E2. constructor; cbn; rewrite ?Ek; try done; try lia; by left.
Qed.

Lemma fire_ok timeout c now r :
  request_ok timeout c now r -> t_deadline (rq_ctx r) <= now ->
  request_ok timeout c now (mkRequest (rq_thread r) (rq_start r) (cancel DeadlineExceeded (rq_ctx r)) (rq_watch r) (rq_live r)).
Proof.
  intros [D L C A V E W Q Z P] Hl. constructor; cbn [rq_thread rq_start rq_ctx rq_watch rq_live]; rewrite ?cancel_err, ?cancel_deadline; auto.
  all: destruct (Err (rq_ctx r)); try done; auto.
Qed.

Lemma end_ok timeout c now i r :
  request_ok timeout c now r -> request_ok timeout c now (end_request i r).
Proof.
  intros Hr. unfold end_request. destruct (live_of i r); [|done]. destruct Hr as [D L C A V E W Q Z P].
  constructor; cbn [rq_thread rq_start rq_ctx rq_watch rq_live]; rewrite ?cancel_err, ?cancel_deadline; auto; try done.
  all: destruct (Err (rq_ctx r)); try done; auto.
Qed.

(** A live request is not alone with its connection. *)
Lemma live_refs timeout c now r : request_ok timeout c now r -> rq_live r = true -> 0 < refs c.
Proof.
  intros Hr Hl. pose proof (count_pos holding _ _ _ (ro_live _ _ _ _ Hr Hl) eq_refl). unfold refs.
  destruct (c_link c); cbn; lia.
Qed.

(** While the connection is held its context is one that can end. *)
Lemma held_done c : done_inv c -> 0 < refs c -> is_Some (Done (sh_state (c_shared c))).
Proof.
  unfold done_inv. cbn. intros Hd Hp. destruct (c_link c); [destruct Hd as [-> _] | destruct (Hd Hp) as [-> _]..]; by eexists.
Qed.

Lemma watch_ok timeout c now w r r' :
  ref_inv c -> done_inv c -> request_ok timeout c now r -> watch_step c w r = Some r' -> request_ok timeout c now r'.
Proof.
  intros Hri Hd Hr. unfold watch_step. destruct w, (rq_watch r) eqn:Ew; try done.
  - cbn [Done ConnectionState_Context]. intros [= <-]. destruct (s_done (sh_state (c_shared c))) eqn:Ed; [destruct Hr; by constructor|].
    assert (rq_live r = false) as Hl.
    { destruct (rq_live r) eqn:El; [|done]. destruct (held_done c Hd (live_refs _ _ _ _ Hr El)) as [x Hx]. cbn in Hx. congruence. }
    destruct Hr; by constructor.
  - unfold conn_closed. destruct (c_link c) eqn:Ek; [done| |]; intros [= <-]; destruct Hr; constructor; cbn; try done; by rewrite Ek.
  - destruct (Err (rq_ctx r)) eqn:Ee; [|done]. intros [= <-]. destruct Hr. constructor; cbn in *; try done. by rewrite Ee.
  - destruct (Err (rq_ctx r)) eqn:Ee; [|done]. intros [= <-]. destruct Hr. constructor; cbn in *; try done. by rewrite Ee.
  - pose proof (ro_woken _ _ _ _ Hr Ew) as Hk. destruct (Err (sh_state (c_shared c))) as [e|] eqn:Ee; intros [= <-].
    + assert (e = Canceled) as -> by (cbn in Ee; destruct (s_err _); congruence). destruct Hr as [D L C A V E W Q Z P].
      constructor; cbn [rq_thread rq_start rq_ctx rq_watch rq_live]; rewrite ?cancel_err, ?cancel_deadline; auto; try done.
      all: destruct (Err (rq_ctx r)); try done; auto.
    + assert (refs c = 0) as Hz.
      { pose proof (refs_nonneg c). destruct (Z.eq_dec (refs c) 0); [done|]. cbn in Ee. unfold done_inv in Hd.
        destruct (c_link c); [done | |]; destruct Hd as [_ Hd]; try lia; by rewrite Hd in Ee. }
      destruct Hr; constructor; cbn; auto; done.
Qed.

Lemma timed_inv_step max addr timeout e t t' :
  0 < timeout -> timed_inv timeout t -> match e with OfEngine e => orderly (td_config t) e | _ => true end = true ->
  timed_step max addr timeout e t = Some t' -> blen (c_threads (td_config t')) < 2 ^ 31 - 2 -> timed_inv timeout t'.
Proof.
  intros Ht [Hr Hd Hq] Ho Hs Hb. destruct e as [e|i|d|k|k w]; cbn [timed_step] in Hs.
  - destruct (step max addr e (td_config t)) as [c|] eqn:Es; [|done].
    assert (td_config t' = c /\ td_now t' = td_now t /\
      exists f : request -> request, td_reqs t' = map f (td_reqs t) /\ forall r, request_ok timeout (td_config t) (td_now t) r ->
        request_ok timeout c (td_now t) (f r)) as (E1 & E2 & f & E3 & Hf).
    { pose proof (step_mono _ _ _ _ _ Hr Ho Es) as Hm.
      assert (forall r, (forall i h o, e = Step i (Handled h o) -> live_of i r = false) ->
        request_ok timeout (td_config t) (td_now t) r -> request_ok timeout c (td_now t) r) as Hkeep.
      { intros r Hn. apply request_ok_mono. destruct Hm as (M1 & M2 & M3). split_and!; [done | done |].
        intros i [-> Hlive] Hi. apply M3; [|done]. intros h o ->. specialize (Hn _ _ _ eq_refl).
        unfold live_of in Hn. by rewrite Nat.eqb_refl, Hlive in Hn. }
      destruct e as [|i [| |h o]|].
      1-3, 5: injection Hs as <-; split_and!; [done | done |]; exists id; rewrite map_id; split; [done|]; intros r; apply Hkeep; congruence.
      destruct (may_end _ i o (td_reqs t)); [|done]. injection Hs as <-. split_and!; [done | done|]. exists (end_request i).
      split; [done|]. intros r Hok. apply Hkeep; [|by apply end_ok]. intros j h' o' [= <- <- <-].
      unfold end_request. destruct (live_of i r) eqn:El; [|done]. unfold live_of. cbn. by rewrite andb_false_r. }
    rewrite E1 in *. constructor; rewrite ?E1, ?E2, ?E3.
    + by eapply ref_inv_step.
    + by eapply done_inv_step.
    + apply Forall_map. by eapply Forall_impl.
  - destruct (c_threads (td_config t) !! i) as [[]|] eqn:Ei; try done. destruct (existsb _ _); [done|].
    destruct (request_context _ _ _) as [ctx|] eqn:Ec; [|done]. injection Hs as <-. constructor; [done..|].
    apply Forall_app. split; [done|]. constructor; [|done]. by apply begin_ok.
  - injection Hs as <-. constructor; [done..|]. eapply Forall_impl; [|exact Hq]. intros r [D L C A V E W Q Z P].
    constructor; cbn [td_now]; auto; [lia|]. intros Hl. specialize (L Hl). cbn. lia.
  - unfold on_request in Hs. destruct (td_reqs t !! k) as [r|] eqn:Ek; [|done].
    destruct (t_armed _ && _) eqn:Ea; [|done]. injection Hs as <-. apply andb_true_iff in Ea as [_ Ea%Z.leb_le].
    constructor; [done..|]. apply Forall_insert; [done|]. apply fire_ok; [|done]. by eapply Forall_lookup_1.
  - unfold on_request in Hs. destruct (td_reqs t !! k) as [r|] eqn:Ek; [|done].
    destruct (watch_step _ w r) as [r'|] eqn:Ew; [|done]. injection Hs as <-.
    constructor; [done..|]. apply Forall_insert; [done|]. eapply watch_ok; [done | done | by eapply Forall_lookup_1 | exact Ew].
Qed.

Lemma timed_step_threads max addr timeout e t t' :
  timed_step max addr timeout e t = Some t' -> (length (c_threads (td_config t)) <= length (c_threads (td_config t')))%nat.
Proof.
  intros Hs. destruct e as [e|i|d|k|k w]; cbn [timed_step] in Hs; unfold on_request in Hs.
  - destruct (step max addr e (td_config t)) as [c|] eqn:Es; [|done].
    assert (td_config t' = c) as -> by (repeat case_match; by simplify_eq/=). by eapply step_threads.
  - repeat case_match; simplify_eq/=; lia.
  - by simplify_eq/=.
  - repeat case_match; by simplify_eq/=.
  - repeat case_match; by simplify_eq/=.
Qed.

Lemma timed_run_inv max addr timeout es t t' :
  0 < timeout -> timed_inv timeout t -> timed_run max addr timeout es t = Some t' ->
  blen (c_threads (td_config t')) < 2 ^ 31 - 2 -> timed_inv timeout t'.
Proof.
  intros Ht Hi Hrun Hb.
  assert (forall es t, timed_run max addr timeout es t = Some t' ->
    (length (c_threads (td_config t)) <= length (c_threads (td_config t')))%nat) as Hlen.
  { clear. induction es as [|e es IH]; intros t; cbn [timed_run]; [by intros [= <-]|]. destruct (match e with OfEngine _ => _ | _ => _ end); [|done].
    destruct (timed_step max addr timeout e t) as [x|] eqn:E; [|done]. intros H%IH. apply timed_step_threads in E. lia. }
  revert t Hi Hrun. induction es as [|e es IH]; intros t Hi; cbn [timed_run]; [by intros [= <-]|].
  destruct (match e with OfEngine _ => _ | _ => _ end) eqn:Ho; [|done].
  destruct (timed_step max addr timeout e t) as [x|] eqn:E; [|done]. intros Hr. eapply IH; [|exact Hr].
  eapply timed_inv_step; [done | exact Hi | exact Ho | exact E|]. specialize (Hlen _ _ Hr). unfold blen in *. lia.
Qed.

Lemma timed_accepted_inv timeout t p : timed_inv timeout (timed_accepted t p).
Proof. constructor; [apply accepted_ref_inv | done | constructor]. Qed.

(** ** The theorems *)

Definition err_of (k : nat) (t : timed) : option ctxErr :=
  match td_reqs t !! k with Some r => Err (rq_ctx r) | None => None end.

Lemma timed_run_watch max addr timeout k w r r' es t :
  td_reqs t !! k = Some r -> watch_step (td_config t) w r = Some r' ->
  timed_run max addr timeout (Watch k w :: es) t =
    timed_run max addr timeout es (mkTimed (td_config t) (td_now t) (<[k := r']> (td_reqs t))).
Proof. intros Hk Hw. cbn [timed_run timed_step]. unfold on_request. by rewrite Hk, Hw. Qed.

(** On a held connection that is gone, the goroutine has at most three steps to make
    before the context of its request has ended. *)
Lemma deliver_run max addr timeout t k r :
  timed_inv timeout t -> td_reqs t !! k = Some r -> rq_live r = true -> Err (rq_ctx r) = None -> c_link (td_config t) <> Open ->
  exists es t', Forall (fun e => exists w, e = Watch k w) es /\ timed_run max addr timeout es t = Some t' /\ err_of k t' = Some Canceled.
Proof.
  intros [Hri Hd Hq] Hk Hl He Hc. pose proof (Forall_lookup_1 _ _ _ _ Hq Hk) as Hr. pose proof (live_refs _ _ _ _ Hr Hl) as Hpos.
  assert (k < length (td_reqs t))%nat as Hlt by (by eapply lookup_lt_Some).
  assert (Err (sh_state (c_shared (td_config t))) = Some Canceled) as Hp.
  { unfold done_inv in Hd. cbn. destruct (c_link (td_config t)); [done | |]; by rewrite (proj2 (Hd Hpos)). }
  destruct (held_done _ Hd Hpos) as [d Hdone].
  assert (conn_closed (td_config t) = true) as Hcc by (unfold conn_closed; by destruct (c_link (td_config t))).
  set (at_ x := mkRequest (rq_thread r) (rq_start r) (rq_ctx r) x (rq_live r)).
  set (t1 := mkTimed (td_config t) (td_now t) (<[k := mkRequest (rq_thread r) (rq_start r) (cancel Canceled (rq_ctx r)) Ended (rq_live r)]> (td_reqs t))).
  assert (err_of k t1 = Some Canceled) as Ht1.
  { unfold err_of, t1. cbn [td_reqs]. rewrite list_lookup_insert_eq by done. cbn [rq_ctx]. by rewrite cancel_err, He. }
  destruct (rq_watch r) eqn:Ew.
  - exists [Watch k Start; Watch k Wake; Watch k Deliver], t1. split; [by repeat constructor; eexists|]. split; [|done].
    rewrite (timed_run_watch _ _ _ _ _ r (at_ Watching)) by (try done; unfold watch_step; by rewrite Ew, Hdone).
    rewrite (timed_run_watch _ _ _ _ _ (at_ Watching) (at_ Woken)) by (try (by apply list_lookup_insert_eq); unfold watch_step; cbn; by rewrite Hcc).
    cbn [td_reqs td_config td_now]. rewrite list_insert_insert_eq.
    rewrite (timed_run_watch _ _ _ _ _ (at_ Woken) (mkRequest (rq_thread r) (rq_start r) (cancel Canceled (rq_ctx r)) Ended (rq_live r)))
      by (try (by apply list_lookup_insert_eq); unfold watch_step; cbn [rq_watch at_ td_config]; by rewrite Hp).
    cbn [td_reqs td_config td_now timed_run]. by rewrite list_insert_insert_eq.
  - exists [Watch k Wake; Watch k Deliver], t1. split; [by repeat constructor; eexists|]. split; [|done].
    rewrite (timed_run_watch _ _ _ _ _ r (at_ Woken)) by (try done; unfold watch_step; by rewrite Ew, Hcc).
    rewrite (timed_run_watch _ _ _ _ _ (at_ Woken) (mkRequest (rq_thread r) (rq_start r) (cancel Canceled (rq_ctx r)) Ended (rq_live r)))
      by (try (by apply list_lookup_insert_eq); unfold watch_step; cbn [rq_watch at_ td_config]; by rewrite Hp).
    cbn [td_reqs td_config td_now timed_run]. by rewrite list_insert_insert_eq.
  - rewrite (ro_deaf _ _ _ _ Hr Ew) in Hl. done.
  - exists [Watch k Deliver], t1. split; [by repeat constructor; eexists|]. split; [|done].
    by rewrite (timed_run_watch _ _ _ _ _ r (mkRequest (rq_thread r) (rq_start r) (cancel Canceled (rq_ctx r)) Ended (rq_live r)))
      by (try done; unfold watch_step; by rewrite Ew, Hp).
  - by destruct (ro_watched _ _ _ _ Hr Ew).
  - pose proof (ro_panicked _ _ _ _ Hr Ew). lia.
Qed.


(** A call that has read a request and derived its context. *)
Definition begun : list timed_event :=
  [OfEngine Spawn; OfEngine (Step 0 Yes); OfEngine (Step 0 Yes); OfEngine (Step 0 Yes); OfEngine (Step 0 Yes);
   OfEngine (Step 0 Yes); BeginRequest 0; Watch 0 Start].


(** C34. With a request timeout the pooled connection state can bring the process
    down: the goroutine that context.WithTimeout starts may have seen the disconnect
    and not yet asked the connection's context for its error when the call returns
    and the state is reset for its pool; the error is then nil, and the goroutine
    panics where nothing recovers.  That is the only way: whenever it has panicked,
    the handler has returned and the state is in its pool. *)
Theorem request_timeout_race max addr timeout readTimeout p :
  0 < timeout ->
  (exists es t r, timed_run max addr timeout es (timed_accepted readTimeout p) = Some t /\
     td_reqs t !! 0%nat = Some r /\ rq_watch r = WatcherPanicked) /\
  (forall es t k r, timed_run max addr timeout es (timed_accepted readTimeout p) = Some t ->
     blen (c_threads (td_config t)) < 2 ^ 31 - 2 -> td_reqs t !! k = Some r -> rq_watch r = WatcherPanicked ->
     rq_live r = false /\ sh_put (c_shared (td_config t)) = 1%nat).
Proof.
  intros Ht. split.
  - exists (begun ++ [OfEngine Disconnect; Watch 0 Wake; OfEngine Disconnect; OfEngine (Step 0 (Handled None (Failed true)));
      OfEngine (Step 0 Yes); OfEngine (Step 0 Yes); OfEngine (Step 0 Yes); Watch 0 Deliver]).
    destruct timeout as [|q|q]; [done| |done]. destruct p as [[|r rs] [|w ws] n].
    all: eexists _, _; (split; [vm_compute; reflexivity|]); split; [reflexivity | reflexivity].
  - intros es t k r Hrun Hb Hk Hw. pose proof (timed_run_inv _ _ _ _ _ _ Ht (timed_accepted_inv _ _ _) Hrun Hb) as Hi.
    pose proof (Forall_lookup_1 _ _ _ _ (ti_reqs _ _ Hi) Hk) as Hr. pose proof (ro_panicked _ _ _ _ Hr Hw) as Hz. split.
    + destruct (rq_live r) eqn:El; [|done]. pose proof (live_refs _ _ _ _ Hr El). lia.
    + by apply (ri_released _ (ti_refs _ _ Hi)).
Qed.

Lemma request_timeout_race_witness :
  exists es t r, timed_run 65536 (bs "peer") 5 es (timed_accepted 10 (mkPools [] [] 0)) = Some t /\
    td_reqs t !! 0%nat = Some r /\ rq_watch r = WatcherPanicked.
Proof. exact (proj1 (request_timeout_race 65536 (bs "peer") 5 10 (mkPools [] [] 0) eq_refl)). Defined.
