(* ===== verification/EnginePool.v ===== *)
(** * Many connections, one set of pools

    The readers and writers of all connections of an engine come from the same two
    pools.  A server is the pools and its connections; a step of a connection is a
    step of [Engine] on its state and the shared pools.  A buffer is never used by
    two connections at once, nor used and free. *)

From S2P Require Import Prelude Engine EngineSpec.

(** ** The connections of an engine *)

Record conn : Type := mkConn {
  cn_state : ConnectionState; cn_put : nat; cn_panics : nat; cn_closed : bool; cn_threads : list pc; cn_link : link }.

Record server : Type := mkServerState { sr_pools : pools; sr_conns : list conn }.

(** A connection with the pools, as [Engine] sees it, and back. *)
Definition view (p : pools) (c : conn) : config :=
  mkConfig (mkShared (cn_state c) p (cn_put c) (cn_panics c) (cn_closed c)) (cn_threads c) (cn_link c).
Definition conn_of (c : config) : conn :=
  mkConn (sh_state (c_shared c)) (sh_put (c_shared c)) (sh_panics (c_shared c)) (sh_closed (c_shared c)) (c_threads c) (c_link c).

Inductive server_event : Type :=
| Accept (readTimeout : Z)            (* a connection is accepted *)
| On (i : nat) (e : event).           (* something happens on connection [i] *)

Section Run.
Context (maxDrainSize : Z) (addr : bytes).

(** Each connection has one call of [ServeConn] at a time. *)
Definition server_step (e : server_event) (s : server) : option server :=
  match e with
  | Accept t => Some (mkServerState (sr_pools s) (sr_conns s ++ [conn_of (accepted t (sr_pools s))]))
  | On i e =>
      match sr_conns s !! i with
      | Some c =>
          if serial (view (sr_pools s) c) e then
            match step maxDrainSize addr e (view (sr_pools s) c) with
            | Some y => Some (mkServerState (sh_pools (c_shared y)) (<[i := conn_of y]> (sr_conns s)))
            | None => None
            end
          else None
      | None => None
      end
  end.

Fixpoint server_run (es : list server_event) (s : server) : option server :=
  match es with
  | [] => Some s
  | e :: es' => match server_step e s with Some s' => server_run es' s' | None => None end
  end.
End Run.

(** ** How a step moves buffers *)

Definition olist {A} (o : option A) : list A := match o with Some a => [a] | None => [] end.

(** From the buffer in use and the free ones to those after a step: nothing is lost
    or copied, and at most one new buffer is made. *)
Definition moves (used : option nat) (free : list nat) (n : nat) (used' : option nat) (free' : list nat) (n' : nat) : Prop :=
  (n <= n')%nat /\ exists made, (made = [] \/ exists k, made = [k] /\ (n <= k < n')%nat) /\
    olist used' ++ free' ≡ₚ made ++ olist used ++ free.

Definition moves_all (m m' : shared) : Prop :=
  moves (s_Reader (sh_state m)) (p_readers (sh_pools m)) (p_next (sh_pools m))
        (s_Reader (sh_state m')) (p_readers (sh_pools m')) (p_next (sh_pools m')) /\
  moves (s_Writer (sh_state m)) (p_writers (sh_pools m)) (p_next (sh_pools m))
        (s_Writer (sh_state m')) (p_writers (sh_pools m')) (p_next (sh_pools m')).

Lemma moves_refl u f n n' : (n <= n')%nat -> moves u f n u f n'.
Proof. intros Hn. split; [done|]. exists []. split; [by left | done]. Qed.

Lemma moves_push r f n : moves (Some r) f n None (r :: f) n.
Proof. split; [done|]. exists []. split; [by left | done]. Qed.

Lemma moves_pop r f n n' : (n <= n')%nat -> moves None (r :: f) n (Some r) f n'.
Proof. intros Hn. split; [done|]. exists []. split; [by left | done]. Qed.

Lemma moves_make f n k n' : (n <= k < n')%nat -> moves None f n (Some k) f n'.
Proof. intros Hk. split; [lia|]. exists [k]. split; [right; eauto | done]. Qed.

Create HintDb moves discriminated.
#[global] Hint Resolve moves_refl moves_push moves_pop moves_make Nat.le_refl : moves.

Lemma setup_moves addr m : moves_all m (setup addr m).
Proof.
  unfold setup, moves_all, get_reader, get_writer.
  destruct (s_Reader (sh_state m)) as [r|] eqn:Er, (s_Writer (sh_state m)) as [w|] eqn:Ew,
    (p_readers (sh_pools m)) as [|r' rs] eqn:Epr, (p_writers (sh_pools m)) as [|w' ws] eqn:Epw; cbn;
    rewrite ?Epr, ?Epw; cbn; destruct (bool_decide _); cbn; rewrite ?Epr, ?Epw; cbn; split;
    first [apply moves_refl; lia | apply moves_pop; lia | apply moves_make; lia].
Qed.

Lemma releasePooledIO_moves m : moves_all m (releasePooledIO m).
Proof.
  unfold releasePooledIO, moves_all.
  destruct (s_Reader (sh_state m)), (s_Writer (sh_state m)); cbn; auto with moves.
Qed.

Lemma release_moves m : moves_all m (ReleaseConnectionState m).
Proof.
  unfold ReleaseConnectionState. set (m1 := with_state (add_ref (-1)) m).
  assert (moves_all m m1) as H0 by (split; by apply moves_refl).
  destruct (_ =? 0); [|exact H0].
  exact (releasePooledIO_moves m1).
Qed.

Lemma thread_step_moves max addr a m l m' l' : thread_step max addr a m l = Some (m', l') -> moves_all m m'.
Proof.
  intros Hs. pose proof (setup_moves addr m). pose proof (releasePooledIO_moves m). pose proof (release_moves m).
  assert (forall x, s_Reader (sh_state x) = s_Reader (sh_state m) -> s_Writer (sh_state x) = s_Writer (sh_state m) ->
    sh_pools x = sh_pools m -> moves_all m x) as Hsame.
  { intros x E1 E2 E3. unfold moves_all. rewrite E1, E2, E3. split; by apply moves_refl. }
  destruct l, a; try discriminate Hs; cbn [thread_step] in Hs; repeat case_match; simplify_eq/=; auto.
Qed.

Lemma step_moves max addr e c c' : step max addr e c = Some c' -> moves_all (c_shared c) (c_shared c').
Proof.
  destruct e as [|i a|]; cbn [step].
  - intros [= <-]. split; by apply moves_refl.
  - destruct (c_threads c !! i) as [l|]; [|done]. destruct (thread_step _ _ _ _ _) as [[m l']|] eqn:Et; [|done].
    intros [= <-]. by eapply thread_step_moves.
  - destruct (c_link c); [|intros [= <-]; apply release_moves | done].
    unfold Cancel. repeat case_match; intros; simplify_eq/=; split; by apply moves_refl.
Qed.

(** ** No buffer is shared *)

Definition in_use (f : ConnectionState -> option nat) (cs : list conn) : list nat := omap (fun c => f (cn_state c)) cs.

(** The buffers of all connections and the free ones are all different and old. *)
Definition apart (f : ConnectionState -> option nat) (free : list nat) (n : nat) (cs : list conn) : Prop :=
  NoDup (in_use f cs ++ free) /\ Forall (fun r => (r < n)%nat) (in_use f cs ++ free).

Lemma in_use_split f cs i c :
  cs !! i = Some c -> in_use f cs = in_use f (take i cs) ++ olist (f (cn_state c)) ++ in_use f (drop (S i) cs).
Proof.
  intros Hi. rewrite <- (take_drop_middle cs i c Hi) at 1. unfold in_use. rewrite omap_app. cbn.
  by destruct (f (cn_state c)).
Qed.

Lemma apart_moves f free n free' n' cs i c c' :
  cs !! i = Some c -> moves (f (cn_state c)) free n (f (cn_state c')) free' n' -> apart f free n cs ->
  apart f free' n' (<[i := c']> cs).
Proof.
  intros Hi (Hn & made & Hmade & Hperm) [Hnd Hall].
  assert (<[i := c']> cs !! i = Some c') as Hi' by (apply list_lookup_insert_eq; by eapply lookup_lt_Some).
  assert (in_use f (<[i := c']> cs) ++ free' ≡ₚ made ++ in_use f cs ++ free) as E.
  { rewrite (in_use_split f cs i c Hi), (in_use_split f _ i c' Hi').
    rewrite take_insert_ge, drop_insert_lt by lia.
    set (A := in_use f (take i cs)). set (B := in_use f (drop (S i) cs)).
    rewrite <- !app_assoc. rewrite (Permutation_app_comm B free'), (Permutation_app_comm B free).
    rewrite (Permutation_app_swap_app made A). f_equiv. rewrite !app_assoc. f_equiv. rewrite <- app_assoc. exact Hperm. }
  unfold apart. rewrite E. split.
  - apply list.NoDup_app. split; [destruct Hmade as [->|(k & -> & _)]; [constructor | apply NoDup_singleton]|].
    split; [|done]. intros x Hx Hin. rewrite list.Forall_forall in Hall. specialize (Hall x Hin).
    destruct Hmade as [->|(k & -> & Hk)]; [by apply elem_of_nil in Hx|]. apply list_elem_of_singleton in Hx as ->. lia.
  - apply Forall_app. split.
    + destruct Hmade as [->|(k & -> & Hk)]; [constructor|]. constructor; [lia | constructor].
    + eapply list.Forall_impl; [exact Hall|]. cbn. lia.
Qed.

(** What is known of a connection holds whatever the pools, once its buffers are not
    free. *)
Record conn_ok (p : pools) (c : conn) : Prop := { co_serial : serial_inv (view p c) }.

Definition server_ok (s : server) : Prop :=
  Forall (conn_ok (sr_pools s)) (sr_conns s) /\
  apart s_Reader (p_readers (sr_pools s)) (p_next (sr_pools s)) (sr_conns s) /\
  apart s_Writer (p_writers (sr_pools s)) (p_next (sr_pools s)) (sr_conns s).

Lemma apart_slot f free n cs i c : cs !! i = Some c -> apart f free n cs -> slot_ok (f (cn_state c)) free n.
Proof.
  intros Hi [Hnd Hall]. apply list.NoDup_app in Hnd as (Hu & Hdisj & Hf). rewrite Forall_app in Hall. destruct Hall as [Ha Hb].
  rewrite list.Forall_forall in Ha. rewrite list.Forall_forall in Hb. split_and!; [done | done|]. intros r Hr.
  assert (r ∈ in_use f cs) as Hin.
  { rewrite (in_use_split f cs i c Hi), Hr. apply elem_of_app. right. apply elem_of_app. left. by apply list_elem_of_singleton. }
  split; [by apply Ha | by apply Hdisj].
Qed.

(** The pools may change under a connection. *)
Lemma serial_inv_pools p p' c :
  serial_inv (view p c) -> slot_ok (s_Reader (cn_state c)) (p_readers p') (p_next p') ->
  slot_ok (s_Writer (cn_state c)) (p_writers p') (p_next p') -> serial_inv (view p' c).
Proof. intros [[H1 H2 H3] _ H4 H5 H6] Hr Hw. constructor; try done. Qed.

(** Connections whose number of calls stays in range. *)
Definition in_range (s : server) : Prop := Forall (fun c => blen (cn_threads c) < 2 ^ 31 - 2) (sr_conns s).

Lemma view_conn_of y : view (sh_pools (c_shared y)) (conn_of y) = y.
Proof. by destruct y as [[] ? ?]. Qed.

Lemma server_ok_step max addr e s s' :
  server_ok s -> in_range s' -> server_step max addr e s = Some s' -> server_ok s'.
Proof.
  intros (Hc & Hr & Hw) Hb. destruct e as [t|i e]; cbn [server_step].
  - intros [= <-]. assert (forall f, f (cn_state (conn_of (accepted t (sr_pools s)))) = None ->
      in_use f (sr_conns s ++ [conn_of (accepted t (sr_pools s))]) = in_use f (sr_conns s)) as Happ.
    { intros f Hf. unfold in_use. rewrite omap_app. cbn. cbn in Hf. rewrite Hf. by rewrite app_nil_r. }
    unfold server_ok, apart. cbn [sr_pools sr_conns]. rewrite !Happ by done. split; [|done]. apply Forall_app. split; [done|].
    constructor; [|constructor]. constructor. unfold apart in Hr, Hw. destruct Hr as [Hr1 Hr2], Hw as [Hw1 Hw2].
    apply list.NoDup_app in Hr1 as (_ & _ & Hr1). apply list.NoDup_app in Hw1 as (_ & _ & Hw1).
    apply Forall_app in Hr2 as [_ Hr2]. apply Forall_app in Hw2 as [_ Hw2]. rewrite list.Forall_forall in Hr2. rewrite list.Forall_forall in Hw2.
    constructor; [apply accepted_ref_inv | | done | done |].
    + split; by split_and!.
    + split; [cbn; lia | by split; [|left]].
  - destruct (sr_conns s !! i) as [c|] eqn:Hi; [|done]. destruct (serial _ e) eqn:Ho; [|done].
    destruct (step _ _ _ _) as [y|] eqn:Es; [|done]. intros [= <-].
    pose proof (step_moves _ _ _ _ _ Es) as [Mr Mw].
    assert (apart s_Reader (p_readers (sh_pools (c_shared y))) (p_next (sh_pools (c_shared y))) (<[i:=conn_of y]> (sr_conns s))) as Hr'
      by (by eapply apart_moves).
    assert (apart s_Writer (p_writers (sh_pools (c_shared y))) (p_next (sh_pools (c_shared y))) (<[i:=conn_of y]> (sr_conns s))) as Hw'
      by (by eapply apart_moves).
    split; [|by split]. cbn [sr_pools sr_conns]. apply Forall_lookup. intros j d Hj.
    assert (length (sr_conns s) > i)%nat as Hlen by (by eapply lookup_lt_Some).
    unfold in_range in Hb. rewrite Forall_lookup in Hb. rewrite Forall_lookup in Hc. destruct (decide (j = i)) as [->|Hne].
    + specialize (Hb i d Hj). rewrite list_lookup_insert_eq in Hj by done. injection Hj as <-. constructor. rewrite view_conn_of.
      eapply serial_step; [apply (Hc i c Hi) | exact Ho | exact Es | exact Hb].
    + pose proof Hj as Hj'. rewrite list_lookup_insert_ne in Hj by done. constructor.
      eapply serial_inv_pools; [apply (Hc j d Hj) | by eapply (apart_slot s_Reader) | by eapply (apart_slot s_Writer)].
Qed.

(** Numbers of calls only grow. *)
Lemma server_step_range max addr e s s' : server_step max addr e s = Some s' -> in_range s' -> in_range s.
Proof.
  unfold in_range. destruct e as [t|i e]; cbn [server_step]; [by intros [= <-] [H _]%Forall_app|].
  destruct (sr_conns s !! i) as [c|] eqn:Hi; [|done]. destruct (serial _ e); [|done].
  destruct (step _ _ _ _) as [y|] eqn:Es; [|done]. intros [= <-] Hb. rewrite !Forall_lookup in *. intros j d Hj. cbn [sr_conns] in Hb.
  assert (length (sr_conns s) > i)%nat as Hlen by (by eapply lookup_lt_Some).
  destruct (decide (j = i)) as [->|Hne].
  - assert (d = c) as -> by congruence. specialize (Hb i (conn_of y)). rewrite list_lookup_insert_eq in Hb by done.
    specialize (Hb eq_refl). assert (length (cn_threads c) <= length (cn_threads (conn_of y)))%nat; [|unfold blen in *; lia].
    destruct e as [|k a|]; cbn [step view c_threads c_shared c_link] in Es.
    + injection Es as <-. cbn. rewrite length_app. lia.
    + destruct (cn_threads c !! k); [|done]. destruct (thread_step _ _ _ _ _) as [[m l']|]; [|done].
      injection Es as <-. cbn. by rewrite length_insert.
    + destruct (cn_link c); [destruct (Cancel _)| |]; simplify_eq/=; done.
  - apply (Hb j). by rewrite list_lookup_insert_ne.
Qed.

Lemma server_run_ok max addr es s s' :
  server_ok s -> in_range s' -> server_run max addr es s = Some s' -> server_ok s'.
Proof.
  intros Hs Hb. assert (forall es s, server_run max addr es s = Some s' -> in_range s) as Hall.
  { intros es'. induction es' as [|e es' IH]; intros x; cbn [server_run]; [by intros [= ->]|].
    destruct (server_step max addr e x) as [y|] eqn:E; [|done]. intros H%IH. by eapply server_step_range. }
  revert s Hs. induction es as [|e es IH]; intros s Hs; cbn [server_run]; [by intros [= <-]|].
  destruct (server_step max addr e s) as [y|] eqn:E; [|done]. intros Hr. eapply IH; [|exact Hr].
  eapply server_ok_step; [done | by eapply Hall | done].
Qed.

Lemma in_use_apart f cs i j c d r :
  NoDup (in_use f cs) -> cs !! i = Some c -> cs !! j = Some d -> f (cn_state c) = Some r -> f (cn_state d) = Some r -> i = j.
Proof.
  unfold in_use. revert i j. induction cs as [|x cs IH]; intros i j Hnd Hi Hj Hc Hd; [done|]. cbn in Hnd.
  assert (forall k e, cs !! k = Some e -> f (cn_state e) = Some r -> r ∈ omap (fun c => f (cn_state c)) cs) as Hin
    by (intros k e Hk He; apply list_elem_of_omap; exists e; split; [by eapply list_elem_of_lookup_2 | done]).
  assert (NoDup (omap (fun c => f (cn_state c)) cs)) as Hnd'
    by (destruct (f (cn_state x)); [by apply list.NoDup_cons in Hnd as [_ ?] | done]).
  assert (f (cn_state x) = Some r -> r ∉ omap (fun c => f (cn_state c)) cs) as Hx
    by (intros E; rewrite E in Hnd; by apply list.NoDup_cons in Hnd as [? _]).
  destruct i as [|i], j as [|j]; [done | | |].
  - injection Hi as ->. exfalso. by eapply Hx, Hin.
  - injection Hj as ->. exfalso. by eapply Hx, Hin.
  - f_equal. by apply IH.
Qed.


