(* ===== verification/Server.v ===== *)
(** * The server: options and the connection limit (server/server.go)

    The event loop calls [OnPrepare] for a new connection, which counts it and may
    refuse it, and [OnDisconnect] when it ends.  Several calls run at a time: a
    call that has counted its connection and not yet decided is in flight. *)

From S2P Require Import Prelude.

(** ** Options *)

Record Server : Type := mkServer {
  sv_keepAliveTimeout : Z; sv_readTimeout : Z; sv_writeTimeout : Z;
  sv_maxConns : Z; sv_pollerNum : Z; sv_bufferSize : Z; sv_connsCount : Z }.

Definition WithMaxConns (n : Z) (s : Server) : Server :=
  mkServer (sv_keepAliveTimeout s) (sv_readTimeout s) (sv_writeTimeout s) n (sv_pollerNum s)
    (sv_bufferSize s) (sv_connsCount s).
Definition WithPollerNum (n : Z) (s : Server) : Server :=
  mkServer (sv_keepAliveTimeout s) (sv_readTimeout s) (sv_writeTimeout s) (sv_maxConns s) n
    (sv_bufferSize s) (sv_connsCount s).
Definition WithBufferSize (n : Z) (s : Server) : Server :=
  mkServer (sv_keepAliveTimeout s) (sv_readTimeout s) (sv_writeTimeout s) (sv_maxConns s)
    (sv_pollerNum s) n (sv_connsCount s).
Definition WithReadTimeout (d : Z) (s : Server) : Server :=
  mkServer (sv_keepAliveTimeout s) d (sv_writeTimeout s) (sv_maxConns s) (sv_pollerNum s)
    (sv_bufferSize s) (sv_connsCount s).
Definition WithWriteTimeout (d : Z) (s : Server) : Server :=
  mkServer (sv_keepAliveTimeout s) (sv_readTimeout s) d (sv_maxConns s) (sv_pollerNum s)
    (sv_bufferSize s) (sv_connsCount s).
Definition WithKeepAliveTimeout (d : Z) (s : Server) : Server :=
  mkServer d (sv_readTimeout s) (sv_writeTimeout s) (sv_maxConns s) (sv_pollerNum s)
    (sv_bufferSize s) (sv_connsCount s).

Definition defaultPollerNum (GOMAXPROCS : Z) : Z :=
  let pollerNum := Z.quot GOMAXPROCS 4 in
  if pollerNum <? 1 then 1 else pollerNum.

(** Durations are in nanoseconds. *)
Definition second : Z := 1000000000.

Definition NewServer (GOMAXPROCS : Z) (opts : list (Server -> Server)) : Server :=
  fold_left (fun s opt => opt s) opts
    (mkServer (30 * second) (10 * second) (10 * second) 0 (defaultPollerNum GOMAXPROCS) 0 0).

(** ** The callbacks *)

(** [atomic.AddInt32(&s.connsCount, d)]. *)
Definition add_conns (d : Z) (s : Server) : Server :=
  mkServer (sv_keepAliveTimeout s) (sv_readTimeout s) (sv_writeTimeout s) (sv_maxConns s)
    (sv_pollerNum s) (sv_bufferSize s) (wrap32 (sv_connsCount s + d)).

(** What [OnPrepare] makes of a connection: refused, closed because its read
    timeout could not be set, or accepted. *)
Inductive verdict : Type := Refused | ClosedEarly | Accepted.

(** [OnPrepare] after it has counted the connection as number [current]. *)
Definition decide_conn (current : Z) (timeoutSet : bool) (s : Server) : Server * verdict :=
  if (0 <? sv_maxConns s) && (sv_maxConns s <? current) then (add_conns (-1) s, Refused)
  else if negb timeoutSet then (s, ClosedEarly)
  else (s, Accepted).

(** [OnPrepare] as a whole, undisturbed. *)
Definition OnPrepare (timeoutSet : bool) (s : Server) : Server * verdict :=
  let s := add_conns 1 s in
  decide_conn (sv_connsCount s) timeoutSet s.

(** [OnDisconnect] up to the release of the connection state; a connection without
    a state has a nil context, on which the code calls a method. *)
Definition OnDisconnect (hasState : bool) (s : Server) : Server * res unit :=
  (add_conns (-1) s, if hasState then Ok tt else Crash NilDeref).

(** ** Interleaved calls *)

(** The server, the numbers of the calls in flight, and the connections that are
    open. *)
Record limiter : Type := mkLimiter { lm_server : Server; lm_flight : list Z; lm_open : Z }.

Inductive conn_event : Type :=
| Arrive                             (* a call counts its connection *)
| Decide (i : nat) (timeoutSet : bool)   (* call [i] in flight decides *)
| Leave.                             (* an open connection is disconnected *)

Definition limiter_step (e : conn_event) (c : limiter) : option limiter :=
  match e with
  | Arrive =>
      let s := add_conns 1 (lm_server c) in
      Some (mkLimiter s (lm_flight c ++ [sv_connsCount s]) (lm_open c))
  | Decide i timeoutSet =>
      match lm_flight c !! i with
      | None => None
      | Some current =>
          let '(s, v) := decide_conn current timeoutSet (lm_server c) in
          Some (mkLimiter s (delete i (lm_flight c))
                  (match v with Accepted => lm_open c + 1 | _ => lm_open c end))
      end
  | Leave =>
      if 0 <? lm_open c
      then Some (mkLimiter (fst (OnDisconnect true (lm_server c))) (lm_flight c) (lm_open c - 1))
      else None
  end.

Fixpoint limiter_run (es : list conn_event) (c : limiter) : option limiter :=
  match es with
  | [] => Some c
  | e :: es' => match limiter_step e c with Some c' => limiter_run es' c' | None => None end
  end.

(** A server that has just started. *)
Definition started (s : Server) : limiter := mkLimiter s [] 0.

(** ** The limit *)

(** The calls in flight that will not refuse. *)
Definition admissible (max : Z) (flight : list Z) : Z := blen (List.filter (fun n => n <=? max) flight).

(** [lost] connections were counted and closed because their timeout could not be
    set. *)
Record limit_inv (max lost : Z) (c : limiter) : Prop := {
  li_max : sv_maxConns (lm_server c) = max;
  li_open : 0 <= lm_open c;
  li_lost : 0 <= lost;
  li_count : sv_connsCount (lm_server c) = lm_open c + blen (lm_flight c) + lost;
  li_limit : lm_open c + admissible max (lm_flight c) <= max }.

(** The calls whose [SetReadTimeout] fails. *)
Definition timeout_fails (e : conn_event) : bool := match e with Decide _ ok => negb ok | _ => false end.
Definition timeout_failures (es : list conn_event) : Z := blen (List.filter timeout_fails es).

Lemma admissible_snoc max l n : admissible max (l ++ [n]) = admissible max l + Z.b2z (n <=? max).
Proof. unfold admissible. rewrite List.filter_app, blen_app. cbn. by destruct (n <=? max). Qed.

Lemma admissible_delete max l i n :
  l !! i = Some n -> admissible max l = admissible max (delete i l) + Z.b2z (n <=? max) /\
    blen l = blen (delete i l) + 1.
Proof.
  intros H. rewrite delete_take_drop. pose proof (take_drop_middle l i n H) as E. clear H.
  revert E. generalize (take i l), (drop (S i) l). intros a b <-. unfold admissible.
  rewrite !List.filter_app, !blen_app. cbn [List.filter]. destruct (n <=? max); rewrite ?blen_cons; cbn; lia.
Qed.

Lemma admissible_bound max l : 0 <= admissible max l <= blen l.
Proof. unfold admissible, blen. pose proof (List.filter_length_le (fun n => n <=? max) l). lia. Qed.

Lemma limiter_step_inv max lost e c c' :
  0 < max < 2 ^ 30 -> limit_inv max lost c -> limiter_step e c = Some c' ->
  blen (lm_flight c) + lost + 1 < 2 ^ 30 ->
  exists lost', limit_inv max lost' c' /\ lost' <= lost + Z.b2z (timeout_fails e) /\
    blen (lm_flight c') + lost' <= blen (lm_flight c) + lost + 1.
Proof.
  intros Hm [H1 H2 H0 H3 H4] Hs Hb. pose proof (admissible_bound max (lm_flight c)).
  destruct e as [|i ok|]; cbn [limiter_step] in Hs.
  - injection Hs as <-. exists lost. cbn [lm_flight timeout_fails Z.b2z]. rewrite blen_app. change (blen [_]) with 1.
    split_and!; [|lia..].
    assert (wrap32 (sv_connsCount (lm_server c) + 1) = lm_open c + blen (lm_flight c) + lost + 1) as Hw
      by (rewrite wrap32_small; [lia | unfold int32_range; lia]).
    constructor; cbn; rewrite ?blen_app; change (blen [_]) with 1; [done | done | done | lia |].
    rewrite admissible_snoc, Hw. destruct (Z.leb_spec (lm_open c + blen (lm_flight c) + lost + 1) max); cbn; lia.
  - destruct (lm_flight c !! i) as [n|] eqn:Ei; [|done].
    destruct (admissible_delete max _ i n Ei) as [Ha Hl]. unfold decide_conn in Hs. rewrite H1 in Hs.
    pose proof (admissible_bound max (delete i (lm_flight c))). cbn [timeout_fails].
    destruct (Z.ltb_spec 0 max); [|lia]. destruct (Z.ltb_spec max n); cbn [andb negb] in Hs.
    + injection Hs as <-. exists lost. cbn [lm_flight]. split_and!; [|destruct ok; cbn; lia | lia].
      destruct (Z.leb_spec n max); [lia|]. cbn in Ha. constructor; cbn; [done | done | done | | lia].
      rewrite wrap32_small; [lia | unfold int32_range; lia].
    + destruct (Z.leb_spec n max); [|lia]. cbn in Ha. exists (lost + Z.b2z (negb ok)).
      destruct ok; cbn [negb] in Hs; injection Hs as <-; cbn [lm_flight negb Z.b2z]; split_and!; try lia;
        constructor; cbn; lia.
  - destruct (Z.ltb_spec 0 (lm_open c)); [|done]. injection Hs as <-. exists lost. cbn [lm_flight timeout_fails Z.b2z].
    split_and!; [|lia..]. constructor; cbn; [done | lia | done | | lia]. rewrite wrap32_small; [lia | unfold int32_range; lia].
Qed.

Lemma limiter_run_inv max lost es c c' :
  0 < max < 2 ^ 30 -> limit_inv max lost c -> limiter_run es c = Some c' ->
  blen (lm_flight c) + lost + blen es < 2 ^ 30 ->
  exists lost', limit_inv max lost' c' /\ lost' <= lost + timeout_failures es.
Proof.
  intros Hm. unfold timeout_failures. revert c lost. induction es as [|e es IH]; intros c lost Hi Hr Hb; cbn [limiter_run] in Hr.
  { injection Hr as <-. exists lost. split; [done|]. change (lost <= lost + 0). lia. }
  destruct (limiter_step e c) as [c1|] eqn:Es; [|done]. rewrite blen_cons in Hb. pose proof (blen_nonneg es).
  destruct (limiter_step_inv max lost e c c1 Hm Hi Es) as (lost1 & Hi1 & Hl1 & Hb1); [lia|].
  destruct (IH c1 lost1 Hi1 Hr) as (lost' & Hi' & Hl'); [lia|]. exists lost'. split; [done|].
  cbn [List.filter]. destruct (timeout_fails e); rewrite ?blen_cons; cbn [Z.b2z] in Hl1; lia.
Qed.

(** C20. The connection limit holds in every interleaving of calls of [OnPrepare],
    whether read timeouts can be set or not, with disconnects of accepted
    connections (no disconnect callback is made for a connection that [OnPrepare]
    itself has closed): with a limit between 1 and [2^30 - 1] set by [WithMaxConns]
    and fewer than [2^30] events, there are never more open connections than the
    limit.  The counter is the number of open connections and of calls in flight
    if every read timeout can be set; otherwise it is too high, by at most the
    number of calls whose timeout could not be set. *)
Theorem connection_limit max procs opts es c :
  let s := NewServer procs opts in
  sv_maxConns s = max -> sv_connsCount s = 0 -> 0 < max < 2 ^ 30 ->
  limiter_run es (started s) = Some c -> blen es < 2 ^ 30 ->
  let held := lm_open c + blen (lm_flight c) in
  0 <= lm_open c <= max /\
  held <= sv_connsCount (lm_server c) <= held + timeout_failures es /\
  (Forall (fun e => timeout_fails e = false) es -> sv_connsCount (lm_server c) = held).
Proof.
  intros s Hmax Hc Hm Hr Hb held.
  assert (limit_inv max 0 (started s)) as Hi
    by (constructor; [exact Hmax | done | done | exact Hc | change (0 <= max); lia]).
  destruct (limiter_run_inv max 0 es _ c Hm Hi Hr Hb) as (lost & [_ H2 H0 H3 H4] & Hl).
  pose proof (admissible_bound max (lm_flight c)). unfold held. split_and!; [lia.. |].
  intros Hf. assert (timeout_failures es = 0) as E; [|lia].
  unfold timeout_failures. clear -Hf. induction Hf as [|e es He _ IH]; [done|]. cbn [List.filter]. by rewrite He.
Qed.

Lemma connection_limit_witness :
  let es := [Arrive; Arrive; Arrive; Decide 2 true; Decide 0 true; Decide 0 true; Leave; Arrive; Decide 0 true] in
  exists c, limiter_run es (started (NewServer 8 [WithMaxConns 2])) = Some c /\ lm_open c = 2 /\
    (0 <= lm_open c <= 2 /\ sv_connsCount (lm_server c) = lm_open c + blen (lm_flight c)).
Proof.
  cbv zeta. destruct (limiter_run _ _) as [c|] eqn:E; [|vm_compute in E; discriminate]. exists c. split; [done|].
  split; [by vm_compute in E; injection E as <-|].
  destruct (connection_limit 2 8 [WithMaxConns 2] _ c eq_refl eq_refl ltac:(lia) E eq_refl) as (H1 & _ & H3).
  split; [exact H1|]. apply H3. repeat constructor.
Defined.

(** ** Where the count drifts *)

(** A connection that [OnPrepare] closes itself: with its disconnect callback, if
    the event loop makes one for it, or without. *)
Definition closed_in_prepare (callback timeoutSet : bool) (s : Server) : Server :=
  let '(s, v) := OnPrepare timeoutSet s in
  match v with
  | Accepted => s
  | _ => if callback then fst (OnDisconnect false s) else s
  end.

Fixpoint times {A} (n : nat) (f : A -> A) (x : A) : A :=
  match n with O => x | S n' => times n' f (f x) end.

Lemma early_close_counts s :
  0 <= sv_connsCount s < 2 ^ 31 - 1 -> sv_connsCount s + 1 <= sv_maxConns s ->
  closed_in_prepare false false s = add_conns 1 s /\ sv_connsCount (add_conns 1 s) = sv_connsCount s + 1.
Proof.
  intros H1 H2. assert (wrap32 (sv_connsCount s + 1) = sv_connsCount s + 1) as Hw
    by (apply wrap32_small; unfold int32_range; lia).
  split; [|exact Hw]. unfold closed_in_prepare, OnPrepare, decide_conn. cbn [sv_connsCount sv_maxConns add_conns].
  rewrite Hw. destruct (Z.ltb_spec (sv_maxConns s) (sv_connsCount s + 1)); [lia|]. by rewrite andb_false_r.
Qed.

Lemma early_closes n s :
  0 <= sv_connsCount s -> sv_connsCount s + Z.of_nat n <= sv_maxConns s < 2 ^ 31 ->
  let s' := times n (closed_in_prepare false false) s in
  sv_connsCount s' = sv_connsCount s + Z.of_nat n /\ sv_maxConns s' = sv_maxConns s.
Proof.
  revert s. induction n as [|n IH]; intros s H1 H2; cbn [times]; [split; [lia | done]|].
  destruct (early_close_counts s) as [-> E]; [lia | lia |].
  destruct (IH (add_conns 1 s)) as [E1 E2]; rewrite ?E; cbn [add_conns sv_maxConns]; [lia | lia |].
  split; [|done]. rewrite E1, E. lia.
Qed.

(** The two ways in which [OnPrepare] closes a connection cannot both be
    right.  If the event loop makes no disconnect callback for such a connection,
    then each connection whose read timeout cannot be set stays counted for good,
    and after [max] of them the server refuses every connection.  If it does make
    the callback, each refused connection is subtracted twice, and the callback
    panics on the nil context. *)
Theorem connection_count_drifts s max :
  sv_connsCount s = 0 -> sv_maxConns s = Z.of_nat max -> (0 < max)%nat -> Z.of_nat max < 2 ^ 31 - 1 ->
  (snd (OnPrepare true (times max (closed_in_prepare false false) s)) = Refused) /\
  (forall s', sv_maxConns s' = Z.of_nat max -> sv_connsCount s' = Z.of_nat max ->
     sv_connsCount (closed_in_prepare true true s') = Z.of_nat max - 1 /\
     snd (OnDisconnect false s') = Crash NilDeref).
Proof.
  intros H0 Hmax Hpos Hlt. split.
  - destruct (early_closes max s) as [E1 E2]; [lia | lia |]. set (s' := times _ _ _) in *.
    unfold OnPrepare, decide_conn. cbn [sv_connsCount sv_maxConns add_conns]. rewrite E1, E2, Hmax, H0.
    rewrite wrap32_small by (unfold int32_range; lia).
    destruct (Z.ltb_spec 0 (Z.of_nat max)); [|lia]. by destruct (Z.ltb_spec (Z.of_nat max) (0 + Z.of_nat max + 1)); [|lia].
  - intros s' Hm Hc. split; [|done]. unfold closed_in_prepare, OnPrepare, decide_conn.
    cbn [sv_connsCount sv_maxConns add_conns]. rewrite Hm, Hc, (wrap32_small (Z.of_nat max + 1)) by (unfold int32_range; lia).
    destruct (Z.ltb_spec 0 (Z.of_nat max)); [|lia]. destruct (Z.ltb_spec (Z.of_nat max) (Z.of_nat max + 1)); [|lia].
    cbn. rewrite Hc, (wrap32_small (Z.of_nat max + 1)) by (unfold int32_range; lia).
    rewrite (wrap32_small (Z.of_nat max + 1 + -1)) by (unfold int32_range; lia).
    rewrite wrap32_small by (unfold int32_range; lia). lia.
Qed.

Lemma connection_count_drifts_witness :
  let s := NewServer 4 [WithMaxConns 1] in
  snd (OnPrepare true (times 1 (closed_in_prepare false false) s)) = Refused.
Proof.
  cbv zeta. refine (proj1 (connection_count_drifts (NewServer 4 [WithMaxConns 1]) 1 eq_refl eq_refl _ _)); lia.
Defined.
