(* ===== verification/Examples.v ===== *)
(** * The example server (examples/main.go)

    Handlers that use the library the way it is meant to be used: a page, a stream
    of server-sent events, and a WebSocket echo that leaves a read handler behind.
    The WebSocket package is not part of the repository: what the echo uses of it is
    a class, with the laws it relies on in another. *)

From S2P Require Import Prelude Scan Strconv Method StartLine Framing Message MessageRoundtrip Request Reader ReaderSpec.
From S2P Require Import Bufio Adaptor AdaptorFaults AdaptorSpec AdaptorRoundtrip AdaptorStream ReadEvents Engine Server.

(** ** The server *)

Inductive route : Type :=
| RootPage | FilePage | EventStream | GobwasLow | GobwasHigh | GorillaStd | GorillaEvent.

(** [http.ServeMux] with these patterns: a path of its own, or the root. *)
Definition mux (path : bytes) : route :=
  if bool_decide (path = bs "/file") then FilePage
  else if bool_decide (path = bs "/sse") then EventStream
  else if bool_decide (path = bs "/ws-gobwas-low") then GobwasLow
  else if bool_decide (path = bs "/ws-gobwas-high") then GobwasHigh
  else if bool_decide (path = bs "/ws-gorilla-std") then GorillaStd
  else if bool_decide (path = bs "/ws-gorilla-event") then GorillaEvent
  else RootPage.

(** The engine and the server that [hop] makes. *)
Definition hop (GOMAXPROCS : Z) : Engine.Engine * Server :=
  (NewEngine [],
   NewServer GOMAXPROCS [WithReadTimeout 0; WithWriteTimeout 0; WithPollerNum 4; Server.WithBufferSize 512]).

(** ** Pages *)

Definition NL : bytes := [LF].

(** The calls of [rootHandler]: one write. *)
Definition rootHandler : list op :=
  [OWrite (bs "Welcome to Hop WebSocket Examples!" ++ NL ++ bs "Available endpoints:" ++ NL
     ++ bs "1. /ws-gobwas-low    (Low-Level Event-Driven)" ++ NL
     ++ bs "2. /ws-gobwas-high   (High-Level Event-Driven using wsutil)" ++ NL
     ++ bs "3. /ws-gorilla-std   (Standard Loop in Goroutine)" ++ NL
     ++ bs "4. /ws-gorilla-event (Gorilla on Reactor Pattern)" ++ NL
     ++ bs "5. /file             (File Serving)" ++ NL
     ++ bs "6. /sse              (Server-Sent Events)" ++ NL)].

(** [fileHandler]: the file that is served, the first that exists, or not found. *)
Definition fileHandler (exists_ : bytes -> bool) : option bytes :=
  List.find exists_ [bs "examples/main.go"; bs "main.go"].

(** ** Server-sent events *)

Definition sse_header : Header :=
  <[bs "Connection" := [bs "keep-alive"]]> (<[bs "Cache-Control" := [bs "no-cache"]]>
    (<[headerContentType := [bs "text/event-stream"]]> ∅)).

Definition sse_event (t : bytes) : bytes := bs "data: Server time is " ++ t ++ CRLF ++ CRLF.

(** The calls of [sseHandler] for the given ticks, until the client is gone.  The
    writer is a Flusher; the write deadline, cleared first, belongs to the connection. *)
Definition sseHandler (ticks : list bytes) : list op :=
  [OWriteHeader StatusOK; OFlush] ++ concat (map (fun t => [OWrite (sse_event t); OFlush]) ticks).

Lemma written_app os1 os2 : written (os1 ++ os2) = written os1 ++ written os2.
Proof. unfold written. by rewrite map_app, concat_app. Qed.

Lemma sse_written ticks : written (sseHandler ticks) = concat (map sse_event ticks).
Proof.
  unfold sseHandler. rewrite written_app. cbn. induction ticks as [|t ts IH]; [done|].
  cbn [map concat]. rewrite written_app, IH. cbn. by rewrite app_nil_r.
Qed.

(** The calls end with a flush. *)
Lemma sse_ends ticks :
  exists os ph, sseHandler ticks = os ++ [OFlush] /\ written os = concat (map sse_event ticks) /\
    phases (Fresh, StatusOK) os = Some (ph, StatusOK).
Proof.
  assert (forall ts rest, phases (Fresh, StatusOK) (sseHandler ts ++ rest) = phases (Sent, StatusOK) rest) as Hp.
  { intros ts rest. unfold sseHandler. cbn. induction ts as [|t ts IH]; [done|]. cbn. exact IH. }
  destruct ticks as [|t ts _] using rev_ind; [by exists [OWriteHeader StatusOK], Fresh|].
  exists (sseHandler ts ++ [OWrite (sse_event t)]), Sent. rewrite Hp. split_and!; [|rewrite written_app, sse_written, map_app, concat_app; cbn; by rewrite !app_nil_r | done].
  unfold sseHandler. rewrite map_app, concat_app. cbn. by rewrite <- app_assoc.
Qed.

Lemma sse_headers_ok : headers_ok sse_header.
Proof.
  constructor.
  - unfold sse_header. repeat (apply map_Forall_insert_2; [by vm_compute|]). apply map_Forall_empty.
  - intros vs. vm_compute (sse_header !! _). intros [= <-]. eexists. split; [reflexivity | by vm_compute].
Qed.

(** Events are sent as they happen: after any number of ticks the client has the
    head and every event so far in whole chunks, with nothing left in the buffer, and
    the next tick adds its event. *)
Lemma sse_delivers currentDate DetectContentType grow ticks t n :
  (forall p, clean (DetectContentType p)) -> (0 < n)%nat ->
  let w0 := set_header sse_header (NewResponseWriter pool_New (mkWriter n healthy [] false [])) in
  exists w1 b1 w2 b2 h cs1 cs2,
    run_ops currentDate DetectContentType grow (sseHandler ticks) w0 = Ok (inl tt, w1) /\ w_bufWriter w1 = Some b1 /\
    run_ops currentDate DetectContentType grow [OWrite (sse_event t); OFlush] w1 = Ok (inl tt, w2) /\ w_bufWriter w2 = Some b2 /\
    bw_buf b1 = [] /\ bw_buf b2 = [] /\
    chunks_of (concat (map sse_event ticks)) cs1 /\ chunks_of (sse_event t) cs2 /\
    bw_out b1 = head_out currentDate h StatusOK ++ concat (map encode_chunk cs1) /\
    bw_out b2 = bw_out b1 ++ concat (map encode_chunk cs2).
Proof.
  intros Hs Hn w0. destruct (sse_ends ticks) as (os & ph & Eos & Hw & Hp). rewrite Eos, <- Hw.
  destruct (flush_streams currentDate DetectContentType grow sse_header os [OWrite (sse_event t)] ph StatusOK n Hs sse_headers_ok Hn Hp)
    as (w1 & b1 & w2 & b2 & h & cs1 & cs2 & E1 & B1 & E2 & B2 & H1 & H2 & _ & C1 & C2 & O1 & O2).
  assert (written [OWrite (sse_event t)] = sse_event t) as Ew by apply app_nil_r. rewrite Ew in C2.
  exists w1, b1, w2, b2, h, cs1, cs2. by split_and!.
Qed.

(** ** The WebSocket echo *)

Record wsHeader : Type := mkWsHeader {
  h_Fin : bool; h_OpCode : Z; h_Masked : bool; h_Mask : bytes; h_Length : Z }.

Definition OpText : Z := 1.
Definition OpBinary : Z := 2.
Definition OpClose : Z := 8.

(** What the handler uses of the package: reading a frame header, its bytes as they
    are written, and the cipher. *)
Class WS : Type := {
  ws_ReadHeader : rprog wsHeader;
  ws_bytes : wsHeader -> bytes;
  ws_Cipher : bytes -> bytes -> bytes }.

(** A header that was written is read back; the cipher undoes itself. *)
Class WSLaws `{WS} : Type := {
  ws_wf : wsHeader -> Prop;
  ws_roundtrip : forall h, ws_wf h -> on_bytes ws_ReadHeader (ws_bytes h) = Some (h, []);
  ws_bytes_ne : forall h, ws_bytes h <> [];
  ws_Cipher_length : forall p m, length (ws_Cipher p m) = length p;
  ws_Cipher_twice : forall p m, ws_Cipher (ws_Cipher p m) m = p }.

Section Echo.
Context `{WS}.

(** The frame: the header, and the payload unless its length cannot be allocated. *)
Definition gobwas_read : rprog (wsHeader * option bytes) :=
  rbind ws_ReadHeader (fun h =>
    if h_Length h <? 0 then RDone (h, None)
    else RFull (Z.to_nat (h_Length h)) (fun payload => RDone (h, Some payload))).

Definition gobwas_respond (frame : wsHeader * option bytes) (w : bufWriter) : res (hresult * bufWriter) :=
  match frame with
  | (_, None) => Ok (HandlerPanicked, w)
  | (h, Some payload) =>
      let payload := if h_Masked h then ws_Cipher payload (h_Mask h) else payload in
      if (h_OpCode h =? OpText) || (h_OpCode h =? OpBinary) then
        let respHeader := mkWsHeader true (h_OpCode h) false (repeat x00 4) (blen payload) in
        '(_, w) ← bw_Write w (ws_bytes respHeader);
        if bw_err w : bool then Ok (HandlerErr, w)
        else
          '(_, w) ← bw_Write w payload;
          if bw_err w : bool then Ok (HandlerErr, w)
          else let w := bw_Flush w in Ok (if bw_err w then HandlerErr else HandlerOk, w)
      else if h_OpCode h =? OpClose then Ok (HandlerErr, w)
      else Ok (HandlerOk, w)
  end.

(** The read handler of [gobwasLowLevelHandler]; [active] is what the connection
    answers to [IsActive]. *)
Definition gobwasLowLevel (active : bool) : ReadHandler := fun b w =>
  if active then message_handler gobwas_read gobwas_respond b w else Ok (HandlerErr, b, w).

(** A frame of a client, and the frame it gets back. *)
Record frame : Type := mkFrame { fr_op : Z; fr_mask : bytes; fr_data : bytes }.

Definition client_header (f : frame) : wsHeader := mkWsHeader true (fr_op f) true (fr_mask f) (blen (fr_data f)).
Definition client_frame (f : frame) : bytes := ws_bytes (client_header f) ++ ws_Cipher (fr_data f) (fr_mask f).
Definition server_frame (f : frame) : bytes :=
  ws_bytes (mkWsHeader true (fr_op f) false (repeat x00 4) (blen (fr_data f))) ++ fr_data f.

Context `{!WSLaws}.

Definition echoable (f : frame) : Prop := ws_wf (client_header f) /\ (fr_op f = OpText \/ fr_op f = OpBinary).

(** A client's frame is read as its header and its payload, still masked. *)
Lemma client_frame_read f : echoable f ->
  on_bytes gobwas_read (client_frame f) = Some ((client_header f, Some (ws_Cipher (fr_data f) (fr_mask f))), []).
Proof.
  intros [Hwf _]. unfold gobwas_read, client_frame. rewrite on_bytes_bind.
  rewrite (on_bytes_app _ _ _ _ _ (ws_roundtrip _ Hwf)). cbn [app h_Length client_header].
  destruct (Z.ltb_spec (blen (fr_data f)) 0); [pose proof (blen_nonneg (fr_data f)); lia|]. cbn [on_bytes].
  by rewrite to_nat_blen, <- (ws_Cipher_length (fr_data f) (fr_mask f)), Nat.leb_refl, take_ge, drop_ge by done.
Qed.

Lemma echo_answered f : echoable f -> answered gobwas_read gobwas_respond (client_frame f) (server_frame f).
Proof.
  intros Hf. pose proof Hf as [_ Hop]. split; [unfold client_frame; intros [E _]%app_eq_nil; by apply ws_bytes_ne in E|].
  exists (client_header f, Some (ws_Cipher (fr_data f) (fr_mask f))). split; [by apply client_frame_read|].
  intros w Hw Hbuf. unfold gobwas_respond. cbn [h_Masked client_header h_Mask h_OpCode]. rewrite ws_Cipher_twice.
    assert ((fr_op f =? OpText) || (fr_op f =? OpBinary) = true) as -> by (destruct Hop as [-> | ->]; done).
    unfold bw_Write. set (hb := ws_bytes _).
    destruct (sound_write true w hb Hw) as (w1 & -> & Hw1 & T1). cbn [mbind res_bind]. pose proof Hw1 as (_ & -> & _).
    destruct (sound_write true w1 (fr_data f) Hw1) as (w2 & -> & Hw2 & T2). cbn [mbind res_bind]. pose proof Hw2 as (_ & -> & _).
    destruct (sound_flush w2 Hw2) as (Hw3 & T3 & B3). pose proof Hw3 as (_ & -> & _). exists (bw_Flush w2). split_and!; try done; try apply Hw3.
    unfold total in T3 at 1. rewrite B3, app_nil_r in T3. rewrite T3, T2, T1. unfold total, server_frame. rewrite Hbuf, app_nil_r. by rewrite <- app_assoc.
Qed.
End Echo.

(** *** A codec *)

(** Frames of up to 125 bytes, as RFC 6455 has them. *)
Definition byte_of (z : Z) : byte := default x00 (Byte.of_N (Z.to_N z)).
Definition value_of (b : byte) : Z := Z.of_N (Byte.to_N b).

Definition xor_byte (a b : byte) : byte :=
  let '(a0, (a1, (a2, (a3, (a4, (a5, (a6, a7))))))) := Byte.to_bits a in
  let '(b0, (b1, (b2, (b3, (b4, (b5, (b6, b7))))))) := Byte.to_bits b in
  Byte.of_bits (xorb a0 b0, (xorb a1 b1, (xorb a2 b2, (xorb a3 b3, (xorb a4 b4, (xorb a5 b5, (xorb a6 b6, xorb a7 b7))))))).

(** The mask, again and again. *)
Fixpoint xor_with (p m rest : bytes) : bytes :=
  match p with
  | [] => []
  | x :: p' =>
      match rest with
      | k :: rest' => xor_byte x k :: xor_with p' m rest'
      | [] => match m with k :: rest' => xor_byte x k :: xor_with p' m rest' | [] => x :: xor_with p' m [] end
      end
  end.

#[global] Instance short_frames : WS := {|
  ws_ReadHeader :=
    RFull 2 (fun d =>
      match d with
      | [a; b] =>
          let op := value_of a mod 128 in
          let len := value_of b mod 128 in
          if 128 <=? value_of b then RFull 4 (fun mask => RDone (mkWsHeader true op true mask len))
          else RDone (mkWsHeader true op false (repeat x00 4) len)
      | _ => RFail IOEOF
      end);
  ws_bytes h := [byte_of (128 + h_OpCode h); byte_of ((if h_Masked h then 128 else 0) + h_Length h)]
                ++ (if h_Masked h then h_Mask h else []);
  ws_Cipher p m := xor_with p m m |}.

Lemma byte_of_value z : 0 <= z < 256 -> value_of (byte_of z) = z.
Proof.
  intros Hz. unfold value_of, byte_of. destruct (Byte.of_N (Z.to_N z)) as [b|] eqn:E.
  - apply Byte.to_of_N in E. cbn. lia.
  - apply Byte.of_N_None_iff in E. lia.
Qed.

Lemma xor_byte_twice a b : xor_byte (xor_byte a b) b = a.
Proof.
  unfold xor_byte. destruct (Byte.to_bits a) as (a0 & a1 & a2 & a3 & a4 & a5 & a6 & a7) eqn:Ea.
  destruct (Byte.to_bits b) as (b0 & b1 & b2 & b3 & b4 & b5 & b6 & b7). rewrite Byte.to_bits_of_bits.
  rewrite !xorb_assoc_reverse, !xorb_nilpotent, !xorb_false_r, <- Ea. apply Byte.of_bits_to_bits.
Qed.

#[global] Program Instance short_frames_laws : WSLaws := {|
  ws_wf h := h_Fin h = true /\ 0 <= h_OpCode h < 128 /\ 0 <= h_Length h <= 125 /\
    if h_Masked h then length (h_Mask h) = 4%nat else h_Mask h = repeat x00 4 |}.
Next Obligation.
  intros [fin op masked mask len] (Hf & Hop & Hlen & Hm). cbn in Hf, Hop, Hlen, Hm. subst fin. cbn [ws_bytes ws_ReadHeader short_frames h_OpCode h_Length h_Masked h_Mask].
  cbn [on_bytes app length Nat.leb take drop]. rewrite !byte_of_value by (destruct masked; lia).
  replace ((128 + op) mod 128) with op by (Z.div_mod_to_equations; lia). destruct masked.
  - rewrite (proj2 (Z.leb_le _ _)) by lia. replace ((128 + len) mod 128) with len by (Z.div_mod_to_equations; lia).
    rewrite take_0, drop_0. cbn [on_bytes]. rewrite Hm, Nat.leb_refl, take_ge, drop_ge by lia. done.
  - rewrite (proj2 (Z.leb_gt _ _)) by lia. rewrite Z.add_0_l, Z.mod_small by lia. rewrite take_0, drop_0. cbn [on_bytes]. by rewrite Hm.
Qed.
Next Obligation. done. Qed.
Next Obligation.
  intros p m. cbn. generalize m at 2. induction p as [|x p IH]; intros rest; [done|]. cbn.
  destruct rest as [|k rest]; [destruct m|]; cbn; by rewrite IH.
Qed.
Next Obligation.
  intros p m. cbn. generalize m at 2 4. induction p as [|x p IH]; intros rest; [done|]. cbn.
  destruct rest as [|k rest]; [destruct m as [|k m]|]; cbn; rewrite ?xor_byte_twice; by rewrite IH.
Qed.

(** ** The theorems *)

(** C26. The low-level WebSocket echo answers: when the client sends masked text
    and binary frames that are not fragmented (Fin set), and each frame arrives
    in pieces of its own, however many and of whatever sizes, then the event
    loop's calls of the read handler, on a connection that does not fail, send
    back each of these frames, in order, unmasked and complete, and leave nothing
    unread and the connection open. *)
Theorem echo_in_order `{WSLaws} readable frames piecess b w :
  polls readable -> Forall echoable frames -> Forall2 arrives (map client_frame frames) piecess ->
  (0 < b_size b)%nat -> b_err b = None -> b_buf b = [] -> wi_pieces (b_rd b) = concat piecess -> sound w -> bw_buf w = [] ->
  exists b' w', read_events readable (S (length frames)) (gobwasLowLevel true) b w = Ok (false, b', w') /\
    b_buf b' = [] /\ wi_pieces (b_rd b') = [] /\ bw_buf w' = [] /\
    bw_out w' = bw_out w ++ concat (map server_frame frames).
Proof.
  intros Hpoll Hf Ha Hs He Hb Hp Hw Hbuf. rewrite <- (length_map client_frame).
  apply (events_in_order _ readable Hpoll (map client_frame frames) (map server_frame frames) piecess); try done.
  clear -Hf. induction Hf as [|f fs Hf _ IH]; constructor; [by apply message_answers, echo_answered | exact IH].
Qed.

Lemma echo_in_order_witness :
  let f1 := mkFrame OpText (bs "mask") (bs "hello") in
  let f2 := mkFrame OpBinary (bs "abcd") [] in
  let b := mkBufio 16 [] None (mkWire [take 4 (client_frame f1); drop 4 (client_frame f1); client_frame f2] IOEOF) in
  exists b' w', read_events has_bytes 3 (gobwasLowLevel true) b (mkWriter 16 healthy [] false []) = Ok (false, b', w') /\
    bw_out w' = server_frame f1 ++ server_frame f2.
Proof.
  intros f1 f2 b.
  destruct (echo_in_order has_bytes [f1; f2] [[take 4 (client_frame f1); drop 4 (client_frame f1)]; [client_frame f2]] b (mkWriter 16 healthy [] false []))
    as (b' & w' & E & _ & _ & _ & Ho).
  - apply has_bytes_polls.
  - repeat (constructor; [split; [split_and!; cbn; first [done | lia] | first [by left | by right]]|]). constructor.
  - repeat constructor; by vm_compute.
  - cbn; lia.
  - done.
  - done.
  - done.
  - split_and!; [constructor; cbn; lia | done | done].
  - done.
  - exists b', w'. split; [exact E|]. rewrite Ho. cbn [map concat app bw_out]. by rewrite app_nil_r.
Defined.

(** C35. Frames that arrive together are not all answered: when a frame and the start of
    more, the whole next frame for one, come in one piece that fits into the buffer,
    the read handler takes the piece in, answers the first frame, and is not called
    again, because there is nothing left to read on the connection: what is in the
    buffer waits until the peer sends more. *)
Theorem echo_stalls `{WSLaws} readable f rest b w :
  polls readable -> echoable f -> rest <> [] -> arrived b (client_frame f ++ rest) -> sound w -> bw_buf w = [] ->
  exists b' w', read_events readable 2 (gobwasLowLevel true) b w = Ok (false, b', w') /\
    b_buf b' = rest /\ wi_pieces (b_rd b') = [] /\ bw_buf w' = [] /\ bw_out w' = bw_out w ++ server_frame f.
Proof. intros Hpoll Hf. apply (events_stall _ readable Hpoll). by apply message_answers_first, echo_answered. Qed.

Lemma echo_stalls_witness :
  let f1 := mkFrame OpText (bs "mask") (bs "hello") in
  let f2 := mkFrame OpText (bs "abcd") (bs "world") in
  let b := mkBufio 32 [] None (mkWire [client_frame f1 ++ client_frame f2] IOEOF) in
  exists b' w', read_events has_bytes 2 (gobwasLowLevel true) b (mkWriter 16 healthy [] false []) = Ok (false, b', w') /\
    b_buf b' = client_frame f2 /\ bw_out w' = server_frame f1.
Proof.
  intros f1 f2 b.
  destruct (echo_stalls has_bytes f1 (client_frame f2) b (mkWriter 16 healthy [] false [])) as (b' & w' & E & Hb & _ & _ & Ho).
  - apply has_bytes_polls.
  - split; [split_and!; cbn; first [done | lia] | by left].
  - done.
  - split_and!; [done | done | done | vm_compute; lia].
  - split_and!; [constructor; cbn; lia | done | done].
  - done.
  - exists b', w'. split; [exact E|]. split; [exact Hb | exact Ho].
Defined.
