(* ===== verification/ExamplesEcho.v ===== *)
(** * The other echoes of the examples (examples/main.go)

    The echo over wsutil, which is event-driven like the one over frames, and the
    echoes over gorilla's connection, as a goroutine of its own and event-driven.
    The WebSocket packages are classes; the theorems are proved against their laws,
    and instances show that the laws can hold. *)

From S2P Require Import Prelude Scan Strconv Method StartLine Framing Message MessageRoundtrip Request Reader ReaderSpec.
From S2P Require Import Bufio Adaptor AdaptorFaults ReadEvents Examples.

(** ** The program *)

(** [SetUlimit]: the soft limit is raised to the hard one; the limits are those that
    [Getrlimit] answers, and the result is what is given to [Setrlimit]. *)
Definition SetUlimit {E} (getrlimit : (Z * Z) + E) : (Z * Z) + E :=
  match getrlimit with inl (_, max) => inl (max, max) | inr e => inr e end.

(** What [main] starts for a value of its flag; anything else ends the program. *)
Inductive serverType : Type := StdServer | HopServer | UnknownServer.

Definition server_type (flag : bytes) : serverType :=
  if bool_decide (flag = bs "std") then StdServer
  else if bool_decide (flag = bs "hop") then HopServer
  else UnknownServer.

(** ** wsutil *)

(** Both functions are given the buffered reader and writer together: reading may
    answer control frames. *)
Class Wsutil : Type := {
  ReadClientData : bufio wire -> bufWriter -> res ((bytes * Z + perror) * bufio wire * bufWriter);
  WriteServerMessage : Z -> bytes -> bufWriter -> res (bool * bufWriter) }.

(** The read handler of [gobwasHighLevelHandler]; the error of the flush is not
    looked at. *)
Definition gobwasHighLevel `{Wsutil} (active : bool) : ReadHandler := fun b w =>
  if active then
    '(m, b, w) ← ReadClientData b w;
    match m with
    | inr _ => Ok (HandlerErr, b, w)
    | inl (msg, op) =>
        '(failed, w) ← WriteServerMessage op msg w;
        if failed : bool then Ok (HandlerErr, b, w) else Ok (HandlerOk, b, bw_Flush w)
    end
  else Ok (HandlerErr, b, w).

(** A data frame is read whole, and no more than it; a message is written as a frame. *)
Class WsutilLaws `{WSLaws} `{Wsutil} : Prop := {
  read_data : forall f b later w, echoable f -> ahead b (client_frame f) later ->
    exists b', ReadClientData b w = Ok (inl (fr_data f, fr_op f), b', w) /\ ahead b' [] later;
  read_data_first : forall f b rest w, echoable f -> rest <> [] -> arrived b (client_frame f ++ rest) ->
    exists b', ReadClientData b w = Ok (inl (fr_data f, fr_op f), b', w) /\ taken_in b' rest;
  write_message : forall f w, echoable f -> sound w ->
    exists w', WriteServerMessage (fr_op f) (fr_data f) w = Ok (false, w') /\ sound w' /\ total w' = total w ++ server_frame f }.

Section High.
Context `{Laws : WsutilLaws}.

(** What is sent for a frame that has been read. *)
Lemma high_sends f w : echoable f -> sound w -> bw_buf w = [] ->
  exists w', WriteServerMessage (fr_op f) (fr_data f) w = Ok (false, w') /\ sound (bw_Flush w') /\ bw_buf (bw_Flush w') = [] /\
    bw_out (bw_Flush w') = bw_out w ++ server_frame f.
Proof.
  intros Hf Hw Hbuf. destruct (write_message f w Hf Hw) as (w1 & E & Hw1 & T1). destruct (sound_flush w1 Hw1) as (Hw2 & T2 & B2).
  exists w1. split_and!; [done | apply Hw2.. | done |]. unfold total in T2 at 1. rewrite B2, app_nil_r in T2.
  rewrite T2, T1. unfold total. by rewrite Hbuf, app_nil_r.
Qed.

Lemma client_frame_ne f : client_frame f <> [].
Proof. unfold client_frame. intros [E _]%app_eq_nil. by apply ws_bytes_ne in E. Qed.

Lemma high_answers f : echoable f -> answers (gobwasHighLevel true) (client_frame f) (server_frame f).
Proof.
  intros Hf. split; [apply client_frame_ne|]. intros b later w Ha Hw Hbuf.
  destruct (read_data f b later w Hf Ha) as (b1 & E1 & Ha1). destruct (high_sends f w Hf Hw Hbuf) as (w1 & E2 & Hs).
  exists b1, (bw_Flush w1). unfold gobwasHighLevel. rewrite E1. cbn [mbind res_bind]. rewrite E2. by cbn [mbind res_bind].
Qed.

Lemma high_answers_first f : echoable f -> answers_first (gobwasHighLevel true) (client_frame f) (server_frame f).
Proof.
  intros Hf. split; [apply client_frame_ne|]. intros b rest w Hrest Ha Hw Hbuf.
  destruct (read_data_first f b rest w Hf Hrest Ha) as (b1 & E1 & Ha1). destruct (high_sends f w Hf Hw Hbuf) as (w1 & E2 & _ & Hs).
  exists b1, (bw_Flush w1). unfold gobwasHighLevel. rewrite E1. cbn [mbind res_bind]. rewrite E2. by cbn [mbind res_bind].
Qed.
End High.

(** The echo over wsutil answers like the one over frames, and stalls like it. *)
Theorem high_echo_in_order `{Laws : WsutilLaws} readable frames piecess b w :
  polls readable -> Forall echoable frames -> Forall2 arrives (map client_frame frames) piecess ->
  (0 < b_size b)%nat -> b_err b = None -> b_buf b = [] -> wi_pieces (b_rd b) = concat piecess -> sound w -> bw_buf w = [] ->
  exists b' w', read_events readable (S (length frames)) (gobwasHighLevel true) b w = Ok (false, b', w') /\
    b_buf b' = [] /\ wi_pieces (b_rd b') = [] /\ bw_buf w' = [] /\
    bw_out w' = bw_out w ++ concat (map server_frame frames).
Proof.
  intros Hpoll Hf Ha Hs He Hb Hp Hw Hbuf. rewrite <- (length_map client_frame).
  apply (events_in_order _ readable Hpoll (map client_frame frames) (map server_frame frames) piecess); try done.
  clear -Hf Laws. induction Hf as [|f fs Hf _ IH]; constructor; [by apply high_answers | exact IH].
Qed.

Theorem high_echo_stalls `{Laws : WsutilLaws} readable f rest b w :
  polls readable -> echoable f -> rest <> [] -> arrived b (client_frame f ++ rest) -> sound w -> bw_buf w = [] ->
  exists b' w', read_events readable 2 (gobwasHighLevel true) b w = Ok (false, b', w') /\
    b_buf b' = rest /\ wi_pieces (b_rd b') = [] /\ bw_buf w' = [] /\ bw_out w' = bw_out w ++ server_frame f.
Proof. intros Hpoll Hf. apply (events_stall _ readable Hpoll). by apply high_answers_first. Qed.

(** *** An instance *)

(** wsutil on frames: a header and a payload, unmasked. *)
#[global] Instance frame_wsutil `{WS} : Wsutil := {|
  ReadClientData b w :=
    '(x, b) ← run_reads gobwas_read b;
    Ok (match x with
        | inl (h, Some p) => inl (if h_Masked h then ws_Cipher p (h_Mask h) else p, h_OpCode h)
        | inl (_, None) => inr IOEOF
        | inr e => inr e
        end, b, w);
  WriteServerMessage op msg w :=
    '(_, w) ← bw_Write w (ws_bytes (mkWsHeader true op false (repeat x00 4) (blen msg)) ++ msg);
    Ok (bw_err w, w) |}.

#[global] Instance frame_wsutil_laws `{WSLaws} : WsutilLaws.
Proof.
  assert (forall f, echoable f -> on_bytes gobwas_read (client_frame f) =
    Some ((client_header f, Some (ws_Cipher (fr_data f) (fr_mask f))), [])) as Hread by (intros f; apply client_frame_read).
  split.
  - intros f b later w Hf Ha. destruct (run_ahead _ b _ later _ [] Ha (Hread f Hf)) as (b1 & E & Ha1 & _).
    exists b1. cbn. rewrite E. cbn. by rewrite ws_Cipher_twice.
  - intros f b rest w Hf Hrest Ha. pose proof (on_bytes_app _ _ _ _ rest (Hread f Hf)) as Hr.
    destruct (run_arrived _ b _ _ rest Ha Hr Hrest) as (b1 & E & Ha1).
    { rewrite length_app. pose proof (client_frame_ne f). destruct (client_frame f); [done | cbn; lia]. }
    exists b1. cbn. rewrite E. cbn. by rewrite ws_Cipher_twice.
  - intros f w Hf Hw. unfold WriteServerMessage, frame_wsutil, bw_Write. set (p := _ ++ _). destruct (sound_write true w p Hw) as (w1 & -> & Hw1 & T1).
    exists w1. pose proof Hw1 as (_ & He & _). cbn [mbind res_bind]. by rewrite He.
Qed.

Lemma high_echo_in_order_witness :
  let f1 := mkFrame OpText (bs "mask") (bs "hello") in
  let b := mkBufio 16 [] None (mkWire [client_frame f1] IOEOF) in
  exists b' w', read_events has_bytes 2 (gobwasHighLevel true) b (mkWriter 16 healthy [] false []) = Ok (false, b', w') /\
    bw_out w' = server_frame f1.
Proof.
  intros f1 b. destruct (high_echo_in_order has_bytes [f1] [[client_frame f1]] b (mkWriter 16 healthy [] false []))
    as (b' & w' & E & _ & _ & _ & Ho).
  - apply has_bytes_polls.
  - apply Forall_singleton. split; [split_and!; cbn; first [done | lia] | by left].
  - repeat constructor; by vm_compute.
  - cbn; lia.
  - done.
  - done.
  - done.
  - split_and!; [constructor; cbn; lia | done | done].
  - done.
  - exists b', w'. split; [exact E|]. rewrite Ho. cbn [map concat app bw_out]. by rewrite app_nil_r.
Defined.

(** ** gorilla *)

(** What the echoes use of a gorilla connection. *)
Class Gorilla (G : Type) : Type := {
  ReadMessage : G -> (Z * bytes + perror) * G;
  WriteMessage : Z -> bytes -> G -> bool * G;
  CloseConn : G -> G }.

(** The read handler of [gorillaEventHandler]; it does not use the reader and writer
    it is given. *)
Definition gorillaEvent {G} `{Gorilla G} (g : G) : hresult * G :=
  let '(m, g) := ReadMessage g in
  match m with
  | inr _ => (HandlerErr, g)
  | inl (messageType, message) =>
      let '(failed, g) := WriteMessage messageType message g in
      (if failed then HandlerErr else HandlerOk, g)
  end.

(** The goroutine of [gorillaStdHandler]: until an error, then it closes. *)
Fixpoint gorillaStd {G} `{Gorilla G} (fuel : nat) (g : G) : res G :=
  match fuel with
  | O => Crash OutOfFuel
  | S fuel' =>
      let '(m, g) := ReadMessage g in
      match m with
      | inr _ => Ok (CloseConn g)
      | inl (messageType, message) =>
          let '(failed, g) := WriteMessage messageType message g in
          if failed then Ok (CloseConn g) else gorillaStd fuel' g
      end
  end.

(** The connection as its messages: those to come, then an error; those sent; and
    whether it is closed. *)
Class GorillaLaws (G : Type) `{Gorilla G} : Type := {
  inbox : G -> list (Z * bytes);
  outbox : G -> list (Z * bytes);
  closed : G -> bool;
  ReadMessage_law : forall g, let '(m, g') := ReadMessage g in
    outbox g' = outbox g /\ closed g' = closed g /\
    match inbox g with [] => inbox g' = [] /\ exists e, m = inr e | x :: l => inbox g' = l /\ m = inl x end;
  WriteMessage_law : forall t msg g, closed g = false -> let '(failed, g') := WriteMessage t msg g in
    failed = false /\ inbox g' = inbox g /\ outbox g' = outbox g ++ [(t, msg)] /\ closed g' = false;
  CloseConn_law : forall g, closed (CloseConn g) = true /\ outbox (CloseConn g) = outbox g }.

Section GorillaEcho.
Context {G : Type} `{Laws : GorillaLaws G}.

(** One message. *)
Lemma gorillaEvent_echo g : closed g = false ->
  let '(r, g') := gorillaEvent g in closed g' = false /\
  match inbox g with
  | [] => r = HandlerErr /\ outbox g' = outbox g
  | x :: l => r = HandlerOk /\ inbox g' = l /\ outbox g' = outbox g ++ [x]
  end.
Proof.
  intros Hc. unfold gorillaEvent. pose proof (ReadMessage_law g) as Hr. destruct (ReadMessage g) as [m g1].
  destruct Hr as (Ho & Hc1 & Hm). destruct (inbox g) as [|[t msg] l]; destruct Hm as [Hi Hm].
  - destruct Hm as [e ->]. by rewrite Hc1, Ho.
  - subst m. pose proof (WriteMessage_law t msg g1) as Hw. destruct (WriteMessage t msg g1) as [f g2].
    destruct Hw as (-> & Hi2 & Ho2 & Hc2); [congruence|]. split_and!; congruence.
Qed.

(** The goroutine is the event handler, again and again until it fails. *)
Lemma gorillaStd_step fuel g :
  gorillaStd (S fuel) g =
  match gorillaEvent g with (HandlerOk, g') => gorillaStd fuel g' | (_, g') => Ok (CloseConn g') end.
Proof.
  cbn [gorillaStd]. unfold gorillaEvent. destruct (ReadMessage g) as [[[t msg]|e] g1]; [|done].
  by destruct (WriteMessage t msg g1) as [[] g2].
Qed.

(** The goroutine ends: it sends back every message, in order, and closes the
    connection. *)
Theorem gorillaStd_echoes g : closed g = false ->
  exists g', gorillaStd (S (length (inbox g))) g = Ok g' /\ outbox g' = outbox g ++ inbox g /\ closed g' = true.
Proof.
  remember (inbox g) as l eqn:El. revert g El. induction l as [|x l IH]; intros g El Hc; cbn [length]; rewrite gorillaStd_step.
  all: pose proof (gorillaEvent_echo g Hc) as He; rewrite <- El in He; destruct (gorillaEvent g) as [r g1]; destruct He as [Hc1 He].
  - destruct He as [-> Ho]. exists (CloseConn g1). destruct (CloseConn_law g1) as [H1 H2]. by rewrite H2, Ho, app_nil_r.
  - destruct He as (-> & Hi & Ho). destruct (IH g1 (eq_sym Hi) Hc1) as (g' & -> & Ho' & Hcl). exists g'.
    by rewrite Ho', Ho, <- app_assoc.
Qed.
End GorillaEcho.

(** A connection of that kind. *)
Record mailbox : Type := mkMailbox { mb_in : list (Z * bytes); mb_out : list (Z * bytes); mb_closed : bool }.

#[global] Instance mailbox_gorilla : Gorilla mailbox := {|
  ReadMessage g :=
    match mb_in g with
    | [] => (inr IOEOF, g)
    | x :: l => (inl x, mkMailbox l (mb_out g) (mb_closed g))
    end;
  WriteMessage t msg g := if mb_closed g then (true, g) else (false, mkMailbox (mb_in g) (mb_out g ++ [(t, msg)]) (mb_closed g));
  CloseConn g := mkMailbox (mb_in g) (mb_out g) true |}.

#[global] Instance mailbox_laws : GorillaLaws mailbox.
Proof.
  refine {| inbox := mb_in; outbox := mb_out; closed := mb_closed |}.
  - intros [[|x l] o c]; cbn; split_and!; try done. by exists IOEOF.
  - intros t msg [i o c]. cbn. by intros ->.
  - done.
Defined.

Lemma gorillaStd_echoes_witness :
  exists g', gorillaStd 3 (mkMailbox [(1, bs "a"); (2, bs "b")] [] false) = Ok g' /\ mb_out g' = [(1, bs "a"); (2, bs "b")].
Proof.
  destruct (gorillaStd_echoes (mkMailbox [(1, bs "a"); (2, bs "b")] [] false)) as (g' & E & Ho & _); [reflexivity|].
  exists g'. split; [exact E | exact Ho].
Defined.
