(* ===== verification/AppContext.v ===== *)
(** * The request context (appcontext/appcontext.go)

    A pooled record that carries the connection, the parent context, the reader,
    the writer and the callback for read handlers to the adaptor; all but the
    address are known by their identity here. *)

From S2P Require Import Prelude.

Record RequestContext : Type := mkContext {
  x_conn : option nat; x_req : option nat; x_reader : option nat; x_writer : option nat;
  x_remoteAddr : bytes; x_onSetReadHandler : option nat }.

(** [new(RequestContext)]. *)
Definition zeroContext : RequestContext := mkContext None None None None [] None.

Definition NewRequestContext (pooled : RequestContext) (conn parent reader writer : option nat)
    : RequestContext :=
  mkContext conn parent reader writer (x_remoteAddr pooled) (x_onSetReadHandler pooled).

(** [SetReadHandler]: the callback to call with the handler, if one is set. *)
Definition SetReadHandler (c : RequestContext) (h : nat) : option (nat * nat) :=
  match x_onSetReadHandler c with Some cb => Some (cb, h) | None => None end.

Definition SetOnSetReadHandler (cb : option nat) (c : RequestContext) : RequestContext :=
  mkContext (x_conn c) (x_req c) (x_reader c) (x_writer c) (x_remoteAddr c) cb.

Definition SetRemoteAddrString (addr : bytes) (c : RequestContext) : RequestContext :=
  mkContext (x_conn c) (x_req c) (x_reader c) (x_writer c) addr (x_onSetReadHandler c).

Definition reset (c : RequestContext) : RequestContext := mkContext None None None None [] None.

(** What the adaptor asks a context for. *)
Definition Conn (c : RequestContext) : option nat := x_conn c.
Definition Req (c : RequestContext) : option nat := x_req c.
Definition GetReader (c : RequestContext) : option nat := x_reader c.
Definition GetWriter (c : RequestContext) : option nat := x_writer c.
Definition RemoteAddrString (c : RequestContext) : bytes := x_remoteAddr c.

(** A released context is as a new one: in particular the address and the callback
    of an earlier connection, which [NewRequestContext] does not assign, are gone. *)
Lemma released_context_fresh c conn parent reader writer :
  NewRequestContext (reset c) conn parent reader writer = NewRequestContext zeroContext conn parent reader writer.
Proof. done. Qed.
