(* ===== verification/AdaptorConn.v ===== *)
(** * The response writer and the request context (adaptor/adaptor.go)

    The operations of the adaptor that go through the request context: reading the
    request and giving it an address and a context, setting a read handler, the
    deadlines, and [CloseNotify], which leaves a goroutine behind.  The writer and
    the contexts are shared memory: the engine clears both when the handler has
    returned, and takes them from their pools for later requests. *)

From S2P Require Import Prelude Scan Strconv Method StartLine Framing Request Engine AppContext.

(** ** The request *)

(** A request as the handler gets it. *)
Record handlerRequest : Type := mkHandlerRequest {
  q_request : Request; q_RemoteAddr : bytes; q_ctx : option nat }.

Section GetRequest.
Context (ParseRequestURI : bytes -> url_URL + perror) (spare : nat -> nat).
(** [conn.RemoteAddr()], and which context is [context.Background()]. *)
Context (connAddr : option bytes) (background : nat).

(** [setRequestContext] stores the context in the request. *)
Definition setRequestContext (q : handlerRequest) (ctx : nat) : handlerRequest :=
  mkHandlerRequest (q_request q) (q_RemoteAddr q) (Some ctx).

Definition GetRequest `{LineReader R} (ctx : RequestContext) : RM R handlerRequest :=
  req ← ReadRequest ParseRequestURI spare;
  let addr := if bool_decide (RemoteAddrString ctx = []) then default [] connAddr else RemoteAddrString ctx in
  let q := mkHandlerRequest req addr None in
  mret (match Req ctx with
        | Some parent => if (parent =? background)%nat then q else setRequestContext q parent
        | None => q
        end).
End GetRequest.

(** ** Shared memory *)

(** The context of the writer, the contexts, and the done channels that are closed;
    a parent context is known by its done channel. *)
Record mem : Type := mkMem {
  m_wctx : option nat; m_contexts : list RequestContext; m_closed : nat -> bool }.

(** What the writer's context is; [Crash] for a nil one. *)
Definition wctx (m : mem) : res RequestContext :=
  match m_wctx m with
  | None => Crash NilDeref
  | Some p => match m_contexts m !! p with Some c => Ok c | None => Crash NilDeref end
  end.

(** [w.SetReadHandler]: the callback that is called, if any. *)
Definition writer_SetReadHandler (m : mem) (h : nat) : option (nat * nat) :=
  match wctx m with Ok c => SetReadHandler c h | Crash _ => None end.

(** [w.SetReadDeadline] and [w.SetWriteDeadline]: the connection that is asked, or
    an error. *)
Definition deadline_conn (m : mem) : option nat :=
  match wctx m with Ok c => Conn c | Crash _ => None end.

(** The engine, before a request: [NewRequestContext] and the setters of [serveHTTP]
    on the context [p], and the writer for it. *)
Definition begin_request (p conn parent reader writer cb : nat) (addr : bytes) (m : mem) : mem :=
  let pooled := default zeroContext (m_contexts m !! p) in
  let c := NewRequestContext pooled (Some conn) (Some parent) (Some reader) (Some writer) in
  let c := SetOnSetReadHandler (Some cb) (SetRemoteAddrString addr c) in
  mkMem (Some p) (<[p := c]> (m_contexts m)) (m_closed m).

(** After it: the writer is released, then the context. *)
Definition end_request (p : nat) (m : mem) : mem :=
  mkMem None (alter reset p (m_contexts m)) (m_closed m).

(** ** CloseNotify *)

(** The goroutine of [CloseNotify]: not started, waiting for a done channel, and
    what it has come to. *)
Inductive notifier : Type := Starting | Waiting (ch : nat) | Notified | Panicked.

(** [CloseNotify]: the channel holds a value at once when there is no context. *)
Definition CloseNotify (m : mem) : notifier :=
  match m_wctx m with None => Notified | Some _ => Starting end.

(** A step of the goroutine: [w.ctx.Req().Done()] is evaluated when it starts. *)
Definition notifier_step (m : mem) (g : notifier) : option notifier :=
  match g with
  | Starting =>
      Some match wctx m with
           | Ok c => match Req c with Some ch => Waiting ch | None => Panicked end
           | Crash _ => Panicked
           end
  | Waiting ch => if m_closed m ch then Some Notified else None
  | Notified | Panicked => None
  end.

(** What else happens: the request ends, another one begins on the writer, a
    connection is closed, the goroutine runs. *)
Inductive notify_event : Type :=
| EndRequest (p : nat)
| BeginRequest (p conn parent : nat)
| CloseChannel (ch : nat)
| RunNotifier.

Definition notify_step (e : notify_event) (s : mem * notifier) : option (mem * notifier) :=
  let '(m, g) := s in
  match e with
  | EndRequest p => Some (end_request p m, g)
  | BeginRequest p conn parent => Some (begin_request p conn parent 0 0 0 [] m, g)
  | CloseChannel ch => Some (mkMem (m_wctx m) (m_contexts m) (fun x => (x =? ch)%nat || m_closed m x), g)
  | RunNotifier => match notifier_step m g with Some g' => Some (m, g') | None => None end
  end.

Fixpoint notify_run (es : list notify_event) (s : mem * notifier) : option (mem * notifier) :=
  match es with
  | [] => Some s
  | e :: es' => match notify_step e s with Some s' => notify_run es' s' | None => None end
  end.

(** ** The environment of a handler *)

(** The environment of a handler, from a context of the pool, new or released:
    the request carries the parent context and the address of the connection, a read
    handler goes to the connection's callback and the deadlines to its connection;
    when the request has ended they go nowhere. *)
Lemma begin_request_environment p conn parent reader writer cb addr m :
  (p < length (m_contexts m))%nat -> m_contexts m !! p = Some zeroContext ->
  let m1 := begin_request p conn parent reader writer cb addr m in
  let m2 := end_request p m1 in
  wctx m1 = Ok (mkContext (Some conn) (Some parent) (Some reader) (Some writer) addr (Some cb)) /\
  (forall h, writer_SetReadHandler m1 h = Some (cb, h)) /\ deadline_conn m1 = Some conn /\
  (forall h, writer_SetReadHandler m2 h = None) /\ deadline_conn m2 = None /\
  m_contexts m2 !! p = Some zeroContext.
Proof.
  intros Hp Hz m1 m2.
  assert (wctx m1 = Ok (mkContext (Some conn) (Some parent) (Some reader) (Some writer) addr (Some cb))) as E1.
  { unfold m1, begin_request, wctx. cbn [m_wctx m_contexts]. rewrite Hz, list_lookup_insert_eq by done. done. }
  unfold writer_SetReadHandler, deadline_conn. rewrite E1. split_and!; try done.
  unfold m2, m1, end_request, begin_request. cbn [m_contexts]. rewrite list_lookup_alter_eq, list_lookup_insert_eq by done. done.
Qed.

(** The request a handler gets is the one that was read, with the address the engine
    keeps for the connection, or the connection's own, and the engine's context. *)
Lemma GetRequest_fields P spare connAddr background `{LineReader R} ctx (r : R) req r' parent :
  ReadRequest P spare r = Ok (inl req, r') -> x_req ctx = Some parent -> parent <> background ->
  GetRequest P spare connAddr background ctx r =
    Ok (inl (mkHandlerRequest req (if bool_decide (x_remoteAddr ctx = []) then default [] connAddr else x_remoteAddr ctx)
               (Some parent)), r').
Proof.
  intros E Hc Hb. unfold GetRequest, mbind, RM_bind, Req. rewrite E, Hc.
  destruct (Nat.eqb_spec parent background); [done|]. done.
Qed.

(** A read handler set by the handler is the one that the engine calls next. *)
Lemma read_handler_reaches_engine max addr m h r w l m' :
  s_Reader (sh_state m) = Some r -> s_Writer (sh_state m) = Some w ->
  thread_step max addr (Handled (Some h) Hijacked) m Handling = Some (m', l) ->
  s_ReadHandler (sh_state m') = Some h /\ l = Leaving /\ s_Reader (sh_state m') = Some r /\ s_Writer (sh_state m') = Some w.
Proof. intros Hr Hw. cbn. rewrite Hr, Hw. cbn. by intros [= <- <-]. Qed.

(** ** What CloseNotify does *)

Lemma notify_waiting es m ch m' g :
  notify_run es (m, Waiting ch) = Some (m', g) ->
  (g = Waiting ch \/ g = Notified) /\
  (g = Notified -> m_closed m ch = true \/ CloseChannel ch ∈ es).
Proof.
  revert m. induction es as [|e es IH]; intros m; cbn [notify_run]; [intros [= <- <-]; split; [by left | done]|].
  destruct e as [p|p c q|k|]; cbn [notify_step].
  - intros [H1 H2]%IH. split; [done|]. intros G. destruct (H2 G) as [?|?]; [by left | right; by apply elem_of_cons; right].
  - intros [H1 H2]%IH. split; [done|]. intros G. destruct (H2 G) as [?|?]; [by left | right; by apply elem_of_cons; right].
  - intros [H1 H2]%IH. split; [done|]. intros G. destruct (H2 G) as [Hc|?]; [|right; by apply elem_of_cons; right].
    cbn in Hc. apply orb_true_iff in Hc as [->%Nat.eqb_eq|?]; [right; apply elem_of_cons; by left | by left].
  - cbn [notifier_step]. destruct (m_closed m ch) eqn:Ec; [|done]. intros Hr.
    assert (g = Notified) as ->; [|split; [by right | by left]].
    clear -Hr. revert m Hr. induction es as [|e es IH]; intros m; cbn [notify_run]; [by intros [= _ <-]|].
    destruct e; cbn [notify_step notifier_step]; try done; apply IH.
Qed.

(** C33. [CloseNotify] works only when its goroutine starts in time.  Started while
    the handler runs, it waits for the context of the handler's own connection and
    the channel receives its value only after that is cancelled.  Started after the
    handler has returned, it evaluates the context of a writer that has been
    released: with no later request it dereferences nil and panics, outside any
    recovery; with a later request on the same writer it waits for the connection of
    that one. *)
Theorem CloseNotify_race p conn parent m :
  m_contexts m !! p = Some zeroContext ->
  let m1 := begin_request p conn parent 0 0 0 [] m in
  (forall es m' g, notify_run (RunNotifier :: es) (m1, CloseNotify m1) = Some (m', g) ->
     (g = Waiting parent \/ g = Notified) /\ (g = Notified -> m_closed m parent = true \/ CloseChannel parent ∈ es)) /\
  (exists m', notify_run [EndRequest p; RunNotifier] (m1, CloseNotify m1) = Some (m', Panicked)) /\
  (forall conn' parent', exists m', notify_run [EndRequest p; BeginRequest p conn' parent'; RunNotifier] (m1, CloseNotify m1)
     = Some (m', Waiting parent')).
Proof.
  intros Hz m1. assert (p < length (m_contexts m))%nat as Hp by (by eapply lookup_lt_Some).
  pose proof (begin_request_environment p conn parent 0 0 0 [] m Hp Hz) as (E1 & _ & _ & _ & _ & E2). fold m1 in E1, E2.
  assert (CloseNotify m1 = Starting) as -> by done. split_and!.
  - intros es m' g. cbn [notify_run notify_step notifier_step]. rewrite E1. cbn [x_req]. intros Hr.
    exact (notify_waiting es m1 parent m' g Hr).
  - by eexists.
  - intros conn' parent'. set (m2 := end_request p m1) in *.
    assert (p < length (m_contexts m2))%nat as Hp2 by (by eapply lookup_lt_Some).
    pose proof (begin_request_environment p conn' parent' 0 0 0 [] m2 Hp2 E2) as (E3 & _).
    eexists. cbn [notify_run notify_step notifier_step]. fold m2. rewrite E3. done.
Qed.

Lemma CloseNotify_race_witness :
  let m1 := begin_request 0 1 7 0 0 0 [] (mkMem None [zeroContext] (fun _ => false)) in
  exists m', notify_run [EndRequest 0; RunNotifier] (m1, CloseNotify m1) = Some (m', Panicked).
Proof. intros m1. apply (CloseNotify_race 0 1 7 (mkMem None [zeroContext] (fun _ => false))). reflexivity. Defined.
