(* ===== verification/Serve.v ===== *)
(** * Serving requests (engine/engine.go: handleRequest and the request loop)

    One goroutine serves a connection: it reads a request, runs the handler on a
    response writer, ends the response, drains what the handler left of the body,
    and goes on with the next request if there is one.  A handler is what it does,
    given the request and its body: the headers it sets, how much of the body it
    reads, its calls on the response writer, and whether it panics after them.
    These are the handlers that do not take over the connection, set no trailers and
    set their headers first: [handleRequest] and [serve_loop] are the engine's
    functions for them, and file ServeHijack has the functions for every handler,
    with the result [hijacked] and the branch of the loop for it, and the proof that
    they agree.  The end of the connection at any point is in [Engine].  What
    [httputil]'s chunked reader gives and takes from a stream is an argument. *)

From S2P Require Import Prelude Scan Strconv Method StartLine Framing Message MessageRoundtrip.
From S2P Require Import Request RequestSpec Bufio Adaptor AdaptorFaults AdaptorSpec AdaptorRoundtrip.

Record handling : Type := mkHandling {
  hd_header : Header; hd_read : nat; hd_calls : list op; hd_panics : bool }.

(** What [handleRequest] returns: an error, [io.EOF] or another one, or the request
    with how much the handler tried to read of its body. *)
Inductive handled : Type := HandleError (eof : bool) | HandleDone (req : Request) (bodyRead : nat).

#[global] Instance perror_eq_dec : EqDecision perror.
Proof. solve_decision. Defined.

Definition headerEndMarker : bytes := CRLF ++ CRLF.

(** [bytes.Contains]. *)
Fixpoint contains (data pat : bytes) : bool :=
  bool_decide (take (length pat) data = pat) || match data with [] => false | _ :: d => contains d pat end.

Section Serve.
Context (ParseRequestURI : bytes -> url_URL + perror) (spare : nat -> nat)
  (currentDate : bytes) (DetectContentType : bytes -> bytes) (grow : nat -> nat)
  (readChunked : Z -> bytes -> bytes * bytes) (maxDrainSize : Z)
  (handler : Request -> bytes -> handling) (pooled : ResponseWriter).

(** The writer's buffer after a run; the engine owns it. *)
Definition buffer_of (w : ResponseWriter) (b : bufWriter) : bufWriter := default b (w_bufWriter w).

(** What reading [req.Body] to the end gives; [readChunked n data] is the first [n]
    bytes of a chunked body at the start of [data], and what is left of [data]. *)
Definition body_of (req : Request) (r : bufReader) : bytes :=
  match r_Body req with
  | NoBody => []
  | LimitReader n => take (Z.to_nat n) (rd_data r)
  | ChunkedReader => fst (readChunked (blen (rd_data r)) (rd_data r))
  end.

(** [handleRequest] for a handler that does not take over the connection: its result
    [hijacked] is false. *)
Definition handleRequest (r : bufReader) (b : bufWriter) : res (handled * bufReader * bufWriter) :=
  match ReadRequest ParseRequestURI spare r with
  | Crash f => Crash f
  | Ok (inr e, r') => Ok (HandleError (bool_decide (e = IOEOF)), r', b)
  | Ok (inl req, r') =>
      let h := handler req (body_of req r') in
      let w := set_header (hd_header h) (NewResponseWriter pooled b) in
      match run_ops currentDate DetectContentType grow (hd_calls h) w with
      | Crash f => Crash f
      | Ok (_, w) =>
          if hd_panics h then
            match (if w_headerSent w then mret tt
                   else _ ← WriteHeader 500; ignore (EndResponse currentDate)) w with
            | Crash f => Crash f
            | Ok (_, w) => Ok (HandleError false, r', buffer_of w b)
            end
          else
            match EndResponse currentDate w with
            | Crash f => Crash f
            | Ok (inr _, w) => Ok (HandleError false, r', buffer_of w b)
            | Ok (inl tt, w) => Ok (HandleDone req (hd_read h), r', buffer_of w b)
            end
      end
  end.

(** The [maxDrainSize+1] of the drain, an [int64], as the number of bytes that
    [io.LimitReader] lets through: none when it is not positive. *)
Definition drain_limit : Z := Z.max 0 (wrap64 (maxDrainSize + 1)).

(** [io.Copy(io.Discard, io.LimitReader(req.Body, maxDrainSize+1))], after the
    handler has read [k] bytes of the body, or all there are. *)
Definition drain (req : Request) (k : nat) (r : bufReader) : Z * bufReader :=
  match r_Body req with
  | NoBody => (0, r)
  | LimitReader n =>
      let read := Z.min (Z.min (Z.of_nat k) n) (blen (rd_data r)) in
      let n' := Z.min (Z.min (n - read) drain_limit) (blen (rd_data r) - read) in
      (n', mkReader (rd_size r) (drop (Z.to_nat (read + n')) (rd_data r)) (rd_err r))
  | ChunkedReader =>
      let '(p, rest) := readChunked (Z.of_nat k + drain_limit) (rd_data r) in
      (blen p - Z.min (Z.of_nat k) (blen p), mkReader (rd_size r) rest (rd_err r))
  end.

(** [req.Header.Get("Connection")]. *)
Definition connection_header (req : Request) : bytes :=
  match r_Header req !! bs "Connection" with
  | Some s => default [] (head (read (r_heap req) s))
  | None => []
  end.

(** What the loop does after a request: whether it closes the connection. *)
Definition after_request (req : Request) (k : nat) (r : bufReader) : bool * bufReader :=
  let needsBodyDrain := (0 <? r_ContentLength req) || (0 <? blen (r_TransferEncoding req)) in
  let '(n, r) := if needsBodyDrain then drain req k r else (0, r) in
  let close := if needsBodyDrain && (maxDrainSize <? n) then true else r_Close req in
  (close || bool_decide (connection_header req = bs "close"), r).

(** The loop on an active connection whose input has arrived, by the only call at
    work on it, with handlers that do not take over the connection (the branch for
    those that do is in [serveHTTP] of ServeHijack), until the connection is closed
    ([true]) or waits for input ([false]).  [buffered data] says whether, when [data] is still to be read, some
    of it is in the reader's buffer; if not, a request is read only when the input
    holds the end of a header block. *)
Fixpoint serve_loop (buffered : bytes -> bool) (fuel : nat) (r : bufReader) (b : bufWriter)
    : res (bool * bufReader * bufWriter) :=
  match fuel with
  | O => Crash OutOfFuel
  | S fuel' =>
      if negb (buffered (rd_data r)) && negb (contains (rd_data r) headerEndMarker) then Ok (false, r, b)
      else
        match handleRequest r b with
        | Crash f => Crash f
        | Ok (HandleError eof, r, b) => Ok (negb eof, r, b)
        | Ok (HandleDone req k, r, b) =>
            let '(close, r) := after_request req k r in
            if close then Ok (true, r, b)
            else match rd_data r with
                 | [] => Ok (false, r, b)
                 | _ => serve_loop buffered fuel' r b
                 end
        end
  end.

(** ** Requests and responses *)

(** A request as it is sent, with the fields it stands for. *)
Record sent_request : Type := mkSent {
  sr_line : bytes; sr_lines : list bytes; sr_body : bytes;
  sr_request : requestLine; sr_url : url_URL; sr_headers : list headerLine; sr_meta : messageMeta }.

Definition sr_text (q : sent_request) : bytes :=
  sr_line q ++ CRLF ++ header_block (sr_lines q) ++ CRLF ++ sr_body q.

(** A well-formed request head. *)
Record well_headed (q : sent_request) : Prop := {
  wh_line : readable (sr_line q);
  wh_lines : Forall (fun x => readable x /\ x <> []) (sr_lines q);
  wh_request : parseRequestLineBytes (sr_line q) = Ok (Some (sr_request q));
  wh_headers : Forall2 (fun x h => parseHeaderLineBytes x = Ok (Some h)) (sr_lines q) (sr_headers q);
  wh_url : parseRequestURL ParseRequestURI (rl_Method (sr_request q)) (rl_Target (sr_request q)) = Ok (inl (sr_url q));
  wh_meta : applyHeaders no_framing (sr_headers q) = Some (sr_meta q) }.

(** A well-formed request, its body sent with its length. *)
Record well_formed (q : sent_request) : Prop := {
  wf_line : readable (sr_line q);
  wf_lines : Forall (fun x => readable x /\ x <> []) (sr_lines q);
  wf_request : parseRequestLineBytes (sr_line q) = Ok (Some (sr_request q));
  wf_headers : Forall2 (fun x h => parseHeaderLineBytes x = Ok (Some h)) (sr_lines q) (sr_headers q);
  wf_url : parseRequestURL ParseRequestURI (rl_Method (sr_request q)) (rl_Target (sr_request q)) = Ok (inl (sr_url q));
  wf_meta : applyHeaders no_framing (sr_headers q) = Some (sr_meta q);
  wf_body : request_framing (sr_meta q) =
    if bool_decide (sr_body q = []) then (NoBody, 0, []) else (LimitReader (blen (sr_body q)), blen (sr_body q), []) }.

Lemma well_formed_headed q : well_formed q -> well_headed q.
Proof. by intros []; constructor. Qed.

(** Whether a request asks for the connection to be closed after it. *)
Definition asks_close (q : sent_request) : bool :=
  shouldCloseAfterReadConnection (rl_Major (sr_request q)) (rl_Minor (sr_request q))
    (existsb (conn_token (bs "close")) (sr_headers q)) (existsb (conn_token (bs "keep-alive")) (sr_headers q))
  || bool_decide (head (values (named_values (sr_headers q)) (bs "Connection")) = Some (bs "close")).

(** What is left of the body when the handler has read [k] bytes of it. *)
Definition unread (k : nat) (q : sent_request) : Z := blen (sr_body q) - Z.min (Z.of_nat k) (blen (sr_body q)).

(** A well-formed request that keeps the connection open and whose body can be drained. *)
Record keeps_open (q : sent_request) : Prop := {
  ko_sent : well_formed q;
  ko_drain : blen (sr_body q) <= maxDrainSize < 2 ^ 63 - 1;
  ko_close : asks_close q = false }.

(** [req] is the request [q] as the handler sees it. *)
Definition is_request (q : sent_request) (req : Request) : Prop :=
  exists h m, req = request_of (sr_request q) (sr_url q) (sr_headers q) (sr_meta q) h m /\
    forall k, option_map (read h) (m !! k) =
      match values (named_values (sr_headers q)) k with [] => None | vs => Some vs end.

(** A handler run that the response writer can deliver. *)
Definition deliverable (h : handling) : Prop :=
  hd_panics h = false /\ headers_ok (hd_header h) /\ blen (written (hd_calls h)) < 2 ^ 31 /\
  exists ph code, phases (Fresh, StatusOK) (hd_calls h) = Some (ph, code) /\ 100 <= code < 1000.

(** [text] is, to the parser, the response of the handler run [h]. *)
Definition is_response (h : handling) (text : bytes) : Prop :=
  exists ph code hs mode meta,
    phases (Fresh, StatusOK) (hd_calls h) = Some (ph, code) /\
    parseMessageDetailed text RESPONSE =
      Ok (ParseOk (mkMessage RESPONSE zero_requestLine (status_line_of code) hs (written (hd_calls h)) mode meta)).

Hypothesis clean_date : clean currentDate.
Hypothesis clean_sniffed : forall p, clean (DetectContentType p).
Hypothesis pooled_fresh : w_trailer pooled = ∅.

(** A response, whatever is already in the buffer. *)
Lemma handler_response h b :
  deliverable h -> sound b ->
  exists w' b' text,
    respond currentDate DetectContentType grow (hd_calls h)
      (set_header (hd_header h) (NewResponseWriter pooled b)) = Ok (inl tt, w') /\
    w_bufWriter w' = Some b' /\ sound b' /\ bw_buf b' = [] /\ total b' = total b ++ text /\ is_response h text.
Proof.
  intros (_ & Hh & Hlt & ph & code & Hp & Hc) Hb. set (w := set_header _ _).
  destruct (respond_talks currentDate DetectContentType grow clean_sniffed (hd_header h) (hd_calls h) StatusOK code ph w)
    as (w1 & h1 & enc & Ht & [Ho _] & Hsent); [done | done | by split; [|left] | done.. |].
  destruct (Ht b Hb) as (b' & E & Hb' & Htot). change (set_bufWriter (Some b) w) with w in E.
  destruct (respond_flushed currentDate DetectContentType grow (hd_calls h) w _ b' eq_refl E eq_refl) as [Hbuf _].
  eexists _, b', _. split_and!; [exact E | done | done | done | exact Htot |].
  destruct (head_lines_perm currentDate h1 (w_header w1) (written (hd_calls h)) enc code Ho Hsent) as (ch & Hperm & Hform).
  exists ph, code. eexists _, _, _. split; [done|]. apply parse_complete.
  apply (response_text code _ (framing_meta code ch (blen (written (hd_calls h))))); [done | | | by apply sent_body].
  - by eapply head_lines_sendable.
  - by eapply head_lines_meta.
Qed.

(** The handler is given the body that was sent. *)
Lemma body_of_sent q req rest n err :
  well_formed q -> is_request q req -> body_of req (mkReader n (sr_body q ++ rest) err) = sr_body q.
Proof.
  intros Hq (h & m & -> & _). unfold body_of, request_of. cbn [r_Body rd_data]. rewrite (wf_body _ Hq).
  destruct (bool_decide_reflect (sr_body q = [])) as [->|_]; cbn [fst]; [done|].
  by rewrite to_nat_blen, take_app_length.
Qed.

(** The text of a request up to its body. *)
Definition sr_head (q : sent_request) : bytes := sr_line q ++ CRLF ++ header_block (sr_lines q) ++ CRLF.

Lemma sr_text_head q rest : sr_text q ++ rest = sr_head q ++ sr_body q ++ rest.
Proof. unfold sr_text, sr_head. by rewrite <- !app_assoc. Qed.

(** A request head is handled, whatever has arrived after it. *)
Lemma handle_head q data n err b :
  let given req := body_of req (mkReader n data err) in
  (0 < n)%nat -> well_headed q -> (forall req, is_request q req -> deliverable (handler req (given req))) -> sound b ->
  exists req b' text,
    handleRequest (mkReader n (sr_head q ++ data) err) b =
      Ok (HandleDone req (hd_read (handler req (given req))), mkReader n data err, b') /\
    is_request q req /\ sound b' /\ bw_buf b' = [] /\ total b' = total b ++ text /\
    is_response (handler req (given req)) text.
Proof.
  intros given Hn Hq Hd Hb.
  destruct (ReadRequest_run ParseRequestURI spare n (sr_line q) (sr_lines q) (sr_request q) (sr_url q) (sr_headers q)
    (sr_meta q) data err Hn (wh_line _ Hq) (wh_lines _ Hq) (wh_request _ Hq) (wh_headers _ Hq)
    (wh_url _ Hq) (wh_meta _ Hq)) as (h & m & Er & Hv).
  set (req := request_of _ _ _ _ h m) in Er. assert (is_request q req) as Hreq by (by exists h, m). specialize (Hd req Hreq).
  destruct (handler_response (handler req (given req)) b Hd Hb) as (w' & b' & text & Eh & Ew & Hs & Hbuf & Ht & Hresp).
  exists req, b', text. split; [|by split_and!].
  unfold handleRequest, sr_head. rewrite <- !app_assoc. rewrite Er. cbv zeta. fold (given req).
  unfold respond, mbind, W_bind in Eh. destruct (run_ops _ _ _ _ _) as [[[[]|e] w]|]; [|done | done].
  rewrite (proj1 Hd), Eh. unfold buffer_of. by rewrite Ew.
Qed.

Lemma handle_one q rest n err b :
  (0 < n)%nat -> well_formed q -> (forall req, is_request q req -> deliverable (handler req (sr_body q))) -> sound b ->
  exists req b' text,
    handleRequest (mkReader n (sr_text q ++ rest) err) b =
      Ok (HandleDone req (hd_read (handler req (sr_body q))), mkReader n (sr_body q ++ rest) err, b') /\
    is_request q req /\ sound b' /\ bw_buf b' = [] /\ total b' = total b ++ text /\
    is_response (handler req (sr_body q)) text.
Proof.
  intros Hn Hq Hd Hb. rewrite sr_text_head.
  destruct (handle_head q (sr_body q ++ rest) n err b Hn (well_formed_headed q Hq)) as (req & b' & text & E & Hreq & H); [|done|].
  - intros req Hreq. rewrite body_of_sent by done. by apply Hd.
  - exists req, b', text. rewrite body_of_sent in E, H by done. done.
Qed.

(** What the loop does after a well-formed request. *)
Lemma asks_close_sound q req :
  is_request q req -> r_Close req || bool_decide (connection_header req = bs "close") = asks_close q.
Proof.
  intros (h & m & -> & Hv). unfold asks_close, connection_header, request_of. cbn [r_Close r_Header r_heap]. f_equal.
  specialize (Hv (bs "Connection")). apply bool_decide_ext. destruct (m !! bs "Connection") as [s|]; cbn [option_map] in Hv.
  - destruct (values _ _) as [|v vs]; [done|]. injection Hv as ->. cbn. split; [by intros -> | by intros [= ->]].
  - destruct (values _ _) as [|v vs]; [|done]. cbn. split; intros [=].
Qed.

Lemma after_one q req k rest n err :
  well_formed q -> is_request q req ->
  after_request req k (mkReader n (sr_body q ++ rest) err) =
    (asks_close q || bool_decide (sr_body q <> []) && (maxDrainSize <? Z.min (unread k q) drain_limit),
     mkReader n (drop (Z.to_nat (blen (sr_body q) - unread k q + Z.min (unread k q) drain_limit)) (sr_body q) ++ rest) err).
Proof.
  intros Hq Hreq. rewrite <- (asks_close_sound q req Hreq). destruct Hreq as (h & m & -> & _).
  unfold after_request, drain, request_of. cbn [r_ContentLength r_TransferEncoding r_Close r_Body]. rewrite (wf_body _ Hq).
  set (conn := bool_decide (connection_header _ = _)). unfold unread.
  destruct (bool_decide_reflect (sr_body q = [])) as [E|E]; cbn [fst snd].
  - cbn. rewrite E, drop_nil. cbn. by rewrite orb_false_r.
  - pose proof (blen_nonneg (sr_body q)). assert (blen (sr_body q) <> 0) by (by rewrite blen_zero).
    destruct (Z.ltb_spec 0 (blen (sr_body q))); [|lia]. cbn [orb andb rd_data rd_size rd_err].
    rewrite (bool_decide_true (_ <> [])), blen_app by done. pose proof (blen_nonneg rest). cbv zeta.
    assert (0 <= drain_limit) by (unfold drain_limit; lia).
    rewrite (Z.min_l (Z.min (Z.of_nat k) _)) by lia. set (rd := Z.min (Z.of_nat k) _).
    rewrite (Z.min_l (Z.min (_ - rd) _)) by lia. rewrite drop_app_le by (unfold blen in *; lia).
    f_equal; [destruct (_ <? _), (shouldCloseAfterReadConnection _ _ _ _), conn; done|].
    do 3 f_equal. lia.
Qed.

(** A request that keeps the connection open is skipped to its end. *)
Lemma after_open q req k rest n err :
  keeps_open q -> is_request q req ->
  after_request req k (mkReader n (sr_body q ++ rest) err) = (false, mkReader n rest err).
Proof.
  intros [Hq Hd Hc] Hreq. rewrite (after_one q req k rest n err Hq Hreq), Hc. cbn [orb].
  assert (drain_limit = maxDrainSize + 1) as -> by (pose proof (blen_nonneg (sr_body q)); unfold drain_limit; rewrite wrap64_small; lia).
  unfold unread. pose proof (blen_nonneg (sr_body q)). rewrite (Z.min_l (_ - _)) by lia.
  destruct (Z.ltb_spec maxDrainSize (blen (sr_body q) - Z.min (Z.of_nat k) (blen (sr_body q)))); [lia|].
  by rewrite andb_false_r, Z.sub_add, to_nat_blen, drop_all.
Qed.

(** A request that can be served. *)
Definition servable (q : sent_request) : Prop :=
  keeps_open q /\ forall req, is_request q req -> deliverable (handler req (sr_body q)).

(** A request holds the end of its header block. *)
Lemma contains_app a pat b : contains (a ++ pat ++ b) pat = true.
Proof.
  induction a as [|x a IH]; cbn [app].
  - assert (take (length pat) (pat ++ b) = pat) as E by apply take_app_length.
    destruct (pat ++ b); cbn [contains]; by rewrite bool_decide_true.
  - cbn [contains]. by rewrite IH, orb_true_r.
Qed.

Lemma header_block_end lines : exists a, CRLF ++ header_block lines ++ CRLF = a ++ headerEndMarker.
Proof.
  induction lines as [|l ls [a IH]]; [by exists []|].
  exists (CRLF ++ l ++ a). rewrite <- !app_assoc, <- IH. unfold header_block. cbn. by rewrite <- !app_assoc.
Qed.

Lemma sr_head_marker q rest : contains (sr_head q ++ rest) headerEndMarker = true.
Proof.
  destruct (header_block_end (sr_lines q)) as [a E].
  assert (sr_head q ++ rest = (sr_line q ++ a) ++ headerEndMarker ++ rest) as ->; [|apply contains_app].
  unfold sr_head. rewrite <- !app_assoc. f_equal. rewrite !app_assoc, <- E. by rewrite <- !app_assoc.
Qed.

Lemma sr_text_marker q rest : contains (sr_text q ++ rest) headerEndMarker = true.
Proof. rewrite sr_text_head. apply sr_head_marker. Qed.

Lemma serve_loop_run buffered qs n err b fuel :
  (0 < n)%nat -> qs <> [] -> Forall servable qs -> sound b ->
  (length qs <= fuel)%nat ->
  exists b' reqs texts,
    serve_loop buffered fuel (mkReader n (concat (map sr_text qs)) err) b = Ok (false, mkReader n [] err, b') /\
    Forall2 is_request qs reqs /\ Forall2 is_response (zip_with handler reqs (map sr_body qs)) texts /\
    bw_out b' = total b ++ concat texts.
Proof.
  intros Hn Hne Hqs. revert b fuel. induction Hqs as [|q qs [Hq Hd] Hqs IH]; intros b fuel Hb Hf; [done|].
  destruct fuel as [|fuel]; [cbn in Hf; lia|]. cbn [serve_loop map concat rd_data]. rewrite sr_text_marker, andb_false_r.
  destruct (handle_one q (concat (map sr_text qs)) n err b Hn (ko_sent _ Hq) Hd Hb) as (req & b1 & text & -> & Hreq & Hb1 & Hbuf & Ht & Hresp).
  rewrite (after_open q req _ _ n err Hq Hreq). cbn [rd_data].
  destruct qs as [|q2 qs].
  - exists b1, [req], [text]. split_and!; [done | by repeat constructor | by repeat constructor |].
    unfold total in Ht at 1. rewrite Hbuf in Ht. cbn. by rewrite app_nil_r in *.
  - destruct (IH ltac:(done) b1 fuel Hb1) as (b' & reqs & texts & E & H1 & H2 & H3); [cbn in *; lia|].
    exists b', (req :: reqs), (text :: texts). split_and!; [| by constructor | by constructor |].
    + rewrite E. assert (concat (map sr_text (q2 :: qs)) <> []) as Hcat.
      { cbn [map concat]. unfold sr_text at 1. rewrite <- !app_assoc. by destruct (sr_line q2). }
      by destruct (concat (map sr_text (q2 :: qs))).
    + rewrite H3, Ht. cbn. by rewrite app_assoc.
Qed.
End Serve.

(** C5. Pipelined requests are served one by one, on a connection that does not
    fail. The requests are well formed, have no body or one sent with its length
    and not longer than the drain limit, and do not ask for the connection to be
    closed ([keeps_open]; chunked bodies are excluded); the handler does not
    panic or take over the connection, and its calls satisfy the conditions under
    which the response writer delivers ([deliverable]: [headers_ok], [phases], a
    status between 100 and 999, fewer than 2^31 bytes). Then each request reaches
    the handler exactly once and in order, with the method, target, headers and
    body it was sent with; however much the handler reads of the body, the rest
    of it is skipped; and what is sent back, for any buffer sizes, is exactly the
    responses in that order, each of which the parser reads with the handler's
    status and body. *)
Theorem serve_pipelined ParseRequestURI spare currentDate DetectContentType grow readChunked maxDrainSize handler
    buffered qs n k err :
  clean currentDate -> (forall p, clean (DetectContentType p)) -> (0 < n)%nat -> (0 < k)%nat -> qs <> [] ->
  Forall (servable ParseRequestURI maxDrainSize handler) qs ->
  exists b reqs texts,
    serve_loop ParseRequestURI spare currentDate DetectContentType grow readChunked maxDrainSize handler pool_New
      buffered (length qs) (mkReader n (concat (map sr_text qs)) err) (mkWriter k healthy [] false []) =
      Ok (false, mkReader n [] err, b) /\
    Forall2 is_request qs reqs /\ Forall2 is_response (zip_with handler reqs (map sr_body qs)) texts /\
    bw_out b = concat texts.
Proof.
  intros Hd Hs Hn Hk Hne Hqs.
  apply (serve_loop_run ParseRequestURI spare currentDate DetectContentType grow readChunked maxDrainSize handler
    pool_New Hd Hs eq_refl buffered qs n err (mkWriter k healthy [] false []) (length qs)); try done.
  split_and!; [constructor; cbn; lia | done | done].
Qed.

Lemma serve_pipelined_witness :
  let echo req body := mkHandling ∅ 2 [OWriteHeader 201; OWrite (r_RequestURI req); OWrite body] false in
  let q1 := mkSent (bs "GET /a HTTP/1.1") [bs "Host: h"] [] (mkRequestLine GET (bs "/a") 1 1)
    (plainURL [] (bs "/a") []) [mkHeaderLine (bs "Host") (bs "h")] no_framing in
  let q2 := mkSent (bs "POST /b HTTP/1.1") [bs "Content-Length: 3"] (bs "abc") (mkRequestLine POST (bs "/b") 1 1)
    (plainURL [] (bs "/b") []) [mkHeaderLine (bs "Content-Length") (bs "3")] (mkMeta REQUEST 0 true 3 false) in
  exists b reqs texts,
    serve_loop (fun _ => inr ErrReqMethod) (fun n => n) (bs "now") (fun _ => bs "text/plain") (fun n => n)
      (fun _ rest => ([], rest)) 65536 echo pool_New (fun _ => false) 2
      (mkReader 16 (concat (map sr_text [q1; q2])) IOEOF) (mkWriter 16 healthy [] false []) =
      Ok (false, mkReader 16 [] IOEOF, b) /\
    Forall2 is_request [q1; q2] reqs /\ Forall2 is_response (zip_with echo reqs (map sr_body [q1; q2])) texts /\
    bw_out b = concat texts.
Proof.
  cbv zeta. apply (serve_pipelined (fun _ => inr ErrReqMethod) (fun n => n) (bs "now") (fun _ => bs "text/plain")
    (fun n => n) (fun _ rest => ([], rest)) 65536
    (fun req body => mkHandling ∅ 2 [OWriteHeader 201; OWrite (r_RequestURI req); OWrite body] false)
    (fun _ => false) [_; _] 16 16 IOEOF); [by vm_compute | intros _; by vm_compute | lia | lia | done |].
  assert (forall l : bytes, (LF ∉ l <-> bool_decide (LF ∉ l) = true)) as Hdec by (intros; by rewrite bool_decide_eq_true).
  repeat (constructor; [split; [|intros req (h & m & -> & _); split_and!; [done | by constructor | by vm_compute |
    by eexists _, 201]]|]); [..|constructor].
  all: constructor; [constructor | by vm_compute..]; try (by vm_compute); try (intros [=]); repeat constructor; try done; try (by apply Hdec; vm_compute).
Defined.
