(* ===== verification/ServeEnds.v ===== *)
(** * How the request loop ends

    The loop returns on every input and on every connection, whatever calls the
    handlers make and whether they panic (handlers that take over the connection are
    in ServeHijack); requests that come before incomplete or malformed input are
    answered as if they were alone; a handler that panics before its response has
    begun gives a complete response with status 500. *)

From S2P Require Import Prelude Scan Strconv Method StartLine Framing Message MessageRoundtrip.
From S2P Require Import Request RequestSpec Bufio Adaptor AdaptorFaults AdaptorSpec AdaptorRoundtrip Serve.

#[global] Instance phase_eq_dec : EqDecision phase.
Proof. solve_decision. Defined.

(** ** The loop always returns *)

(** A buffered writer that works, or that has failed and keeps its error. *)
Definition usable (b : bufWriter) : Prop := bw_err b = true \/ bw_ok b.

Lemma good_returns {A} (m : W A) w b :
  good m -> w_bufWriter w = Some b -> usable b ->
  exists r w' b', m w = Ok (r, w') /\ w_bufWriter w' = Some b' /\ usable b'.
Proof.
  intros Hm Hw Hb. destruct (bw_err b) eqn:Ee.
  { destruct (gd_frozen _ Hm w b Hw Ee) as (r & w' & E1 & E2). exists r, w', b. split_and!; [done | done | by left]. }
  destruct Hb as [?|Hb]; [congruence|].
  set (b1 := mkWriter (bw_size b) healthy (bw_buf b) false (bw_out b)).
  assert (in_step (set_bufWriter (Some b1) w) w) as Hs.
  { exists w, b1, b. split_and!; try done; [by destruct w; cbn in *; subst | by destruct Hb; constructor]. }
  destruct (gd_step _ Hm _ _ Hs) as (r1 & w1 & r2 & w2 & _ & E2 & H).
  destruct H as [[_ (v & c1 & c2 & _ & -> & _ & Hok & _)]|(c1 & c2 & _ & Ec & _ & He & _)].
  - exists r2, (set_bufWriter (Some c2) v), c2. split_and!; [done | done | by right].
  - exists r2, w2, c2. split_and!; [done | done | by left].
Qed.

Section Total.
Context (ParseRequestURI : bytes -> url_URL + perror) (spare : nat -> nat)
  (currentDate : bytes) (DetectContentType : bytes -> bytes) (grow : nat -> nat)
  (readChunked : Z -> bytes -> bytes * bytes) (maxDrainSize : Z)
  (handler : Request -> bytes -> handling) (pooled : ResponseWriter).

Abbreviation handle := (handleRequest ParseRequestURI spare currentDate DetectContentType grow readChunked handler pooled).
Abbreviation loop := (serve_loop ParseRequestURI spare currentDate DetectContentType grow readChunked maxDrainSize handler pooled).

(** A chunked reader takes its bytes from the stream. *)
Hypothesis chunked_takes : forall k d, (length (snd (readChunked k d)) <= length d)%nat.

Lemma good_panic : good (_ ← WriteHeader 500; ignore (EndResponse currentDate)).
Proof. apply good_bind; [apply good_WriteHeader | intros _; apply good_ignore, good_EndResponse]. Qed.

Lemma handleRequest_returns n data err b :
  (0 < n)%nat -> usable b ->
  exists h data' b', handle (mkReader n data err) b = Ok (h, mkReader n data' err, b') /\ usable b' /\
    (length data' <= length data)%nat /\ forall req k, h = HandleDone req k -> (length data' < length data)%nat.
Proof.
  intros Hn Hb. unfold handleRequest.
  destruct (ReadRequest_returns ParseRequestURI spare n data err Hn) as ([req|e] & data' & -> & Hle & Hlt).
  2:{ exists (HandleError (bool_decide (e = IOEOF))), data', b. split_and!; done. }
  specialize (Hlt req eq_refl). set (h := handler req _). cbv zeta.
  set (w := set_header (hd_header h) (NewResponseWriter pooled b)).
  destruct (good_returns _ w b (good_run_ops currentDate DetectContentType grow (hd_calls h)) eq_refl Hb)
    as (r1 & w1 & b1 & -> & Hw1 & Hb1).
  destruct (hd_panics h).
  - destruct (w_headerSent w1).
    + unfold mret, W_ret, buffer_of. rewrite Hw1. exists (HandleError false), data', b1. split_and!; done.
    + destruct (good_returns _ w1 b1 good_panic Hw1 Hb1) as (r2 & w2 & b2 & -> & Hw2 & Hb2).
      unfold buffer_of. rewrite Hw2. exists (HandleError false), data', b2. split_and!; done.
  - destruct (good_returns _ w1 b1 (good_EndResponse currentDate) Hw1 Hb1) as (r2 & w2 & b2 & -> & Hw2 & Hb2).
    unfold buffer_of. rewrite Hw2.
    destruct r2 as [[]|e]; eexists _, data', b2; (split; [done|]); split_and!; try done; intros; lia.
Qed.

Lemma after_request_shrinks req k n data err :
  exists data', snd (after_request readChunked maxDrainSize req k (mkReader n data err)) = mkReader n data' err /\
    (length data' <= length data)%nat.
Proof.
  unfold after_request. set (needs := (0 <? r_ContentLength req) || _). destruct needs; cbn [andb]; [|by exists data].
  unfold drain. destruct (r_Body req) as [|m|]; cbn [rd_data rd_size rd_err snd].
  - by exists data.
  - eexists. split; [done|]. rewrite length_drop. lia.
  - pose proof (chunked_takes (Z.of_nat k + drain_limit maxDrainSize) data) as Hc.
    destruct (readChunked _ data) as [p rest]. exists rest. by split.
Qed.

Lemma serve_loop_returns buffered n err data b fuel :
  (0 < n)%nat -> usable b -> (length data < fuel)%nat ->
  exists closed data' b', loop buffered fuel (mkReader n data err) b = Ok (closed, mkReader n data' err, b') /\
    (length data' <= length data)%nat.
Proof.
  intros Hn. revert data b. induction fuel as [|fuel IH]; intros data b Hb Hf; [lia|]. cbn [serve_loop].
  destruct (negb _ && negb _); [by exists false, data, b|].
  destruct (handleRequest_returns n data err b Hn Hb) as (h & d1 & b1 & -> & Hb1 & Hle & Hlt).
  destruct h as [eof|req k]; [by exists (negb eof), d1, b1|]. specialize (Hlt req k eq_refl).
  destruct (after_request_shrinks req k n d1 err) as (d2 & E & Hle2).
  destruct (after_request _ _ _ _ _) as [close r]. cbn [snd] in E. subst r. destruct close; [by exists true, d2, b1; split; [|lia]|].
  cbn [rd_data]. destruct d2 as [|x d2]; [exists false, [], b1; split; [done | cbn; lia]|].
  destruct (IH (x :: d2) b1 Hb1) as (closed & d3 & b3 & E3 & Hle3); [lia|]. exists closed, d3, b3. split; [exact E3 | lia].
Qed.
End Total.

(** The loop for handlers that do not take over the connection returns on every
    input: whatever bytes the peer has sent, whatever calls the handler makes for
    each request, panics included, and wherever the connection fails; one turn per
    byte of input is enough. *)
Theorem serve_loop_total ParseRequestURI spare currentDate DetectContentType grow readChunked maxDrainSize handler pooled
    buffered n data err b :
  (forall k d, (length (snd (readChunked k d)) <= length d)%nat) -> (0 < n)%nat -> usable b ->
  exists closed data' b',
    serve_loop ParseRequestURI spare currentDate DetectContentType grow readChunked maxDrainSize handler pooled
      buffered (S (length data)) (mkReader n data err) b = Ok (closed, mkReader n data' err, b') /\
    (length data' <= length data)%nat.
Proof. intros Hc Hn Hb. apply serve_loop_returns; [done | done | done | lia]. Qed.

Lemma serve_loop_total_witness :
  let handler (_ : Request) (_ : bytes) := mkHandling ∅ 0 [OFlush] true in
  let b := mkWriter 16 (fun _ _ => Some 3%nat) [] false [] in
  exists closed data' b', serve_loop (fun _ => inr ErrReqMethod) (fun n => n) (bs "now") (fun _ => bs "text/plain") (fun n => n)
      (fun _ rest => ([], rest)) 65536 handler pool_New (fun _ => true)
      (S (length (bs "GET / HTTP/1.1" ++ CRLF ++ CRLF ++ bs "junk"))) (mkReader 16 (bs "GET / HTTP/1.1" ++ CRLF ++ CRLF ++ bs "junk") IOEOF) b
    = Ok (closed, mkReader 16 data' IOEOF, b') /\ (length data' <= length (bs "GET / HTTP/1.1" ++ CRLF ++ CRLF ++ bs "junk"))%nat.
Proof.
  intros handler b. apply serve_loop_total; [done | lia |]. right. constructor; cbn; lia.
Defined.

(** ** Input that is no request *)

Section Ends.
Context (ParseRequestURI : bytes -> url_URL + perror) (spare : nat -> nat)
  (currentDate : bytes) (DetectContentType : bytes -> bytes) (grow : nat -> nat)
  (readChunked : Z -> bytes -> bytes * bytes) (maxDrainSize : Z)
  (handler : Request -> bytes -> handling) (pooled : ResponseWriter).

Abbreviation handle := (handleRequest ParseRequestURI spare currentDate DetectContentType grow readChunked handler pooled).
Abbreviation loop := (serve_loop ParseRequestURI spare currentDate DetectContentType grow readChunked maxDrainSize handler pooled).

Hypothesis clean_date : clean currentDate.
Hypothesis clean_sniffed : forall p, clean (DetectContentType p).
Hypothesis pooled_fresh : w_trailer pooled = ∅.

(** Requests that can be served, and then the rest of the input. *)
Lemma serve_loop_prefix buffered qs tail n err b fuel :
  (0 < n)%nat -> tail <> [] -> Forall (servable ParseRequestURI maxDrainSize handler) qs -> sound b -> bw_buf b = [] ->
  exists b' reqs texts,
    loop buffered (length qs + fuel) (mkReader n (concat (map sr_text qs) ++ tail) err) b =
      loop buffered fuel (mkReader n tail err) b' /\
    sound b' /\ bw_buf b' = [] /\
    Forall2 is_request qs reqs /\ Forall2 is_response (zip_with handler reqs (map sr_body qs)) texts /\
    bw_out b' = bw_out b ++ concat texts.
Proof.
  intros Hn Ht Hqs. revert b. induction Hqs as [|q qs [Hq Hd] Hqs IH]; intros b Hb Hbuf.
  { exists b, [], []. cbn. rewrite app_nil_r. split_and!; try done; constructor. }
  cbn [length plus serve_loop map concat]. rewrite <- app_assoc. cbn [rd_data]. rewrite sr_text_marker, andb_false_r.
  destruct (handle_one ParseRequestURI spare currentDate DetectContentType grow readChunked handler pooled
    clean_date clean_sniffed pooled_fresh q (concat (map sr_text qs) ++ tail) n err b Hn (ko_sent _ _ _ Hq) Hd Hb)
    as (req & b1 & text & -> & Hreq & Hb1 & Hbuf1 & Htot & Hresp).
  rewrite (after_open ParseRequestURI readChunked maxDrainSize q req _ _ n err Hq Hreq). cbn [rd_data].
  destruct (IH b1 Hb1 Hbuf1) as (b' & reqs & texts & E & H1 & H2 & H3 & H4 & H5).
  exists b', (req :: reqs), (text :: texts). split_and!; try done; [| by constructor | by constructor |].
  - rewrite <- E. destruct (concat (map sr_text qs) ++ tail) eqn:Ec; [|done]. by apply app_eq_nil in Ec as [_ ?].
  - rewrite H5. unfold total in Htot. rewrite Hbuf, Hbuf1, !app_nil_r in Htot. rewrite Htot. cbn. by rewrite app_assoc.
Qed.

(** ** Handlers that panic *)

(** The run of a handler that panicked, with what the engine adds to it. *)
Definition with_500 (h : handling) : handling :=
  mkHandling (hd_header h) (hd_read h) (hd_calls h ++ [OWriteHeader 500]) false.

Lemma phases_app s os1 os2 : phases s (os1 ++ os2) = match phases s os1 with Some s' => phases s' os2 | None => None end.
Proof. revert s. induction os1 as [|o os1 IH]; intros s; cbn; [done|]. by destruct (next_phase s o). Qed.

Lemma run_ops_app os1 os2 w :
  run_ops currentDate DetectContentType grow (os1 ++ os2) w =
  (_ ← run_ops currentDate DetectContentType grow os1; run_ops currentDate DetectContentType grow os2) w.
Proof.
  revert w. induction os1 as [|o os1 IH]; intros w; cbn [app run_ops]; [done|].
  unfold mbind, W_bind in *. destruct (run_op _ _ _ o w) as [[[[]|e] w1]|f]; [apply IH | done | done].
Qed.

Lemma written_500 h : written (hd_calls (with_500 h)) = written (hd_calls h).
Proof. unfold written. cbn [hd_calls with_500]. rewrite map_app, concat_app. cbn. by rewrite app_nil_r. Qed.

(** Whether the head has been sent is decided by the calls. *)
Lemma run_handler h b ph code :
  headers_ok (hd_header h) -> phases (Fresh, StatusOK) (hd_calls h) = Some (ph, code) -> sound b ->
  exists w, run_ops currentDate DetectContentType grow (hd_calls h) (set_header (hd_header h) (NewResponseWriter pooled b)) = Ok (inl tt, w) /\
    w_headerSent w = bool_decide (ph = Sent).
Proof.
  intros Hh Hp Hb. set (w0 := set_header _ _).
  assert (inv currentDate DetectContentType (hd_header h) (Fresh, StatusOK) w0 [] []) as Hi
    by (constructor; [done | done | by split; [|left] | done | done]).
  destruct (run_ops_steps currentDate DetectContentType grow clean_sniffed (hd_header h) (hd_calls h) _ _ w0 [] [] Hi Hp)
    as (w1 & p & Ht & [_ _ _ _ I5]).
  destruct (Ht b Hb) as (b' & E & _). change (set_bufWriter (Some b) w0) with w0 in E.
  exists (set_bufWriter (Some b') w1). split; [exact E|]. cbn [fst] in I5.
  destruct ph; destruct I5 as (I5 & _); cbn; rewrite I5; done.
Qed.

(** A request whose handler panics before the response has begun. *)
Definition panics_early (q : sent_request) : Prop :=
  well_formed ParseRequestURI q /\ forall req, is_request q req ->
    let h := handler req (sr_body q) in
    hd_panics h = true /\ headers_ok (hd_header h) /\ blen (written (hd_calls h)) < 2 ^ 31 /\
    exists ph code, phases (Fresh, StatusOK) (hd_calls h) = Some (ph, code) /\ ph <> Sent.

Lemma handle_panic q n rest err b :
  (0 < n)%nat -> panics_early q -> sound b ->
  exists req b' text,
    handle (mkReader n (sr_text q ++ rest) err) b = Ok (HandleError false, mkReader n (sr_body q ++ rest) err, b') /\
    is_request q req /\ sound b' /\ bw_buf b' = [] /\ total b' = total b ++ text /\
    is_response (with_500 (handler req (sr_body q))) text.
Proof.
  intros Hn [Hq Hd] Hb.
  destruct (ReadRequest_run ParseRequestURI spare n (sr_line q) (sr_lines q) (sr_request q) (sr_url q) (sr_headers q)
    (sr_meta q) (sr_body q ++ rest) err Hn (wf_line _ _ Hq) (wf_lines _ _ Hq) (wf_request _ _ Hq) (wf_headers _ _ Hq)
    (wf_url _ _ Hq) (wf_meta _ _ Hq)) as (h & m & Er & Hv).
  set (req := request_of _ _ _ _ h m) in Er. assert (is_request q req) as Hreq by (by exists h, m).
  destruct (Hd req Hreq) as (Hpanic & Hh & Hlen & ph & code & Hp & Hne). set (hd := handler req (sr_body q)) in *.
  assert (deliverable (with_500 hd)) as H500.
  { split_and!; [done | done | by rewrite written_500|]. exists ph, 500. cbn [hd_calls with_500].
    rewrite phases_app, Hp. cbn. split; [by destruct ph | lia]. }
  destruct (handler_response currentDate DetectContentType grow pooled clean_date clean_sniffed pooled_fresh (with_500 hd) b H500 Hb)
    as (w' & b' & text & Eh & Ew & Hs & Hbuf & Ht & Hresp).
  exists req, b', text. split; [|by split_and!].
  destruct (run_handler hd b ph code Hh Hp Hb) as (w1 & E1 & Esent). rewrite bool_decide_false in Esent by done.
  unfold handleRequest, sr_text. rewrite <- !app_assoc, Er. cbv zeta.
  rewrite (body_of_sent ParseRequestURI readChunked q req) by done. fold hd. rewrite E1, Hpanic, Esent.
  unfold respond, mbind, W_bind in Eh. cbn [hd_calls with_500 hd_header] in Eh. rewrite run_ops_app in Eh.
  unfold mbind, W_bind in Eh. rewrite E1 in Eh. cbn [run_ops run_op] in Eh. unfold mbind, W_bind, mret, W_ret in Eh |- *.
  destruct (WriteHeader 500 w1) as [[[[]|e] w2]|f]; [|done|done].
  unfold ignore. rewrite Eh. unfold buffer_of. by rewrite Ew.
Qed.
End Ends.

(** C23. Servable requests before other input are served as if they were alone:
    exactly their responses have been sent, on a connection that does not fail,
    and nothing for the input after them. If no part of that input is in the
    reader's buffer and it holds no end of a header block, it is left unread and
    the connection open, waiting for the rest. Otherwise it is given to
    [ReadRequest]; when that fails, with whatever it has consumed, the connection
    is closed, except when the error is io.EOF, when it is left open. *)
Theorem serve_then_bad_input ParseRequestURI spare currentDate DetectContentType grow readChunked maxDrainSize handler
    buffered qs tail n k err :
  clean currentDate -> (forall p, clean (DetectContentType p)) -> (0 < n)%nat -> (0 < k)%nat -> tail <> [] ->
  Forall (servable ParseRequestURI maxDrainSize handler) qs ->
  let result := serve_loop ParseRequestURI spare currentDate DetectContentType grow readChunked maxDrainSize handler pool_New
    buffered (length qs + 1) (mkReader n (concat (map sr_text qs) ++ tail) err) (mkWriter k healthy [] false []) in
  exists b reqs texts,
    Forall2 is_request qs reqs /\ Forall2 is_response (zip_with handler reqs (map sr_body qs)) texts /\
    bw_out b = concat texts /\ bw_buf b = [] /\
    (buffered tail = false -> contains tail headerEndMarker = false -> result = Ok (false, mkReader n tail err, b)) /\
    (forall e r', buffered tail || contains tail headerEndMarker = true ->
       ReadRequest ParseRequestURI spare (mkReader n tail err) = Ok (inr e, r') ->
       result = Ok (bool_decide (e <> IOEOF), r', b)).
Proof.
  intros Hd Hs Hn Hk Ht Hqs result.
  destruct (serve_loop_prefix ParseRequestURI spare currentDate DetectContentType grow readChunked maxDrainSize handler
    pool_New Hd Hs eq_refl buffered qs tail n err (mkWriter k healthy [] false []) 1 Hn Ht Hqs) as (b & reqs & texts & E & _ & Hb & H1 & H2 & H3).
  { split_and!; [constructor; cbn; lia | done | done]. }
  { done. }
  exists b, reqs, texts. split_and!; try done; unfold result; rewrite E; cbn [serve_loop rd_data].
  - by intros -> ->.
  - intros e r' Hin Er. rewrite <- negb_orb, Hin. cbn [negb]. unfold handleRequest. rewrite Er.
    by rewrite bool_decide_not.
Qed.

Lemma serve_then_bad_input_witness :
  let h (_ : Request) (_ : bytes) := mkHandling ∅ 0 [OWrite (bs "ok")] false in
  let q := mkSent (bs "GET /a HTTP/1.1") [] [] (mkRequestLine GET (bs "/a") 1 1) (plainURL [] (bs "/a") []) [] no_framing in
  exists b, serve_loop (fun _ => inr ErrReqMethod) (fun n => n) (bs "now") (fun _ => bs "text/plain") (fun n => n)
      (fun _ rest => ([], rest)) 65536 h pool_New (fun _ => false) 2
      (mkReader 16 (sr_text q ++ bs "BAD" ++ CRLF ++ CRLF) IOEOF) (mkWriter 16 healthy [] false []) =
      Ok (true, mkReader 16 CRLF IOEOF, b) /\ bw_buf b = [].
Proof.
  intros h q.
  assert (servable (fun _ => inr ErrReqMethod) 65536 h q) as Hq.
  { split; [|intros req (x & m & -> & _); split_and!; [done | by constructor | by vm_compute | by eexists _, 200]].
    assert (forall l : bytes, (LF ∉ l <-> bool_decide (LF ∉ l) = true)) as Hdec by (intros; by rewrite bool_decide_eq_true).
    constructor; [constructor | by vm_compute..]; try (by vm_compute); try (intros [=]); repeat constructor; try done; try (by apply Hdec; vm_compute). }
  destruct (serve_then_bad_input (fun _ => inr ErrReqMethod) (fun n => n) (bs "now") (fun _ => bs "text/plain") (fun n => n)
    (fun _ rest => ([], rest)) 65536 h (fun _ => false) [q] (bs "BAD" ++ CRLF ++ CRLF) 16 16 IOEOF)
    as (b & reqs & texts & _ & _ & _ & Hb & _ & H2); [by vm_compute | intros _; by vm_compute | lia | lia | done | by constructor |].
  exists b. split; [|exact Hb]. specialize (H2 ErrReqMethod (mkReader 16 CRLF IOEOF) eq_refl).
  rewrite (bool_decide_true (ErrReqMethod <> IOEOF)) in H2 by done. apply H2. vm_compute. reflexivity.
Defined.

(** C22. A handler that panics before its response has begun is answered for, on
    a connection that does not fail, if it has set no Content-Length and no
    Transfer-Encoding ([headers_ok]), has written fewer than 2^31 bytes and has
    called no WriteString or ReadFrom while a single Write is held back
    ([panics_early]), and if the earlier requests are [servable]: these have been
    answered, the peer receives a complete response with status 500, whose body
    is what the handler had written, and the connection is closed. *)
Theorem panic_answered_500 ParseRequestURI spare currentDate DetectContentType grow readChunked maxDrainSize handler
    buffered qs q rest n k err :
  clean currentDate -> (forall p, clean (DetectContentType p)) -> (0 < n)%nat -> (0 < k)%nat ->
  Forall (servable ParseRequestURI maxDrainSize handler) qs -> panics_early ParseRequestURI handler q ->
  exists b req reqs texts text hs mode meta,
    serve_loop ParseRequestURI spare currentDate DetectContentType grow readChunked maxDrainSize handler pool_New
      buffered (length qs + 1) (mkReader n (concat (map sr_text qs) ++ sr_text q ++ rest) err) (mkWriter k healthy [] false []) =
      Ok (true, mkReader n (sr_body q ++ rest) err, b) /\
    Forall2 is_request qs reqs /\ Forall2 is_response (zip_with handler reqs (map sr_body qs)) texts /\
    is_request q req /\ bw_out b = concat texts ++ text /\
    parseMessageDetailed text RESPONSE =
      Ok (ParseOk (mkMessage RESPONSE zero_requestLine (status_line_of 500) hs (written (hd_calls (handler req (sr_body q)))) mode meta)).
Proof.
  intros Hd Hs Hn Hk Hqs Hq.
  assert (sr_text q ++ rest <> []) as Hne.
  { unfold sr_text. rewrite <- !app_assoc. by destruct (sr_line q). }
  destruct (serve_loop_prefix ParseRequestURI spare currentDate DetectContentType grow readChunked maxDrainSize handler
    pool_New Hd Hs eq_refl buffered qs (sr_text q ++ rest) n err (mkWriter k healthy [] false []) 1 Hn Hne Hqs)
    as (b & reqs & texts & E & Hsound & Hb & H1 & H2 & H3).
  { split_and!; [constructor; cbn; lia | done | done]. }
  { done. }
  destruct (handle_panic ParseRequestURI spare currentDate DetectContentType grow readChunked handler
    pool_New Hd Hs eq_refl q n rest err b Hn Hq Hsound) as (req & b' & text & E2 & Hreq & _ & Hb' & Ht & Hresp).
  destruct Hresp as (ph & code & hs & mode & meta & Hph & Hparse). rewrite written_500 in Hparse.
  assert (code = 500) as ->.
  { destruct Hq as [_ Hq]. destruct (Hq req Hreq) as (_ & _ & _ & ph0 & c0 & Hp0 & Hne0).
    cbn [hd_calls with_500] in Hph. rewrite phases_app, Hp0 in Hph. destruct ph0; cbn in Hph; congruence. }
  exists b', req, reqs, texts, text, hs, mode, meta. split_and!; try done.
  - rewrite E. cbn [serve_loop rd_data]. rewrite sr_text_marker, andb_false_r, E2. done.
  - unfold total in Ht. rewrite Hb, Hb', !app_nil_r, H3 in Ht. exact Ht.
Qed.

Lemma panic_answered_500_witness :
  let h (_ : Request) (_ : bytes) := mkHandling ∅ 0 [OWrite (bs "half")] true in
  let q := mkSent (bs "GET /a HTTP/1.1") [] [] (mkRequestLine GET (bs "/a") 1 1) (plainURL [] (bs "/a") []) [] no_framing in
  exists b text hs mode meta, serve_loop (fun _ => inr ErrReqMethod) (fun n => n) (bs "now") (fun _ => bs "text/plain") (fun n => n)
      (fun _ rest => ([], rest)) 65536 h pool_New (fun _ => false) 1
      (mkReader 16 (sr_text q ++ []) IOEOF) (mkWriter 16 healthy [] false []) = Ok (true, mkReader 16 [] IOEOF, b) /\
    bw_out b = text /\ parseMessageDetailed text RESPONSE =
      Ok (ParseOk (mkMessage RESPONSE zero_requestLine (status_line_of 500) hs (bs "half") mode meta)).
Proof.
  intros h q.
  assert (panics_early (fun _ => inr ErrReqMethod) h q) as Hq.
  { split; [|intros req _; split_and!; [done | by constructor | by vm_compute | by eexists _, 200]].
    assert (forall l : bytes, (LF ∉ l <-> bool_decide (LF ∉ l) = true)) as Hdec by (intros; by rewrite bool_decide_eq_true).
    constructor; try (by vm_compute); try (intros [=]); repeat constructor; try done; try (by apply Hdec; vm_compute). }
  destruct (panic_answered_500 (fun _ => inr ErrReqMethod) (fun n => n) (bs "now") (fun _ => bs "text/plain") (fun n => n)
    (fun _ rest => ([], rest)) 65536 h (fun _ => false) [] q [] 16 16 IOEOF)
    as (b & req & reqs & texts & text & hs & mode & meta & H1 & H2 & H3 & _ & H4 & H5);
    [by vm_compute | intros _; by vm_compute | lia | lia | by constructor | done |].
  inversion H2; subst. inversion H3; subst. exists b, text, hs, mode, meta. split; [exact H1|]. split; [exact H4 | exact H5].
Defined.
