(* ===== verification/ServeClose.v ===== *)
(** * Requests after which the connection is closed

    A request that asks for it (by its version or its Connection header), or whose
    body is longer than the engine drains, is answered like any other, and is the
    last one of its connection: nothing after it is taken for a request.  The drain
    limit is one more than the configured size, as an [int64]: with the largest size
    it wraps around, and the body is not skipped at all. *)

From S2P Require Import Prelude Scan Strconv Method StartLine Framing Message MessageRoundtrip.
From S2P Require Import Request RequestSpec Bufio Adaptor AdaptorFaults AdaptorSpec AdaptorRoundtrip Engine Serve ServeEnds.

Section Closing.
Context (ParseRequestURI : bytes -> url_URL + perror) (spare : nat -> nat)
  (currentDate : bytes) (DetectContentType : bytes -> bytes) (grow : nat -> nat)
  (readChunked : Z -> bytes -> bytes * bytes) (maxDrainSize : Z)
  (handler : Request -> bytes -> handling) (pooled : ResponseWriter).

Abbreviation loop := (serve_loop ParseRequestURI spare currentDate DetectContentType grow readChunked maxDrainSize handler pooled).

(** A request that can be answered, whatever comes after it. *)
Definition answerable (q : sent_request) : Prop :=
  well_formed ParseRequestURI q /\ forall req, is_request q req -> deliverable (handler req (sr_body q)).

(** A request after which the engine closes the connection: it says so, or the
    handler leaves more of its body than is drained. *)
Definition closing (q : sent_request) : Prop :=
  asks_close q = true \/
  0 <= maxDrainSize < 2 ^ 63 - 1 /\
  forall req, is_request q req -> maxDrainSize < unread (hd_read (handler req (sr_body q))) q.

Lemma sr_text_ne q rest : sr_text q ++ rest <> [].
Proof. unfold sr_text. rewrite <- !app_assoc. by destruct (sr_line q). Qed.

Lemma drain_limit_small : 0 <= maxDrainSize < 2 ^ 63 - 1 -> drain_limit maxDrainSize = maxDrainSize + 1.
Proof. intros H. unfold drain_limit. rewrite wrap64_small; lia. Qed.

Lemma unread_bounds k q : 0 <= unread k q <= blen (sr_body q).
Proof. unfold unread. pose proof (blen_nonneg (sr_body q)). lia. Qed.

Lemma after_closing q req rest n err :
  well_formed ParseRequestURI q -> closing q -> is_request q req ->
  exists left, after_request readChunked maxDrainSize req (hd_read (handler req (sr_body q))) (mkReader n (sr_body q ++ rest) err) =
      (true, mkReader n (left ++ rest) err) /\
    left `suffix_of` sr_body q /\ (blen (sr_body q) <= maxDrainSize < 2 ^ 63 - 1 -> left = []).
Proof.
  intros Hq Hc Hreq. set (k := hd_read _). pose proof (unread_bounds k q).
  rewrite (after_one ParseRequestURI readChunked maxDrainSize q req k rest n err Hq Hreq). eexists. split; [f_equal|split].
  - destruct Hc as [->|[Hm Hc]]; [done|]. specialize (Hc req Hreq). fold k in Hc.
    rewrite bool_decide_true, drain_limit_small by (try done; intros E; rewrite E in *; unfold blen in *; cbn in *; lia).
    rewrite (proj2 (Z.ltb_lt _ _)) by lia. by destruct (asks_close q).
  - eexists. symmetry. apply take_drop.
  - intros Hd. rewrite drain_limit_small by lia. rewrite Z.min_l by lia.
    rewrite Z.sub_add, to_nat_blen. apply drop_all.
Qed.

(** With the largest size nothing is drained. *)
Lemma after_unlimited q req k rest n err :
  well_formed ParseRequestURI q -> is_request q req ->
  after_request readChunked (2 ^ 63 - 1) req k (mkReader n (sr_body q ++ rest) err) =
    (asks_close q, mkReader n (drop k (sr_body q) ++ rest) err).
Proof.
  intros Hq Hreq. rewrite (after_one ParseRequestURI readChunked _ q req k rest n err Hq Hreq).
  change (drain_limit (2 ^ 63 - 1)) with 0. pose proof (unread_bounds k q). rewrite Z.min_r by lia.
  rewrite andb_false_r, orb_false_r, Z.add_0_r. unfold unread. do 3 f_equal. unfold blen.
  destruct (decide (k <= length (sr_body q))%nat); [f_equal; lia|].
  rewrite !drop_ge; [done | lia | lia].
Qed.
End Closing.

(** C24. A closing request is the last one: after any number of kept-open requests, a
    request that asks for the connection to be closed, or whose body is too long to
    be drained, is answered in full after them, then the connection is closed, and
    nothing sent after it is taken for a request: the input that is left is the end
    of its body, none of it when it could be drained, and all that follows. *)
Theorem serve_then_close ParseRequestURI spare currentDate DetectContentType grow readChunked maxDrainSize handler
    buffered qs q rest n k err :
  clean currentDate -> (forall p, clean (DetectContentType p)) -> (0 < n)%nat -> (0 < k)%nat ->
  Forall (servable ParseRequestURI maxDrainSize handler) qs ->
  answerable ParseRequestURI handler q -> closing maxDrainSize handler q ->
  exists b left req reqs texts text,
    serve_loop ParseRequestURI spare currentDate DetectContentType grow readChunked maxDrainSize handler pool_New
      buffered (length qs + 1) (mkReader n (concat (map sr_text qs) ++ sr_text q ++ rest) err) (mkWriter k healthy [] false []) =
      Ok (true, mkReader n (left ++ rest) err, b) /\
    left `suffix_of` sr_body q /\ (blen (sr_body q) <= maxDrainSize < 2 ^ 63 - 1 -> left = []) /\
    Forall2 is_request qs reqs /\ Forall2 is_response (zip_with handler reqs (map sr_body qs)) texts /\
    is_request q req /\ is_response (handler req (sr_body q)) text /\ bw_out b = concat texts ++ text.
Proof.
  intros Hd Hs Hn Hk Hqs [Hq Hdel] Hc.
  destruct (serve_loop_prefix ParseRequestURI spare currentDate DetectContentType grow readChunked maxDrainSize handler
    pool_New Hd Hs eq_refl buffered qs (sr_text q ++ rest) n err (mkWriter k healthy [] false []) 1 Hn (sr_text_ne q rest) Hqs)
    as (b & reqs & texts & E & Hsound & Hb & H1 & H2 & H3).
  { split_and!; [constructor; cbn; lia | done | done]. }
  { done. }
  destruct (handle_one ParseRequestURI spare currentDate DetectContentType grow readChunked handler pool_New Hd Hs eq_refl
    q rest n err b Hn Hq Hdel Hsound) as (req & b' & text & E2 & Hreq & _ & Hb' & Ht & Hresp).
  destruct (after_closing ParseRequestURI readChunked maxDrainSize handler q req rest n err Hq Hc Hreq) as (left & E3 & Hl1 & Hl2).
  exists b', left, req, reqs, texts, text. split_and!; try done.
  - rewrite E. cbn [serve_loop rd_data]. by rewrite sr_text_marker, andb_false_r, E2, E3.
  - unfold total in Ht. rewrite Hb, Hb', !app_nil_r, H3 in Ht. exact Ht.
Qed.

Lemma serve_then_close_witness :
  let h (_ : Request) (_ : bytes) := mkHandling ∅ 0 [OWrite (bs "bye")] false in
  let q1 := mkSent (bs "GET /a HTTP/1.1") [] [] (mkRequestLine GET (bs "/a") 1 1) (plainURL [] (bs "/a") []) [] no_framing in
  let q2 := mkSent (bs "POST /b HTTP/1.1") [bs "Content-Length: 3"] (bs "abc") (mkRequestLine POST (bs "/b") 1 1)
    (plainURL [] (bs "/b") []) [mkHeaderLine (bs "Content-Length") (bs "3")] (mkMeta REQUEST 0 true 3 false) in
  exists b left, serve_loop (fun _ => inr ErrReqMethod) (fun n => n) (bs "now") (fun _ => bs "text/plain") (fun n => n)
      (fun _ rest => ([], rest)) 1 h pool_New (fun _ => false) 2
      (mkReader 16 (sr_text q1 ++ sr_text q2 ++ sr_text q1) IOEOF) (mkWriter 16 healthy [] false []) =
      Ok (true, mkReader 16 (left ++ sr_text q1) IOEOF, b) /\ left `suffix_of` bs "abc".
Proof.
  intros h q1 q2.
  assert (forall l : bytes, (LF ∉ l <-> bool_decide (LF ∉ l) = true)) as Hdec by (intros; by rewrite bool_decide_eq_true).
  destruct (serve_then_close (fun _ => inr ErrReqMethod) (fun n => n) (bs "now") (fun _ => bs "text/plain") (fun n => n)
    (fun _ rest => ([], rest)) 1 h (fun _ => false) [q1] q2 (sr_text q1) 16 16 IOEOF)
    as (b & left & req & reqs & texts & text & E & Hl & _); [by vm_compute | intros _; by vm_compute | lia | lia | | | |].
  - constructor; [|constructor].
    split; [|intros req (x & m & -> & _); split_and!; [done | by constructor | by vm_compute | by eexists _, 200]].
    constructor; [constructor | by vm_compute..]; try (by vm_compute); repeat constructor; try done; by apply Hdec; vm_compute.
  - split; [|intros req (x & m & -> & _); split_and!; [done | by constructor | by vm_compute | by eexists _, 200]].
    constructor; try (by vm_compute); repeat constructor; try done; by apply Hdec; vm_compute.
  - right. split; [lia|]. intros req _. by vm_compute.
  - exists b, left. split; [exact E | exact Hl].
Defined.

(** With the largest drain size a body is served as a request: [maxDrainSize+1]
    wraps around to a negative limit, nothing of the body is skipped and nothing
    closes the connection, so that a body which a handler does not read, and which
    looks like a request, is handed to the handler as one and answered. *)
Theorem drain_size_overflow ParseRequestURI spare currentDate DetectContentType grow readChunked handler buffered q q2 n k err :
  clean currentDate -> (forall p, clean (DetectContentType p)) -> (0 < n)%nat -> (0 < k)%nat ->
  answerable ParseRequestURI handler q -> asks_close q = false -> (forall req, hd_read (handler req (sr_body q)) = 0%nat) ->
  answerable ParseRequestURI handler q2 -> asks_close q2 = false -> sr_body q2 = [] ->
  sr_body q = sr_text q2 ->
  exists b req req2 text text2,
    serve_loop ParseRequestURI spare currentDate DetectContentType grow readChunked (2 ^ 63 - 1) handler pool_New
      buffered 2 (mkReader n (sr_text q) err) (mkWriter k healthy [] false []) = Ok (false, mkReader n [] err, b) /\
    is_request q req /\ is_response (handler req (sr_body q)) text /\
    is_request q2 req2 /\ is_response (handler req2 []) text2 /\ bw_out b = text ++ text2.
Proof.
  intros Hd Hs Hn Hk [Hq Hdel] Hc Hread [Hq2 Hdel2] Hc2 Hb2 Hbody.
  set (h1 := handle_one ParseRequestURI spare currentDate DetectContentType grow readChunked handler pool_New Hd Hs eq_refl).
  destruct (h1 q [] n err (mkWriter k healthy [] false []) Hn Hq Hdel) as (req & b1 & text & E1 & Hreq & Hs1 & Hbuf1 & Ht1 & Hr1).
  { split_and!; [constructor; cbn; lia | done | done]. }
  destruct (h1 q2 [] n err b1 Hn Hq2 Hdel2 Hs1) as (req2 & b2 & text2 & E2 & Hreq2 & _ & Hbuf2 & Ht2 & Hr2).
  pose proof (after_unlimited ParseRequestURI readChunked q req 0 [] n err Hq Hreq) as A1.
  pose proof (after_unlimited ParseRequestURI readChunked q2 req2 (hd_read (handler req2 (sr_body q2))) [] n err Hq2 Hreq2) as A2.
  pose proof (sr_text_marker q []) as M1. pose proof (sr_text_marker q2 []) as M2.
  exists b2, req, req2, text, text2. rewrite Hb2 in Hr2. split_and!; try done.
  - rewrite Hread, Hc in *. rewrite Hc2 in A2. rewrite !app_nil_r in *. cbn [serve_loop rd_data].
    rewrite M1, andb_false_r, E1, A1. rewrite drop_0. cbn [rd_data]. rewrite Hbody.
    pose proof (sr_text_ne q2 []) as Ne. rewrite app_nil_r in Ne.
    destruct (sr_text q2) as [|x l]; [done|].
    by rewrite M2, andb_false_r, E2, A2, Hb2, drop_nil.
  - unfold total in Ht1, Ht2. rewrite Hbuf2, Ht1, app_nil_r in Ht2. exact Ht2.
Qed.

Lemma drain_size_overflow_witness :
  let h (_ : Request) (_ : bytes) := mkHandling ∅ 0 [OWrite (bs "ok")] false in
  let q2 := mkSent (bs "GET /b HTTP/1.1") [] [] (mkRequestLine GET (bs "/b") 1 1) (plainURL [] (bs "/b") []) [] no_framing in
  let q := mkSent (bs "POST /a HTTP/1.1") [bs "Content-Length: 19"] (sr_text q2) (mkRequestLine POST (bs "/a") 1 1)
    (plainURL [] (bs "/a") []) [mkHeaderLine (bs "Content-Length") (bs "19")] (mkMeta REQUEST 0 true 19 false) in
  exists b req2, serve_loop (fun _ => inr ErrReqMethod) (fun n => n) (bs "now") (fun _ => bs "text/plain") (fun n => n)
      (fun _ rest => ([], rest)) (2 ^ 63 - 1) h pool_New (fun _ => false) 2
      (mkReader 16 (sr_text q) IOEOF) (mkWriter 16 healthy [] false []) = Ok (false, mkReader 16 [] IOEOF, b) /\
    is_request q2 req2.
Proof.
  intros h q2 q.
  assert (forall l : bytes, (LF ∉ l <-> bool_decide (LF ∉ l) = true)) as Hdec by (intros; by rewrite bool_decide_eq_true).
  assert (forall s, answerable (fun _ => inr ErrReqMethod) h s <-> well_formed (fun _ => inr ErrReqMethod) s) as Ha.
  { intros s. split; [by intros [? _] | split; [done|]]. intros req _. split_and!; [done | by constructor | by vm_compute | by eexists _, 200]. }
  destruct (drain_size_overflow (fun _ => inr ErrReqMethod) (fun n => n) (bs "now") (fun _ => bs "text/plain") (fun n => n)
    (fun _ rest => ([], rest)) h (fun _ => false) q q2 16 16 IOEOF)
    as (b & req & req2 & text & text2 & E & _ & _ & H2 & _);
    [by vm_compute | intros _; by vm_compute | lia | lia | apply Ha | by vm_compute | done | apply Ha | by vm_compute | done | done | ..].
  1-2: constructor; try (by vm_compute); repeat constructor; try done; by apply Hdec; vm_compute.
  exists b, req2. split; [exact E | exact H2].
Defined.
