(* ===== verification/ServeLate.v ===== *)
(** * Bodies that arrive late (engine/engine.go, serveHTTP)

    What the handler has left of a body is drained with a read deadline of half a
    second on the connection, and the error of the drain is not looked at: a body
    that has not arrived when the deadline passes does not close the connection.
    The deadline enters as what has arrived by then; the reader then answers with
    the error of the deadline. *)

From S2P Require Import Prelude Scan Strconv Method StartLine Framing Message MessageRoundtrip.
From S2P Require Import Request RequestSpec Bufio Adaptor AdaptorFaults AdaptorSpec AdaptorRoundtrip Engine Serve ServeEnds.

Section Late.
Context (ParseRequestURI : bytes -> url_URL + perror) (readChunked : Z -> bytes -> bytes * bytes) (maxDrainSize : Z).

(** The handler is given what has arrived of the body. *)
Lemma body_of_early q req early late n err :
  well_formed ParseRequestURI q -> is_request q req -> sr_body q = early ++ late -> sr_body q <> [] ->
  body_of readChunked req (mkReader n early err) = early.
Proof.
  intros Hq (h & m & -> & _) Hb Hne. unfold body_of, request_of. cbn [r_Body rd_data]. rewrite (wf_body _ _ Hq).
  rewrite bool_decide_false by done. cbn [fst]. apply take_ge. rewrite Hb, to_nat_blen, length_app. lia.
Qed.

(** All of it is drained, and the connection stays open. *)
Lemma after_early q req k early late n err :
  well_formed ParseRequestURI q -> is_request q req -> asks_close q = false ->
  sr_body q = early ++ late -> late <> [] -> (k <= length early)%nat -> blen early <= maxDrainSize < 2 ^ 63 - 1 ->
  after_request readChunked maxDrainSize req k (mkReader n early err) = (false, mkReader n [] err).
Proof.
  intros Hq Hreq Hc Hb Hl Hk Hmax. rewrite <- (asks_close_sound q req Hreq) in Hc.
  apply orb_false_iff in Hc as [Hc1 Hc2]. destruct Hreq as (h & m & -> & _).
  set (req := request_of _ _ _ _ _ _) in *.
  assert (r_ContentLength req = blen (sr_body q) /\ r_Body req = LimitReader (blen (sr_body q))) as [El Eb].
  { unfold req, request_of. cbn [r_ContentLength r_Body]. rewrite (wf_body _ _ Hq), bool_decide_false; [done|].
    rewrite Hb. by intros [_ ?]%app_eq_nil. }
  pose proof (blen_nonneg early). assert (0 < blen late) by (destruct late; [done | blens]).
  unfold after_request, drain. rewrite El, Eb, Hc1, Hc2, Hb, blen_app. cbn [rd_data rd_size rd_err].
  destruct (Z.ltb_spec 0 (blen early + blen late)); [|lia]. cbn [orb andb]. cbv zeta.
  assert (drain_limit maxDrainSize = maxDrainSize + 1) as -> by (unfold drain_limit; rewrite wrap64_small; lia).
  assert (Z.of_nat k <= blen early) by (unfold blen; lia).
  rewrite (Z.min_l (Z.of_nat k)), (Z.min_l (Z.of_nat k)), (Z.min_r _ (blen early - Z.of_nat k)) by lia.
  destruct (Z.ltb_spec maxDrainSize (blen early - Z.of_nat k)); [lia|].
  rewrite Zplus_minus, to_nat_blen, drop_all. done.
Qed.
End Late.

(** C39. The end of a body that arrives too late is served as a request: when a part
    of a body has not arrived by the deadline of the drain, the request is answered,
    the connection stays open and waits for input, and the rest of the body, if it
    looks like a request, is handed to the handler as one when it arrives, and
    answered. *)
Theorem late_body_served ParseRequestURI spare currentDate DetectContentType grow readChunked maxDrainSize handler
    buffered q early q2 n k err err2 :
  clean currentDate -> (forall p, clean (DetectContentType p)) -> (0 < n)%nat -> (0 < k)%nat ->
  well_formed ParseRequestURI q -> asks_close q = false -> sr_body q = early ++ sr_text q2 ->
  blen early <= maxDrainSize < 2 ^ 63 - 1 ->
  (forall req, is_request q req -> deliverable (handler req early) /\ (hd_read (handler req early) <= length early)%nat) ->
  servable ParseRequestURI maxDrainSize handler q2 ->
  let serve := serve_loop ParseRequestURI spare currentDate DetectContentType grow readChunked maxDrainSize handler pool_New buffered in
  exists b1 b2 req req2 text text2,
    serve 1%nat (mkReader n (sr_head q ++ early) err) (mkWriter k healthy [] false []) = Ok (false, mkReader n [] err, b1) /\
    is_request q req /\ is_response (handler req early) text /\ bw_out b1 = text /\
    serve 1%nat (mkReader n (sr_text q2) err2) b1 = Ok (false, mkReader n [] err2, b2) /\
    is_request q2 req2 /\ is_response (handler req2 (sr_body q2)) text2 /\ bw_out b2 = text ++ text2.
Proof.
  intros Hd Hs Hn Hk Hq Hc Hb Hmax Hh Hq2 serve.
  assert (sr_text q2 <> []) as Hne by (unfold sr_text; by destruct (sr_line q2)).
  assert (sr_body q <> []) as Hbne by (rewrite Hb; by intros [_ ?]%app_eq_nil).
  assert (forall req, is_request q req -> body_of readChunked req (mkReader n early err) = early) as He
    by (intros req Hreq; by eapply body_of_early).
  destruct (handle_head ParseRequestURI spare currentDate DetectContentType grow readChunked handler pool_New Hd Hs eq_refl
    q early n err (mkWriter k healthy [] false []) Hn (well_formed_headed _ q Hq)) as (req & b1 & text & E1 & Hreq & Hs1 & Hbuf1 & Ht1 & Hr1).
  { intros req Hreq. rewrite He by done. by apply Hh. }
  { split_and!; [constructor; cbn; lia | done | done]. }
  rewrite He in E1, Hr1 by done.
  destruct (serve_loop_run ParseRequestURI spare currentDate DetectContentType grow readChunked maxDrainSize handler
    pool_New Hd Hs eq_refl buffered [q2] n err2 b1 1 Hn) as (b2 & reqs & texts & E2 & H1 & H2 & H3);
    [done | by apply Forall_singleton | done | cbn; lia|].
  inversion H1 as [|? req2 ? ? Hreq2 H1']; subst. inversion H1'; subst. cbn in H2.
  inversion H2 as [|? text2 ? ? Hr2 H2']; subst. inversion H2'; subst. cbn [map concat] in E2, H3. rewrite app_nil_r in E2, H3.
  assert (bw_out b1 = text) as Ho1 by (unfold total in Ht1; rewrite Hbuf1, app_nil_r in Ht1; exact Ht1).
  exists b1, b2, req, req2, text, text2. split_and!; try done.
  - unfold serve. cbn [serve_loop rd_data]. rewrite sr_head_marker, andb_false_r, E1.
    by rewrite (after_early ParseRequestURI readChunked maxDrainSize q req _ early (sr_text q2) n err) by (done || by apply Hh).
  - rewrite H3. unfold total. by rewrite Hbuf1, app_nil_r, Ho1.
Qed.

(** The last nineteen bytes of a body come late. *)
Lemma late_body_served_witness :
  let h (_ : Request) (_ : bytes) := mkHandling ∅ 0 [OWrite (bs "ok")] false in
  let q2 := mkSent (bs "GET /b HTTP/1.1") [] [] (mkRequestLine GET (bs "/b") 1 1) (plainURL [] (bs "/b") []) [] no_framing in
  let q := mkSent (bs "POST /a HTTP/1.1") [bs "Content-Length: 22"] (bs "abc" ++ sr_text q2) (mkRequestLine POST (bs "/a") 1 1)
    (plainURL [] (bs "/a") []) [mkHeaderLine (bs "Content-Length") (bs "22")] (mkMeta REQUEST 0 true 22 false) in
  exists b1 b2 req2,
    serve_loop (fun _ => inr ErrReqMethod) (fun n => n) (bs "now") (fun _ => bs "text/plain") (fun n => n)
      (fun _ rest => ([], rest)) 65536 h pool_New (fun _ => false) 1 (mkReader 16 (sr_head q ++ bs "abc") IOEOF)
      (mkWriter 16 healthy [] false []) = Ok (false, mkReader 16 [] IOEOF, b1) /\
    serve_loop (fun _ => inr ErrReqMethod) (fun n => n) (bs "now") (fun _ => bs "text/plain") (fun n => n)
      (fun _ rest => ([], rest)) 65536 h pool_New (fun _ => false) 1 (mkReader 16 (sr_text q2) IOEOF) b1 =
      Ok (false, mkReader 16 [] IOEOF, b2) /\
    is_request q2 req2.
Proof.
  intros h q2 q.
  assert (forall l : bytes, (LF ∉ l <-> bool_decide (LF ∉ l) = true)) as Hdec by (intros; by rewrite bool_decide_eq_true).
  assert (forall req body, deliverable (h req body)) as Hdel
    by (intros req body; split_and!; [done | by constructor | by vm_compute | by eexists _, 200]).
  destruct (late_body_served (fun _ => inr ErrReqMethod) (fun n => n) (bs "now") (fun _ => bs "text/plain") (fun n => n)
    (fun _ rest => ([], rest)) 65536 h (fun _ => false) q (bs "abc") q2 16 16 IOEOF IOEOF)
    as (b1 & b2 & req & req2 & text & text2 & E1 & _ & _ & _ & E2 & H2 & _);
    [by vm_compute | intros _; by vm_compute | lia | lia | | by vm_compute | done | by vm_compute
    | intros; split; [apply Hdel | cbn; lia] | split; [|intros; apply Hdel] |].
  - constructor; try (by vm_compute); repeat constructor; try done; by apply Hdec; vm_compute.
  - constructor; [constructor | by vm_compute..]; try (by vm_compute); repeat constructor; try done; by apply Hdec; vm_compute.
  - exists b1, b2, req2. split; [exact E1|]. split; [exact E2 | exact H2].
Defined.
