(* ===== verification/ServeChunked.v ===== *)
(** * Requests with chunked bodies (engine/engine.go, internal/parser/request.go)

    A chunked body reaches the handler as the data of its chunks, and what the
    handler leaves of it is drained.  The reader of the body stops after the chunk of
    length 0; nothing in the engine reads the line end that follows, and so the next
    request line that is read on the connection is an empty one. *)

From S2P Require Import Prelude Scan Strconv Method StartLine Framing Chunked Message MessageRoundtrip ChunkedBody.
From S2P Require Import Request RequestSpec Bufio Adaptor AdaptorFaults AdaptorSpec AdaptorRoundtrip Engine Serve ServeEnds.

(** A request head that announces a chunked body. *)
Record chunked_head (ParseRequestURI : bytes -> url_URL + perror) (q : sent_request) : Prop := {
  ch_head : well_headed ParseRequestURI q;
  ch_framing : m_hasTransferEncoding (sr_meta q) = true }.

Section ServeChunked.
Context (ParseRequestURI : bytes -> url_URL + perror) (spare : nat -> nat)
  (readChunked : Z -> bytes -> bytes * bytes) (maxDrainSize : Z).
Context (chunks_read : reads_chunks readChunked).

Lemma chunked_fields q req :
  chunked_head ParseRequestURI q -> is_request q req ->
  r_Body req = ChunkedReader /\ r_ContentLength req = -1 /\ r_TransferEncoding req = [bs "chunked"].
Proof.
  intros [_ Hq] (h & m & -> & _). unfold request_of. cbn [r_Body r_ContentLength r_TransferEncoding].
  unfold request_framing. by rewrite Hq.
Qed.

Lemma blen_concat_encode cs rest : blen (concat cs) < blen (encode_chunks cs ++ rest).
Proof.
  unfold encode_chunks. assert (blen (concat cs) <= blen (concat (map encode_chunk cs))) as H.
  { induction cs as [|c cs IH]; cbn [map concat]; [done|]. unfold encode_chunk at 1. rewrite !blen_app.
    pose proof (blen_nonneg (formatInt (blen c) 16)). change (blen CRLF) with 2. lia. }
  rewrite !blen_app. pose proof (blen_nonneg rest). change (blen last_chunk) with 5. lia.
Qed.

(** The handler is given the data of the chunks. *)
Lemma body_of_chunks q req cs rest n err :
  chunked_head ParseRequestURI q -> is_request q req -> client_chunks cs ->
  body_of readChunked req (mkReader n (encode_chunks cs ++ rest) err) = concat cs.
Proof.
  intros Hq Hreq Hcs. destruct (chunked_fields q req Hq Hreq) as (Hb & _). unfold body_of. rewrite Hb. cbn [rd_data].
  rewrite chunks_read; [done | done | apply blen_concat_encode].
Qed.

(** The drain goes to the end of the body, and not over the line end after it. *)
Lemma after_chunks q req k cs rest n err :
  chunked_head ParseRequestURI q -> is_request q req -> client_chunks cs -> asks_close q = false ->
  blen (concat cs) <= maxDrainSize < 2 ^ 63 - 1 ->
  after_request readChunked maxDrainSize req k (mkReader n (encode_chunks cs ++ rest) err) = (false, mkReader n (CRLF ++ rest) err).
Proof.
  intros Hq Hreq Hcs Hc Hmax. rewrite <- (asks_close_sound q req Hreq) in Hc. apply orb_false_iff in Hc as [Hc1 Hc2].
  destruct (chunked_fields q req Hq Hreq) as (Hb & Hl & Ht). pose proof (blen_nonneg (concat cs)).
  unfold after_request, drain. rewrite Hb, Hl, Ht. cbn [rd_data rd_size rd_err].
  assert (drain_limit maxDrainSize = maxDrainSize + 1) as -> by (unfold drain_limit; rewrite wrap64_small; lia).
  rewrite chunks_read by (done || lia). change ((0 <? -1) || (0 <? blen [bs "chunked"])) with true. cbn [andb].
  rewrite Hc1, Hc2. destruct (Z.ltb_spec maxDrainSize (blen (concat cs) - Z.min (Z.of_nat k) (blen (concat cs)))); [lia|].
  done.
Qed.

(** An empty line is no request line. *)
Lemma ReadRequest_blank rest n err :
  (0 < n)%nat -> ReadRequest ParseRequestURI spare (mkReader n (CRLF ++ rest) err) = Ok (inr ErrReqMethod, mkReader n rest err).
Proof.
  intros Hn. unfold ReadRequest, mbind, RM_bind. pose proof (readCRLFLine_readable n [] rest err Hn) as E. cbn [app] in E.
  rewrite E; [done|]. split; [apply not_elem_of_nil | by vm_compute].
Qed.
End ServeChunked.

(** C37. A request with a chunked body is the last one its connection can serve.  The
    handler is given exactly the data of the chunks and its response is sent; but
    the line end after the last chunk stays in the input, the engine takes it for a
    request line, and closes the connection, without an answer to what comes next:
    at once when the line end is buffered or the end of a header block has arrived,
    and otherwise when it does. *)
Theorem chunked_request_is_last ParseRequestURI spare currentDate DetectContentType grow readChunked maxDrainSize handler
    buffered q cs rest n k err :
  reads_chunks readChunked -> clean currentDate -> (forall p, clean (DetectContentType p)) -> (0 < n)%nat -> (0 < k)%nat ->
  chunked_head ParseRequestURI q -> asks_close q = false -> client_chunks cs ->
  blen (concat cs) <= maxDrainSize < 2 ^ 63 - 1 ->
  (forall req, is_request q req -> deliverable (handler req (concat cs))) ->
  exists b req text,
    serve_loop ParseRequestURI spare currentDate DetectContentType grow readChunked maxDrainSize handler pool_New buffered
      2 (mkReader n (sr_head q ++ encode_chunks cs ++ rest) err) (mkWriter k healthy [] false []) =
      (if buffered (CRLF ++ rest) || contains (CRLF ++ rest) headerEndMarker
       then Ok (true, mkReader n rest err, b) else Ok (false, mkReader n (CRLF ++ rest) err, b)) /\
    is_request q req /\ is_response (handler req (concat cs)) text /\ bw_out b = text.
Proof.
  intros Hlaw Hd Hs Hn Hk Hq Hc Hcs Hmax Hh.
  assert (forall req, is_request q req -> body_of readChunked req (mkReader n (encode_chunks cs ++ rest) err) = concat cs) as He
    by (intros req Hreq; by eapply body_of_chunks).
  destruct (handle_head ParseRequestURI spare currentDate DetectContentType grow readChunked handler pool_New Hd Hs eq_refl
    q (encode_chunks cs ++ rest) n err (mkWriter k healthy [] false []) Hn (ch_head _ _ Hq))
    as (req & b & text & E1 & Hreq & Hs1 & Hbuf1 & Ht1 & Hr1).
  { intros req Hreq. rewrite He by done. by apply Hh. }
  { split_and!; [constructor; cbn; lia | done | done]. }
  rewrite He in E1, Hr1 by done. exists b, req, text. split_and!; [|done | done|].
  - cbn [serve_loop rd_data]. rewrite sr_head_marker, andb_false_r, E1, (after_chunks ParseRequestURI) with (q := q) by done.
    cbn [rd_data app CRLF]. rewrite <- negb_orb. destruct (_ || _) eqn:Ew; [|done]. cbn [negb].
    unfold handleRequest. pose proof (ReadRequest_blank ParseRequestURI spare rest n err Hn) as Eb. cbn [app CRLF] in Eb. by rewrite Eb.
  - unfold total in Ht1. rewrite Hbuf1, app_nil_r in Ht1. exact Ht1.
Qed.

(** Two pipelined requests: the second is not answered. *)
Lemma chunked_request_is_last_witness :
  let h (_ : Request) (body : bytes) := mkHandling ∅ 0 [OWrite body] false in
  let q := mkSent (bs "POST /a HTTP/1.1") [bs "Transfer-Encoding: chunked"] [] (mkRequestLine POST (bs "/a") 1 1)
    (plainURL [] (bs "/a") []) [mkHeaderLine (bs "Transfer-Encoding") (bs "chunked")] (mkMeta REQUEST 0 false 0 true) in
  let next := bs "GET /b HTTP/1.1" ++ CRLF ++ CRLF in
  exists b req text,
    serve_loop (fun _ => inr ErrReqMethod) (fun n => n) (bs "now") (fun _ => bs "text/plain") (fun n => n)
      chunkedReader 65536 h pool_New (fun _ => false) 2
      (mkReader 16 (sr_head q ++ encode_chunks [bs "hello"; bs "world"] ++ next) IOEOF) (mkWriter 16 healthy [] false []) =
      Ok (true, mkReader 16 next IOEOF, b) /\
    is_response (h req (bs "helloworld")) text /\ bw_out b = text.
Proof.
  intros h q next.
  assert (forall l : bytes, (LF ∉ l <-> bool_decide (LF ∉ l) = true)) as Hdec by (intros; by rewrite bool_decide_eq_true).
  destruct (chunked_request_is_last (fun _ => inr ErrReqMethod) (fun n => n) (bs "now") (fun _ => bs "text/plain") (fun n => n)
    chunkedReader 65536 h (fun _ => false) q [bs "hello"; bs "world"] next 16 16 IOEOF)
    as (b & req & text & E & _ & Hr & Ho);
    [apply chunkedReader_reads | by vm_compute | intros _; by vm_compute | lia | lia | | by vm_compute
    | repeat constructor; done | by vm_compute | |].
  - split; [|done]. constructor; try (by vm_compute); repeat constructor; try done; by apply Hdec; vm_compute.
  - intros req _. split_and!; [done | by constructor | by vm_compute | by eexists _, 200].
  - exists b, req, text. split; [exact E|]. split; [exact Hr | exact Ho].
Defined.
