(* ===== verification/ServeHead.v ===== *)
(** * Responses that must not have a body (adaptor/adaptor.go)

    HTTP has no body in a response to a HEAD request, nor in one with status 1xx, 204
    or 304: a client reads such a response up to the empty line.  The response writer
    keeps the request it answers and never looks at it, and it looks at the status
    for its text only. *)

From S2P Require Import Prelude Scan Strconv Method StartLine Framing Chunked Message MessageRoundtrip.
From S2P Require Import Request RequestSpec Bufio Adaptor AdaptorFaults AdaptorSpec AdaptorRoundtrip Engine Serve.

(** A response with status [code] to a request with method [m] has no body. *)
Definition bodiless (m : Method) (code : Z) : bool := bool_decide (m = HEAD) || responseStatusHasNoBody code.

(** [enc] carries [body]: as it is, or in chunks. *)
Definition carries (enc body : bytes) : Prop := enc = body \/ exists cs, chunked_text enc cs /\ concat cs = body.

Lemma carries_ne enc body : carries enc body -> body <> [] -> enc <> [].
Proof. by intros [->|(cs & [] & _)] Hb; [|intros [_ [? _]%app_eq_nil]%app_eq_nil..]. Qed.

Lemma body_text_carries meta enc body : body_text meta enc body -> body <> [] -> carries enc body.
Proof.
  unfold body_text. destruct (decideBodyMode meta).
  all: try (by intros [_ ->]); try (by intros [-> _]; left). intros (cs & Hc & ->) _. right. by exists cs.
Qed.

(** The text of a response with a body goes on after its empty line, with the body. *)
Lemma response_goes_on h text :
  is_response h text -> written (hd_calls h) <> [] ->
  exists line lines enc ph code, text = line ++ CRLF ++ header_block lines ++ CRLF ++ enc /\
    carries enc (written (hd_calls h)) /\
    phases (Fresh, StatusOK) (hd_calls h) = Some (ph, code) /\ crlf_free line /\ Forall header_text lines /\
    parseResponseLineBytes line = Ok (Some (status_line_of code)).
Proof.
  intros (ph & code & hs & mode & meta & Hp & Ht) Hne. pose proof (parse_sound text RESPONSE) as Hs. rewrite Ht in Hs.
  destruct Hs as (line & lines & enc & meta0 & E & Hl & Hst & [Hh _] & _ & _ & _ & Hb).
  exists line, lines, enc, ph, code. split_and!; try done; [|apply Hst]. by eapply body_text_carries.
Qed.

(** C38. A response that must not have a body is sent with one: on a healthy
    connection, to a HEAD request or with a status that has none, all that the
    handler writes (something, in calls that the response writer can deliver) is
    sent after the empty line, as it is or in chunks, like any body, and the
    connection is kept open; to the client it is the start of the next response. *)
Theorem bodiless_answered_with_body ParseRequestURI spare currentDate DetectContentType grow readChunked maxDrainSize handler
    buffered q n k err :
  clean currentDate -> (forall p, clean (DetectContentType p)) -> (0 < n)%nat -> (0 < k)%nat ->
  servable ParseRequestURI maxDrainSize handler q ->
  (forall req, is_request q req -> let h := handler req (sr_body q) in written (hd_calls h) <> [] /\
     forall ph code, phases (Fresh, StatusOK) (hd_calls h) = Some (ph, code) -> bodiless (rl_Method (sr_request q)) code = true) ->
  exists b req line lines enc code,
    serve_loop ParseRequestURI spare currentDate DetectContentType grow readChunked maxDrainSize handler pool_New
      buffered 1 (mkReader n (sr_text q) err) (mkWriter k healthy [] false []) = Ok (false, mkReader n [] err, b) /\
    is_request q req /\ bodiless (rl_Method (sr_request q)) code = true /\
    bw_out b = line ++ CRLF ++ header_block lines ++ CRLF ++ enc /\ enc <> [] /\
    carries enc (written (hd_calls (handler req (sr_body q)))) /\
    crlf_free line /\ Forall header_text lines /\ parseResponseLineBytes line = Ok (Some (status_line_of code)).
Proof.
  intros Hd Hs Hn Hk Hq Hh.
  destruct (serve_loop_run ParseRequestURI spare currentDate DetectContentType grow readChunked maxDrainSize handler
    pool_New Hd Hs eq_refl buffered [q] n err (mkWriter k healthy [] false []) 1 Hn) as (b & reqs & texts & E & H1 & H2 & H3);
    [done | by apply Forall_singleton | by split_and!; [constructor; cbn; lia | |] | cbn; lia|].
  inversion H1 as [|? req ? ? Hreq H1']; subst. inversion H1'; subst. cbn in H2.
  inversion H2 as [|? text ? ? Hr H2']; subst. inversion H2'; subst. cbn [map concat] in E, H3. rewrite app_nil_r in E, H3.
  destruct (Hh req Hreq) as [Hne Hcode].
  destruct (response_goes_on _ _ Hr Hne) as (line & lines & enc & ph & code & Et & Henc & Hp & Hl & Hhl & Hst).
  exists b, req, line, lines, enc, code. split_and!; try done; [by eapply Hcode | by rewrite H3, <- Et | by eapply carries_ne].
Qed.

Lemma bodiless_answered_with_body_witness :
  let h (_ : Request) (_ : bytes) := mkHandling ∅ 0 [OWrite (bs "page")] false in
  let q := mkSent (bs "HEAD / HTTP/1.1") [] [] (mkRequestLine HEAD (bs "/") 1 1) (plainURL [] (bs "/") []) [] no_framing in
  exists b line lines enc,
    serve_loop (fun _ => inr ErrReqMethod) (fun n => n) (bs "now") (fun _ => bs "text/plain") (fun n => n)
      (fun _ rest => ([], rest)) 65536 h pool_New (fun _ => false) 1
      (mkReader 16 (sr_text q) IOEOF) (mkWriter 16 healthy [] false []) = Ok (false, mkReader 16 [] IOEOF, b) /\
    bw_out b = line ++ CRLF ++ header_block lines ++ CRLF ++ enc /\ carries enc (bs "page").
Proof.
  intros h q.
  assert (forall l : bytes, (LF ∉ l <-> bool_decide (LF ∉ l) = true)) as Hdec by (intros; by rewrite bool_decide_eq_true).
  destruct (bodiless_answered_with_body (fun _ => inr ErrReqMethod) (fun n => n) (bs "now") (fun _ => bs "text/plain") (fun n => n)
    (fun _ rest => ([], rest)) 65536 h (fun _ => false) q 16 16 IOEOF)
    as (b & req & line & lines & enc & code & E & _ & _ & Ho & _ & Hne & _);
    [by vm_compute | intros _; by vm_compute | lia | lia | split | |].
  - constructor; [constructor | by vm_compute..]; try (by vm_compute); repeat constructor; try done; by apply Hdec; vm_compute.
  - intros req _. split_and!; [done | by constructor | by vm_compute | by eexists _, 200].
  - intros req _. split; [done|]. intros ph code _. by vm_compute.
  - exists b, line, lines, enc. split; [exact E|]. split; [exact Ho | exact Hne].
Defined.
