(* ===== verification/ServePark.v ===== *)
(** * Parked buffers (engine/engine.go, releasePooledIO)

    Between events a connection holds no buffers: the request loop gives its buffered
    reader and writer back to their pools, reset to a reader that is at its end and a
    writer that takes everything.  Resetting drops what is buffered; a connection
    that stays open has nothing buffered then, whatever the handler did. *)

From S2P Require Import Prelude Scan Strconv Method StartLine Framing Message MessageRoundtrip Request RequestSpec Reader.
From S2P Require Import Bufio Adaptor AdaptorFaults Engine Serve.

(** ** The parked reader and writer *)

Inductive noopReader : Type := parkedReader.

#[global] Instance noopReader_Read : ioReader noopReader := fun _ r => ([], Some IOEOF, r).

Definition noopWriter : connWrite := fun _ _ => None.

(** [Reset(parkedReader)] and [Reset(parkedWriter)]; [Reset(conn)] when the writer is
    taken from its pool, for a connection that has delivered [out]. *)
Definition park_reader {R} (b : bufio R) : bufio noopReader := mkBufio (b_size b) [] None parkedReader.
Definition park_writer (b : bufWriter) : bufWriter := mkWriter (bw_size b) noopWriter [] false [].
Definition unpark_writer (conn : connWrite) (out : bytes) (b : bufWriter) : bufWriter := mkWriter (bw_size b) conn [] false out.

(** A reader that is used after its release reads the end of the input, and nothing
    of any connection. *)
Lemma parked_reader_ends {R} n (b : bufio R) :
  Read n (park_reader b) = ([], if (n =? 0)%nat then None else Some IOEOF, park_reader b).
Proof.
  unfold park_reader, Read, bufio_reader, bufio_Read. cbn [b_buf b_err]. destruct (Nat.eqb_spec n 0); [done|].
  cbn [b_size b_rd]. unfold Read, noopReader_Read. by destruct (b_size b <=? n)%nat.
Qed.

(** A writer that is used after its release takes everything. *)
Lemma parked_writer_sound b : (0 < bw_size b)%nat -> sound (park_writer b).
Proof. intros H. split_and!; [by constructor; cbn; lia | done | done]. Qed.

(** ** Nothing is lost *)

(** Nothing buffered and no error. *)
Definition settled (b : bufWriter) : Prop := bw_buf b = [] /\ bw_err b = false.

Lemma unpark_park b : settled b -> unpark_writer (bw_conn b) (bw_out b) (park_writer b) = b.
Proof. intros [H1 H2]. destruct b. cbn in *. by rewrite H1, H2. Qed.

Lemma EndResponse_buffer currentDate w w' :
  w_hijacked w = false -> EndResponse currentDate w = Ok (inl tt, w') -> exists b, w_bufWriter w' = Some b.
Proof.
  intros Hh. unfold EndResponse. intros (a & w1 & E1 & H)%bind_inl. injection E1 as <- <-. rewrite Hh in H.
  repeat (apply bind_inl in H as (? & ? & _ & H)). unfold wflush in H.
  destruct (w_bufWriter _) as [b0|]; [|done]. destruct (bw_err _); [done|]. injection H as <-. by eexists.
Qed.

Section Park.
Context (ParseRequestURI : bytes -> url_URL + perror) (spare : nat -> nat)
  (currentDate : bytes) (DetectContentType : bytes -> bytes) (grow : nat -> nat)
  (readChunked : Z -> bytes -> bytes * bytes) (maxDrainSize : Z)
  (handler : Request -> bytes -> handling) (pooled : ResponseWriter).

Abbreviation handle := (handleRequest ParseRequestURI spare currentDate DetectContentType grow readChunked handler pooled).
Abbreviation loop := (serve_loop ParseRequestURI spare currentDate DetectContentType grow readChunked maxDrainSize handler pooled).

(** The input has ended inside a request, or before one. *)
Definition input_ended (r' : bufReader) : Prop := exists r, ReadRequest ParseRequestURI spare r = Ok (inr IOEOF, r').

(** A request that is handled leaves the writer settled; one that is not read does
    not touch it. *)
Lemma handle_settled r b h r' b' :
  settled b -> handle r b = Ok (h, r', b') ->
  match h with
  | HandleDone _ _ => settled b'
  | HandleError eof => eof = true -> settled b' /\ input_ended r'
  end.
Proof.
  intros Hb. unfold handleRequest. destruct (ReadRequest _ _ r) as [[[req|e] r1]|] eqn:Er; [| |done].
  2:{ intros [= <- <- <-] ->%bool_decide_eq_true. split; [done | by exists r]. }
  set (hd := handler req _). cbv zeta. set (w := set_header _ _).
  destruct (run_ops _ _ _ _ w) as [[x w1]|] eqn:Eo; [|done].
  assert (w_hijacked w1 = false) as Hh by (by apply (gd_keep _ (good_run_ops currentDate DetectContentType grow (hd_calls hd))) in Eo).
  destruct (hd_panics hd).
  - repeat case_match; try done; intros [=]; by subst.
  - destruct (EndResponse currentDate w1) as [[[[]|e] w2]|] eqn:Ee; [| |done]; intros [= <- _ <-]; [|done].
    destruct (EndResponse_buffer _ _ _ Hh Ee) as [b2 Hw2]. unfold buffer_of. rewrite Hw2.
    by eapply EndResponse_flushed.
Qed.

Lemma loop_settled buffered fuel r b r' b' :
  settled b -> loop buffered fuel r b = Ok (false, r', b') ->
  settled b' /\ (buffered (rd_data r') = false \/ rd_data r' = [] \/ input_ended r').
Proof.
  revert r b. induction fuel as [|fuel IH]; intros r b Hb; cbn [serve_loop]; [done|].
  destruct (negb (buffered (rd_data r)) && _) eqn:Ew.
  { intros [= <- <-]. apply andb_true_iff in Ew as [Ew%negb_true_iff _]. by split; [|left]. }
  destruct (handle r b) as [[[h r1] b1]|] eqn:Eh; [|done]. apply handle_settled in Eh; [|done]. destruct h as [eof|req k].
  { intros [= He <- <-]. apply negb_false_iff in He. destruct (Eh He) as [H1 H2]. split; [done|]. by right; right. }
  destruct (after_request _ _ _ _ _) as [[] r2]; [done|]. destruct (rd_data r2) eqn:Ed; [|by apply IH].
  intros [= <- <-]. split; [done|]. right. by left.
Qed.
End Park.

(** C21. Parking loses nothing: whatever the input, the handlers and the connection,
    when the request loop leaves a connection open everything that was written has
    been handed to the connection without an error, so that the writer comes back
    from its pool as it was, and the reader's buffer is empty, unless the input has
    ended. *)
Theorem parking_loses_nothing ParseRequestURI spare currentDate DetectContentType grow readChunked maxDrainSize handler pooled
    buffered fuel r conn n out r' b' :
  let loop := serve_loop ParseRequestURI spare currentDate DetectContentType grow readChunked maxDrainSize handler pooled buffered fuel in
  loop r (mkWriter n conn [] false out) = Ok (false, r', b') ->
  unpark_writer (bw_conn b') (bw_out b') (park_writer b') = b' /\
  (buffered (rd_data r') = false \/ rd_data r' = [] \/ input_ended ParseRequestURI spare r').
Proof.
  intros loop E. apply loop_settled in E as [Hb Hr]; [|done]. split; [by apply unpark_park | exact Hr].
Qed.

(** One request, and the start of a second one. *)
Lemma parking_loses_nothing_witness :
  let h (_ : Request) (_ : bytes) := mkHandling ∅ 0 [OWrite (bs "hello")] false in
  let r := mkReader 16 (bs "GET / HTTP/1.1" ++ CRLF ++ CRLF ++ bs "GE") IOEOF in
  exists r' b', serve_loop (fun _ => inr ErrReqMethod) (fun n => n) (bs "now") (fun _ => bs "text/plain") (fun n => n)
      (fun _ rest => ([], rest)) 65536 h pool_New (fun _ => false) 2 r (mkWriter 16 healthy [] false []) = Ok (false, r', b') /\
    unpark_writer (bw_conn b') (bw_out b') (park_writer b') = b'.
Proof.
  intros h r. destruct (serve_loop _ _ _ _ _ _ _ h _ _ 2 r (mkWriter 16 healthy [] false [])) as [[[c r'] b']|] eqn:E;
    [|vm_compute in E; discriminate].
  destruct c; [vm_compute in E; discriminate|]. exists r', b'. split; [reflexivity|].
  exact (proj1 (parking_loses_nothing _ _ _ _ _ _ _ _ _ _ _ _ _ _ _ _ _ E)).
Defined.
