(* ===== verification/ServeHijack.v ===== *)
(** * Handlers that take over the connection (engine/engine.go)

    The request loop as a whole, with every handler: one that changes its headers and
    trailers between calls, sets a read handler, or takes the connection over.  A
    handler is the list of what it does, given the request, its body and the input
    that follows; after [Hijack] it may read the rest of the input and write to the
    connection, through the buffered writer or past it.  When it has taken over, the
    loop leaves the connection to the read handler that was set, or waits for the
    disconnect.  For handlers that do none of this the loop is [serve_loop]. *)

From S2P Require Import Prelude Scan Strconv Method StartLine Framing Message MessageRoundtrip.
From S2P Require Import Request RequestSpec Bufio Adaptor AdaptorFaults AdaptorLimits AdaptorSpec AdaptorRoundtrip Serve ServeEnds.

(** ** What a handler does *)

Inductive action : Type :=
| OnWriter (o : op)                        (* a call on the response writer *)
| EditHeader (f : Header -> Header)        (* on the map that [Header] returns *)
| EditTrailer (f : Header -> Header)       (* on the map that [Trailer] returns *)
| SetReadHandlerTo (h : nat)
| TakeOver                                 (* [Hijack] *)
| ConnRead (n : nat)                       (* reads of the connection taken over *)
| ConnWrite (p : bytes)                    (* a write to it *)
| BufWrite (p : bytes) | BufFlush.         (* the same through the buffered writer *)

(** How much it reads of the body (before it takes over, if it does), what it does,
    and whether it panics after that. *)
Record program : Type := mkProgram { pg_read : nat; pg_actions : list action; pg_panics : bool }.

(** The response writer, the buffered writer once the handler has it, the unread
    input, and the connection's read handler. *)
Record live : Type := mkLive {
  lv_w : ResponseWriter; lv_taken : option bufWriter; lv_data : bytes; lv_handler : option nat }.

(** What [handleRequest] returns: an error, [io.EOF] or another one, or the request
    with how much of its body was read, and whether the connection was taken over. *)
Inductive ran : Type := RanError (eof : bool) | RanDone (req : Request) (bodyRead : nat) (hijacked : bool).

(** How the loop ends: the connection waits for input, or was closed, or belongs to
    its read handler, or the call waits for the disconnect ([<-ctx.Done()]). *)
Inductive ending : Type := Waiting | Closed | HandedOver (h : nat) | AwaitsDone.

Section Hijack.
Context (ParseRequestURI : bytes -> url_URL + perror) (spare : nat -> nat)
  (currentDate : bytes) (DetectContentType : bytes -> bytes) (grow : nat -> nat)
  (readChunked : Z -> bytes -> bytes * bytes) (maxDrainSize : Z)
  (handler : Request -> bytes -> bytes -> program) (pooled : ResponseWriter).

(** On the buffered writer, if the handler has it. *)
Definition on_taken (f : bufWriter -> res bufWriter) (l : live) : res live :=
  match lv_taken l with
  | None => Ok l
  | Some b =>
      match f b with
      | Crash e => Crash e
      | Ok b' => Ok (mkLive (lv_w l) (Some b') (lv_data l) (lv_handler l))
      end
  end.

Definition act (a : action) (l : live) : res live :=
  let with_w w := mkLive w (lv_taken l) (lv_data l) (lv_handler l) in
  match a with
  | OnWriter o =>
      match run_op currentDate DetectContentType grow o (lv_w l) with
      | Crash f => Crash f
      | Ok (_, w) => Ok (with_w w)
      end
  | EditHeader f => Ok (with_w (set_header (f (w_header (lv_w l))) (lv_w l)))
  | EditTrailer f => Ok (with_w (set_trailer (f (w_trailer (lv_w l))) (lv_w l)))
  | SetReadHandlerTo h => Ok (mkLive (lv_w l) (lv_taken l) (lv_data l) (Some h))
  | TakeOver =>
      match Hijack (lv_w l) with
      | Crash f => Crash f
      | Ok (inl b, w) => Ok (mkLive w b (lv_data l) (lv_handler l))
      | Ok (inr _, w) => Ok (with_w w)
      end
  | ConnRead n =>
      match lv_taken l with
      | None => Ok l
      | Some _ => Ok (mkLive (lv_w l) (lv_taken l) (drop n (lv_data l)) (lv_handler l))
      end
  | ConnWrite p =>
      on_taken (fun b => let '(_, _, out) := conn_write b p in
        Ok (mkWriter (bw_size b) (bw_conn b) (bw_buf b) (bw_err b) out)) l
  | BufWrite p => on_taken (fun b => match bw_Write b p with Ok (_, b') => Ok b' | Crash f => Crash f end) l
  | BufFlush => on_taken (fun b => Ok (bw_Flush b)) l
  end.

Fixpoint run_actions (l : list action) (s : live) : res live :=
  match l with
  | [] => Ok s
  | a :: l' => match act a s with Ok s' => run_actions l' s' | Crash f => Crash f end
  end.

(** What is unread when the handler has read [k] bytes of the body. *)
Definition body_read (req : Request) (k : nat) (data : bytes) : bytes :=
  match r_Body req with
  | NoBody => data
  | LimitReader n => drop (Z.to_nat (Z.min (Z.of_nat k) n)) data
  | ChunkedReader => snd (readChunked (Z.of_nat k) data)
  end.

(** [handleRequest]: with the read handler of the connection before and after. *)
Definition handle_program (rh : option nat) (r : bufReader) (b : bufWriter)
    : res (ran * option nat * bufReader * bufWriter) :=
  match ReadRequest ParseRequestURI spare r with
  | Crash f => Crash f
  | Ok (inr e, r') => Ok (RanError (bool_decide (e = IOEOF)), rh, r', b)
  | Ok (inl req, r') =>
      let p := handler req (body_of readChunked req r') (rd_data r') in
      match run_actions (pg_actions p)
              (mkLive (NewResponseWriter pooled b) None (body_read req (pg_read p) (rd_data r')) rh) with
      | Crash f => Crash f
      | Ok l =>
          match (if pg_panics p then
                   if w_headerSent (lv_w l) then mret tt
                   else _ ← WriteHeader 500; ignore (EndResponse currentDate)
                 else EndResponse currentDate) (lv_w l) with
          | Crash f => Crash f
          | Ok (e, w) =>
              Ok (if pg_panics p then RanError false
                  else match e with inr _ => RanError false | inl _ => RanDone req (pg_read p) (w_hijacked w) end,
                  lv_handler l,
                  (if w_hijacked w then mkReader (rd_size r') (lv_data l) (rd_err r') else r'),
                  match lv_taken l with Some b' => b' | None => buffer_of w b end)
          end
      end
  end.

(** The loop on an active connection whose input has arrived, by the only call at
    work on it, with the branch for a connection that was taken over. *)
Fixpoint serveHTTP (buffered : bytes -> bool) (fuel : nat) (rh : option nat) (r : bufReader) (b : bufWriter)
    : res (ending * option nat * bufReader * bufWriter) :=
  match fuel with
  | O => Crash OutOfFuel
  | S fuel' =>
      if negb (buffered (rd_data r)) && negb (contains (rd_data r) headerEndMarker) then Ok (Waiting, rh, r, b)
      else
        match handle_program rh r b with
        | Crash f => Crash f
        | Ok (RanError eof, rh, r, b) => Ok (if eof then Waiting else Closed, rh, r, b)
        | Ok (RanDone _ _ true, rh, r, b) =>
            Ok (match rh with Some h => HandedOver h | None => AwaitsDone end, rh, r, b)
        | Ok (RanDone req k false, rh, r, b) =>
            let '(close, r) := after_request readChunked maxDrainSize req k r in
            if close then Ok (Closed, rh, r, b)
            else match rd_data r with
                 | [] => Ok (Waiting, rh, r, b)
                 | _ => serveHTTP buffered fuel' rh r b
                 end
        end
  end.

(** ** Every handler comes to its end *)

(** The handler has the buffered writer exactly when the response writer is hijacked;
    wherever it is, it can be used. *)
Definition live_ok (l : live) : Prop :=
  match lv_taken l with
  | None => w_hijacked (lv_w l) = false /\ exists b, w_bufWriter (lv_w l) = Some b /\ usable b
  | Some b => w_hijacked (lv_w l) = true /\ usable b
  end.

Lemma usable_flush b : usable b -> usable (bw_Flush b).
Proof.
  intros Hb. destruct (bw_err b) eqn:E; [left; unfold bw_Flush; by rewrite E|].
  destruct Hb as [?|Hb]; [congruence|]. right. apply (bw_Flush_wrote b Hb E).
Qed.

Lemma usable_write b p : usable b -> exists n b', bw_Write b p = Ok (n, b') /\ usable b'.
Proof.
  intros Hb. unfold bw_Write. destruct (bw_err b) eqn:E.
  { exists 0%nat, b. split; [by apply write_loop_stuck | by left]. }
  destruct Hb as [?|Hb]; [congruence|]. destruct (bw_write_run true b p Hb E) as (n & b' & -> & [Hok _] & _).
  exists n, b'. split; [done | by right].
Qed.

Lemma on_taken_ok f l :
  (forall b, usable b -> exists b', f b = Ok b' /\ usable b') -> live_ok l ->
  exists l', on_taken f l = Ok l' /\ live_ok l' /\ (length (lv_data l') <= length (lv_data l))%nat.
Proof.
  intros Hf Hl. unfold on_taken. destruct (lv_taken l) as [b|] eqn:E; [|by exists l].
  unfold live_ok in Hl. rewrite E in Hl. destruct Hl as [Hh Hb]. destruct (Hf b Hb) as (b' & -> & Hb').
  eexists. split; [done|]. by split.
Qed.

Lemma run_op_hijacked o w : w_hijacked w = true -> run_op currentDate DetectContentType grow o w = Ok (inl tt, w).
Proof.
  intros Hh. destruct (hijacked_silent currentDate DetectContentType grow None w Hh) as (H1 & H2 & H3 & H4 & H5 & _).
  destruct o; cbn [run_op]; unfold ignore; by rewrite ?H1, ?H2, ?H3, ?H4, ?H5.
Qed.

Lemma Hijack_returns w b :
  w_hijacked w = false -> w_bufWriter w = Some b ->
  exists w', Hijack w = Ok (inl (Some (bw_Flush b)), w') /\ w_hijacked w' = true.
Proof.
  intros Hh Hb. unfold Hijack, mbind, W_bind, wget, wput, ignore, wflush. rewrite Hh. cbn. rewrite Hb. cbn.
  eexists. by split.
Qed.

Lemma act_ok a l : live_ok l ->
  exists l', act a l = Ok l' /\ live_ok l' /\ (length (lv_data l') <= length (lv_data l))%nat.
Proof.
  intros Hl. destruct a as [o|f|f|h| |n|p|p|]; cbn [act].
  - unfold live_ok in Hl. destruct (lv_taken l) as [b|] eqn:Et.
    + destruct Hl as [Hh Hb]. rewrite run_op_hijacked by done. eexists. split; [done|]. by split.
    + destruct Hl as (Hh & b & Hw & Hb). pose proof (good_run_op currentDate DetectContentType grow o) as Hg.
      destruct (good_returns _ _ b Hg Hw Hb) as (r & w' & b' & E & Hw' & Hb').
      pose proof (gd_keep _ Hg _ _ _ E) as Hk. rewrite E. eexists. split; [done|]. split; [|done].
      unfold live_ok. cbn. split; [congruence|]. eauto.
  - eexists. split; [done|]. by split.
  - eexists. split; [done|]. by split.
  - eexists. split; [done|]. by split.
  - unfold live_ok in Hl. destruct (lv_taken l) as [b|] eqn:Et.
    + destruct Hl as [Hh Hb].
      destruct (hijacked_silent currentDate DetectContentType grow None (lv_w l) Hh) as (_ & _ & _ & _ & _ & _ & ->).
      eexists. split; [done|]. by split.
    + destruct Hl as (Hh & b & Hw & Hb). destruct (Hijack_returns _ _ Hh Hw) as (w' & -> & Hh').
      eexists. split; [done|]. split; [|done]. split; [done | by apply usable_flush].
  - destruct (lv_taken l) as [b|] eqn:Et; [|by exists l]. eexists. split; [done|]. split; [|cbn; rewrite length_drop; lia].
    unfold live_ok in *. cbn. by rewrite Et in Hl.
  - destruct (on_taken_ok (fun b => let '(_, _, out) := conn_write b p in
      Ok (mkWriter (bw_size b) (bw_conn b) (bw_buf b) (bw_err b) out)) l) as (l' & -> & Hl'); [|done | by exists l'].
    intros b Hb. destruct (conn_write b p) as [[n e] out]. eexists. split; [done|].
    destruct Hb as [?|[? ?]]; [by left | by right; constructor].
  - destruct (on_taken_ok (fun b => match bw_Write b p with Ok (_, b') => Ok b' | Crash f => Crash f end) l)
      as (l' & -> & Hl'); [|done | by exists l'].
    intros b Hb. destruct (usable_write b p Hb) as (n & b' & -> & Hb'). by exists b'.
  - destruct (on_taken_ok (fun b => Ok (bw_Flush b)) l) as (l' & -> & Hl'); [|done | by exists l'].
    intros b Hb. eexists. split; [done | by apply usable_flush].
Qed.

Lemma run_actions_ok acts l : live_ok l ->
  exists l', run_actions acts l = Ok l' /\ live_ok l' /\ (length (lv_data l') <= length (lv_data l))%nat.
Proof.
  revert l. induction acts as [|a acts IH]; intros l Hl; cbn [run_actions]; [by exists l|].
  destruct (act_ok a l Hl) as (l1 & -> & H1 & Hle1). destruct (IH l1 H1) as (l2 & E & H2 & Hle2).
  exists l2. split; [exact E|]. split; [done | lia].
Qed.

(** What the engine does after the handler. *)
Lemma finish_ok (panics : bool) l b0 : live_ok l ->
  exists e w, (if panics then
                 if w_headerSent (lv_w l) then mret tt
                 else _ ← WriteHeader 500; ignore (EndResponse currentDate)
               else EndResponse currentDate) (lv_w l) = Ok (e, w) /\
    w_hijacked w = w_hijacked (lv_w l) /\
    usable (match lv_taken l with Some b' => b' | None => buffer_of w b0 end).
Proof.
  intros Hl. unfold live_ok in Hl. set (m := if panics then _ else _).
  destruct (lv_taken l) as [b|].
  - destruct Hl as [Hh Hb].
    destruct (hijacked_silent currentDate DetectContentType grow None (lv_w l) Hh) as (_ & _ & _ & H4 & _ & H6 & _).
    exists (inl tt), (lv_w l). split; [|done]. unfold m. destruct panics, (w_headerSent (lv_w l)); try done.
    unfold mbind, W_bind, ignore. by rewrite H4, H6.
  - destruct Hl as (Hh & b & Hw & Hb).
    assert (good m) as Hg.
    { unfold m. destruct panics; [|apply good_EndResponse]. destruct (w_headerSent (lv_w l)); [apply good_ret|].
      apply good_panic. }
    destruct (good_returns _ _ b Hg Hw Hb) as (r & w' & b' & E & Hw' & Hb'). exists r, w'. split; [exact E|].
    split; [by eapply gd_keep|]. unfold buffer_of. by rewrite Hw'.
Qed.

(** A chunked reader takes its bytes from the stream. *)
Hypothesis chunked_takes : forall k d, (length (snd (readChunked k d)) <= length d)%nat.

Lemma body_read_shrinks req k data : (length (body_read req k data) <= length data)%nat.
Proof. unfold body_read. destruct (r_Body req); [done | rewrite length_drop; lia | apply chunked_takes]. Qed.

Lemma handle_program_returns rh n data err b :
  (0 < n)%nat -> usable b ->
  exists h rh' data' b', handle_program rh (mkReader n data err) b = Ok (h, rh', mkReader n data' err, b') /\ usable b' /\
    (length data' <= length data)%nat /\ forall req k x, h = RanDone req k x -> (length data' < length data)%nat.
Proof.
  intros Hn Hb. unfold handle_program.
  destruct (ReadRequest_returns ParseRequestURI spare n data err Hn) as ([req|e] & data' & -> & Hle & Hlt).
  2:{ eexists (RanError _), rh, data', b. split_and!; done. }
  specialize (Hlt req eq_refl). set (p := handler req _ _). cbv zeta. cbn [rd_data rd_size rd_err].
  pose proof (body_read_shrinks req (pg_read p) data') as Hbody.
  set (l0 := mkLive (NewResponseWriter pooled b) None (body_read req (pg_read p) data') rh).
  assert (live_ok l0) as Hl0 by (split; [done | by exists b]).
  destruct (run_actions_ok (pg_actions p) l0 Hl0) as (l & -> & Hl & Hd). change (lv_data l0) with (body_read req (pg_read p) data') in Hd.
  destruct (finish_ok (pg_panics p) l b Hl) as (e & w & -> & _ & Hu).
  exists (if pg_panics p then RanError false
          else match e with inr _ => RanError false | inl _ => RanDone req (pg_read p) (w_hijacked w) end),
    (lv_handler l), (if w_hijacked w then lv_data l else data'), (match lv_taken l with Some b' => b' | None => buffer_of w b end).
  split; [by destruct (w_hijacked w)|]. split; [exact Hu|].
  assert (length (if w_hijacked w then lv_data l else data') <= length data')%nat by (destruct (w_hijacked w); lia).
  split; [lia|]. intros; lia.
Qed.

Lemma serveHTTP_returns buffered rh n err data b fuel :
  (0 < n)%nat -> usable b -> (length data < fuel)%nat ->
  exists e rh' data' b', serveHTTP buffered fuel rh (mkReader n data err) b = Ok (e, rh', mkReader n data' err, b') /\
    usable b' /\ (length data' <= length data)%nat /\
    match e with HandedOver h => rh' = Some h | AwaitsDone => rh' = None | _ => True end.
Proof.
  intros Hn. revert rh data b. induction fuel as [|fuel IH]; intros rh data b Hb Hf; [lia|]. cbn [serveHTTP].
  destruct (negb _ && negb _); [by exists Waiting, rh, data, b|].
  destruct (handle_program_returns rh n data err b Hn Hb) as (h & rh1 & d1 & b1 & -> & Hb1 & Hle & Hlt).
  destruct h as [eof|req k []].
  { exists (if eof then Waiting else Closed), rh1, d1, b1. by destruct eof. }
  { eexists _, rh1, d1, b1. split; [done|]. split_and!; [done | done|]. by destruct rh1. }
  specialize (Hlt req k false eq_refl).
  destruct (after_request_shrinks readChunked maxDrainSize chunked_takes req k n d1 err) as (d2 & E & Hle2).
  destruct (after_request _ _ _ _ _) as [close r]. cbn [snd] in E. subst r.
  destruct close; [exists Closed, rh1, d2, b1; split_and!; [done | done | lia | done]|].
  cbn [rd_data]. destruct d2 as [|x d2]; [exists Waiting, rh1, [], b1; split_and!; [done | done | cbn; lia | done]|].
  destruct (IH rh1 (x :: d2) b1 Hb1) as (e & rh3 & d3 & b3 & E3 & Hb3 & Hle3 & H3); [lia|].
  exists e, rh3, d3, b3. split_and!; [exact E3 | done | lia | done].
Qed.

(** ** Handlers that do not take over *)

Lemma act_stays a l l' : a <> TakeOver -> act a l = Ok l' -> w_hijacked (lv_w l) = false -> lv_taken l = None ->
  w_hijacked (lv_w l') = false /\ lv_taken l' = None.
Proof.
  intros Ha E Hh Ht. destruct a as [o|f|f|h| |n|p|p|]; cbn [act] in E; unfold on_taken in E; rewrite ?Ht in E; try by simplify_eq/=.
  destruct (run_op _ _ _ o (lv_w l)) as [[r w]|] eqn:Eo; [|done]. simplify_eq/=.
  by rewrite (gd_keep _ (good_run_op currentDate DetectContentType grow o) _ _ _ Eo).
Qed.

Lemma run_actions_stays acts l l' : TakeOver ∉ acts -> run_actions acts l = Ok l' ->
  w_hijacked (lv_w l) = false -> lv_taken l = None -> w_hijacked (lv_w l') = false /\ lv_taken l' = None.
Proof.
  revert l. induction acts as [|a acts IH]; intros l Hno E Hh Ht; cbn [run_actions] in E; [by simplify_eq|].
  apply not_elem_of_cons in Hno as [Ha Hno]. destruct (act a l) as [l1|] eqn:Ea; [|done].
  destruct (act_stays a l l1 (not_eq_sym Ha) Ea Hh Ht) as [H1 H2]. by eapply IH.
Qed.

Hypothesis stays : forall req body rest, TakeOver ∉ pg_actions (handler req body rest).

Lemma handle_program_stays rh r b h rh' r' b' :
  handle_program rh r b = Ok (h, rh', r', b') -> forall req k, h <> RanDone req k true.
Proof.
  unfold handle_program. destruct (ReadRequest _ _ r) as [[[req|e] r1]|]; [|by intros [= <- _ _ _]|done].
  set (p := handler _ _ _). destruct (run_actions _ _) as [l|] eqn:El; [|done].
  destruct (run_actions_stays _ _ _ (stays _ _ _) El eq_refl eq_refl) as [Hh Ht].
  match goal with |- context [match ?m with Ok _ => _ | Crash _ => _ end] => destruct m as [[e w]|] eqn:Ew; [|done] end.
  intros [= <- _ _ _] req' k. destruct (pg_panics p); [done|].
  rewrite (gd_keep _ (good_EndResponse currentDate) _ _ _ Ew), Hh. by destruct e.
Qed.

Lemma serveHTTP_stays buffered fuel rh r b e rh' r' b' :
  serveHTTP buffered fuel rh r b = Ok (e, rh', r', b') -> e = Waiting \/ e = Closed.
Proof.
  revert rh r b. induction fuel as [|fuel IH]; intros rh r b; cbn [serveHTTP]; [done|].
  destruct (negb _ && negb _); [intros [= <- _ _ _]; by left|].
  destruct (handle_program rh r b) as [[[[h rh1] r1] b1]|] eqn:Eh; [|done].
  pose proof (handle_program_stays _ _ _ _ _ _ _ Eh) as Hs. destruct h as [eof|req k []]; [|by destruct (Hs req k)|].
  { intros [= <- _ _ _]. destruct eof; [by left | by right]. }
  destruct (after_request _ _ _ _ _) as [[] r2]; [intros [= <- _ _ _]; by right|].
  destruct (rd_data r2); [intros [= <- _ _ _]; by left | apply IH].
Qed.
End Hijack.

(** C19. The request loop, with the branch for connections that are taken over, comes
    to an end on every input that has arrived: whatever bytes the peer has sent,
    whatever each handler does (it returns or panics; it may change headers and
    trailers between calls, set a read handler, take over the connection and read
    and write it), and wherever the connection fails, no request makes the loop
    panic or run for ever, and one turn per byte of input is enough.  The loop ends
    in one of four ways: the connection waits for input, it was closed, it is left
    to the read handler that was set last, or, when it was taken over and none is
    set, the call waits for the disconnect.  Handlers that do not take over the
    connection never lead to the last two. *)
Theorem serveHTTP_total ParseRequestURI spare currentDate DetectContentType grow readChunked maxDrainSize handler pooled
    buffered rh n data err b :
  (forall k d, (length (snd (readChunked k d)) <= length d)%nat) -> (0 < n)%nat -> usable b ->
  exists e rh' data' b',
    serveHTTP ParseRequestURI spare currentDate DetectContentType grow readChunked maxDrainSize handler pooled
      buffered (S (length data)) rh (mkReader n data err) b = Ok (e, rh', mkReader n data' err, b') /\
    (length data' <= length data)%nat /\
    match e with HandedOver h => rh' = Some h | AwaitsDone => rh' = None | _ => True end /\
    ((forall req body rest, TakeOver ∉ pg_actions (handler req body rest)) -> e = Waiting \/ e = Closed).
Proof.
  intros Hc Hn Hb.
  destruct (serveHTTP_returns ParseRequestURI spare currentDate DetectContentType grow readChunked maxDrainSize handler pooled
    Hc buffered rh n err data b (S (length data)) Hn Hb) as (e & rh' & data' & b' & E & _ & Hle & He); [lia|].
  exists e, rh', data', b'. split_and!; [exact E | done | done |]. intros Hno. by eapply serveHTTP_stays.
Qed.

Lemma serveHTTP_total_witness :
  let handler (_ : Request) (_ _ : bytes) := mkProgram 0 [EditTrailer (fun _ => ∅); TakeOver; ConnRead 2; BufWrite (bs "hello")] false in
  let data := bs "GET / HTTP/1.1" ++ CRLF ++ CRLF ++ bs "junk" in
  exists e rh' data' b', serveHTTP (fun _ => inr ErrReqMethod) (fun n => n) (bs "now") (fun _ => bs "text/plain") (fun n => n)
      (fun _ rest => ([], rest)) 65536 handler pool_New (fun _ => true) (S (length data)) None (mkReader 16 data IOEOF)
      (mkWriter 16 (fun _ _ => Some 3%nat) [] false []) = Ok (e, rh', mkReader 16 data' IOEOF, b') /\
    e = AwaitsDone /\ rh' = None /\ data' = bs "nk".
Proof.
  intros handler data.
  destruct (serveHTTP_total (fun _ => inr ErrReqMethod) (fun n => n) (bs "now") (fun _ => bs "text/plain") (fun n => n)
    (fun _ rest => ([], rest)) 65536 handler pool_New (fun _ => true) None 16 data IOEOF
    (mkWriter 16 (fun _ _ => Some 3%nat) [] false [])) as (e & rh' & data' & b' & E & _ & He & _);
    [done | lia | right; constructor; cbn; lia |].
  exists e, rh', data', b'. split; [exact E|]. vm_compute in E. injection E as <- <- <- <-. split_and!; reflexivity.
Defined.

(** ** The loop of the other theorems *)

(** A handler that sets its headers first and then only calls the response writer. *)
Definition plain (h : handling) : program :=
  mkProgram (hd_read h) (EditHeader (fun _ => hd_header h) :: map OnWriter (hd_calls h)) (hd_panics h).

Section Plain.
Context (ParseRequestURI : bytes -> url_URL + perror) (spare : nat -> nat)
  (currentDate : bytes) (DetectContentType : bytes -> bytes) (grow : nat -> nat)
  (readChunked : Z -> bytes -> bytes * bytes) (maxDrainSize : Z)
  (handler : Request -> bytes -> handling) (pooled : ResponseWriter).

Abbreviation ops := (run_ops currentDate DetectContentType grow).
Abbreviation actions := (run_actions currentDate DetectContentType grow).
Abbreviation programs := (fun req body (_ : bytes) => plain (handler req body)).

Lemma run_op_inl o w r w' : run_op currentDate DetectContentType grow o w = Ok (r, w') -> r = inl tt.
Proof.
  destruct o; cbn [run_op]; unfold ignore, WriteHeader, wput, Flush; intros E;
    repeat (case_match; simplify_eq/=; try done).
  unfold mbind, W_bind, wget, ignore in E. destruct (w_hijacked w); [by injection E as <- _|].
  case_match; [|done]. case_match. by injection E as <- _.
Qed.

Lemma run_calls os w d rh :
  actions (map OnWriter os) (mkLive w None d rh) =
    match ops os w with Ok (_, w') => Ok (mkLive w' None d rh) | Crash f => Crash f end.
Proof.
  revert w. induction os as [|o os IH]; intros w; [done|]. cbn [map run_actions act run_ops lv_w lv_taken lv_data lv_handler].
  unfold mbind, W_bind. destruct (run_op _ _ _ o w) as [[r w1]|] eqn:E; [|done].
  rewrite (run_op_inl _ _ _ _ E). apply IH.
Qed.

Lemma handle_plain rh r b :
  handle_program ParseRequestURI spare currentDate DetectContentType grow readChunked programs pooled rh r b =
    match handleRequest ParseRequestURI spare currentDate DetectContentType grow readChunked handler pooled r b with
    | Crash f => Crash f
    | Ok (HandleError eof, r', b') => Ok (RanError eof, rh, r', b')
    | Ok (HandleDone req k, r', b') => Ok (RanDone req k false, rh, r', b')
    end.
Proof.
  unfold handle_program, handleRequest. destruct (ReadRequest _ _ r) as [[[req|e] r1]|]; [|done..].
  set (h := handler req _). cbn [plain pg_actions pg_read pg_panics run_actions act lv_w lv_taken lv_data lv_handler].
  set (w0 := set_header (hd_header h) (NewResponseWriter pooled b)). rewrite run_calls.
  destruct (ops (hd_calls h) w0) as [[r2 w]|] eqn:Eo; [|done]. cbn [lv_w lv_taken lv_data lv_handler].
  assert (w_hijacked w = false) as Hh by (by rewrite (gd_keep _ (good_run_ops currentDate DetectContentType grow (hd_calls h)) _ _ _ Eo)).
  destruct (hd_panics h).
  - destruct (w_headerSent w); [unfold mret, W_ret; by rewrite Hh|].
    destruct ((_ ← WriteHeader 500; ignore (EndResponse currentDate)) w) as [[e w1]|] eqn:Ew; [|done].
    by rewrite (gd_keep _ (good_panic currentDate) _ _ _ Ew), Hh.
  - destruct (EndResponse currentDate w) as [[[[]|e] w1]|] eqn:Ew; [| |done];
      by rewrite (gd_keep _ (good_EndResponse currentDate) _ _ _ Ew), Hh.
Qed.

(** For handlers that set their headers, call the response writer and return or
    panic, the loop with its branch for connections taken over is [serve_loop]. *)
Theorem serveHTTP_plain buffered fuel rh r b :
  serveHTTP ParseRequestURI spare currentDate DetectContentType grow readChunked maxDrainSize programs pooled
    buffered fuel rh r b =
    match serve_loop ParseRequestURI spare currentDate DetectContentType grow readChunked maxDrainSize handler pooled
            buffered fuel r b with
    | Crash f => Crash f
    | Ok (closed, r', b') => Ok (if closed : bool then Closed else Waiting, rh, r', b')
    end.
Proof.
  revert r b. induction fuel as [|fuel IH]; intros r b; cbn [serveHTTP serve_loop]; [done|].
  destruct (negb _ && negb _); [done|]. rewrite handle_plain.
  destruct (handleRequest _ _ _ _ _ _ _ _ r b) as [[[[eof|req k] r1] b1]|]; [by destruct eof | | done].
  destruct (after_request _ _ _ _ _) as [[] r2]; [done|]. by destruct (rd_data r2).
Qed.
End Plain.

(** ** An upgrade *)

(** What an upgrade handler does: it takes the connection over, answers through the
    buffered writer and leaves a read handler. *)
Definition upgrade (answer : bytes) (h : nat) : program :=
  mkProgram 0 [TakeOver; BufWrite answer; BufFlush; SetReadHandlerTo h] false.

(** A well-formed request whose handler upgrades the connection: the engine adds
    nothing to the handler's answer, takes nothing of the input that follows the
    head of the request, and leaves the connection to the read handler. *)
Theorem upgrade_exact ParseRequestURI spare currentDate DetectContentType grow readChunked maxDrainSize handler pooled
    buffered rh q rest n err b answer h :
  (0 < n)%nat -> well_formed ParseRequestURI q -> sound b -> bw_buf b = [] ->
  (forall req body input, is_request q req -> handler req body input = upgrade answer h) ->
  exists b',
    serveHTTP ParseRequestURI spare currentDate DetectContentType grow readChunked maxDrainSize handler pooled
      buffered 1 rh (mkReader n (sr_text q ++ rest) err) b =
      Ok (HandedOver h, Some h, mkReader n (sr_body q ++ rest) err, b') /\
    bw_buf b' = [] /\ bw_out b' = bw_out b ++ answer.
Proof.
  intros Hn Hq Hb Hbuf Hh. cbn [serveHTTP rd_data]. rewrite sr_text_marker, andb_false_r. unfold handle_program.
  destruct (ReadRequest_run ParseRequestURI spare n (sr_line q) (sr_lines q) (sr_request q) (sr_url q) (sr_headers q)
    (sr_meta q) (sr_body q ++ rest) err Hn (wf_line _ _ Hq) (wf_lines _ _ Hq) (wf_request _ _ Hq) (wf_headers _ _ Hq)
    (wf_url _ _ Hq) (wf_meta _ _ Hq)) as (hp & m & Er & Hv).
  set (req := request_of _ _ _ _ hp m) in Er. assert (is_request q req) as Hreq by (by exists hp, m).
  unfold sr_text. rewrite <- !app_assoc. rewrite Er, (Hh req _ _ Hreq). cbv zeta. cbn [upgrade pg_read pg_actions pg_panics rd_data].
  assert (body_read readChunked req 0 (sr_body q ++ rest) = sr_body q ++ rest) as ->.
  { unfold body_read, req, request_of. cbn [r_Body]. rewrite (wf_body _ _ Hq). case_bool_decide; cbn; [done|].
    by rewrite Z.min_l by apply blen_nonneg. }
  cbn [run_actions act lv_w rd_data].
  destruct (Hijack_returns (NewResponseWriter pooled b) b eq_refl eq_refl) as (w' & -> & Hw').
  cbn [on_taken lv_taken lv_data lv_handler lv_w].
  assert (bw_Flush b = b) as -> by (unfold bw_Flush; rewrite Hbuf; by destruct (bw_err b)).
  destruct (sound_write true b answer Hb) as (b1 & Ew & Hb1 & Ht). unfold bw_Write. rewrite Ew.
  cbn [on_taken lv_taken lv_data lv_handler lv_w].
  destruct (sound_flush b1 Hb1) as (Hb2 & Ht2 & Hbuf2).
  destruct (hijacked_silent currentDate DetectContentType grow None w' Hw') as (_ & _ & _ & _ & _ & -> & _).
  rewrite Hw'. cbn [rd_size rd_err]. exists (bw_Flush b1). split; [done|]. split; [done|].
  unfold total in Ht2, Ht. rewrite Hbuf2, app_nil_r in Ht2. by rewrite Ht2, Ht, Hbuf, app_nil_r.
Qed.

Example upgrade_run :
  let b := mkWriter 16 healthy [] false [] in
  serveHTTP (fun _ => inr ErrReqMethod) (fun n => n) (bs "now") (fun _ => bs "text/plain") (fun n => n) (fun _ rest => ([], rest))
    65536 (fun _ _ _ => upgrade (bs "101") 7) pool_New (fun _ => false) 1 None
    (mkReader 16 (bs "GET / HTTP/1.1" ++ CRLF ++ CRLF ++ bs "ping") IOEOF) b =
  Ok (HandedOver 7, Some 7%nat, mkReader 16 (bs "ping") IOEOF, mkWriter 16 healthy [] false (bs "101")).
Proof. vm_compute. reflexivity. Qed.
