(* ===== verification/ServeSteps.v ===== *)
(** * The request loop is a run of a goroutine

    [Serve] models what the request loop does with requests and bytes, [Engine] what
    it does with the shared state, with the answers of the world left open.  Here
    the two are joined: the answers that reading, handling and draining give make
    the goroutine of [Engine] go through the steps of the loop of [Serve], to the
    same decisions, and it leaves the state idle and without buffers. *)

From S2P Require Import Prelude Scan Strconv Method StartLine Framing Message MessageRoundtrip.
From S2P Require Import Request RequestSpec Bufio Adaptor AdaptorFaults AdaptorSpec AdaptorRoundtrip Engine Serve.

Section Steps.
Context (ParseRequestURI : bytes -> url_URL + perror) (spare : nat -> nat)
  (currentDate : bytes) (DetectContentType : bytes -> bytes) (grow : nat -> nat)
  (readChunked : Z -> bytes -> bytes * bytes) (maxDrainSize : Z)
  (handler : Request -> bytes -> handling) (pooled : ResponseWriter) (buffered : bytes -> bool).

Abbreviation handle := (handleRequest ParseRequestURI spare currentDate DetectContentType grow readChunked handler pooled).
Abbreviation loop := (serve_loop ParseRequestURI spare currentDate DetectContentType grow readChunked maxDrainSize handler pooled buffered).

(** What [Engine] is told of a request that was handled. *)
Definition served_of (req : Request) (k : nat) (r : bufReader) : served :=
  let needsBodyDrain := (0 <? r_ContentLength req) || (0 <? blen (r_TransferEncoding req)) in
  let '(n, r) := if needsBodyDrain then drain readChunked maxDrainSize req k r else (0, r) in
  mkServed (r_ContentLength req) (0 <? blen (r_TransferEncoding req)) n (r_Close req) (connection_header req)
    (buffered (rd_data r)).

(** The answers of the world during the loop, from [CheckingActive] on. *)
Fixpoint serve_answers (fuel : nat) (r : bufReader) (b : bufWriter) : list answer :=
  match fuel with
  | O => []
  | S fuel' =>
      Yes ::
      if negb (buffered (rd_data r)) && negb (contains (rd_data r) headerEndMarker) then [No; Yes; Yes]
      else Yes ::
        match handle r b with
        | Crash _ => []
        | Ok (HandleError eof, _, _) => [Handled None (Failed eof); Yes; Yes]
        | Ok (HandleDone req k, r, b) =>
            let '(close, r') := after_request readChunked maxDrainSize req k r in
            Handled None (Served (served_of req k r)) ::
            if close then [Yes; Yes]
            else match rd_data r' with
                 | [] => [Yes; No; Yes]
                 | _ => (if buffered (rd_data r') then [] else [Yes; Yes; Yes]) ++ serve_answers fuel' r' b
                 end
        end
  end.

(** A goroutine that is given answers, alone. *)
Fixpoint thread_run (addr : bytes) (answers : list answer) (m : shared) (l : pc) : option (shared * pc) :=
  match answers with
  | [] => Some (m, l)
  | a :: answers' =>
      match thread_step maxDrainSize addr a m l with
      | Some (m', l') => thread_run addr answers' m' l'
      | None => None
      end
  end.

(** The two models close the connection for the same requests. *)
Lemma closes_after_request req k r :
  closes maxDrainSize (served_of req k r) = fst (after_request readChunked maxDrainSize req k r) /\
  sv_buffered (served_of req k r) = buffered (rd_data (snd (after_request readChunked maxDrainSize req k r))).
Proof.
  unfold closes, served_of, after_request. set (needs := (0 <? r_ContentLength req) || _).
  destruct needs eqn:En; [destruct (drain _ _ req k r) as [n r1]|]; cbn [sv_contentLength sv_transferEncoding sv_drained sv_close sv_connection sv_buffered fst snd];
    fold needs; rewrite En; done.
Qed.

(** The goroutine is serving: it has the flag and both buffers. *)
Definition serving (m : shared) : Prop :=
  s_Processing (sh_state m) = true /\ is_Some (s_Reader (sh_state m)) /\ is_Some (s_Writer (sh_state m)).

Definition idle_without_buffers (m : shared) : Prop :=
  s_Processing (sh_state m) = false /\ s_Reader (sh_state m) = None /\ s_Writer (sh_state m) = None.

Lemma serve_loop_steps addr fuel r b m closed r' b' :
  buffered [] = false -> serving m -> loop fuel r b = Ok (closed, r', b') ->
  exists m', thread_run addr (serve_answers fuel r b) m CheckingActive = Some (m', Releasing) /\
    idle_without_buffers m' /\ sh_panics m' = sh_panics m /\ sh_closed m' = (closed || sh_closed m) /\ s_ReadHandler (sh_state m') = s_ReadHandler (sh_state m).
Proof.
  intros Hb0. revert r b m. induction fuel as [|fuel IH]; intros r b m (Hp & [rd Hrd] & [wr Hwr]) Hl; [done|].
  cbn [serve_loop serve_answers] in *. cbn [thread_run]. cbn [thread_step].
  destruct (negb (buffered (rd_data r)) && _).
  { injection Hl as <- _ _. cbn [thread_run thread_step]. rewrite Hrd. cbn [thread_run thread_step]. by eexists. }
  cbn [thread_run thread_step]. rewrite Hrd.
  destruct (handle r b) as [[[[eof|req k] r1] b1]|f]; [| |done].
  { injection Hl as <- _ _. cbn [thread_run thread_step]. rewrite Hrd, Hwr. cbn [thread_run thread_step]. destruct eof; by eexists. }
  destruct (closes_after_request req k r1) as [Ec Eb].
  destruct (after_request _ _ req k r1) as [close r2]. cbn [fst snd] in Ec, Eb.
  cbn [thread_run thread_step]. rewrite Hrd, Hwr, Ec, Eb. destruct close.
  { injection Hl as <- _ _. cbn [thread_run thread_step]. by eexists. }
  destruct (rd_data r2) as [|x d] eqn:Ed.
  { injection Hl as <- _ _. rewrite Hb0. cbn [thread_run thread_step sh_state with_state set_Processing s_Reader]. rewrite Hrd. by eexists. }
  destruct (buffered (x :: d)); cbn [app].
  - apply IH; [by split_and!; [|eexists..] | exact Hl].
  - cbn [thread_run thread_step sh_state with_state set_Processing s_Reader]. rewrite Hrd.
    cbn [thread_run thread_step sh_state with_state set_Processing s_Processing].
    set (m2 := with_state (set_Processing true) (with_state (set_Processing false) m)).
    destruct (IH r2 b1 m2) as (m' & E & H1 & H2 & H3 & H4); [by split_and!; [|eexists..] | exact Hl |].
    exists m'. split_and!; [exact E | apply H1.. | exact H2 | exact H3 | exact H4].
Qed.
End Steps.

(** C6. The request loop is a run of the engine's goroutine: whenever the loop returns,
    the goroutine of [Engine], given the answers that reading, handling and draining
    these requests give, takes the same decisions turn by turn and reaches the end of
    the call, with the connection idle, both buffers back in their pools, closed exactly
    when the loop says so (or it was closed before), no panic and the read handler
    untouched. *)
Theorem serve_loop_refines_engine ParseRequestURI spare currentDate DetectContentType grow readChunked maxDrainSize handler pooled
    buffered addr fuel r b m closed r' b' :
  buffered [] = false -> s_ReadHandler (sh_state m) = None -> s_Processing (sh_state m) = true ->
  serve_loop ParseRequestURI spare currentDate DetectContentType grow readChunked maxDrainSize handler pooled buffered fuel r b
    = Ok (closed, r', b') ->
  exists m', thread_run maxDrainSize addr
      (Yes :: serve_answers ParseRequestURI spare currentDate DetectContentType grow readChunked maxDrainSize handler pooled
         buffered fuel r b) m SettingUp = Some (m', Releasing) /\
    s_Processing (sh_state m') = false /\ s_Reader (sh_state m') = None /\ s_Writer (sh_state m') = None /\
    sh_panics m' = sh_panics m /\ sh_closed m' = (closed || sh_closed m) /\ s_ReadHandler (sh_state m') = None.
Proof.
  intros Hb0 Hh Hp Hl. cbn [thread_run thread_step]. rewrite Hh.
  assert (serving (setup addr m) /\ sh_panics (setup addr m) = sh_panics m /\ sh_closed (setup addr m) = sh_closed m /\ s_ReadHandler (sh_state (setup addr m)) = None)
    as (Hs & Hpan & Hcl & Hrh).
  { unfold serving, setup. destruct (match s_Reader (sh_state m) with Some r => _ | None => _ end) as [x p].
    destruct (match s_Writer (sh_state m) with Some r => _ | None => _ end) as [w q]. cbn.
    destruct (bool_decide _); cbn; by split_and!; try done; eexists. }
  destruct (serve_loop_steps ParseRequestURI spare currentDate DetectContentType grow readChunked maxDrainSize handler pooled
    buffered addr fuel r b _ closed r' b' Hb0 Hs Hl) as (m' & E & (H1 & H2 & H3) & H4 & H5 & H6).
  exists m'. split_and!; try done; congruence.
Qed.

Lemma serve_loop_refines_engine_witness :
  let handler (_ : Request) (_ : bytes) := mkHandling ∅ 0 [OWrite (bs "ok")] false in
  let m := mkShared (set_Processing true (NewConnectionState zeroState 10)) (mkPools [] [] 0) 0 0 false in
  let data := bs "GET /a HTTP/1.1" ++ CRLF ++ CRLF ++ bs "GET /b HTTP/1.1" ++ CRLF ++ CRLF in
  exists m', thread_run 65536 (bs "peer")
      (Yes :: serve_answers (fun _ => inr ErrReqMethod) (fun n => n) (bs "now") (fun _ => bs "text/plain") (fun n => n)
         (fun _ rest => ([], rest)) 65536 handler pool_New (fun _ => false) 2 (mkReader 16 data IOEOF) (mkWriter 16 healthy [] false []))
      m SettingUp = Some (m', Releasing) /\ s_Reader (sh_state m') = None.
Proof.
  intros handler m data.
  destruct (serve_loop (fun _ => inr ErrReqMethod) (fun n => n) (bs "now") (fun _ => bs "text/plain") (fun n => n)
    (fun _ rest => ([], rest)) 65536 handler pool_New (fun _ => false) 2 (mkReader 16 data IOEOF) (mkWriter 16 healthy [] false []))
    as [[[closed r'] b']|f] eqn:E; [|vm_compute in E; discriminate].
  destruct (serve_loop_refines_engine _ _ _ _ _ _ _ _ _ (fun _ => false) (bs "peer") _ _ _ m _ _ _ eq_refl eq_refl eq_refl E)
    as (m' & H1 & _ & H2 & _). exists m'. split; [exact H1 | exact H2].
Defined.
