(* ===== verification/Tcplisten.v ===== *)
(** * The TCP listener (internal/tcplisten)

    [NewListener] resolves an address, opens a socket, sets its options, binds it
    and listens, and gives the descriptor to the [net] package.  The system is a
    world with the open descriptors, the log of the calls made, and an answer for
    every history of calls, so that any call may fail; what differs between
    systems (the files with build tags) is a class with an instance per system. *)

From stdpp Require Import sets.
From S2P Require Import Prelude Scan Strconv.

(** ** Calls to the system *)

Inductive errno : Type := EPROTONOSUPPORT | EINVAL | Eother (n : Z).

Inductive Sockaddr : Type :=
| SockaddrInet4 (Port : Z) (Addr : bytes)
| SockaddrInet6 (Port : Z) (ZoneId : Z) (Addr : bytes).

Inductive call : Type :=
| Socket (domain typ proto : Z)
| CloseOnExec (fd : Z)
| SetNonblock (fd : Z)
| FcntlInt (fd cmd arg : Z)
| SetsockoptInt (fd level opt value : Z)
| Bind (fd : Z) (sa : Sockaddr)
| Listen (fd backlog : Z)
| Close (fd : Z)
| FileListener (fd : Z).

(** [w_answer] is what the system answers to the last call of a history. *)
Record world : Type := mkWorld {
  w_open : gset Z; w_log : list call; w_answer : list call -> option errno }.

(** An error of a call, an error with a message, or a message around an error; of a
    message that is formatted, the fixed part. *)
Inductive lerr : Type := Errno (e : errno) | Message (m : bytes) | Wrap (m : bytes) (e : lerr).

Definition sys (A : Type) : Type := world -> (A + lerr) * world.

#[global] Instance sys_ret : MRet sys := fun A a w => (inl a, w).
#[global] Instance sys_bind : MBind sys := fun A B k m w =>
  match m w with
  | (inl a, w') => k a w'
  | (inr e, w') => (inr e, w')
  end.

Definition fail {A} (e : lerr) : sys A := fun w => (inr e, w).

(** [m] and then [k] of its value or error: [x, err := m]. *)
Definition try {A B} (m : sys A) (k : A + lerr -> sys B) : sys B := fun w => let '(r, w) := m w in k r w.

(** The error of [m] in a message: [if err = m; err != nil { return fmt.Errorf(...) }]. *)
Definition wrapped {A} (msg : bytes) (m : sys A) : sys A :=
  try m (fun r => match r with inl a => mret a | inr e => fail (Wrap msg e) end).

(** A call that opens nothing. *)
Definition invoke (c : call) : sys unit := fun w =>
  let log := w_log w ++ [c] in
  (match w_answer w log with Some e => inr (Errno e) | None => inl tt end,
   mkWorld (w_open w) log (w_answer w)).

(** A call that opens a descriptor not in use. *)
Definition opening (c : call) : sys Z := fun w =>
  let log := w_log w ++ [c] in
  match w_answer w log with
  | Some e => (inr (Errno e), mkWorld (w_open w) log (w_answer w))
  | None =>
      let fd := fresh (w_open w) in
      (inl fd, mkWorld ({[fd]} ∪ w_open w) log (w_answer w))
  end.

(** [close] releases the descriptor even when it reports an error. *)
Definition closing (fd : Z) : sys unit := fun w =>
  let '(r, w) := invoke (Close fd) w in
  (r, mkWorld (w_open w ∖ {[fd]}) (w_log w) (w_answer w)).

(** [m] with its error ignored. *)
Definition ignoring {A} (m : sys A) : sys unit := try m (fun _ => mret tt).

(** The constants of golang.org/x/sys/unix that the code uses. *)
Class Unix : Type := {
  SOCK_STREAM : Z; SOCK_NONBLOCK : Z; SOCK_CLOEXEC : Z; IPPROTO_TCP : Z; AF_INET : Z; AF_INET6 : Z;
  SOL_SOCKET : Z; SO_REUSEADDR : Z; SO_REUSEPORT : Z; TCP_NODELAY : Z; TCP_DEFER_ACCEPT : Z; SOL_TCP : Z;
  SOMAXCONN : Z; F_SETFD : Z; FD_CLOEXEC : Z; F_SETFL : Z; O_NONBLOCK : Z }.

(** ** What differs between systems *)

(** The functions with build tags. *)
Class Platform : Type := {
  soReusePort : Z;
  newSocketCloexec : Z -> Z -> Z -> sys Z;
  enableDeferAccept : Z -> sys unit;
  enableFastOpen : Z -> sys unit;
  soMaxConn : sys Z }.

Section Platforms.
Context `{Unix}.

(** *** Sockets *)

Definition newSocketCloexecOld (domain typ proto : Z) : sys Z :=
  try (fd ← opening (Socket domain typ proto); _ ← ignoring (invoke (CloseOnExec fd)); mret fd) (fun r =>
  match r with
  | inr err => fail (Wrap (bs "cannot create listening socket") err)
  | inl fd =>
      try (invoke (SetNonblock fd)) (fun r =>
      match r with
      | inr err => _ ← ignoring (closing fd); fail (Wrap (bs "cannot make non-blocked listening socket") err)
      | inl _ => mret fd
      end)
  end).

(** socket_other.go. *)
Definition newSocketCloexec_other (domain typ proto : Z) : sys Z :=
  try (opening (Socket domain (Z.lor (Z.lor typ SOCK_NONBLOCK) SOCK_CLOEXEC) proto)) (fun r =>
  match r with
  | inl fd => mret fd
  | inr (Errno (EPROTONOSUPPORT | EINVAL)) => newSocketCloexecOld domain typ proto
  | inr err => fail (Wrap (bs "cannot create listening unblocked socket") err)
  end).

(** socket_zos_s390x.go: the error of the last of three calls decides. *)
Definition newSocketCloexec_zos (domain typ proto : Z) : sys Z :=
  try (opening (Socket domain typ proto)) (fun r =>
  let fd := match r with inl fd => fd | inr _ => -1 end in
  _ ← ignoring (invoke (FcntlInt fd F_SETFD FD_CLOEXEC));
  try (invoke (FcntlInt fd F_SETFL O_NONBLOCK)) (fun r =>
  match r with
  | inl _ => mret fd
  | inr err => fail (Wrap (bs "cannot create listening unblocked socket") err)
  end)).

(** *** Linux (tcplisten_linux.go) *)

Definition fastOpenQlen : Z := 16 * 1024.
Definition tcpFastOpen : Z := 0x17.

Definition enableDeferAccept_linux (fd : Z) : sys unit :=
  wrapped (bs "cannot enable TCP_DEFER_ACCEPT") (invoke (SetsockoptInt fd IPPROTO_TCP TCP_DEFER_ACCEPT 1)).

Definition enableFastOpen_linux (fd : Z) : sys unit :=
  wrapped (bs "cannot enable TCP_FASTOPEN") (invoke (SetsockoptInt fd SOL_TCP tcpFastOpen fastOpenQlen)).
End Platforms.

(** The loop over [uname.Release]; [vals] are the numbers stored so far. *)
Fixpoint version_loop (rl : bytes) (vals : list Z) (value : Z) : list Z :=
  match rl with
  | [] => vals
  | c :: rl' =>
      if is_digit c then version_loop rl' vals (wrap64 (wrap64 (value * 10) + (b2z c - b2z "0"%byte)))
      else
        let vals := vals ++ [value] in
        if (2 <=? length vals)%nat then vals else version_loop rl' vals value
  end.

(** [uname] is the release that the system reports, if it does. *)
Definition kernelVersion (uname : option bytes) : Z * Z :=
  match uname with
  | None => (0, 0)
  | Some rl =>
      match version_loop rl [] 0 with
      | [major] => (major, 0)
      | [major; minor] => (major, minor)
      | _ => (0, 0)
      end
  end.

Definition maxAckBacklog (uname : option bytes) (n : Z) : Z :=
  let '(major, minor) := kernelVersion uname in
  let size := if (4 <? major) || ((major =? 4) && (1 <=? minor)) then 32 else 16 in
  let u := Z.shiftl 1 size - 1 in
  if u <? n then u else n.

(** [strings.TrimSpace] of ASCII text. *)
Definition is_space (c : byte) : bool :=
  existsb (Byte.eqb c) [x09; x0a; x0b; x0c; x0d; x20].
Fixpoint trim_left (s : bytes) : bytes :=
  match s with c :: s' => if is_space c then trim_left s' else s | [] => [] end.
Definition TrimSpace (s : bytes) : bytes := rev (trim_left (rev (trim_left s))).

(** [strconv.Atoi]: an optional sign and decimal digits, in the range of [int]. *)
Definition Atoi (s : bytes) : option Z :=
  let '(neg, ds) := match s with
                    | "-"%byte :: d => (true, d)
                    | "+"%byte :: d => (false, d)
                    | d => (false, d) end in
  if bool_decide (ds = []) || negb (forallb is_digit ds) then None
  else
    let n := if neg then - dec_value ds else dec_value ds in
    if (- 2 ^ 63 <=? n) && (n <? 2 ^ 63) then Some n else None.

(** What [os.ReadFile] of /proc/sys/net/core/somaxconn gives. *)
Inductive readFile : Type := Contents (data : bytes) | NotExist | ReadFails (e : errno).

Definition soMaxConn_linux `{Unix} (file : readFile) (uname : option bytes) : sys Z :=
  match file with
  | NotExist => mret SOMAXCONN
  | ReadFails e => fail (Errno e)
  | Contents data =>
      match Atoi (TrimSpace data) with
      | None => fail (Message (bs "cannot parse somaxconn"))
      | Some n =>
          if n <=? 0 then fail (Message (bs "cannot parse somaxconn"))
          else mret (if Z.shiftl 1 16 - 1 <? n then maxAckBacklog uname n else n)
      end
  end.

Definition linux `{Unix} (file : readFile) (uname : option bytes) : Platform := {|
  soReusePort := 0x0F;
  newSocketCloexec := newSocketCloexec_other;
  enableDeferAccept := enableDeferAccept_linux;
  enableFastOpen := enableFastOpen_linux;
  soMaxConn := soMaxConn_linux file uname |}.

(** tcplisten_other.go, with the sockets of a system. *)
Definition other `{Unix} (newSocket : Z -> Z -> Z -> sys Z) : Platform := {|
  soReusePort := SO_REUSEPORT;
  newSocketCloexec := newSocket;
  enableDeferAccept := fun _ => mret tt;
  enableFastOpen := fun _ => mret tt;
  soMaxConn := mret SOMAXCONN |}.

Definition bsd `{Unix} : Platform := other newSocketCloexec_other.
(** socket_darwin.go. *)
Definition darwin `{Unix} : Platform := other newSocketCloexecOld.
Definition zos `{Unix} : Platform := other newSocketCloexec_zos.

(** ** Addresses (tcplisten.go) *)

(** [net.TCPAddr]; a nil address is empty. *)
Record TCPAddr : Type := mkTCPAddr { IP : bytes; Port : Z; Zone : bytes }.

Definition v4InV6Prefix : bytes := replicate 10 x00 ++ [xff; xff].

Definition IPv4 (a b c d : byte) : bytes := v4InV6Prefix ++ [a; b; c; d].

Definition To4 (ip : bytes) : bytes :=
  if (length ip =? 4)%nat then ip
  else if (length ip =? 16)%nat && bool_decide (take 12 ip = v4InV6Prefix) then drop 12 ip else [].

Definition To16 (ip : bytes) : bytes :=
  if (length ip =? 4)%nat then v4InV6Prefix ++ ip
  else if (length ip =? 16)%nat then ip else [].

(** [var a [n]byte; copy(a[:], src)]. *)
Definition copy_array (n : nat) (src : bytes) : bytes :=
  take n src ++ replicate (n - length src) x00.

Definition safeIntToUint32 (i : Z) : Z + lerr :=
  if i <? 0 then inr (Message (bs "value is negative, cannot convert to uint32"))
  else if 2 ^ 32 - 1 <? i then inr (Message (bs "value exceeds uint32 max value"))
  else inl (i mod 2 ^ 32).

Section Listener.
Context `{Unix}.
(** The resolver and the interfaces of the [net] package. *)
Context (ResolveTCPAddr : bytes -> bytes -> TCPAddr + lerr) (InterfaceByName : bytes -> Z + lerr).

(** The zone of an IPv6 address. *)
Definition zone_id (zone : bytes) : Z + lerr :=
  if bool_decide (zone = []) then inl 0
  else match InterfaceByName zone with
       | inr err => inr err
       | inl index =>
           match safeIntToUint32 index with
           | inl z => inl z
           | inr err => inr (Wrap (bs "unexpected convert net interface index int to uint32") err)
           end
       end.

Definition getSockaddr (network addr : bytes) : (Sockaddr * Z) + lerr :=
  match ResolveTCPAddr network addr with
  | inr err => inr err
  | inl tcpAddr =>
      if bool_decide (network = bs "tcp4") then
        inl (SockaddrInet4 (Port tcpAddr) (copy_array 4 (To4 (IP tcpAddr))), AF_INET)
      else if bool_decide (network = bs "tcp6") then
        match zone_id (Zone tcpAddr) with
        | inr err => inr err
        | inl z => inl (SockaddrInet6 (Port tcpAddr) z (copy_array 16 (To16 (IP tcpAddr))), AF_INET6)
        end
      else if bool_decide (network = bs "tcp") then
        let ip := if bool_decide (IP tcpAddr = []) then IPv4 x00 x00 x00 x00 else IP tcpAddr in
        match zone_id (Zone tcpAddr) with
        | inr err => inr err
        | inl z => inl (SockaddrInet6 (Port tcpAddr) z (copy_array 16 (To16 ip)), AF_INET6)
        end
      else inr (Message (bs "only tcp, tcp4, or tcp6 is supported " ++ network))
  end.

(** ** The listener *)

Record Config : Type := mkConfig { ReusePort : bool; DeferAccept : bool; FastOpen : bool; Backlog : Z }.

Definition on (b : bool) (m : sys unit) : sys unit := if b then m else mret tt.

Context {plat : Platform}.

Definition fdSetup (cfg : Config) (fd : Z) (sa : Sockaddr) : sys unit :=
  _ ← wrapped (bs "cannot enable SO_REUSEADDR") (invoke (SetsockoptInt fd SOL_SOCKET SO_REUSEADDR 1));
  _ ← wrapped (bs "cannot disable Nagle's algorithm") (invoke (SetsockoptInt fd IPPROTO_TCP TCP_NODELAY 1));
  _ ← on (ReusePort cfg)
        (wrapped (bs "cannot enable SO_REUSEPORT") (invoke (SetsockoptInt fd SOL_SOCKET soReusePort 1)));
  _ ← on (DeferAccept cfg) (enableDeferAccept fd);
  _ ← on (FastOpen cfg) (enableFastOpen fd);
  _ ← wrapped (bs "cannot bind") (invoke (Bind fd sa));
  backlog ← (if Backlog cfg <=? 0
             then wrapped (bs "cannot determine backlog to pass to listen(2)") soMaxConn
             else mret (Backlog cfg));
  wrapped (bs "cannot listen") (invoke (Listen fd backlog)).

(** The result is the descriptor of the listener, which [net.FileListener] makes
    from the file's. *)
Definition NewListener (cfg : Config) (network addr : bytes) : sys Z :=
  match getSockaddr network addr with
  | inr err => fail err
  | inl (sa, soType) =>
      fd ← newSocketCloexec soType SOCK_STREAM IPPROTO_TCP;
      try (fdSetup cfg fd sa) (fun r =>
      match r with
      | inr err => _ ← ignoring (closing fd); fail err
      | inl _ =>
          try (opening (FileListener fd)) (fun r =>
          match r with
          | inr err => _ ← ignoring (closing fd); fail err
          | inl ln =>
              try (closing fd) (fun r =>
              match r with
              | inr err => _ ← ignoring (closing ln); fail err
              | inl _ => mret ln
              end)
          end)
      end)
  end.
End Listener.
