(* ===== verification/TcplistenSpec.v ===== *)
(** * What the listener guarantees

    Descriptors are not lost, whatever call fails, on every system whose sockets
    keep to the interface [PlatformLaws]; the calls made on Linux; the backlog and
    the kernel version; the address a socket is bound to. *)

From stdpp Require Import sets.
From S2P Require Import Prelude Scan Strconv Tcplisten.

(** ** Triples over the open descriptors *)

(** From open descriptors in [P], [m] returns a value with the descriptors in [Q],
    or an error with the descriptors in [E]. *)
Definition triple {A} (P : gset Z -> Prop) (m : sys A) (Q : A -> gset Z -> Prop) (E : gset Z -> Prop) : Prop :=
  forall w, P (w_open w) ->
    match m w with
    | (inl a, w') => Q a (w_open w')
    | (inr _, w') => E (w_open w')
    end.

(** [m] opens and closes nothing. *)
Definition quiet {A} (m : sys A) : Prop := forall P, triple P m (fun _ => P) P.

(** [m] opens one descriptor and returns it, or fails and opens none. *)
Definition opens (m : sys Z) : Prop :=
  forall s, triple (fun x => x = s) m (fun fd x => (fd ∉ s) /\ x = {[fd]} ∪ s) (fun x => x = s).

(** What a system promises to the listener. *)
Class PlatformLaws (P : Platform) : Prop := {
  socket_opens : forall d t p, opens (newSocketCloexec d t p);
  deferAccept_quiet : forall fd, quiet (enableDeferAccept fd);
  fastOpen_quiet : forall fd, quiet (enableFastOpen fd);
  soMaxConn_quiet : quiet soMaxConn }.

Create HintDb sys discriminated.

Section Triples.
Context {A B : Type}.

Lemma triple_ret P (a : A) Q E : (forall s, P s -> Q a s) -> triple P (mret a) Q E.
Proof. intros HQ w. apply HQ. Qed.

Lemma triple_fail P e (Q : A -> gset Z -> Prop) (E : gset Z -> Prop) : (forall s, P s -> E s) -> triple P (fail e) Q E.
Proof. intros HE w. apply HE. Qed.

Lemma triple_bind P (m : sys A) (k : A -> sys B) R Q E :
  triple P m R E -> (forall a, triple (R a) (k a) Q E) -> triple P (m ≫= k) Q E.
Proof.
  intros Hm Hk w Hw. unfold mbind, sys_bind. specialize (Hm w Hw). destruct (m w) as [[a|e] w']; [|done].
  by apply Hk.
Qed.

Lemma triple_try P (m : sys A) (k : A + lerr -> sys B) R F Q E :
  triple P m R F -> (forall a, triple (R a) (k (inl a)) Q E) -> (forall e, triple F (k (inr e)) Q E) ->
  triple P (try m k) Q E.
Proof.
  intros Hm Hk He w Hw. unfold try. specialize (Hm w Hw). destruct (m w) as [[a|e] w']; [by apply Hk | by apply He].
Qed.

Lemma triple_weaken P P' (m : sys A) Q E :
  (forall s, P' s -> P s) -> triple P m Q E -> triple P' m Q E.
Proof. intros HP Hm w Hw. apply Hm. auto. Qed.

Lemma triple_pure (phi : Prop) P (m : sys A) Q E :
  (phi -> triple P m Q E) -> triple (fun s => phi /\ P s) m Q E.
Proof. intros Hm w [Hphi Hw]. by apply Hm. Qed.

Lemma quiet_ret (a : A) : quiet (mret a). Proof. intros P w Hw. done. Qed.
Lemma quiet_fail e : quiet (@fail A e). Proof. intros P w Hw. done. Qed.

Lemma quiet_bind (m : sys A) (k : A -> sys B) : quiet m -> (forall a, quiet (k a)) -> quiet (m ≫= k).
Proof. intros Hm Hk P. eapply triple_bind; [apply Hm | intros a; apply Hk]. Qed.

Lemma quiet_try (m : sys A) (k : A + lerr -> sys B) : quiet m -> (forall r, quiet (k r)) -> quiet (try m k).
Proof. intros Hm Hk P. eapply triple_try; [apply Hm | intros; apply Hk..]. Qed.
End Triples.

Lemma quiet_invoke c : quiet (invoke c).
Proof. intros P w Hw. unfold invoke. by destruct (w_answer w _). Qed.

Lemma quiet_on b (m : sys unit) : quiet m -> quiet (on b m).
Proof. destruct b; [done|]. intros _. apply quiet_ret. Qed.

#[global] Hint Resolve quiet_ret quiet_fail quiet_invoke quiet_bind quiet_try quiet_on : sys.
#[global] Hint Resolve deferAccept_quiet fastOpen_quiet soMaxConn_quiet : sys.

Lemma quiet_ignoring {A} (m : sys A) : quiet m -> quiet (ignoring m).
Proof. unfold ignoring. auto with sys. Qed.
Lemma quiet_wrapped {A} msg (m : sys A) : quiet m -> quiet (wrapped msg m).
Proof. intros Hm. apply quiet_try; [done|]. intros []; auto with sys. Qed.
#[global] Hint Resolve quiet_ignoring quiet_wrapped : sys.

(** An ignored error is no error. *)
Lemma triple_ignoring {A} P (m : sys A) Q E : triple P m (fun _ => Q) Q -> triple P (ignoring m) (fun _ => Q) E.
Proof. intros Hm. eapply triple_try; [exact Hm | intros; by apply triple_ret..]. Qed.

Lemma opens_opening c : opens (opening c).
Proof.
  intros s w Hw. cbn in Hw. subst s. unfold opening. destruct (w_answer w _); [done|]. split; [apply is_fresh | done].
Qed.

Lemma triple_closing fd s :
  triple (fun x => x = s) (closing fd) (fun _ x => x = s ∖ {[fd]}) (fun x => x = s ∖ {[fd]}).
Proof. intros w Hw. cbn in Hw. subst s. unfold closing, invoke. by destruct (w_answer w _). Qed.

Lemma close_opened (fd : Z) (s : gset Z) : fd ∉ s -> ({[fd]} ∪ s) ∖ {[fd]} = s.
Proof. intros Hf. rewrite difference_union_distr_l_L, difference_diag_L, union_empty_l_L. by apply difference_disjoint_L, disjoint_singleton_r. Qed.

(** The descriptor [fd], opened on top of [s], is closed and an error returned. *)
Lemma triple_give_up {A} fd (s : gset Z) err (Q : A -> gset Z -> Prop) :
  triple (fun x => (fd ∉ s) /\ x = {[fd]} ∪ s) (_ ← ignoring (closing fd); fail err) Q (fun x => x = s).
Proof.
  apply triple_pure. intros Hf.
  eapply triple_bind; [apply triple_ignoring, triple_closing|]. intros ?. apply triple_fail. intros x ->. by apply close_opened.
Qed.

#[global] Hint Resolve opens_opening triple_give_up : sys.

(** ** The systems keep the interface *)

Section Platforms.
Context `{Unix}.

Lemma newSocketCloexecOld_opens d t p : opens (newSocketCloexecOld d t p).
Proof.
  intros s. eapply (triple_try _ _ _ (fun fd x => (fd ∉ s) /\ x = {[fd]} ∪ s)).
  - eapply triple_bind; [apply opens_opening|]. intros fd. eapply triple_bind; [apply triple_ignoring, quiet_invoke|].
    intros ?. by apply triple_ret.
  - intros fd. eapply triple_try; [apply quiet_invoke | intros ?; by apply triple_ret | intros e; apply triple_give_up].
  - intros e. by apply triple_fail.
Qed.

Lemma newSocketCloexec_other_opens d t p : opens (newSocketCloexec_other d t p).
Proof.
  intros s. eapply triple_try; [apply opens_opening | intros fd; by apply triple_ret |].
  intros [[]| |]; first [by apply triple_fail | apply newSocketCloexecOld_opens].
Qed.

#[global] Instance linux_laws file uname : PlatformLaws (linux file uname).
Proof.
  constructor; cbn; intros; [apply newSocketCloexec_other_opens | | |].
  - apply quiet_wrapped, quiet_invoke.
  - apply quiet_wrapped, quiet_invoke.
  - unfold soMaxConn_linux. repeat case_match; auto with sys.
Qed.

Lemma other_laws newSocket : (forall d t p, opens (newSocket d t p)) -> PlatformLaws (other newSocket).
Proof. intros Hs. constructor; cbn; auto with sys. Qed.

#[global] Instance bsd_laws : PlatformLaws bsd := other_laws _ newSocketCloexec_other_opens.
#[global] Instance darwin_laws : PlatformLaws darwin := other_laws _ newSocketCloexecOld_opens.

(** ** No descriptor is lost *)

Lemma fdSetup_quiet {P : Platform} {HP : PlatformLaws P} cfg fd sa : quiet (fdSetup cfg fd sa).
Proof.
  unfold fdSetup. repeat (apply quiet_bind; [auto with sys | intros ?]); [|auto with sys].
  destruct (Backlog cfg <=? 0); auto with sys.
Qed.

(** The rest of [NewListener] once the socket is set up. *)
Lemma NewListener_opens {P : Platform} {HP : PlatformLaws P} Resolve Interface cfg network addr :
  opens (NewListener Resolve Interface cfg network addr).
Proof.
  intros s. unfold NewListener. destruct (getSockaddr _ _ _ _) as [[sa ty]|e]; [|by apply triple_fail].
  eapply triple_bind; [apply socket_opens|]. intros fd.
  eapply triple_try; [apply fdSetup_quiet | intros [] | intros e; apply triple_give_up].
  apply triple_pure. intros Hf.
  eapply triple_try; [apply opens_opening | intros ln |].
  - apply triple_pure. intros [Hne Hl]%not_elem_of_union. apply not_elem_of_singleton in Hne.
    assert (({[ln]} ∪ ({[fd]} ∪ s)) ∖ {[fd]} = {[ln]} ∪ s) as E.
    { rewrite union_assoc_L, (union_comm_L {[ln]}), <- union_assoc_L. apply close_opened, not_elem_of_union. split; [by apply not_elem_of_singleton | done]. }
    eapply triple_try; [apply triple_closing | intros []; apply triple_ret; by intros x -> |].
    intros e. eapply triple_weaken; [|apply triple_give_up]. by intros x ->.
  - intros e. eapply triple_weaken; [|apply triple_give_up]. by intros x ->.
Qed.
End Platforms.

(** C27. No descriptor is lost: on every system that keeps the interface (Linux,
    the BSDs and Darwin do), whichever calls fail and in whatever way, [NewListener]
    either returns a listener whose descriptor is the only one it leaves open, or an
    error with exactly the descriptors open that were open before. *)
Theorem NewListener_no_leak `{Unix} (P : Platform) Resolve Interface cfg network addr w :
  PlatformLaws P ->
  match NewListener Resolve Interface cfg network addr w with
  | (inl ln, w') => (ln ∉ w_open w) /\ w_open w' = {[ln]} ∪ w_open w
  | (inr _, w') => w_open w' = w_open w
  end.
Proof. intros HP. by apply NewListener_opens. Qed.

(** The constants of Linux on amd64. *)
#[global] Instance linux_consts : Unix := {|
  SOCK_STREAM := 1; SOCK_NONBLOCK := 0x800; SOCK_CLOEXEC := 0x80000; IPPROTO_TCP := 6; AF_INET := 2; AF_INET6 := 10;
  SOL_SOCKET := 1; SO_REUSEADDR := 2; SO_REUSEPORT := 15; TCP_NODELAY := 1; TCP_DEFER_ACCEPT := 9; SOL_TCP := 6;
  SOMAXCONN := 128; F_SETFD := 2; FD_CLOEXEC := 1; F_SETFL := 4; O_NONBLOCK := 0x800 |}.

Lemma NewListener_no_leak_witness :
  let w := mkWorld {[0; 1; 2]} [] (fun log => if (length log =? 4)%nat then Some EINVAL else None) in
  let resolve _ _ := inl (mkTCPAddr [] 8080 []) in
  let P := linux NotExist None in
  w_open (snd (NewListener resolve (fun _ => inl 1) (mkConfig true true true 0) (bs "tcp") (bs ":8080") w)) = {[0; 1; 2]}.
Proof.
  intros w resolve P.
  pose proof (NewListener_no_leak P resolve (fun _ => inl 1) (mkConfig true true true 0) (bs "tcp") (bs ":8080") w
    (linux_laws NotExist None)) as Hn.
  assert (exists e, fst (NewListener resolve (fun _ => inl 1) (mkConfig true true true 0) (bs "tcp") (bs ":8080") w) = inr e)
    as [e He] by (eexists; vm_compute; reflexivity).
  destruct (NewListener _ _ _ _ _ w) as [[ln|e'] w']; [done | exact Hn].
Defined.

(** On z/OS the interface is not kept: when the last of the calls that prepare the
    socket fails, the socket is left open. *)
Lemma zos_socket_leaks :
  exists w, let '(r, w') := newSocketCloexec (Platform := zos) AF_INET6 SOCK_STREAM IPPROTO_TCP w in
    (exists e, r = inr e) /\ w_open w = ∅ /\ size (w_open w') = 1%nat.
Proof.
  exists (mkWorld ∅ [] (fun log => if (length log =? 3)%nat then Some EINVAL else None)).
  vm_compute. eauto.
Qed.

(** ** The calls of a successful setup *)

Section Success.
Context {A B : Type}.

Lemma sys_bind_inl (m : sys A) (k : A -> sys B) w b w' :
  (m ≫= k) w = (inl b, w') -> exists a w1, m w = (inl a, w1) /\ k a w1 = (inl b, w').
Proof. unfold mbind, sys_bind. destruct (m w) as [[a|e] w1]; [eauto | done]. Qed.

(** [try] with a second part that fails after an error. *)
Lemma try_inl (m : sys A) (k : A + lerr -> sys B) w b w' :
  (forall e w1 x w2, k (inr e) w1 <> (inl x, w2)) ->
  try m k w = (inl b, w') -> exists a w1, m w = (inl a, w1) /\ k (inl a) w1 = (inl b, w').
Proof. intros Hk. unfold try. destruct (m w) as [[a|e] w1]; [eauto|]. intros H. by apply Hk in H. Qed.

Lemma wrapped_inl msg (m : sys A) w a w' : wrapped msg m w = (inl a, w') -> m w = (inl a, w').
Proof. unfold wrapped, try. by destruct (m w) as [[x|e] w1]. Qed.
End Success.

Lemma give_up_fails {A} fd err w1 (x : A) w2 : (_ ← ignoring (closing fd); fail err) w1 <> (inl x, w2).
Proof. unfold mbind, sys_bind, ignoring, try. by destruct (closing fd w1) as [[] ?]. Qed.

Lemma invoke_inl c w u w' : invoke c w = (inl u, w') -> w_log w' = w_log w ++ [c].
Proof. unfold invoke. destruct (w_answer w _); [done|]. by intros [= _ <-]. Qed.

Lemma opening_inl c w fd w' : opening c w = (inl fd, w') -> w_log w' = w_log w ++ [c].
Proof. unfold opening. destruct (w_answer w _); [done|]. by intros [= _ <-]. Qed.

Lemma closing_inl fd w u w' : closing fd w = (inl u, w') -> w_log w' = w_log w ++ [Close fd].
Proof. unfold closing, invoke. destruct (w_answer w _); [done|]. by intros [= _ <-]. Qed.

Definition opt (b : bool) (c : call) : list call := if b then [c] else [].

(** An option that is set when [b] says so. *)
Lemma on_inl b msg c w u w' : on b (wrapped msg (invoke c)) w = (inl u, w') -> w_log w' = w_log w ++ opt b c.
Proof. destruct b; cbn [on opt]; [intros H%wrapped_inl; by eapply invoke_inl|]. intros [= _ <-]. by rewrite app_nil_r. Qed.

(** ** The backlog of the system *)

Lemma dec_value_cons c ds : dec_value (c :: ds) = dec_digit c * 10 ^ blen ds + dec_value ds.
Proof. change (c :: ds) with ([c] ++ ds). unfold dec_value. by rewrite digits_value_app. Qed.

Lemma pow10_blen_cons (c : byte) ds : 10 ^ blen (c :: ds) = 10 * 10 ^ blen ds.
Proof. unfold blen. cbn [length]. rewrite Nat2Z.inj_succ, Z.pow_succ_r by lia. done. Qed.

Lemma is_digit_range c : is_digit c = true -> 0 <= dec_digit c <= 9.
Proof. unfold is_digit, dec_digit. blia. Qed.

Lemma dec_value_range ds : forallb is_digit ds = true -> 0 <= dec_value ds < 10 ^ blen ds.
Proof.
  induction ds as [|c ds IH]; [done|]. cbn [forallb]. intros [Hc%is_digit_range Hd]%andb_true_iff.
  rewrite dec_value_cons, pow10_blen_cons. specialize (IH Hd). nia.
Qed.

(** The loop over a run of digits. *)
Lemma version_digits ds rest vals v :
  forallb is_digit ds = true -> 0 <= v -> v * 10 ^ blen ds + dec_value ds < 2 ^ 63 ->
  version_loop (ds ++ rest) vals v = version_loop rest vals (v * 10 ^ blen ds + dec_value ds).
Proof.
  revert v. induction ds as [|c ds IH]; intros v Hd Hv Hb; cbn [app].
  - f_equal. change (v = v * 1 + 0). lia.
  - cbn [forallb] in Hd. apply andb_true_iff in Hd as [Hc Hd]. cbn [version_loop]. rewrite Hc.
    apply is_digit_range in Hc. pose proof (dec_value_range ds Hd).
    rewrite dec_value_cons, pow10_blen_cons in *. change (b2z c - b2z "0"%byte) with (dec_digit c).
    rewrite (wrap64_small (v * 10)) by nia. rewrite wrap64_small by nia.
    rewrite IH; [f_equal; nia | done | nia | nia].
Qed.

Lemma version_separator c rest vals v :
  is_digit c = false -> (length vals < 1)%nat -> version_loop (c :: rest) vals v = version_loop rest (vals ++ [v]) v.
Proof.
  intros Hc Hl. cbn [version_loop]. rewrite Hc. rewrite length_app. cbn [length].
  destruct (Nat.leb_spec 2 (length vals + 1)); [lia | done].
Qed.

(** What [kernelVersion] makes of a release: the digits of the major number are
    counted into the minor number. *)
Lemma kernelVersion_release M m c1 c2 rest :
  forallb is_digit M = true -> forallb is_digit m = true -> is_digit c1 = false -> is_digit c2 = false ->
  (length M + length m <= 18)%nat ->
  kernelVersion (Some (M ++ c1 :: m ++ c2 :: rest)) = (dec_value M, dec_value (M ++ m)).
Proof.
  intros HM Hm Hc1 Hc2 Hl. unfold kernelVersion.
  assert (dec_value (M ++ m) = dec_value M * 10 ^ blen m + dec_value m) as E by apply digits_value_app.
  assert (dec_value (M ++ m) < 2 ^ 63) as Hb.
  { assert (forallb is_digit (M ++ m) = true) as Hd by (by rewrite forallb_app, HM, Hm).
    pose proof (dec_value_range _ Hd). assert (10 ^ blen (M ++ m) <= 10 ^ 18); [|lia].
    apply Z.pow_le_mono_r; [lia|]. unfold blen. rewrite length_app. lia. }
  pose proof (dec_value_range M HM). pose proof (dec_value_range m Hm).
  assert (1 <= 10 ^ blen m) by (pose proof (Z.pow_pos_nonneg 10 (blen m)); unfold blen in *; lia).
  rewrite version_digits by (done || nia). rewrite version_separator by (done || (cbn; lia)).
  rewrite version_digits by (done || nia). cbn [version_loop app length]. rewrite Hc2. cbn. by rewrite E.
Qed.

(** How large a backlog the kernel [M].[m] stores. *)
Definition kernel_limit (M m : Z) : Z :=
  if (4 <? M) || ((M =? 4) && (1 <=? m)) then 2 ^ 32 - 1 else 2 ^ 16 - 1.

(** On every kernel release but 4.0 the backlog is cut to what that kernel
    stores, 16 bits before 4.1 and 32 bits since; 4.0 is taken for a later one,
    because [kernelVersion] keeps the digits of the major number in the minor one
    (4.0 is read as 4.40, 4.19 as 4.419), and a backlog over 16 bits is passed on. *)
Lemma maxAckBacklog_release M m c1 c2 rest n :
  forallb is_digit M = true -> forallb is_digit m = true -> is_digit c1 = false -> is_digit c2 = false ->
  (length M + length m <= 18)%nat ->
  let rl := M ++ c1 :: m ++ c2 :: rest in
  kernelVersion (Some rl) = (dec_value M, dec_value (M ++ m)) /\
  ((dec_value M, dec_value m) <> (4, 0) ->
   maxAckBacklog (Some rl) n = Z.min n (kernel_limit (dec_value M) (dec_value m))) /\
  ((dec_value M, dec_value m) = (4, 0) ->
   kernel_limit (dec_value M) (dec_value m) = 2 ^ 16 - 1 /\ maxAckBacklog (Some rl) n = Z.min n (2 ^ 32 - 1)).
Proof.
  intros HM Hm Hc1 Hc2 Hl rl. pose proof (kernelVersion_release M m c1 c2 rest HM Hm Hc1 Hc2 Hl) as E.
  fold rl in E. split; [exact E|]. unfold maxAckBacklog. rewrite E. unfold kernel_limit.
  assert (dec_value (M ++ m) = dec_value M * 10 ^ blen m + dec_value m) as Ea by apply digits_value_app.
  pose proof (dec_value_range M HM). pose proof (dec_value_range m Hm).
  assert (1 <= 10 ^ blen m) by (pose proof (Z.pow_pos_nonneg 10 (blen m)); unfold blen in *; lia).
  split.
  - intros Hne. destruct (Z.ltb_spec 4 (dec_value M)); cbn [orb].
    { change (Z.shiftl 1 32 - 1) with (2 ^ 32 - 1). destruct (Z.ltb_spec (2 ^ 32 - 1) n); lia. }
    destruct (Z.eqb_spec (dec_value M) 4) as [E4|]; cbn [andb].
    + destruct (Z.leb_spec 1 (dec_value m)); [|destruct Hne; f_equal; lia].
      destruct (Z.leb_spec 1 (dec_value (M ++ m))); [|nia].
      change (Z.shiftl 1 32 - 1) with (2 ^ 32 - 1). destruct (Z.ltb_spec (2 ^ 32 - 1) n); lia.
    + change (Z.shiftl 1 16 - 1) with (2 ^ 16 - 1). destruct (Z.ltb_spec (2 ^ 16 - 1) n); lia.
  - intros [= E4 E0]. rewrite E4, E0 in *. split; [done|]. cbn [Z.ltb Z.compare Pos.compare Pos.compare_cont Z.eqb Pos.eqb orb andb].
    destruct (Z.leb_spec 1 (dec_value (M ++ m))); [|nia].
    change (Z.shiftl 1 32 - 1) with (2 ^ 32 - 1). destruct (Z.ltb_spec (2 ^ 32 - 1) n); lia.
Qed.

Lemma maxAckBacklog_release_4_0 :
  kernelVersion (Some (bs "4.0.9-generic")) = (4, 40) /\
  maxAckBacklog (Some (bs "4.0.9-generic")) 100000 = 100000 /\ kernel_limit 4 0 = 65535.
Proof.
  pose proof (maxAckBacklog_release (bs "4") (bs "0") "."%byte "."%byte (bs "9-generic") 100000
    eq_refl eq_refl eq_refl eq_refl ltac:(cbn; lia)) as (H1 & _ & H2).
  split; [exact H1|]. destruct (H2 eq_refl) as [H3 H4]. split; [exact H4 | exact H3].
Defined.

(** The backlog of the system, from the text of somaxconn and the release of the
    kernel: the number of the file, cut to what the kernel stores.  The release is
    a major and a minor number of together at most 18 digits, each ended by some
    other byte (the array that uname fills in is padded with zero bytes); without a
    release the number is cut to 16 bits.  The exception for 4.0 is not what the
    kernel stores but what the code does. *)
Definition system_backlog `{Unix} (file : readFile) (uname : option bytes) (backlog : Z) : Prop :=
  match file with
  | NotExist => backlog = SOMAXCONN
  | ReadFails _ => False
  | Contents data =>
      exists n, Atoi (TrimSpace data) = Some n /\ 0 < n /\
        (n <= 2 ^ 16 - 1 -> backlog = n) /\
        (uname = None -> backlog = Z.min n (2 ^ 16 - 1)) /\
        forall M m c1 c2 rest, uname = Some (M ++ c1 :: m ++ c2 :: rest) ->
          forallb is_digit M = true -> forallb is_digit m = true -> is_digit c1 = false -> is_digit c2 = false ->
          (length M + length m <= 18)%nat ->
          backlog = Z.min n (if bool_decide ((dec_value M, dec_value m) = (4, 0)) then 2 ^ 32 - 1
                             else kernel_limit (dec_value M) (dec_value m))
  end.

Lemma kernel_limit_least M m : 2 ^ 16 - 1 <= kernel_limit M m.
Proof. unfold kernel_limit. case_match; lia. Qed.

Lemma soMaxConn_linux_backlog `{Unix} file uname w n w' :
  soMaxConn_linux file uname w = (inl n, w') -> w' = w /\ system_backlog file uname n.
Proof.
  unfold soMaxConn_linux, system_backlog. destruct file as [data| |e]; cbn; [|by intros [= <- <-] | done].
  destruct (Atoi _) as [k|]; [|done]. destruct (Z.leb_spec k 0); [done|]. intros [= <- <-]. split; [done|].
  exists k. split; [done|]. split; [done|]. change (Z.shiftl 1 16) with (2 ^ 16).
  destruct (Z.ltb_spec (2 ^ 16 - 1) k) as [Hl|Hl]; split_and!; try (intros; lia).
  - intros ->. unfold maxAckBacklog. cbn [kernelVersion]. change (Z.shiftl 1 _ - 1) with (2 ^ 16 - 1).
    destruct (Z.ltb_spec (2 ^ 16 - 1) k); lia.
  - intros M m c1 c2 rest -> HM Hm H1 H2 Hlen.
    destruct (maxAckBacklog_release M m c1 c2 rest k HM Hm H1 H2 Hlen) as (_ & Hne & He).
    case_bool_decide; [by apply He | by apply Hne].
  - intros M m c1 c2 rest _ _ _ _ _ _. pose proof (kernel_limit_least (dec_value M) (dec_value m)). case_bool_decide; lia.
Qed.

Section Linux.
Context `{Unix} (file : readFile) (uname : option bytes).
#[local] Existing Instance linux.

(** The calls that set up the descriptor [fd]. *)
Definition setup_calls (cfg : Config) (fd : Z) (sa : Sockaddr) (backlog : Z) : list call :=
  [SetsockoptInt fd SOL_SOCKET SO_REUSEADDR 1; SetsockoptInt fd IPPROTO_TCP TCP_NODELAY 1] ++
  opt (ReusePort cfg) (SetsockoptInt fd SOL_SOCKET 15 1) ++
  opt (DeferAccept cfg) (SetsockoptInt fd IPPROTO_TCP TCP_DEFER_ACCEPT 1) ++
  opt (FastOpen cfg) (SetsockoptInt fd SOL_TCP 23 16384) ++ [Bind fd sa; Listen fd backlog].

(** The calls that open it, with the fallback for old kernels. *)
Definition socket_calls (soType fd : Z) (l : list call) : Prop :=
  let typ := Z.lor (Z.lor SOCK_STREAM SOCK_NONBLOCK) SOCK_CLOEXEC in
  l = [Socket soType typ IPPROTO_TCP] \/
  l = [Socket soType typ IPPROTO_TCP; Socket soType SOCK_STREAM IPPROTO_TCP; CloseOnExec fd; SetNonblock fd].

(** The backlog: the configured one, or the system's. *)
Definition backlog_of (cfg : Config) (backlog : Z) : Prop :=
  if Backlog cfg <=? 0 then system_backlog file uname backlog else backlog = Backlog cfg.

Lemma fdSetup_calls cfg fd sa w u w' :
  fdSetup (plat := linux file uname) cfg fd sa w = (inl u, w') ->
  exists backlog, w_log w' = w_log w ++ setup_calls cfg fd sa backlog /\ backlog_of cfg backlog.
Proof.
  unfold fdSetup. intros (? & w1 & H1%wrapped_inl%invoke_inl & E)%sys_bind_inl.
  apply sys_bind_inl in E as (? & w2 & H2%wrapped_inl%invoke_inl & E).
  apply sys_bind_inl in E as (? & w3 & H3%on_inl & E). apply sys_bind_inl in E as (? & w4 & H4%on_inl & E).
  apply sys_bind_inl in E as (? & w5 & H5%on_inl & E). apply sys_bind_inl in E as (? & w6 & H6%wrapped_inl%invoke_inl & E).
  apply sys_bind_inl in E as (backlog & w7 & H7 & H8%wrapped_inl%invoke_inl). exists backlog.
  assert (w7 = w6 /\ backlog_of cfg backlog) as [-> Hb].
  { unfold backlog_of. destruct (Backlog cfg <=? 0); [by apply wrapped_inl, soMaxConn_linux_backlog in H7|].
    injection H7 as <- <-. done. }
  split; [|done]. rewrite H8, H6, H5, H4, H3, H2, H1. unfold setup_calls. by rewrite <- !app_assoc.
Qed.

Lemma newSocket_calls soType w fd w' :
  newSocketCloexec_other soType SOCK_STREAM IPPROTO_TCP w = (inl fd, w') ->
  exists l, w_log w' = w_log w ++ l /\ socket_calls soType fd l.
Proof.
  unfold newSocketCloexec_other, try at 1.
  destruct (opening _ w) as [[x|e] w1] eqn:Eo.
  { intros [= <- <-]. apply opening_inl in Eo. eexists. split; [exact Eo | by left]. }
  assert (w_log w1 = w_log w ++ [Socket soType (Z.lor (Z.lor SOCK_STREAM SOCK_NONBLOCK) SOCK_CLOEXEC) IPPROTO_TCP]) as H1.
  { unfold opening in Eo. destruct (w_answer w _); [|done]. by injection Eo as _ <-. }
  intros E. assert (newSocketCloexecOld soType SOCK_STREAM IPPROTO_TCP w1 = (inl fd, w')) as Eold
    by (destruct e as [[]| |]; done).
  apply try_inl in Eold as (x & w2 & E1 & E2); [|done].
  apply sys_bind_inl in E1 as (y & w3 & H2%opening_inl & E1). apply sys_bind_inl in E1 as (u & w4 & E3 & [= <- <-]).
  apply try_inl in E2 as (? & w5 & H5%invoke_inl & [= <- <-]); [|intros; apply give_up_fails].
  assert (w_log w4 = w_log w3 ++ [CloseOnExec y]) as H4.
  { unfold ignoring, try, invoke in E3. by injection E3 as _ <-. }
  eexists. split; [|by right]. rewrite H5, H4, H2, H1. by rewrite <- !app_assoc.
Qed.
End Linux.

(** C28. On Linux a listener that is returned was set up completely and in order:
    the socket was opened non-blocking and close-on-exec, address reuse and
    TCP_NODELAY were set, then exactly the configured options, then it was bound
    to the resolved address and made to listen; after that only the duplicate for
    the listener was made and the original closed. The backlog is the configured
    one; if none is configured, [SOMAXCONN] when there is no somaxconn file, and
    else the positive number in it: as it is when it fits 16 bits; cut to 16 bits
    when uname fails; and for a release that starts with a major and a minor
    number (at most 18 digits together, each followed by another byte) cut to
    what the comment in the code says the kernel stores, 16 bits before 4.1 and
    32 bits from 4.1 on -- except for release 4.0, which the code takes for a
    later one and where it cuts to 32 bits only. *)
Theorem NewListener_linux_calls `{Unix} file uname Resolve Interface cfg network addr w ln w' :
  NewListener (plat := linux file uname) Resolve Interface cfg network addr w = (inl ln, w') ->
  exists sa soType fd pre backlog,
    getSockaddr Resolve Interface network addr = inl (sa, soType) /\
    w_log w' = w_log w ++ pre ++ setup_calls cfg fd sa backlog ++ [FileListener fd; Close fd] /\
    socket_calls soType fd pre /\ backlog_of file uname cfg backlog.
Proof.
  unfold NewListener. destruct (getSockaddr _ _ _ _) as [[sa soType]|e]; [|done].
  intros (fd & w1 & (pre & H1 & Hpre)%newSocket_calls & E)%sys_bind_inl.
  apply try_inl in E as (? & w2 & (backlog & H2 & Hb)%fdSetup_calls & E); [|intros; apply give_up_fails].
  apply try_inl in E as (dup & w3 & H3%opening_inl & E); [|intros; apply give_up_fails].
  apply try_inl in E as (? & w4 & H4%closing_inl & [= <- <-]); [|intros; apply give_up_fails].
  exists sa, soType, fd, pre, backlog. split_and!; [done | | done | done].
  rewrite H4, H3, H2, H1. by rewrite <- !app_assoc.
Qed.

Lemma NewListener_linux_calls_witness :
  let resolve _ _ := inl (mkTCPAddr [] 8080 []) in
  let w := mkWorld ∅ [] (fun _ => None) in
  let file := Contents (bs "70000" ++ [LF]) in
  let uname := Some (bs "3.10.0-1160" ++ [x00]) in
  let cfg := mkConfig true false true 0 in
  let r := NewListener (plat := linux file uname) resolve (fun _ => inl 1) cfg (bs "tcp") (bs ":8080") w in
  exists sa soType fd pre backlog,
    getSockaddr resolve (fun _ => inl 1) (bs "tcp") (bs ":8080") = inl (sa, soType) /\
    w_log (snd r) = pre ++ setup_calls cfg fd sa backlog ++ [FileListener fd; Close fd] /\
    socket_calls soType fd pre /\ backlog = 65535.
Proof.
  intros resolve w file uname cfg r.
  destruct (NewListener_linux_calls file uname resolve (fun _ => inl 1) cfg (bs "tcp") (bs ":8080")
    w (match fst r with inl ln => ln | inr _ => 0 end) (snd r)) as (sa & soType & fd & pre & backlog & H1 & H2 & H3 & H4).
  { vm_compute. reflexivity. }
  exists sa, soType, fd, pre, backlog. split_and!; [exact H1 | exact H2 | exact H3 |].
  destruct H4 as (n & Hn & _ & _ & _ & Hr). vm_compute in Hn. injection Hn as <-.
  exact (Hr (bs "3") (bs "10") "."%byte "."%byte (bs "0-1160" ++ [x00]) eq_refl eq_refl eq_refl eq_refl eq_refl ltac:(cbn; lia)).
Defined.

(** ** Bounds of the backlog *)

(** The backlog of the system is positive and, unless the constant is used, at most
    what was configured. *)
Lemma soMaxConn_linux_bounds `{Unix} file uname w n w' :
  0 < SOMAXCONN -> soMaxConn_linux file uname w = (inl n, w') ->
  0 < n /\ match file with
           | Contents data => exists configured, Atoi (TrimSpace data) = Some configured /\ n <= configured /\ n < 2 ^ 32
           | _ => n = SOMAXCONN
           end.
Proof.
  intros Hs. unfold soMaxConn_linux. destruct file as [data| |e]; cbn; [|by intros [= <- <-] | done].
  destruct (Atoi _) as [m|]; [|done]. destruct (Z.leb_spec m 0); [done|]. intros [= <- <-].
  assert (forall k, 2 ^ 16 - 1 < k -> 0 < maxAckBacklog uname k <= k /\ maxAckBacklog uname k < 2 ^ 32) as Hm.
  { intros k Hk. unfold maxAckBacklog. destruct (kernelVersion uname) as [ma mi].
    destruct ((4 <? ma) || _); [change (Z.shiftl 1 32) with (2 ^ 32) | change (Z.shiftl 1 16) with (2 ^ 16)];
      case_match; blia. }
  change (Z.shiftl 1 16) with (2 ^ 16). destruct (Z.ltb_spec (2 ^ 16 - 1) m) as [Hl|Hl].
  - destruct (Hm m Hl). split; [lia|]. exists m. split; [done|]. lia.
  - split; [lia|]. exists m. split; [done|]. lia.
Qed.

(** ** The address *)

Lemma copy_array_full n src : length src = n -> copy_array n src = src.
Proof. intros <-. unfold copy_array. by rewrite firstn_all, Nat.sub_diag, app_nil_r. Qed.

Lemma zone_id_range Interface zone z :
  zone_id Interface zone = inl z -> 0 <= z < 2 ^ 32 /\ (zone = [] -> z = 0) /\ (zone <> [] -> Interface zone = inl z).
Proof.
  unfold zone_id. case_bool_decide; [intros [= <-]; done|]. destruct (Interface zone) as [i|]; [|done].
  unfold safeIntToUint32. destruct (Z.ltb_spec i 0); [done|]. destruct (Z.ltb_spec (2 ^ 32 - 1) i); [done|].
  intros [= <-]. rewrite Z.mod_small by lia. split; [lia|]. split; [done|]. done.
Qed.

(** The socket is bound to the address that was resolved: its port and its IP
    address, in 4 bytes for tcp4 and in 16 bytes (IPv4 addresses mapped) for tcp6
    and tcp, with no address standing for the unspecified one; the zone is the
    index of its interface when that fits 32 bits, and an error otherwise; other
    networks are refused. *)
Theorem getSockaddr_correct `{Unix} Resolve Interface network addr a :
  Resolve network addr = inl a -> (IP a = [] \/ length (IP a) = 4%nat \/ length (IP a) = 16%nat) ->
  match getSockaddr Resolve Interface network addr with
  | inl (SockaddrInet4 port ip, ty) =>
      network = bs "tcp4" /\ ty = AF_INET /\ port = Port a /\ length ip = 4%nat /\
      (To4 (IP a) <> [] -> ip = To4 (IP a)) /\ (IP a = [] -> ip = replicate 4 x00)
  | inl (SockaddrInet6 port zone ip, ty) =>
      (network = bs "tcp6" \/ network = bs "tcp") /\ ty = AF_INET6 /\ port = Port a /\ length ip = 16%nat /\
      (IP a <> [] -> ip = To16 (IP a) /\ To4 ip = To4 (IP a)) /\
      (IP a = [] -> ip = if bool_decide (network = bs "tcp") then IPv4 x00 x00 x00 x00 else replicate 16 x00) /\
      0 <= zone < 2 ^ 32 /\ (Zone a = [] -> zone = 0) /\ (Zone a <> [] -> Interface (Zone a) = inl zone)
  | inr _ => network <> bs "tcp4" /\
      ((network = bs "tcp6" \/ network = bs "tcp") -> exists e, zone_id Interface (Zone a) = inr e)
  end.
Proof.
  intros Hr Hlen. unfold getSockaddr. rewrite Hr.
  assert (To16 (IP a) = [] /\ IP a = [] \/ length (To16 (IP a)) = 16%nat /\ To4 (To16 (IP a)) = To4 (IP a)) as H16.
  { unfold To16. destruct Hlen as [E|[E|E]]; [left; by rewrite E | right | right]; rewrite E; cbn [Nat.eqb].
    - split; [rewrite length_app, E; done|]. unfold To4. rewrite length_app, E. cbn [Nat.eqb]. done.
    - done. }
  case_bool_decide as E4.
  { split_and!; [done | done | done | | |].
    - unfold copy_array. rewrite length_app, length_take, length_replicate. lia.
    - intros Hn. apply copy_array_full. revert Hn. unfold To4.
      destruct Hlen as [->|[E|E]]; [done | by rewrite E |]. rewrite E. cbn [Nat.eqb].
      destruct (bool_decide _); [|done]. intros _. cbn [andb]. rewrite length_drop. lia.
    - intros ->. done. }
  assert (forall ip, length (To16 ip) = 16%nat -> copy_array 16 (To16 ip) = To16 ip) as Hcopy
    by (intros; by apply copy_array_full).
  case_bool_decide as E6; [|case_bool_decide as Et].
  - destruct (zone_id Interface (Zone a)) as [z|e] eqn:Ez; [|split; [done|]; intros _; eauto].
    apply zone_id_range in Ez as (Hz & Hz0 & Hz1). rewrite (bool_decide_false (network = bs "tcp")) by (by rewrite E6).
    destruct H16 as [[Ha Hb]|[Ha Hb]].
    + rewrite Ha, Hb. split_and!; try done; try lia. by left.
    + rewrite Hcopy by done. split_and!; try done; try lia; [by left|]. intros Hn. by rewrite Hn in Ha.
  - destruct (zone_id Interface (Zone a)) as [z|e] eqn:Ez; [|split; [done|]; intros _; eauto].
    apply zone_id_range in Ez as (Hz & Hz0 & Hz1).
    case_bool_decide as Ei.
    + split_and!; try done; try lia. by right.
    + destruct H16 as [[Ha Hb]|[Ha Hb]]; [done|]. rewrite Hcopy by done. split_and!; try done; try lia. by right.
  - split; [done|]. by intros [?|?].
Qed.

Lemma getSockaddr_correct_witness :
  getSockaddr (fun _ _ => inl (mkTCPAddr [x7f; x00; x00; x01] 80 (bs "eth0"))) (fun _ => inl 7) (bs "tcp") (bs "localhost:80")
  = inl (SockaddrInet6 80 7 (IPv4 x7f x00 x00 x01), 10) /\ To4 (IPv4 x7f x00 x00 x01) = [x7f; x00; x00; x01].
Proof.
  pose proof (getSockaddr_correct (fun _ _ => inl (mkTCPAddr [x7f; x00; x00; x01] 80 (bs "eth0"))) (fun _ => inl 7)
    (bs "tcp") (bs "localhost:80") _ eq_refl (or_intror (or_introl eq_refl))) as Hg.
  split; [vm_compute; reflexivity|]. destruct Hg as (_ & _ & _ & _ & Hg & _). destruct Hg as [Ha Hb]; [done|].
  vm_compute in Hb |- *. exact Hb.
Defined.
