(* ===== verification/ServerRun.v ===== *)
(** * Starting and stopping the server (server/server.go: Serve, Shutdown)

    [Serve] configures netpoll, makes the listener of [Tcplisten], and hands it to
    an event loop with the callbacks of [Server].  What netpoll answers is an
    argument; it makes no calls that open or close descriptors before the event
    loop runs. *)

From stdpp Require Import sets.
From S2P Require Import Prelude Server Tcplisten TcplistenSpec.

Definition defaultListenConfig : Config := mkConfig true true true 0.

(** netpoll, as far as [Serve] uses it: listeners and event loops are known by
    their identity; [None] is no error. *)
Record netpoll : Type := mkNetpoll {
  np_Configure : Z -> Z -> option lerr;
  np_ConvertListener : Z -> Z + lerr;
  np_NewEventLoop : Z -> Z + lerr;
  np_Serve : Z -> Z -> option lerr;
  np_Shutdown : Z -> option lerr }.

(** The server and the event loop it runs. *)
Record running : Type := mkRunning { rn_server : Server; rn_eventLoop : option Z }.

Section Serve.
Context `{Unix} {plat : Platform} (np : netpoll).
Context (ResolveTCPAddr : bytes -> bytes -> TCPAddr + lerr) (InterfaceByName : bytes -> Z + lerr).

Definition lifted {A} (r : A + lerr) : sys A := fun w => (r, w).

(** [Serve] up to the call that runs the event loop: the server with its event
    loop, and the listener it serves. *)
Definition prepare (s : Server) (addr : bytes) : sys (running * Z) :=
  _ ← lifted (match np_Configure np (sv_pollerNum s) (sv_bufferSize s) with Some e => inr e | None => inl tt end);
  l ← NewListener ResolveTCPAddr InterfaceByName defaultListenConfig (bs "tcp") addr;
  listener ← lifted (np_ConvertListener np l);
  eventLoop ← lifted (np_NewEventLoop np (sv_keepAliveTimeout s));
  mret (mkRunning s (Some eventLoop), listener).

Definition Serve (s : Server) (addr : bytes) : sys running :=
  '(rn, listener) ← prepare s addr;
  match np_Serve np (default 0 (rn_eventLoop rn)) listener with
  | Some e => fail e
  | None => mret rn
  end.

(** [Shutdown] of a server that was not started does nothing. *)
Definition Shutdown (rn : running) : option lerr :=
  match rn_eventLoop rn with None => None | Some loop => np_Shutdown np loop end.
End Serve.

(** ** What is open when Serve gives up *)

(** The listener was made and netpoll did not take it. *)
Definition not_taken (np : netpoll) (s : Server) (ln : Z) : Prop :=
  (exists e, np_ConvertListener np ln = inr e) \/ (exists e, np_NewEventLoop np (sv_keepAliveTimeout s) = inr e).

(** When [Serve] returns before its event loop runs, nothing stays open if
    netpoll could not be configured or the listener could not be made; but a
    listener that was made stays open when netpoll does not take it or the event
    loop cannot be created: no path closes it. *)
Theorem Serve_listener_left_open `{Unix} {plat : Platform} np Resolve Interface s addr w :
  PlatformLaws plat ->
  match prepare np Resolve Interface s addr w with
  | (inl (rn, listener), w') =>
      exists ln, (ln ∉ w_open w) /\ w_open w' = {[ln]} ∪ w_open w /\ np_ConvertListener np ln = inl listener /\
        is_Some (rn_eventLoop rn)
  | (inr _, w') =>
      w_open w' = w_open w \/
      exists ln, (ln ∉ w_open w) /\ w_open w' = {[ln]} ∪ w_open w /\ not_taken np s ln
  end.
Proof.
  intros Hl. unfold prepare, mbind, sys_bind, lifted.
  destruct (np_Configure np _ _); [by left|].
  pose proof (NewListener_opens (P := plat) Resolve Interface defaultListenConfig (bs "tcp") addr _ w eq_refl) as Ho.
  destruct (NewListener _ _ _ _ _ w) as [[ln|e] w1]; [|by left]. destruct Ho as [Hf Ho].
  destruct (np_ConvertListener np ln) as [l|e] eqn:Ec.
  - destruct (np_NewEventLoop np (sv_keepAliveTimeout s)) as [loop|e] eqn:En.
    + exists ln. split_and!; [done | done | done | by eexists].
    + right. exists ln. split_and!; [done | done | right; eauto].
  - right. exists ln. split_and!; [done | done | left; eauto].
Qed.

Lemma Serve_listener_left_open_witness :
  let np := mkNetpoll (fun _ _ => None) (fun _ => inr (Message (bs "unsupported listener"))) (fun _ => inl 1)
    (fun _ _ => None) (fun _ => None) in
  let w := mkWorld ∅ [] (fun _ => None) in
  let r := prepare (plat := bsd) np (fun _ _ => inl (mkTCPAddr [] 80 [])) (fun _ => inl 1) (NewServer 8 []) (bs ":80") w in
  (exists e, fst r = inr e) /\ w_open (snd r) <> ∅ /\
  exists ln, (ln ∉ w_open w) /\ w_open (snd r) = {[ln]} ∪ w_open w /\ not_taken np (NewServer 8 []) ln.
Proof.
  intros np w r.
  assert (exists e, fst r = inr e) as [e He] by (eexists; vm_compute; reflexivity).
  assert (bool_decide (w_open (snd r) = ∅) = false) as Hne%bool_decide_eq_false by (vm_compute; reflexivity).
  split; [eauto|]. split; [done|].
  pose proof (Serve_listener_left_open (plat := bsd) np (fun _ _ => inl (mkTCPAddr [] 80 [])) (fun _ => inl 1)
    (NewServer 8 []) (bs ":80") w bsd_laws) as Ht.
  change (prepare _ _ _ _ _ w) with r in Ht. destruct r as [[x|e'] w']; [done|]. cbn in *.
  destruct Ht as [Ht|Ht]; [congruence | exact Ht].
Defined.
